(* ===== verification/_CoqProject ===== *)
-Q . S2P
Prelude.v
Types.v
Framing.v
Crypto.v
Proto.v
Env.v
Channel.v
Session.v
Noise.v
Connection.v
ConnectionSafe.v
ConnectionAbp.v
ConnectionExchange.v
BringUp.v
MockDevice.v
Text.v
Bip32.v
ChainProto.v
Host.v
HostSim.v
Ethereum.v
Solana.v
Tron.v
Primality.v
Field25519.v
FieldSpec.v
Elligator2.v
Curve25519.v
Cpace.v
Pairing.v
Bitcoin.v
OverPackets.v
Client.v
ClientPinned.v
AnyDevice.v
Interaction.v
Replay.v
Concurrent.v
Cancellation.v
EndToEnd.v
ClientService.v
SourceTests.v
PrimitiveTests.v
MessageTypes.v
