(* ===== verification/Prelude.v ===== *)
(** * A verification library for trezor-core

    The crate under src/trezor-core/src drives a Trezor over the Trezor Host Protocol (THP):
    a foreign [TrezorTransport] moves fixed-size reports, the crate frames them, allocates a
    channel, runs a Noise handshake, pairs with a six-digit code, and carries sealed
    protobuf requests for four chains; [TrezorClient] keeps one such connection pinned
    between calls. This library translates that code definition by definition and proves
    what makes it correct. The present file holds what every component shares: the outcome
    of a Rust call, the state monad with its reasoning rules, list slices and indexing that
    panic out of range, machine-width bounds, big- and little-endian encodings.

    ** How the code is read

    A fallible call returns an [outcome]: [Ret], [Fail] (an [Err]), [Panic] (an [expect], an
    index or a slice out of range), [Pending] (an [await] that never completes) or [NoFuel].
    A method on [&mut self] that awaits the transport is a computation
    [Connection * W -> outcome * (Connection * W)]; the client adds the pinned slot. Each
    [.await] on the transport is one call of the class [Env] (Env.v), so every interleaving
    the device can produce is a sequence of answers of [Env]. A method of the client is one
    step on the slot and the transport; Concurrent.v proves that the mutex makes this so for
    calls whose futures are polled in any order. Bytes and fixed-width integers are [Z], with the
    wrap-around written where the code computes; strings are lists of code points.
    [NoFuel] says only that the bound given to a loop of the model was too small: a loop of
    the code that reads until the device answers takes a number [fuel], and AnyDevice.v
    proves that one more than the reports available is always enough.

    ** The files and the code they model

    - Types.v: error.rs, types.rs, transport.rs (errors, conversions, public records).
    - Framing.v: thp/framing.rs (control bytes, CRC-32, [segment], the [Reassembler]).
    - Crypto.v: thp/aead.rs over the class [Crypto] of the foreign primitives and its laws.
    - Proto.v, ChainProto.v: the messages of the vendored .proto files the code uses, with
      an abstract codec per message.
    - Env.v: the foreign transport, code provider and generator; [Script], a device given
      by the reports it sends.
    - Channel.v: thp/channel.rs. Session.v: thp/session.rs. Noise.v: thp/noise.rs with the
      responder of its tests.
    - Connection.v: thp/connection.rs, the driver. ConnectionSafe.v: it withstands any
      reports. ConnectionAbp.v, ConnectionExchange.v, BringUp.v: against a device that
      follows the protocol. MockDevice.v: the mock devices of its tests as environments.
    - Text.v, Bip32.v: the string operations of the standard library and bip32.rs.
    - Host.v: the interface [transceive], [transceive_on], randomness, code prompt that
      pairing and the chains are written against. HostSim.v: the driver refines it.
    - Ethereum.v, Solana.v, Tron.v, Bitcoin.v: chains/*.rs. Pairing.v: thp/pairing.rs.
    - Primality.v, Field25519.v, FieldSpec.v, Elligator2.v, Curve25519.v: thp/elligator2.rs,
      from machine limbs to points of the curve. Cpace.v: thp/cpace.rs.
    - Client.v: client.rs. ClientPinned.v: the pinned slot. AnyDevice.v, Cancellation.v,
      EndToEnd.v: whole calls. ClientService.v: whole histories of calls. OverPackets.v: whole
      operations over packets.
    - Interaction.v: every operation of the crate as a tree of its calls on the environment.
      Replay.v: what holds over every script holds over any transport, one whose generator
      fails or whose calls panic or never complete included. Concurrent.v: calls of one client
      at the same time, as steps over a shared transport and the mutex of the slot.
    - SourceTests.v, PrimitiveTests.v: the unit tests of the crate, run on these
      definitions; those that call foreign code pass for every lawful implementation or are
      run on the concrete one. MessageTypes.v: the message numbers of proto/messages.proto
      and messages-thp.proto, and those written out in the code.

    Definitions keep the names of the source; where one function of the source is several
    definitions (a loop, a branch), each is named after what it does.

    ** What the theorems show

    - Whole histories. Against a device that follows the specification the client refines a
      wallet service: for any calls on any wallets it opens a connection for the wallet when
      it has none, answers each call with what the operation makes of the device's answers,
      and closes on an error ([ClientService.client_refines_service]).
    - Whole calls. A device that follows the specification brings
      [establish_paired_session] to its result over packets, pairing or not
      ([EndToEnd.establish_paired_session_completes]); a method called on an empty or
      foreign slot opens, seeds and uses a connection exactly as the device's answers say
      ([EndToEnd.client_method_over_packets]); over any reports of the device no
      method panics, hangs on available input or leaves a malformed connection (AnyDevice), and
      over any transport the same holds but for one case, a panic when the generator fails or
      a foreign call panics ([Replay.client_withstands_any_transport]).
    - Concurrent calls. Any interleaving of the methods that take the mutex is one of their
      sequential runs, cancelled calls included ([Concurrent.mutex_serialises_calls]); with
      the probe and the pairing call, which take none, mixed in, no interleaving spoils the
      slot, deadlocks, or panics unless the generator or the transport has failed it so
      ([Concurrent.no_interleaving_panics]).
    - Layers. Frames survive segmentation and reassembly and corrupted bursts are refused
      (Framing); the driver delivers each frame once and accepts early replies
      (ConnectionAbp); the sealed channel is a pair of FIFO queues whose IVs never repeat
      (Session); both ends of the handshake agree on keys (Noise, BringUp, MockDevice); an
      exchange returns the device's answer through any button requests
      (ConnectionExchange); every operation of pairing and the chains has over packets the
      outcome it has on answers (OverPackets).
    - Arithmetic. The limb code computes in GF(2^255 - 19) without a wrap and is the
      Elligator2 map (Elligator2); its images are on the curve, its inversion inverts
      (Curve25519), the field being a field by a Pocklington chain (Primality).
    - Chains. Envelope decoding inverts encoding and accepts exactly the envelopes; the
      request carries every field of the transaction but its access list, which the code drops
      (Ethereum); what is signed is what was asked (Solana, Tron); PSBT streaming answers from the PSBT only,
      hands out authentic previous transactions and merges exactly the last signatures
      (Bitcoin); paths and pairing codes round trip (Bip32, Cpace).
    - The slot. A caller is never served on another wallet's connection, the errors of
      operations empty the slot while those raised before or after one leave it
      ([ClientPinned.errors_empty_the_slot]), the slot's invariant holds in every history
      (ClientPinned); and the reply to a cancelled method is read by the next one
      (Cancellation).

    ** Assumptions

    [CryptoLaws]: lengths and byte ranges, Diffie-Hellman commutes, AES-GCM opens what it
    sealed. [MessageLaws]: decoding inverts encoding, encodings are bytes. Nothing is
    assumed about secrecy or collision resistance. The platform generator may fail: where the
    code expects it not to, the model panics ([random_bytes]); in a [Script] it fails when its
    bytes run out, and the theorems over scripts that conclude success supply them. [Transport]
    (Replay.v), of the theorems over any transport: reports and random bytes are bytes, a draw
    that succeeds fills its buffer, and two counters tell the reads answered and the faults (a
    draw that fails, a foreign call that panics). Every law has a concrete instance
    ([toy_crypto], the [toy_*_proto]) on which each theorem with hypotheses is instantiated.

    ** Not modelled

    proto.rs includes code generated at build time and prost does the encoding: the codecs
    are parameters. PSBT parsing and printing, transaction ids, addresses and DER belong to
    the bitcoin crate: the class [RustBitcoin]. lib.rs, chains/mod.rs, thp/mod.rs are module
    declarations (and an enumeration no code uses), bin/uniffi-bindgen.rs a one-line call.
    A user who never answers the code prompt is not modelled ([request_code] returns).
    Timing is outside the model, and so are two things about the executor that polls the
    futures: which ready call it picks (Concurrent.v allows any) and the fairness of the
    mutex. *)

From Stdlib Require Export ZArith Lia.
From stdpp Require Export base list numbers option strings pretty.

#[export] Set Default Goal Selector "!".

(** ** Outcomes of a Rust call

    [Ret a] is [Ok(a)] (or the plain result of an infallible function), [Fail e]
    is [Err(e)], [Panic] an index or slice out of range or a failed [expect],
    [Pending] an [await] that never completes, and [NoFuel] says only that the
    bound given to a loop of the model was too small. *)
Inductive outcome (E A : Type) : Type :=
  | Ret (a : A)
  | Fail (e : E)
  | Panic
  | Pending
  | NoFuel.
Arguments Ret {E A} a.
Arguments Fail {E A} e.
Arguments Panic {E A}.
Arguments Pending {E A}.
Arguments NoFuel {E A}.

#[export] Instance outcome_ret {E} : MRet (outcome E) := fun A a => Ret a.
#[export] Instance outcome_bind {E} : MBind (outcome E) := fun A B f m =>
  match m with
  | Ret a => f a
  | Fail e => Fail e
  | Panic => Panic
  | Pending => Pending
  | NoFuel => NoFuel
  end.

#[export] Instance outcome_fmap {E} : FMap (outcome E) := fun A B f m =>
  match m with
  | Ret a => Ret (f a)
  | Fail e => Fail e
  | Panic => Panic
  | Pending => Pending
  | NoFuel => NoFuel
  end.

Definition is_ret {E A} (o : outcome E A) : bool :=
  match o with Ret _ => true | _ => false end.

(** Rust's [Option::ok_or]. *)
Definition ok_or {E A} (e : E) (o : option A) : outcome E A :=
  match o with Some a => Ret a | None => Fail e end.

(** Rust's [Result::map_err] on a decoder that reports its own error. *)
Definition map_err {E E' A} (f : E' -> E) (r : E' + A) : outcome E A :=
  match r with inr a => Ret a | inl e => Fail (f e) end.

(** A [Result] that a foreign callback returned. *)
Definition of_result {E A} (r : E + A) : outcome E A :=
  match r with inr a => Ret a | inl e => Fail e end.

(** The [?] operator: an error is converted with [From]. *)
Definition err_into {E E' A} (f : E' -> E) (o : outcome E' A) : outcome E A :=
  match o with
  | Ret a => Ret a
  | Fail e => Fail (f e)
  | Panic => Panic
  | Pending => Pending
  | NoFuel => NoFuel
  end.

(** ** Stateful computations

    A call on [&mut self]: the state after the call is kept on every outcome,
    because a Rust method that returns [Err] keeps the writes it made. *)
Definition ST (S E A : Type) : Type := S -> outcome E A * S.

#[export] Instance st_ret {S E} : MRet (ST S E) := fun A a s => (Ret a, s).
#[export] Instance st_bind {S E} : MBind (ST S E) := fun A B f m s =>
  match m s with
  | (Ret a, s') => f a s'
  | (Fail e, s') => (Fail e, s')
  | (Panic, s') => (Panic, s')
  | (Pending, s') => (Pending, s')
  | (NoFuel, s') => (NoFuel, s')
  end.

Definition lift {S E A} (o : outcome E A) : ST S E A := fun s => (o, s).
Definition get_st {S E} : ST S E S := fun s => (Ret s, s).
Definition put_st {S E} (s' : S) : ST S E unit := fun _ => (Ret tt, s').
Definition modify_st {S E} (f : S -> S) : ST S E unit := fun s => (Ret tt, f s).

Section StLemmas.
Context {S E A B : Type}.
Implicit Types (m : ST S E A) (f : A -> ST S E B) (s : S).

Lemma st_bind_ret m f s a s' :
  m s = (Ret a, s') -> (m ≫= f) s = f a s'.
Proof. intros H. unfold mbind, st_bind. by rewrite H. Qed.

Lemma st_bind_fail m f s e s' :
  m s = (Fail e, s') -> (m ≫= f) s = (Fail e, s').
Proof. intros H. unfold mbind, st_bind. by rewrite H. Qed.

Lemma st_bind_inv m f s b s'' :
  (m ≫= f) s = (Ret b, s'') ->
  exists a s', m s = (Ret a, s') /\ f a s' = (Ret b, s'').
Proof.
  unfold mbind, st_bind. intros H.
  destruct (m s) as [[a|e| | |] s'] eqn:Hm; try discriminate. eauto.
Qed.
End StLemmas.

(** ** Machine integers *)
Definition u8_mod : Z := 256.
Definition u16_mod : Z := 65536.
Definition u32_mod : Z := 4294967296.
Definition u64_mod : Z := 18446744073709551616.

Definition is_byte (b : Z) : Prop := (0 <= b < 256)%Z.
Definition bytes_ok (l : list Z) : Prop := Forall is_byte l.

(** [n] little-endian bytes of [z]; [to_be_bytes] of the unsigned types is its
    reverse, [from_be_bytes] the value of a big-endian byte string. *)
Fixpoint le_bytes (n : nat) (z : Z) : list Z :=
  match n with
  | O => []
  | S n' => (z mod 256)%Z :: le_bytes n' (z / 256)%Z
  end.
Definition be_bytes (n : nat) (z : Z) : list Z := reverse (le_bytes n z).
Definition from_be (l : list Z) : Z := foldl (fun acc b => acc * 256 + b)%Z 0%Z l.
Definition from_le (l : list Z) : Z := foldr (fun b acc => b + 256 * acc)%Z 0%Z l.

Lemma length_le_bytes n z : length (le_bytes n z) = n.
Proof. revert z. induction n as [|n IH]; intros z; simpl; auto. Qed.

Lemma length_be_bytes n z : length (be_bytes n z) = n.
Proof. unfold be_bytes. by rewrite length_reverse, length_le_bytes. Qed.

Lemma le_bytes_ok n z : bytes_ok (le_bytes n z).
Proof.
  revert z. induction n as [|n IH]; intros z; simpl; constructor; [|apply IH].
  unfold is_byte. apply Z.mod_pos_bound. lia.
Qed.

Lemma be_bytes_ok n z : bytes_ok (be_bytes n z).
Proof. apply Forall_reverse, le_bytes_ok. Qed.

Lemma from_be_app l1 l2 :
  from_be (l1 ++ l2) = (from_be l1 * 256 ^ Z.of_nat (length l2) + from_be l2)%Z.
Proof.
  unfold from_be. rewrite foldl_app. generalize (foldl (λ acc b, (acc * 256 + b)%Z) 0%Z l1).
  induction l2 as [|b l2 IH] using rev_ind; intros z.
  - simpl. lia.
  - rewrite !foldl_app, length_app. simpl. rewrite IH.
    rewrite Nat2Z.inj_add, Z.pow_add_r by lia. simpl. lia.
Qed.

Lemma from_be_reverse l : from_be (reverse l) = from_le l.
Proof.
  induction l as [|b l IH]; [done|].
  rewrite reverse_cons. unfold from_be in *. rewrite foldl_app, IH. simpl. lia.
Qed.

Lemma from_le_le_bytes n z : from_le (le_bytes n z) = (z mod 256 ^ Z.of_nat n)%Z.
Proof.
  revert z. induction n as [|n IH]; intros z.
  - simpl. by rewrite Z.mod_1_r.
  - cbn [le_bytes from_le foldr]. fold (from_le (le_bytes n (z / 256))). rewrite IH.
    rewrite Nat2Z.inj_succ, Z.pow_succ_r by lia.
    rewrite Z.rem_mul_r by lia. lia.
Qed.

Lemma from_be_be_bytes n z :
  (0 <= z < 256 ^ Z.of_nat n)%Z -> from_be (be_bytes n z) = z.
Proof.
  intros Hz. unfold be_bytes. rewrite from_be_reverse, from_le_le_bytes.
  by apply Z.mod_small.
Qed.

Lemma le_bytes_from_le l : bytes_ok l -> le_bytes (length l) (from_le l) = l.
Proof.
  induction 1 as [|b l Hb Hl IH]; simpl; [done|].
  unfold is_byte in Hb. f_equal.
  - rewrite (Z.mul_comm 256), Z.mod_add, Z.mod_small; lia.
  - rewrite (Z.mul_comm 256), Z.div_add, Z.div_small, Z.add_0_l by lia. done.
Qed.

Lemma from_le_bounds l :
  bytes_ok l -> (0 <= from_le l < 256 ^ Z.of_nat (length l))%Z.
Proof.
  induction 1 as [|b l Hb Hl IH]; [simpl; lia|].
  cbn [from_le foldr length]. fold (from_le l). unfold is_byte in Hb.
  rewrite Nat2Z.inj_succ, Z.pow_succ_r by lia. lia.
Qed.

Lemma from_be_bounds l :
  bytes_ok l -> (0 <= from_be l < 256 ^ Z.of_nat (length l))%Z.
Proof.
  intros Hl. rewrite <- (reverse_involutive l) at 1 2. rewrite from_be_reverse.
  rewrite <- (length_reverse l). apply from_le_bounds. by apply Forall_reverse.
Qed.

Lemma be_bytes_from_be l : bytes_ok l -> be_bytes (length l) (from_be l) = l.
Proof.
  intros Hl. unfold be_bytes.
  rewrite <- (reverse_involutive l) at 2. rewrite from_be_reverse.
  rewrite <- (length_reverse l), le_bytes_from_le; [apply reverse_involutive|].
  by apply Forall_reverse.
Qed.

Lemma be_bytes_inj n x y :
  (0 <= x < 256 ^ Z.of_nat n)%Z -> (0 <= y < 256 ^ Z.of_nat n)%Z ->
  be_bytes n x = be_bytes n y -> x = y.
Proof. intros Hx Hy H. rewrite <- (from_be_be_bytes n x), <- (from_be_be_bytes n y), H; done. Qed.

(** ** Slices and indexing, with the panics of Rust *)
Definition idx {E A} (l : list A) (i : nat) : outcome E A :=
  match l !! i with Some a => Ret a | None => Panic end.

(** [&l[i..j]] *)
Definition slice {E A} (l : list A) (i j : nat) : outcome E (list A) :=
  if (i <=? j) && (j <=? length l) then Ret (take (j - i) (drop i l)) else Panic.

(** [&l[i..]] *)
Definition slice_from {E A} (l : list A) (i : nat) : outcome E (list A) :=
  slice l i (length l).

(** [usize] subtraction. An underflow aborts a build with overflow checks and
    wraps in the others; it is a [Panic] here, so that a theorem excluding
    [Panic] excludes both. *)
Definition usize_sub {E} (a b : nat) : outcome E nat :=
  if b <=? a then Ret (a - b) else Panic.

Definition throw {S E A} (e : E) : ST S E A := lift (Fail e).

Lemma slice_ret {E A} (l : list A) i j :
  i <= j -> j <= length l -> @slice E A l i j = Ret (take (j - i) (drop i l)).
Proof.
  intros H1 H2. unfold slice.
  apply Nat.leb_le in H1, H2. by rewrite H1, H2.
Qed.

Lemma idx_ret {E A} (l : list A) i a : l !! i = Some a -> @idx E A l i = Ret a.
Proof. intros H. unfold idx. by rewrite H. Qed.

Lemma usize_sub_ret {E} a b : b <= a -> @usize_sub E a b = Ret (a - b).
Proof. intros H. unfold usize_sub. apply Nat.leb_le in H. by rewrite H. Qed.

Lemma outcome_bind_inv {E A B} (f : A -> outcome E B) (m : outcome E A) b :
  m ≫= f = Ret b -> exists a, m = Ret a /\ f a = Ret b.
Proof. destruct m; try discriminate. eauto. Qed.

(** ** List facts *)
Lemma take_drop_add {A} (l : list A) n m :
  take n l ++ take m (drop n l) = take (n + m) l.
Proof. revert l. induction n as [|n IH]; intros [|x l]; simpl; try done.
  - by rewrite take_nil.
  - f_equal. apply IH.
Qed.

Lemma resize_app {A} (n : nat) (x : A) l :
  length l <= n -> resize n x l = l ++ replicate (n - length l) x.
Proof. intros H. by apply resize_ge. Qed.

Lemma bytes_ok_app l1 l2 : bytes_ok (l1 ++ l2) <-> bytes_ok l1 /\ bytes_ok l2.
Proof. apply Forall_app. Qed.

Lemma bytes_ok_take n l : bytes_ok l -> bytes_ok (take n l).
Proof. apply Forall_take. Qed.

Lemma bytes_ok_drop n l : bytes_ok l -> bytes_ok (drop n l).
Proof. apply Forall_drop. Qed.

(** ** Automation *)
Create HintDb trezor discriminated.
Create Rewrite HintDb lens.
#[export] Hint Resolve le_bytes_ok be_bytes_ok bytes_ok_take bytes_ok_drop : trezor.
#[export] Hint Rewrite @length_app @length_reverse @length_take @length_drop
  @length_replicate length_le_bytes length_be_bytes : lens.

(** Normalise the lengths in the goal and finish with [lia]. *)
Ltac len := repeat (autorewrite with lens in *; simpl length in * ); try lia.

(** Reduce the binds of both monads on the constructors in the goal. *)
Ltac mred := cbv beta iota delta [mbind mret st_bind st_ret outcome_bind
  outcome_ret lift get_st put_st modify_st throw].

(** Split a conjunction of boolean tests in a hypothesis or the goal. *)
Ltac bool_cases :=
  repeat match goal with
  | H : context [if ?b then _ else _] |- _ => destruct b eqn:?
  | |- context [if ?b then _ else _] => destruct b eqn:?
  end.

(** ** Bit-level facts about bounded integers *)
Section Bits.
Local Open Scope Z_scope.

Lemma bits_bound a n :
  0 <= n -> 0 <= a -> (forall i, n <= i -> Z.testbit a i = false) -> a < 2 ^ n.
Proof.
  intros Hn Ha Hbits.
  assert (a = Z.land a (Z.ones n)) as ->.
  { apply Z.bits_inj'. intros i Hi. rewrite Z.land_spec.
    destruct (Z.lt_ge_cases i n) as [Hlt|Hge].
    - rewrite Z.ones_spec_low, andb_true_r by lia. done.
    - rewrite Hbits by done. done. }
  rewrite Z.land_ones by done. apply Z.mod_pos_bound. lia.
Qed.

Lemma bits_above a n i : 0 <= a < 2 ^ n -> n <= i -> Z.testbit a i = false.
Proof.
  intros Ha Hi. destruct (Z.lt_ge_cases n 0) as [Hn|Hn].
  { rewrite Z.pow_neg_r in Ha by done. lia. }
  rewrite <- (Z.mod_small a (2 ^ n)) by done. by apply Z.mod_pow2_bits_high.
Qed.

Lemma lxor_range n a b :
  0 <= n -> 0 <= a < 2 ^ n -> 0 <= b < 2 ^ n -> 0 <= Z.lxor a b < 2 ^ n.
Proof.
  intros Hn Ha Hb. assert (0 <= Z.lxor a b) by (apply Z.lxor_nonneg; lia).
  split; [done|]. apply bits_bound; [done..|].
  intros i Hi. by rewrite Z.lxor_spec, (bits_above a n), (bits_above b n).
Qed.

Lemma lxor_cancel_r a b c : Z.lxor a c = Z.lxor b c -> a = b.
Proof.
  intros H. rewrite <- (Z.lxor_0_r a), <- (Z.lxor_0_r b), <- (Z.lxor_nilpotent c).
  by rewrite <- !Z.lxor_assoc, H.
Qed.

Lemma lxor_cancel_l a b c : Z.lxor c a = Z.lxor c b -> a = b.
Proof. rewrite !(Z.lxor_comm c). apply lxor_cancel_r. Qed.

(** A byte below a shifted word: xor is addition. *)
Lemma lxor_shift_add b k w :
  0 <= k -> 0 <= b < 2 ^ k -> Z.lxor b (w * 2 ^ k) = b + w * 2 ^ k.
Proof.
  intros Hk Hb. rewrite <- Z.shiftl_mul_pow2 by done.
  symmetry. apply Z.add_nocarry_lxor.
  apply Z.bits_inj'. intros i Hi. rewrite Z.land_spec, Z.bits_0.
  destruct (Z.lt_ge_cases i k) as [Hlt|Hge].
  - by rewrite Z.shiftl_spec_low, andb_false_r.
  - by rewrite (bits_above b k).
Qed.

Lemma lor_shift_add b k w :
  0 <= k -> 0 <= b < 2 ^ k -> Z.lor (w * 2 ^ k) b = w * 2 ^ k + b.
Proof.
  intros Hk Hb. rewrite Z.lor_comm, Z.add_comm, <- lxor_shift_add by done.
  symmetry. apply Z.lxor_lor. apply Z.bits_inj'. intros i Hi.
  rewrite Z.land_spec, Z.bits_0. destruct (Z.lt_ge_cases i k) as [Hlt|Hge].
  - by rewrite Z.mul_pow2_bits_low, andb_false_r.
  - by rewrite (bits_above b k).
Qed.
End Bits.

(** ** More list facts *)
Lemma take_min_length {A} n (l : list A) : take (Nat.min n (length l)) l = take n l.
Proof.
  destruct (Nat.le_ge_cases n (length l)) as [H|H].
  - by rewrite Nat.min_l.
  - by rewrite Nat.min_r, !take_ge.
Qed.

Lemma length_2_inv {A} (l : list A) : length l = 2 -> exists a b, l = [a; b].
Proof. destruct l as [|a [|b [|]]]; simpl; try lia. eauto. Qed.

Lemma length_4_inv {A} (l : list A) : length l = 4 -> exists a b c d, l = [a; b; c; d].
Proof. destruct l as [|a [|b [|c [|d [|]]]]]; simpl; try lia. eauto 6. Qed.

(** ** Slices of a concatenation *)
Lemma slice_mid {E A} (a b c : list A) i j :
  i = length a -> j = length a + length b -> @slice E A (a ++ b ++ c) i j = Ret b.
Proof.
  intros -> ->. rewrite slice_ret by (rewrite ?length_app; lia).
  rewrite drop_app_length, Nat.add_comm, Nat.add_sub. by rewrite take_app_length.
Qed.

Lemma slice_prefix {E A} (a b : list A) j : j = length a -> @slice E A (a ++ b) 0 j = Ret a.
Proof. intros H. by apply (slice_mid []). Qed.

Lemma slice_suffix {E A} (a b : list A) i j :
  i = length a -> j = length a + length b -> @slice E A (a ++ b) i j = Ret b.
Proof. intros Hi Hj. rewrite <- (app_nil_r b) at 1. by apply slice_mid. Qed.

Lemma slice_from_suffix {E A} (a b : list A) i :
  i = length a -> @slice_from E A (a ++ b) i = Ret b.
Proof. intros Hi. apply slice_suffix; [done|by rewrite length_app]. Qed.

(** ** Deciding the byte predicate on a concrete list *)
Definition bytes_okb (l : list Z) : bool := forallb (fun b => (0 <=? b) && (b <? 256))%Z l.

Lemma bytes_okb_true l : bytes_okb l = true -> bytes_ok l.
Proof.
  unfold bytes_okb. rewrite forallb_forall, <- List.Forall_forall. intros H.
  eapply List.Forall_impl; [|exact H]. intros b Hb. unfold is_byte.
  apply andb_prop in Hb as [H1%Z.leb_le H2%Z.ltb_lt]. lia.
Qed.
