(* ===== verification/Types.v ===== *)
(** * Public types and errors (error.rs, types.rs, transport.rs)

    The values that cross the crate's interface, the error type every fallible
    operation returns, and its constructors. *)

From S2P Require Import Prelude.

(** A Rust [String] is the list of its Unicode scalar values; [str] reads an
    ASCII literal. *)
Abbreviation rstring := (list Z).

Definition str (s : string) : rstring :=
  (fun c => Z.of_N (Ascii.N_of_ascii c)) <$> String.list_ascii_of_string s.

(** [format!("{n}")] of an integer. *)
Definition dec (n : Z) : rstring := str (pretty n).

(** ** error.rs *)
Inductive TrezorError : Type :=
  | Transport (reason : rstring)
  | Thp (reason : rstring)
  | DeviceRejected (code : Z) (reason : rstring)
  | Pairing (reason : rstring)
  | InvalidInput (reason : rstring)
  | Protocol (reason : rstring)
  | TransportBusy
  | UserCanceled
  | NotImplemented (feature : rstring).

Definition not_implemented (feature : rstring) : TrezorError := NotImplemented feature.
Definition thp (reason : rstring) : TrezorError := Thp reason.

(** The [Display] rendering the [#[error(..)]] attributes declare. *)
Definition error_to_string (e : TrezorError) : rstring :=
  match e with
  | Transport reason => str "transport error: " ++ reason
  | Thp reason => str "THP channel error: " ++ reason
  | DeviceRejected code reason =>
    str "device rejected (failure " ++ dec code ++ str "): " ++ reason
  | Pairing reason => str "pairing required: " ++ reason
  | InvalidInput reason => str "invalid input: " ++ reason
  | Protocol reason => str "protocol error: " ++ reason
  | TransportBusy => str "device transport is busy; back off and retry"
  | UserCanceled => str "user canceled on device"
  | NotImplemented feature => str "not yet implemented: " ++ feature
  end.

(** ** transport.rs *)
Inductive TrezorTransportError : Type :=
  | Disconnected (reason : rstring)
  | Timeout (reason : rstring)
  | Io (reason : rstring).

(** The [Display] rendering the [#[error(..)]] attributes declare. *)
Definition transport_error_to_string (e : TrezorTransportError) : rstring :=
  match e with
  | Disconnected reason => str "transport disconnected: " ++ reason
  | Timeout reason => str "transport timed out: " ++ reason
  | Io reason => str "transport I/O error: " ++ reason
  end.

(** [impl From<TrezorTransportError> for TrezorError] *)
Definition from_transport_error (e : TrezorTransportError) : TrezorError :=
  Transport (transport_error_to_string e).

(** ** types.rs *)
Inductive PassphraseSpec : Type :=
  | Standard
  | OnDevice
  | Host (passphrase : rstring).

Record Secp256k1Signature : Type := {
  sig_v : Z;
  sig_r : list Z;
  sig_s : list Z;
}.

Record ThpProbeResult : Type := {
  probe_internal_model : rstring;
  probe_protocol_version_major : Z;
  probe_protocol_version_minor : Z;
  probe_pairing_methods : list Z;
  probe_trezor_state : list Z;
}.

Record PairedSession : Type := {
  ps_device_id : rstring;
  ps_model : rstring;
  ps_firmware_version : rstring;
  ps_initialized : bool;
  ps_credential : list Z;
}.

Record TrezorFeatures : Type := {
  tf_device_id : rstring;
  tf_model : rstring;
  tf_firmware_version : rstring;
  tf_initialized : bool;
}.

#[export] Instance TrezorError_eq_dec : EqDecision TrezorError.
Proof. solve_decision. Defined.
#[export] Instance TrezorTransportError_eq_dec : EqDecision TrezorTransportError.
Proof. solve_decision. Defined.
#[export] Instance PassphraseSpec_eq_dec : EqDecision PassphraseSpec.
Proof. solve_decision. Defined.
#[export] Instance Secp256k1Signature_eq_dec : EqDecision Secp256k1Signature.
Proof. solve_decision. Defined.
