(* ===== verification/Framing.v ===== *)
(** * THP transport framing (thp/framing.rs)

    Control bytes, CRC-32-IEEE, [segment] and the [Reassembler]: definitions in
    the order of the source, then the lemmas and theorems about them. *)

From Stdlib Require Import Btauto.
From S2P Require Import Prelude Types.

(** ** Constants *)
Definition BLE_PACKET_SIZE : nat := 244.
Definition USB_PACKET_SIZE : nat := 64.
Definition INIT_HEADER : nat := 5.
Definition CONT_HEADER : nat := 3.
Definition CRC_LEN : nat := 4.
Definition CONTINUATION_CONTROL : Z := 0x80.
Definition CONTINUATION_MASK : Z := 0x80.
Definition BROADCAST_CID : Z := 0xFFFF.

(** ** Control bytes *)
Module control.
Local Open Scope Z_scope.

Definition CHANNEL_ALLOCATION_REQUEST : Z := 0x40.
Definition CHANNEL_ALLOCATION_RESPONSE : Z := 0x41.
Definition TRANSPORT_ERROR : Z := 0x42.
Definition PING : Z := 0x43.
Definition PONG : Z := 0x44.
Definition ACK : Z := 0x20.
Definition ACK_SEQ_BIT : Z := 0x08.
Definition HANDSHAKE_INIT_REQUEST : Z := 0x00.
Definition HANDSHAKE_INIT_RESPONSE : Z := 0x01.
Definition HANDSHAKE_COMPLETION_REQUEST : Z := 0x02.
Definition HANDSHAKE_COMPLETION_RESPONSE : Z := 0x03.
Definition ENCRYPTED_TRANSPORT : Z := 0x04.
Definition SEQ_BIT : Z := 0x10.
Definition ACK_BIT : Z := 0x08.
Definition ACK_MASK : Z := 0xF7.

(** [!SEQ_BIT] of the [u8] is [SEQ_BIT ^ 0xFF]. *)
Definition with_seq (base seq : Z) : Z :=
  if negb (seq =? 0) then Z.lor base SEQ_BIT
  else Z.land base (Z.lxor SEQ_BIT 0xFF).

Definition seq_of (ctrl : Z) : Z := Z.shiftr (Z.land ctrl SEQ_BIT) 4.

Definition is_ack (ctrl : Z) : bool := Z.land ctrl ACK_MASK =? ACK.

Definition ack_seq_of (ctrl : Z) : Z := Z.shiftr (Z.land ctrl ACK_BIT) 3.

Definition ack_for (seq : Z) : Z :=
  if negb (seq =? 0) then Z.lor ACK ACK_BIT else ACK.
End control.

(** ** CRC-32-IEEE *)

(** One turn of the inner loop: [mask = (crc & 1).wrapping_neg()]. *)
Definition crc_bit (crc : Z) : Z :=
  let mask := ((- Z.land crc 1) mod u32_mod)%Z in
  Z.lxor (Z.shiftr crc 1) (Z.land 0xEDB88320%Z mask).

(** One turn of the outer loop. *)
Definition crc_byte (crc byte : Z) : Z := Nat.iter 8 crc_bit (Z.lxor crc byte).

Definition crc32_ieee (data : list Z) : Z :=
  Z.lxor (foldl crc_byte 0xFFFFFFFF%Z data) 0xFFFFFFFF%Z.

(** ** Segmentation *)

(** [u16::try_from(length)] *)
Definition u16_try_from (n : nat) : option Z :=
  if (Z.of_nat n <? u16_mod)%Z then Some (Z.of_nat n) else None.

(** [control_byte || cid (BE) || length (BE)] *)
Definition init_header (ctrl cid length_u16 : Z) : list Z :=
  ctrl :: be_bytes 2 cid ++ be_bytes 2 length_u16.

(** The [while cursor < payload_with_crc.len()] loop. *)
Fixpoint cont_packets (fuel packet_size : nat) (cid : Z)
    (payload_with_crc : list Z) (cursor : nat)
    : outcome TrezorError (list (list Z)) :=
  match fuel with
  | O => NoFuel
  | S fuel' =>
    if cursor <? length payload_with_crc then
      cont_capacity ← usize_sub packet_size CONT_HEADER;
      let take := Nat.min cont_capacity (length payload_with_crc - cursor) in
      chunk ← slice payload_with_crc cursor (cursor + take);
      let cont := resize packet_size 0%Z
                    (CONTINUATION_CONTROL :: be_bytes 2 cid ++ chunk) in
      rest ← cont_packets fuel' packet_size cid payload_with_crc (cursor + take);
      mret (cont :: rest)
    else mret []
  end.

Definition segment (packet_size : nat) (cid init_control_byte : Z)
    (transport_payload : list Z) : outcome TrezorError (list (list Z)) :=
  if packet_size <=? INIT_HEADER then
    Fail (thp (str "packet size too small for a THP header"))
  else
    let len := length transport_payload + CRC_LEN in
    length_u16 ← ok_or (thp (str "transport payload exceeds the 16-bit length field"))
                   (u16_try_from len);
    let crc_input := init_header init_control_byte cid length_u16
                       ++ transport_payload in
    let crc := crc32_ieee crc_input in
    let payload_with_crc := transport_payload ++ be_bytes 4 crc in
    first_capacity ← usize_sub packet_size INIT_HEADER;
    let take := Nat.min first_capacity (length payload_with_crc) in
    chunk ← slice payload_with_crc 0 (0 + take);
    let first := resize packet_size 0%Z
                   (init_header init_control_byte cid length_u16 ++ chunk) in
    rest ← cont_packets (S (length payload_with_crc)) packet_size cid
             payload_with_crc (0 + take);
    mret (first :: rest).

(** ** Reassembly *)
Record Reassembler : Type := {
  active : bool;
  control_byte : Z;
  r_cid : Z;
  expected_len : nat;
  buf : list Z;
}.

Definition reassembler_new : Reassembler :=
  {| active := false; control_byte := 0; r_cid := 0; expected_len := 0; buf := [] |}.

Definition set_buf (b : list Z) (self : Reassembler) : Reassembler :=
  {| active := active self; control_byte := control_byte self; r_cid := r_cid self;
     expected_len := expected_len self; buf := b |}.

Definition set_active (a : bool) (self : Reassembler) : Reassembler :=
  {| active := a; control_byte := control_byte self; r_cid := r_cid self;
     expected_len := expected_len self; buf := buf self |}.

Definition finish (self : Reassembler) (payload_with_crc : list Z)
    : outcome TrezorError (list Z) :=
  split ← usize_sub (expected_len self) CRC_LEN;
  transport_payload ← slice payload_with_crc 0 split;
  c0 ← idx payload_with_crc split;
  c1 ← idx payload_with_crc (split + 1);
  c2 ← idx payload_with_crc (split + 2);
  c3 ← idx payload_with_crc (split + 3);
  let crc_received := from_be [c0; c1; c2; c3] in
  (* [self.expected_len as u16] truncates *)
  let crc_input := init_header (control_byte self) (r_cid self)
                     (Z.of_nat (expected_len self) mod u16_mod)%Z
                     ++ transport_payload in
  if negb (crc32_ieee crc_input =? crc_received)%Z then
    Fail (thp (str "THP transport payload CRC mismatch"))
  else Ret transport_payload.

(** The tail of [push_packet], after the packet's bytes are in [buf]. *)
Definition try_complete : ST Reassembler TrezorError (option (list Z)) :=
  self ← get_st;
  if expected_len self <=? length (buf self) then
    let payload_with_crc := buf self in
    put_st (set_active false (set_buf [] self));;
    self' ← get_st;
    payload ← lift (finish self' payload_with_crc);
    mret (Some payload)
  else mret None.

Definition is_continuation_byte (ctrl : Z) : bool :=
  (Z.land ctrl CONTINUATION_MASK =? CONTINUATION_MASK)%Z.

Definition push_packet (packet : list Z)
    : ST Reassembler TrezorError (option (list Z)) :=
  if length packet =? 0 then throw (thp (str "empty THP packet"))
  else
    ctrl ← lift (idx packet 0);
    if is_continuation_byte ctrl then
      self ← get_st;
      if negb (active self) then mret None
      else if length packet <=? CONT_HEADER then
        throw (thp (str "continuation packet shorter than its header"))
      else
        remaining ← lift (usize_sub (expected_len self) (length (buf self)));
        avail ← lift (usize_sub (length packet) CONT_HEADER);
        let take := Nat.min remaining avail in
        chunk ← lift (slice packet CONT_HEADER (CONT_HEADER + take));
        put_st (set_buf (buf self ++ chunk) self);;
        try_complete
    else if length packet <? INIT_HEADER then
      throw (thp (str "initiation packet shorter than its header"))
    else
      p1 ← lift (idx packet 1);
      p2 ← lift (idx packet 2);
      p3 ← lift (idx packet 3);
      p4 ← lift (idx packet 4);
      let cid := from_be [p1; p2] in
      let len := Z.to_nat (from_be [p3; p4]) in
      if len <? CRC_LEN then
        throw (thp (str "THP length field smaller than the CRC trailer"))
      else
        avail ← lift (usize_sub (length packet) INIT_HEADER);
        let take := Nat.min len avail in
        chunk ← lift (slice packet INIT_HEADER (INIT_HEADER + take));
        put_st {| active := true; control_byte := ctrl; r_cid := cid;
                  expected_len := len; buf := chunk |};;
        try_complete.

(** Feeding a list of packets, keeping the payloads that complete: the loop of
    [round_trip] and of every reader. *)
Fixpoint push_all (packets : list (list Z))
    : ST Reassembler TrezorError (list (list Z)) :=
  match packets with
  | [] => mret []
  | p :: ps =>
    out ← push_packet p;
    rest ← push_all ps;
    mret (match out with Some d => d :: rest | None => rest end)
  end.

(** ** CRC: range, injectivity and burst detection *)
Section Crc.
Local Open Scope Z_scope.

Definition is_u32 (c : Z) : Prop := 0 <= c < 2 ^ 32.

Lemma crc_bit_alt c :
  crc_bit c = Z.lxor (Z.shiftr c 1) (if Z.odd c then 0xEDB88320 else 0).
Proof.
  unfold crc_bit. f_equal.
  replace (Z.land c 1) with (c mod 2) by (symmetry; apply (Z.land_ones c 1); lia).
  rewrite Zmod_odd. destruct (Z.odd c); reflexivity.
Qed.

Lemma crc_bit_range c : is_u32 c -> is_u32 (crc_bit c).
Proof.
  unfold is_u32. intros Hc. rewrite crc_bit_alt. apply lxor_range; [lia| |].
  - rewrite Z.shiftr_div_pow2 by lia.
    split; [apply Z.div_pos; lia|apply Z.div_lt_upper_bound; lia].
  - destruct (Z.odd c); lia.
Qed.

Lemma crc_bit_top c : is_u32 c -> Z.testbit (crc_bit c) 31 = Z.odd c.
Proof.
  intros Hc. rewrite crc_bit_alt, Z.lxor_spec, Z.shiftr_spec by lia.
  rewrite (bits_above c 32) by (unfold is_u32 in Hc; lia).
  by destruct (Z.odd c).
Qed.

Lemma crc_bit_inj c d : is_u32 c -> is_u32 d -> crc_bit c = crc_bit d -> c = d.
Proof.
  intros Hc Hd H.
  assert (Z.odd c = Z.odd d) as Ho.
  { rewrite <- (crc_bit_top c), <- (crc_bit_top d), H; done. }
  rewrite !crc_bit_alt, Ho in H. apply lxor_cancel_r in H.
  rewrite !Z.shiftr_div_pow2 in H by lia. change (2 ^ 1) with 2 in H.
  rewrite (Z.div_mod c 2), (Z.div_mod d 2), !Zmod_odd, Ho, H by lia. done.
Qed.

(** The step is linear over xor, and on an even state it is a plain shift. *)
Lemma crc_bit_lxor a b : crc_bit (Z.lxor a b) = Z.lxor (crc_bit a) (crc_bit b).
Proof.
  rewrite !crc_bit_alt, Z.shiftr_lxor.
  assert (Z.odd (Z.lxor a b) = xorb (Z.odd a) (Z.odd b)) as ->.
  { rewrite <- !Z.bit0_odd. apply Z.lxor_spec. }
  apply Z.bits_inj'. intros i Hi.
  destruct (Z.odd a), (Z.odd b); cbn [xorb]; rewrite !Z.lxor_spec, ?Z.bits_0;
    btauto.
Qed.

Lemma crc_bit_double w : crc_bit (2 * w) = w.
Proof.
  rewrite crc_bit_alt, Z.odd_mul, Z.shiftr_div_pow2 by lia. cbn [Z.odd andb].
  rewrite Z.lxor_0_r, Z.mul_comm. by apply Z.div_mul.
Qed.

Lemma crc_iter_range n c : is_u32 c -> is_u32 (Nat.iter n crc_bit c).
Proof. induction n as [|n IH]; [done|]. intros Hc. simpl. by apply crc_bit_range, IH. Qed.

Lemma crc_iter_inj n c d :
  is_u32 c -> is_u32 d -> Nat.iter n crc_bit c = Nat.iter n crc_bit d -> c = d.
Proof.
  induction n as [|n IH]; [done|]. intros Hc Hd H. simpl in H.
  apply crc_bit_inj in H; eauto using crc_iter_range.
Qed.

Lemma crc_iter_lxor n a b :
  Nat.iter n crc_bit (Z.lxor a b) = Z.lxor (Nat.iter n crc_bit a) (Nat.iter n crc_bit b).
Proof. induction n as [|n IH]; [done|]. simpl. by rewrite IH, crc_bit_lxor. Qed.

Lemma crc_iter_shift n w : Nat.iter n crc_bit (w * 2 ^ Z.of_nat n) = w.
Proof.
  revert w. induction n as [|n IH]; intros w; [simpl; lia|].
  rewrite Nat2Z.inj_succ, Z.pow_succ_r, Z.mul_assoc by lia. simpl.
  rewrite IH, Z.mul_comm. apply crc_bit_double.
Qed.

Lemma byte_u32 b : is_byte b -> is_u32 b.
Proof. unfold is_byte, is_u32. lia. Qed.

Lemma crc_byte_alt c b : crc_byte c b = Nat.iter 8 crc_bit (Z.lxor c b).
Proof. reflexivity. Qed.

Lemma crc_byte_range c b : is_u32 c -> is_byte b -> is_u32 (crc_byte c b).
Proof.
  intros Hc Hb. rewrite crc_byte_alt. apply crc_iter_range, lxor_range; [lia|done|by apply byte_u32].
Qed.

Lemma crc_fold_range c l : is_u32 c -> bytes_ok l -> is_u32 (foldl crc_byte c l).
Proof.
  intros Hc Hl. revert c Hc. induction Hl as [|b l Hb Hl IH]; intros c Hc; [done|].
  simpl. by apply IH, crc_byte_range.
Qed.

Lemma crc32_range l : bytes_ok l -> is_u32 (crc32_ieee l).
Proof.
  intros Hl. apply lxor_range; [lia| |lia].
  apply crc_fold_range; [unfold is_u32; lia|done].
Qed.

Lemma crc_fold_inj c d l :
  is_u32 c -> is_u32 d -> bytes_ok l ->
  foldl crc_byte c l = foldl crc_byte d l -> c = d.
Proof.
  intros Hc Hd Hl. revert c d Hc Hd.
  induction Hl as [|b l Hb Hl IH]; intros c d Hc Hd H; [done|]. cbn [foldl] in H.
  apply IH in H; [|by apply crc_byte_range..]. rewrite !crc_byte_alt in H.
  apply crc_iter_inj in H; [|apply lxor_range; [lia|done|by apply byte_u32]..].
  by apply lxor_cancel_r in H.
Qed.

(** Up to four bytes enter the register as one little-endian word. *)
Lemma crc_fold_word c l :
  (length l <= 4)%nat -> bytes_ok l ->
  foldl crc_byte c l = Nat.iter (8 * length l) crc_bit (Z.lxor c (from_le l)).
Proof.
  intros Hlen Hl. revert c Hlen.
  induction Hl as [|b l Hb Hl IH]; intros c Hlen; [by rewrite Z.lxor_0_r|].
  cbn [foldl length] in *. rewrite IH by lia.
  rewrite Nat.mul_succ_r, Nat.iter_add, crc_byte_alt. f_equal.
  rewrite <- (crc_iter_shift 8 (from_le l)) at 1.
  rewrite <- crc_iter_lxor, Z.lxor_assoc. do 2 f_equal.
  rewrite lxor_shift_add by (unfold is_byte in Hb; lia).
  cbn [from_le foldr]. fold (from_le l). change (2 ^ Z.of_nat 8) with 256. lia.
Qed.

Lemma crc32_burst l1 x y l2 :
  bytes_ok l1 -> bytes_ok x -> bytes_ok y -> bytes_ok l2 ->
  length x = length y -> (length x <= 4)%nat ->
  crc32_ieee (l1 ++ x ++ l2) = crc32_ieee (l1 ++ y ++ l2) -> x = y.
Proof.
  intros H1 Hx Hy H2 Hlen Hle H. apply lxor_cancel_r in H.
  rewrite !foldl_app in H.
  assert (is_u32 (foldl crc_byte 0xFFFFFFFF l1)) as Hs.
  { apply crc_fold_range; [unfold is_u32; lia|done]. }
  apply crc_fold_inj in H; [|by apply crc_fold_range..|done].
  rewrite (crc_fold_word _ x), (crc_fold_word _ y), Hlen in H by (done || lia).
  assert (forall z, bytes_ok z -> (length z <= 4)%nat -> is_u32 (from_le z)) as Hw.
  { intros z Hz Hz4. pose proof (from_le_bounds z Hz).
    pose proof (Z.pow_le_mono_r 256 (Z.of_nat (length z)) 4).
    unfold is_u32. lia. }
  apply crc_iter_inj in H; [|apply lxor_range; [lia|done|apply Hw; [done|lia]]..].
  apply lxor_cancel_l in H.
  rewrite <- (le_bytes_from_le x), <- (le_bytes_from_le y), H, Hlen; done.
Qed.
End Crc.

(** ** Lemmas on the reassembler's steps *)
Section Steps.
(** A state in the middle of a payload, and after one has completed. *)
Definition mid_state (ctrl cid : Z) (n : nat) (b : list Z) : Reassembler :=
  {| active := true; control_byte := ctrl; r_cid := cid; expected_len := n; buf := b |}.
Definition done_state (ctrl cid : Z) (n : nat) : Reassembler :=
  {| active := false; control_byte := ctrl; r_cid := cid; expected_len := n; buf := [] |}.

(** What [finish] returns on a payload followed by its four CRC bytes. *)
Definition crc_check (ctrl cid : Z) (payload c : list Z) : outcome TrezorError (list Z) :=
  if (crc32_ieee (init_header ctrl cid (Z.of_nat (length payload + CRC_LEN)) ++ payload)
        =? from_be c)%Z
  then Ret payload
  else Fail (thp (str "THP transport payload CRC mismatch")).

Lemma length_init_header ctrl cid len : length (init_header ctrl cid len) = INIT_HEADER.
Proof. unfold init_header. cbn [length]. by rewrite length_app, !length_be_bytes. Qed.

Lemma init_header_ok ctrl cid len : is_byte ctrl -> bytes_ok (init_header ctrl cid len).
Proof.
  intros H. constructor; [done|]. apply bytes_ok_app. split; apply be_bytes_ok.
Qed.

Lemma finish_eq self payload c :
  length c = CRC_LEN -> expected_len self = length payload + CRC_LEN ->
  (Z.of_nat (expected_len self) < u16_mod)%Z ->
  finish self (payload ++ c) = crc_check (control_byte self) (r_cid self) payload c.
Proof.
  intros Hc Hlen Hu. destruct (length_4_inv c Hc) as (c0 & c1 & c2 & c3 & ->).
  unfold finish, crc_check. rewrite Hlen in *.
  rewrite usize_sub_ret by lia. mred. rewrite Nat.add_sub.
  rewrite slice_ret by (rewrite ?length_app; simpl; lia).
  rewrite drop_0, Nat.sub_0_r, take_app_length.
  rewrite (idx_ret _ _ c0) by (rewrite lookup_app_r, Nat.sub_diag by lia; done).
  rewrite (idx_ret _ _ c1), (idx_ret _ _ c2), (idx_ret _ _ c3)
    by (rewrite lookup_app_r by lia; rewrite Nat.add_comm, Nat.add_sub; done).
  rewrite Z.mod_small by lia. by destruct (_ =? _)%Z.
Qed.

Lemma try_complete_more self :
  length (buf self) < expected_len self -> try_complete self = (Ret None, self).
Proof.
  intros H. unfold try_complete. mred. apply Nat.leb_gt in H. by rewrite H.
Qed.

Lemma try_complete_done ctrl cid payload c :
  length c = CRC_LEN -> (Z.of_nat (length payload + CRC_LEN) < u16_mod)%Z ->
  try_complete (mid_state ctrl cid (length payload + CRC_LEN) (payload ++ c))
  = (Some <$> crc_check ctrl cid payload c,
     done_state ctrl cid (length payload + CRC_LEN)).
Proof.
  intros Hc Hu. unfold try_complete. mred. simpl.
  rewrite length_app, Hc, Nat.leb_refl.
  rewrite finish_eq by (simpl; lia). unfold crc_check. simpl. by destruct (_ =? _)%Z.
Qed.
End Steps.

Section Packets.
Lemma push_packet_continuation self ctrl c1 c2 data :
  is_continuation_byte ctrl = true -> active self = true ->
  data <> [] -> length (buf self) <= expected_len self ->
  push_packet (ctrl :: c1 :: c2 :: data) self =
  try_complete (set_buf (buf self ++ take (expected_len self - length (buf self)) data)
                  self).
Proof.
  intros Hc Ha Hd Hb. unfold push_packet. cbn [length Nat.eqb].
  destruct data as [|d data]; [done|]. mred. cbn [idx lookup list_lookup].
  rewrite Hc, Ha. cbn [negb].
  replace (S (S (S (length (d :: data)))) <=? CONT_HEADER) with false
    by (symmetry; apply Nat.leb_gt; unfold CONT_HEADER; simpl; lia).
  rewrite usize_sub_ret by done.
  rewrite usize_sub_ret by (unfold CONT_HEADER; lia).
  replace (S (S (S (length (d :: data)))) - CONT_HEADER) with (length (d :: data))
    by (unfold CONT_HEADER; lia).
  rewrite slice_ret by (unfold CONT_HEADER; simpl length; lia).
  rewrite (Nat.add_comm CONT_HEADER), Nat.add_sub. unfold CONT_HEADER.
  cbn [drop]. by rewrite take_min_length.
Qed.

Lemma push_packet_initiation self ctrl c1 c2 l1 l2 data :
  is_continuation_byte ctrl = false ->
  CRC_LEN <= Z.to_nat (from_be [l1; l2]) ->
  push_packet (ctrl :: c1 :: c2 :: l1 :: l2 :: data) self =
  try_complete (mid_state ctrl (from_be [c1; c2]) (Z.to_nat (from_be [l1; l2]))
                  (take (Z.to_nat (from_be [l1; l2])) data)).
Proof.
  intros Hc Hl. unfold push_packet. cbn [length Nat.eqb]. mred.
  cbn [idx lookup list_lookup]. rewrite Hc.
  replace (S (S (S (S (S (length data))))) <? INIT_HEADER) with false
    by (symmetry; apply Nat.ltb_ge; unfold INIT_HEADER; lia).
  replace (Z.to_nat (from_be [l1; l2]) <? CRC_LEN) with false
    by (symmetry; by apply Nat.ltb_ge).
  rewrite usize_sub_ret by (unfold INIT_HEADER; lia).
  replace (S (S (S (S (S (length data))))) - INIT_HEADER) with (length data)
    by (unfold INIT_HEADER; lia).
  rewrite slice_ret by (unfold INIT_HEADER; simpl length; lia).
  rewrite (Nat.add_comm INIT_HEADER), Nat.add_sub. unfold INIT_HEADER.
  cbn [drop]. by rewrite take_min_length.
Qed.

(** [feeds s ps d s']: the packets [ps] given in order to a reassembler in
    state [s] complete exactly at the last one, with payload [d]. *)
Inductive feeds : Reassembler -> list (list Z) -> list Z -> Reassembler -> Prop :=
  | feeds_last s p d s' :
      push_packet p s = (Ret (Some d), s') -> feeds s [p] d s'
  | feeds_more s p s1 ps d s' :
      push_packet p s = (Ret None, s1) -> feeds s1 ps d s' -> feeds s (p :: ps) d s'.

Lemma feeds_push_all s ps d s' : feeds s ps d s' -> push_all ps s = (Ret [d], s').
Proof.
  induction 1 as [s p d s' Hp|s p s1 ps d s' Hp _ IH]; simpl; mred; rewrite Hp.
  - done.
  - by rewrite IH.
Qed.

(** The padding of the last packet never reaches the payload: a packet either carries
    all that is missing or is full. *)
Lemma take_unpadded {A} (m j : nat) (x : A) l :
  length l <= m -> m <= length l \/ j = 0 -> take m (l ++ replicate j x) = l.
Proof.
  intros Hl [Hm| ->]; [|by rewrite app_nil_r, take_ge].
  by rewrite take_app_le, take_ge.
Qed.

Section Loop.
Context (packet_size : nat) (ctrl cid : Z) (payload c : list Z).
Let pwc := payload ++ c.
Let n := length payload + CRC_LEN.
Hypothesis Hps : INIT_HEADER < packet_size.
Hypothesis Hc : length c = CRC_LEN.
Hypothesis Hn : (Z.of_nat n < u16_mod)%Z.
Hypothesis Hcheck : crc_check ctrl cid payload c = Ret payload.

Lemma pwc_length : length pwc = n.
Proof. unfold pwc, n. by rewrite length_app, Hc. Qed.

Lemma cont_step cursor k :
  cursor < n -> k = Nat.min (packet_size - CONT_HEADER) (n - cursor) ->
  push_packet (resize packet_size 0%Z
                 (CONTINUATION_CONTROL :: be_bytes 2 cid ++ take k (drop cursor pwc)))
    (mid_state ctrl cid n (take cursor pwc))
  = try_complete (mid_state ctrl cid n (take (cursor + k) pwc)).
Proof.
  intros Hcur Hk. pose proof pwc_length as Hl. unfold INIT_HEADER, CONT_HEADER in *.
  destruct (length_2_inv (be_bytes 2 cid)) as (b1 & b2 & Hb); [apply length_be_bytes|].
  assert (length (take k (drop cursor pwc)) = k) as Hlen
    by (rewrite length_take, length_drop; lia).
  rewrite resize_app by (rewrite Hb; simpl; rewrite Hlen; lia).
  rewrite Hb. cbn [app].
  rewrite push_packet_continuation.
  - cbn [buf mid_state expected_len set_buf active control_byte r_cid].
    rewrite length_take, Hl, Nat.min_l by lia.
    f_equal. unfold set_buf, mid_state. cbn. f_equal.
    rewrite <- take_drop_add. f_equal. apply take_unpadded; rewrite Hlen; [lia|].
    cbn [length]. rewrite ?Hlen. lia.
  - done.
  - done.
  - intros H. apply (f_equal length) in H. rewrite length_app in H. simpl in H. lia.
  - cbn. rewrite length_take. lia.
Qed.

(** The initiation packet moves any state to [mid_state]. *)
Lemma init_step s k :
  (0 <= cid < u16_mod)%Z -> is_continuation_byte ctrl = false ->
  k = Nat.min (packet_size - INIT_HEADER) n ->
  push_packet (resize packet_size 0 (init_header ctrl cid (Z.of_nat n) ++ take k pwc))%Z s
  = try_complete (mid_state ctrl cid n (take k pwc)).
Proof.
  intros Hcid Hctrl Hk. pose proof pwc_length as Hl. unfold INIT_HEADER in *.
  destruct (length_2_inv (be_bytes 2 cid)) as (b1 & b2 & Hb); [apply length_be_bytes|].
  destruct (length_2_inv (be_bytes 2 (Z.of_nat n))) as (l1 & l2 & Hn2); [apply length_be_bytes|].
  assert (from_be [b1; b2] = cid) as Hcid2 by (rewrite <- Hb; by apply from_be_be_bytes).
  assert (from_be [l1; l2] = Z.of_nat n) as Hlen2
    by (rewrite <- Hn2; apply from_be_be_bytes; change (256 ^ Z.of_nat 2)%Z with u16_mod; lia).
  assert (length (take k pwc) = k) as Hlen by (rewrite length_take; lia).
  rewrite resize_app by (rewrite length_app, length_init_header, Hlen; unfold INIT_HEADER; lia).
  unfold init_header. rewrite Hb, Hn2. cbn [app].
  rewrite push_packet_initiation; [|done|rewrite Hlen2, Nat2Z.id; unfold n; lia].
  rewrite Hcid2, Hlen2, Nat2Z.id. do 2 f_equal.
  apply take_unpadded; rewrite Hlen; [lia|]. cbn [length]. rewrite ?Hlen. lia.
Qed.

Lemma cont_packets_feeds fuel cursor :
  cursor <= n -> n - cursor < fuel ->
  exists packets,
    cont_packets fuel packet_size cid pwc cursor = Ret packets /\
    Forall (fun p => length p = packet_size) packets /\
    Forall (fun p => head p = Some CONTINUATION_CONTROL) packets /\
    (cursor < n ->
     feeds (mid_state ctrl cid n (take cursor pwc)) packets payload
       (done_state ctrl cid n)) /\
    (cursor = n -> packets = []).
Proof.
  revert cursor. induction fuel as [|fuel IH]; intros cursor Hle Hfuel; [lia|].
  pose proof pwc_length as Hl. cbn [cont_packets]. rewrite Hl.
  destruct (Nat.ltb_spec cursor n) as [Hcur|Hcur].
  2: { exists []. repeat split; try constructor; lia. }
  rewrite usize_sub_ret by (unfold INIT_HEADER, CONT_HEADER in *; lia).
  set (k := Nat.min (packet_size - CONT_HEADER) (n - cursor)).
  assert (0 < k) by (unfold k, INIT_HEADER, CONT_HEADER in *; lia).
  destruct (IH (cursor + k)) as (rest & Hrest & Hall & Hhd & Hfeed & Hnil);
    [unfold k; lia..|].
  cbv [mbind outcome_bind mret outcome_ret]. fold k.
  rewrite slice_ret by (unfold k in *; lia).
  rewrite (Nat.add_comm cursor k), Nat.add_sub, (Nat.add_comm k cursor), Hrest.
  eexists. split; [done|].
  pose proof (cont_step cursor k Hcur eq_refl) as Hstep.
  split_and!.
  - constructor; [apply length_resize|done].
  - constructor; [|done]. destruct packet_size; [unfold INIT_HEADER in Hps; lia|done].
  - intros _. destruct (Nat.lt_ge_cases (cursor + k) n) as [Hmore|Hend].
    + eapply feeds_more; [|by apply Hfeed].
      rewrite Hstep, try_complete_more; [done|]. cbn. rewrite length_take. lia.
    + assert (cursor + k = n) as Heq by (unfold k in *; lia).
      rewrite (Hnil Heq). apply feeds_last. rewrite Hstep, Heq.
      rewrite take_ge by lia. unfold pwc, n.
      rewrite try_complete_done by done. by rewrite Hcheck.
  - lia.
Qed.
End Loop.
End Packets.

(** ** Properties of framing *)
Section Properties.
(** A frame [segment] accepts: an initiation control byte (high bit clear), a
    16-bit channel id and a payload that fits the length field with its CRC. *)
Definition valid_frame (ctrl cid : Z) (payload : list Z) : Prop :=
  (0 <= ctrl < 128)%Z /\ (0 <= cid < u16_mod)%Z /\ bytes_ok payload /\
  (Z.of_nat (length payload + CRC_LEN) < u16_mod)%Z.

Lemma initiation_byte ctrl : (0 <= ctrl < 128)%Z -> is_continuation_byte ctrl = false.
Proof.
  intros H. unfold is_continuation_byte, CONTINUATION_MASK.
  replace (Z.land ctrl 0x80) with 0%Z; [done|]. symmetry.
  apply Z.bits_inj'. intros i Hi. rewrite Z.bits_0, Z.land_spec.
  change 0x80%Z with (2 ^ 7)%Z. rewrite Z.pow2_bits_eqb by lia.
  destruct (Z.eqb_spec 7 i) as [<-|]; [|by rewrite andb_false_r].
  by rewrite (bits_above ctrl 7).
Qed.

Lemma u16_try_from_ok n : (Z.of_nat n < u16_mod)%Z -> u16_try_from n = Some (Z.of_nat n).
Proof. intros H. unfold u16_try_from. apply Z.ltb_lt in H. by rewrite H. Qed.

(** The segmentation loop terminates within its fuel, its packets have the
    requested size, and from any state they reassemble to the payload. *)
Lemma segment_spec packet_size cid ctrl payload :
  INIT_HEADER < packet_size -> valid_frame ctrl cid payload ->
  exists first rest,
    segment packet_size cid ctrl payload = Ret (first :: rest) /\
    Forall (fun p => length p = packet_size) (first :: rest) /\
    head first = Some ctrl /\
    Forall (fun p => head p = Some CONTINUATION_CONTROL) rest /\
    forall s, feeds s (first :: rest) payload
                (done_state ctrl cid (length payload + CRC_LEN)).
Proof.
  intros Hps (Hctrl & Hcid & Hpay & Hlen). unfold segment.
  replace (packet_size <=? INIT_HEADER) with false by (symmetry; by apply Nat.leb_gt).
  rewrite u16_try_from_ok by done.
  cbv [ok_or mbind outcome_bind mret outcome_ret].
  rewrite usize_sub_ret by lia.
  set (n := length payload + CRC_LEN) in *.
  set (crc := crc32_ieee (init_header ctrl cid (Z.of_nat n) ++ payload)).
  set (c := be_bytes 4 crc).
  assert (length c = CRC_LEN) as Hc by apply length_be_bytes.
  assert (crc_check ctrl cid payload c = Ret payload) as Hcheck.
  { unfold crc_check. fold n. fold crc. unfold c. rewrite from_be_be_bytes.
    - by rewrite Z.eqb_refl.
    - apply crc32_range, bytes_ok_app. split; [|done].
      apply init_header_ok. unfold is_byte. lia. }
  assert (length (payload ++ c) = n) as Hl by (rewrite length_app, Hc; done).
  rewrite slice_ret by lia. rewrite Nat.add_0_l, Nat.sub_0_r, drop_0, Hl.
  set (k := Nat.min (packet_size - INIT_HEADER) n).
  destruct (cont_packets_feeds packet_size ctrl cid payload c Hps Hc Hlen Hcheck
              (S n) k) as (rest & Hrest & Hall & Hhd & Hfeed & Hnil); [lia..|].
  rewrite Hrest. eexists _, rest. split; [done|]. split_and!.
  - constructor; [apply length_resize|done].
  - destruct packet_size; [lia|done].
  - done.
  - intros s. pose proof (init_step packet_size ctrl cid payload c Hps Hc Hlen s k Hcid
      ltac:(by apply initiation_byte) eq_refl) as Hpush. fold n in Hpush.
    destruct (Nat.lt_ge_cases k n) as [Hmore|Hend].
    + eapply feeds_more; [|by apply Hfeed].
      rewrite Hpush, try_complete_more; [done|]. cbn [buf mid_state expected_len].
      rewrite length_take. lia.
    + rewrite Hnil by lia. apply feeds_last. rewrite Hpush.
      rewrite take_ge by lia. unfold n. rewrite try_complete_done by done.
      by rewrite Hcheck.
Qed.

(** C8: Segmenting a payload and feeding the packets to a reassembler, in
    whatever state it is, yields exactly that payload once, for every packet
    size above the header, 7-bit control byte, 16-bit channel id and payload of
    at most 65531 bytes; every packet has the requested size. *)
Theorem segment_roundtrip packet_size cid ctrl payload s :
  INIT_HEADER < packet_size -> valid_frame ctrl cid payload ->
  exists packets,
    segment packet_size cid ctrl payload = Ret packets /\
    Forall (fun p => length p = packet_size) packets /\
    push_all packets s
    = (Ret [payload], done_state ctrl cid (length payload + CRC_LEN)).
Proof.
  intros Hps Hv.
  destruct (segment_spec packet_size cid ctrl payload Hps Hv)
    as (first & rest & Hseg & Hall & _ & _ & Hfeed).
  exists (first :: rest). split_and!; [done..|]. by apply feeds_push_all.
Qed.

Lemma segment_roundtrip_witness :
  exists packets,
    segment 64 7 control.ENCRYPTED_TRANSPORT (replicate 100 0xA5%Z) = Ret packets /\
    Forall (fun p => length p = 64) packets /\
    push_all packets reassembler_new
    = (Ret [replicate 100 0xA5%Z], done_state 4 7 104).
Proof.
  apply (segment_roundtrip 64 7 4 (replicate 100 0xA5%Z) reassembler_new).
  - unfold INIT_HEADER. lia.
  - split_and!; try (vm_compute; split; congruence); try done.
    apply Forall_replicate. unfold is_byte. lia.
Defined.

(** The invariant of [Reassembler]: it holds bytes, and a reassembly in progress
    has received less than it expects, and expects at least a CRC and at most
    a [u16]. *)
Definition wf_reassembler (s : Reassembler) : Prop :=
  bytes_ok (buf s) /\
  (active s = true ->
   length (buf s) < expected_len s /\ CRC_LEN <= expected_len s /\
   (Z.of_nat (expected_len s) < u16_mod)%Z).

(** A call that neither panics nor blocks, whose error is a THP error and whose
    payload, if it completes one, is made of bytes. *)
Definition settles (o : outcome TrezorError (option (list Z))) : Prop :=
  match o with
  | Ret (Some payload) => bytes_ok payload
  | Ret None => True
  | Fail (Thp _) => True
  | _ => False
  end.

Lemma wf_reassembler_new : wf_reassembler reassembler_new.
Proof. split; [constructor|discriminate]. Qed.

Lemma try_complete_settles ctrl cid n b :
  length b <= n -> CRC_LEN <= n -> (Z.of_nat n < u16_mod)%Z -> bytes_ok b ->
  settles (try_complete (mid_state ctrl cid n b)).1 /\
  wf_reassembler (try_complete (mid_state ctrl cid n b)).2.
Proof.
  intros Hb Hn Hu Hok. destruct (Nat.lt_ge_cases (length b) n) as [Hlt|Hge].
  { rewrite try_complete_more by done. split; [done|]. by split. }
  pose proof (bytes_ok_take (n - CRC_LEN) b Hok) as Hok1.
  rewrite <- (take_drop (n - CRC_LEN) b).
  assert (n = length (take (n - CRC_LEN) b) + CRC_LEN) as Hn'
    by (rewrite length_take; lia).
  rewrite Hn' at 1 4. rewrite try_complete_done.
  - unfold crc_check. split; [by destruct (_ =? _)%Z|].
    split; [constructor|discriminate].
  - rewrite length_drop. lia.
  - by rewrite <- Hn'.
Qed.

Lemma push_packet_settles packet s :
  bytes_ok packet -> wf_reassembler s ->
  settles (push_packet packet s).1 /\ wf_reassembler (push_packet packet s).2.
Proof.
  intros Hp [Hbuf Hs]. assert (wf_reassembler s) as Hwf by done.
  destruct packet as [|ctrl packet]; [done|].
  destruct (is_continuation_byte ctrl) eqn:Hctrl.
  - destruct (active s) eqn:Ha.
    2: { unfold push_packet. cbn [length Nat.eqb]. mred.
         cbn [idx lookup list_lookup]. by rewrite Hctrl, Ha. }
    destruct (Hs eq_refl) as (Hb & Hn & Hu).
    destruct packet as [|c1 [|c2 [|d data]]];
      [unfold push_packet; cbn [length Nat.eqb]; mred; cbn [idx lookup list_lookup];
       by rewrite Hctrl, Ha..|].
    rewrite push_packet_continuation by (done || discriminate || lia).
    apply (bytes_ok_drop 3) in Hp. cbn [drop] in Hp.
    destruct s as [a cb cid n b]. cbn in Ha, Hb, Hn, Hu, Hbuf |- *. subst a.
    cbn [expected_len buf].
    apply try_complete_settles; [|done..|].
    + rewrite length_app, length_take. cbn [expected_len]. lia.
    + apply bytes_ok_app. split; [done|]. by apply bytes_ok_take.
  - destruct packet as [|c1 [|c2 [|l1 [|l2 data]]]];
      [unfold push_packet; cbn [length Nat.eqb]; mred; cbn [idx lookup list_lookup];
       by rewrite Hctrl..|].
    destruct (Nat.ltb_spec (Z.to_nat (from_be [l1; l2])) CRC_LEN) as [Hshort|Hlong].
    + unfold push_packet. cbn [length Nat.eqb]. mred. cbn [idx lookup list_lookup].
      rewrite Hctrl. change (S (S (S (S (S (length data))))) <? INIT_HEADER) with false.
      apply Nat.ltb_lt in Hshort. by rewrite Hshort.
    + rewrite push_packet_initiation by done.
      apply try_complete_settles; [rewrite length_take; lia|done| |].
      * assert (bytes_ok [l1; l2]) as Hl
          by (apply (Forall_drop _ 3), (Forall_take _ 2) in Hp; done).
        apply from_be_bounds in Hl. rewrite Z2Nat.id by lia.
        change (256 ^ Z.of_nat (length [l1; l2]))%Z with u16_mod in Hl. lia.
      * apply bytes_ok_take. by apply (bytes_ok_drop 5) in Hp.
Qed.

(** C29: [push_packet] never panics: no slice, index or subtraction of it is out
    of range on any packet in any state satisfying the reassembler's
    invariant, its only errors are THP errors, what it delivers are bytes, and
    it preserves the invariant (which the initial state satisfies). *)
Theorem push_packet_safe packet s :
  bytes_ok packet -> wf_reassembler s ->
  settles (push_packet packet s).1 /\ wf_reassembler (push_packet packet s).2 /\
  wf_reassembler reassembler_new.
Proof.
  intros Hp Hs. rewrite (assoc and). split; [by apply push_packet_settles|].
  apply wf_reassembler_new.
Qed.

Lemma push_packet_safe_witness :
  settles (push_packet [4; 0; 7; 0; 9; 1; 2]%Z reassembler_new).1 /\
  wf_reassembler (push_packet [4; 0; 7; 0; 9; 1; 2]%Z reassembler_new).2 /\
  wf_reassembler reassembler_new.
Proof.
  apply (push_packet_safe [4; 0; 7; 0; 9; 1; 2]%Z reassembler_new).
  - repeat constructor; unfold is_byte; lia.
  - split; [constructor|discriminate].
Defined.

(** C30: A received payload that differs from the one the CRC was computed over
    in a burst of at most four consecutive bytes is rejected: the completed
    reassembly returns the CRC-mismatch error, delivers nothing and leaves the
    reassembler idle. *)
Theorem corrupted_burst_rejected ctrl cid l1 sent received l2 :
  valid_frame ctrl cid (l1 ++ sent ++ l2) -> bytes_ok received ->
  length received = length sent -> length sent <= 4 -> received <> sent ->
  let n := length (l1 ++ sent ++ l2) + CRC_LEN in
  let crc := crc32_ieee (init_header ctrl cid (Z.of_nat n) ++ l1 ++ sent ++ l2) in
  try_complete (mid_state ctrl cid n ((l1 ++ received ++ l2) ++ be_bytes 4 crc))
  = (Fail (thp (str "THP transport payload CRC mismatch")), done_state ctrl cid n).
Proof.
  intros (Hctrl & Hcid & Hok & Hlen) Hrec Heq H4 Hne n crc.
  apply bytes_ok_app in Hok as [H1 [Hs H2]%bytes_ok_app].
  assert (n = length (l1 ++ received ++ l2) + CRC_LEN) as Hn
    by (unfold n; rewrite !length_app, Heq; done).
  rewrite Hn. rewrite try_complete_done by (rewrite ?length_be_bytes, <- ?Hn; done).
  unfold crc_check. rewrite <- Hn.
  assert (bytes_ok (init_header ctrl cid (Z.of_nat n))) as Hh
    by (apply init_header_ok; unfold is_byte; lia).
  rewrite from_be_be_bytes.
  2: { apply crc32_range. rewrite !bytes_ok_app. done. }
  destruct (Z.eqb_spec (crc32_ieee (init_header ctrl cid (Z.of_nat n) ++
    l1 ++ received ++ l2)) crc) as [Hcrc|_]; [|done].
  unfold crc in Hcrc. rewrite !(app_assoc _ l1) in Hcrc.
  apply crc32_burst in Hcrc; try done; [by apply bytes_ok_app|lia].
Qed.

Lemma corrupted_burst_rejected_witness :
  let n := 9 in
  let crc := crc32_ieee (init_header 4 2 9 ++ [1; 2; 3; 4; 5]%Z) in
  try_complete (mid_state 4 2 n ([1; 9; 8; 7; 5]%Z ++ be_bytes 4 crc))
  = (Fail (thp (str "THP transport payload CRC mismatch")), done_state 4 2 n).
Proof.
  apply (corrupted_burst_rejected 4 2 [1]%Z [2; 3; 4]%Z [9; 8; 7]%Z [5]%Z).
  - split_and!; try (vm_compute; split; congruence); try done.
    repeat constructor; unfold is_byte; lia.
  - repeat constructor; unfold is_byte; lia.
  - reflexivity.
  - simpl. lia.
  - discriminate.
Defined.

(** [segment] fails exactly when the packet size cannot hold a header or the
    payload with its CRC exceeds the 16-bit length field, with the error of
    the guard that fails first. *)
Lemma segment_errors packet_size cid ctrl payload :
  (packet_size <= INIT_HEADER ->
   segment packet_size cid ctrl payload
   = Fail (thp (str "packet size too small for a THP header"))) /\
  (INIT_HEADER < packet_size -> (u16_mod <= Z.of_nat (length payload + CRC_LEN))%Z ->
   segment packet_size cid ctrl payload
   = Fail (thp (str "transport payload exceeds the 16-bit length field"))) /\
  (forall e, valid_frame ctrl cid payload -> INIT_HEADER < packet_size ->
   segment packet_size cid ctrl payload <> Fail e).
Proof.
  split_and!.
  - intros H. unfold segment. apply Nat.leb_le in H. by rewrite H.
  - intros H Hlen. unfold segment. apply Nat.leb_gt in H. rewrite H.
    unfold u16_try_from. apply Z.ltb_ge in Hlen. by rewrite Hlen.
  - intros e Hv Hps H.
    destruct (segment_spec packet_size cid ctrl payload Hps Hv) as (? & ? & Hseg & _).
    congruence.
Qed.

(** A continuation packet is absorbed whatever channel id it carries: the
    outcome and the state after it do not depend on its bytes 1 and 2. *)
Lemma continuation_cid_ignored s ctrl c1 c2 c1' c2' data :
  is_continuation_byte ctrl = true -> wf_reassembler s ->
  push_packet (ctrl :: c1 :: c2 :: data) s = push_packet (ctrl :: c1' :: c2' :: data) s.
Proof.
  intros Hc [_ Hs]. destruct (active s) eqn:Ha.
  - destruct data as [|d data].
    { unfold push_packet. cbn [length Nat.eqb]. mred. cbn [idx lookup list_lookup].
      by rewrite Hc, Ha. }
    destruct (Hs eq_refl) as [Hb _].
    by rewrite !push_packet_continuation by (done || discriminate || lia).
  - unfold push_packet. cbn [length Nat.eqb]. mred. cbn [idx lookup list_lookup].
    by rewrite Hc, Ha.
Qed.

(** Two halves of a payload for channel 7; the second half is stamped with
    channel 9 and still completes the payload. *)
Lemma continuation_cid_ignored_witness :
  push_packet [0x80; 0; 9; 0x42; 1; 2; 3; 4]%Z (mid_state 4 7 9 [1; 2; 3; 4]%Z)
  = push_packet [0x80; 0; 7; 0x42; 1; 2; 3; 4]%Z (mid_state 4 7 9 [1; 2; 3; 4]%Z).
Proof.
  apply (continuation_cid_ignored (mid_state 4 7 9 [1; 2; 3; 4]%Z) 0x80).
  - reflexivity.
  - split; [repeat constructor; unfold is_byte; lia|].
    intros _. vm_compute. repeat split; lia.
Defined.
End Properties.

(** [segment] on a control byte, channel id and bytes: packets or an error. *)
Lemma segment_cases ps cid ctrl payload :
  (0 <= ctrl < 128)%Z -> (0 <= cid < u16_mod)%Z -> bytes_ok payload ->
  (exists e, segment ps cid ctrl payload = Fail e) \/
  (exists pkts, segment ps cid ctrl payload = Ret pkts).
Proof.
  intros Hctrl Hcid Hp. destruct (Nat.le_gt_cases ps INIT_HEADER) as [Hps|Hps].
  { left. unfold segment. apply Nat.leb_le in Hps. rewrite Hps. eauto. }
  destruct (Z.lt_ge_cases (Z.of_nat (length payload + CRC_LEN)) u16_mod) as [Hl|Hl].
  - right. destruct (segment_spec ps cid ctrl payload Hps) as (? & ? & Hseg & _); [done|eauto].
  - left. unfold segment. apply Nat.leb_gt in Hps. rewrite Hps.
    unfold u16_try_from. apply Z.ltb_ge in Hl. rewrite Hl. eauto.
Qed.

(** ** Control bytes of the Alternating Bit Protocol *)
Lemma with_seq_range base seq : (0 <= base < 128)%Z -> (0 <= control.with_seq base seq < 128)%Z.
Proof.
  intros Hb. unfold control.with_seq. destruct (negb _).
  - split; [apply Z.lor_nonneg; unfold control.SEQ_BIT; lia|].
    apply (bits_bound _ 7); [lia|apply Z.lor_nonneg; unfold control.SEQ_BIT; lia|].
    intros i Hi. rewrite Z.lor_spec, (bits_above base 7), (bits_above control.SEQ_BIT 7)
      by (unfold control.SEQ_BIT; lia). done.
  - split; [apply Z.land_nonneg; lia|].
    apply (bits_bound _ 7); [lia|apply Z.land_nonneg; lia|].
    intros i Hi. by rewrite Z.land_spec, (bits_above base 7) by lia.
Qed.

Lemma ack_for_range seq : (0 <= control.ack_for seq < 128)%Z.
Proof. unfold control.ack_for. destruct (negb _); vm_compute; split; congruence. Qed.

(** The sequence bit and the ACK bit of a control byte survive the encoding. *)
Definition is_bit (b : Z) : Prop := b = 0%Z \/ b = 1%Z.

Lemma lxor_bit b : is_bit b -> is_bit (Z.lxor b 1).
Proof. intros [-> | ->]; [by right|by left]. Qed.

Lemma seq_of_bit ctrl : is_bit (control.seq_of ctrl).
Proof.
  unfold control.seq_of, control.SEQ_BIT. rewrite Z.shiftr_land.
  change (Z.shiftr 0x10 4) with (Z.ones 1). rewrite Z.land_ones by lia.
  pose proof (Z.mod_pos_bound (Z.shiftr ctrl 4) (2 ^ 1)) as H. unfold is_bit.
  change (2 ^ 1)%Z with 2%Z in *. lia.
Qed.

Lemma ack_for_props seq :
  is_bit seq -> control.is_ack (control.ack_for seq) = true /\
  control.ack_seq_of (control.ack_for seq) = seq.
Proof. by intros [-> | ->]. Qed.

Lemma with_seq_props base seq :
  is_bit seq -> In base [control.HANDSHAKE_INIT_REQUEST; control.HANDSHAKE_INIT_RESPONSE;
    control.HANDSHAKE_COMPLETION_REQUEST; control.HANDSHAKE_COMPLETION_RESPONSE;
    control.ENCRYPTED_TRANSPORT] ->
  control.is_ack (control.with_seq base seq) = false /\
  control.seq_of (control.with_seq base seq) = seq /\
  control.with_seq base seq <> control.TRANSPORT_ERROR /\
  (0 <= control.with_seq base seq < 128)%Z.
Proof.
  intros [-> | ->] Hin; simpl in Hin;
    repeat (destruct Hin as [<-|Hin]; [vm_compute; split_and!; congruence|]); done.
Qed.
