(* ===== verification/Crypto.v ===== *)
(** * Cryptographic primitives (thp/aead.rs and the crates it calls)

    The crate calls sha2, hmac, x25519-dalek, aes-gcm and getrandom; none of them
    is under src/, so they are the operations of the class [Crypto], with the
    documented behaviour the code relies on in [CryptoLaws]. [seal] and [open] are
    the functions of thp/aead.rs. [toy_crypto] is a concrete instance satisfying
    the laws, on which theorems with those hypotheses are instantiated. *)

From S2P Require Import Prelude Types.

Class Crypto : Type := {
  (** [Sha256::digest], [Sha512::digest] *)
  sha256 : list Z -> list Z;
  sha512 : list Z -> list Z;
  (** [Hmac::<Sha256>] of a key and a message *)
  hmac_sha256_mac : list Z -> list Z -> list Z;
  (** [StaticSecret::from(s).diffie_hellman(&PublicKey::from(p)).to_bytes()] *)
  x25519_dh : list Z -> list Z -> list Z;
  (** [PublicKey::from(&StaticSecret::from(s)).to_bytes()] *)
  x25519_public : list Z -> list Z;
  (** [Aes256Gcm] of a key, an IV and associated data *)
  aes_gcm_encrypt : list Z -> list Z -> list Z -> list Z -> list Z;
  aes_gcm_decrypt : list Z -> list Z -> list Z -> list Z -> option (list Z);
}.

Definition TAG_LEN : nat := 16.

Class CryptoLaws `{Crypto} : Prop := {
  sha256_length m : length (sha256 m) = 32;
  sha256_ok m : bytes_ok (sha256 m);
  sha512_length m : length (sha512 m) = 64;
  sha512_ok m : bytes_ok (sha512 m);
  hmac_length k m : length (hmac_sha256_mac k m) = 32;
  (** Diffie-Hellman: scalar multiplications commute, and the public key is the
      multiple of a fixed base point. *)
  dh_comm a b p : x25519_dh a (x25519_dh b p) = x25519_dh b (x25519_dh a p);
  dh_public a b : x25519_dh a (x25519_public b) = x25519_dh b (x25519_public a);
  dh_length a p : length (x25519_dh a p) = 32;
  dh_ok a p : bytes_ok (x25519_dh a p);
  public_length a : length (x25519_public a) = 32;
  public_ok a : bytes_ok (x25519_public a);
  (** AES-GCM appends a 16-byte tag and opens what it sealed. *)
  aes_gcm_open_seal k iv aad m :
    aes_gcm_decrypt k iv aad (aes_gcm_encrypt k iv aad m) = Some m;
  aes_gcm_length k iv aad m : length (aes_gcm_encrypt k iv aad m) = length m + TAG_LEN;
  aes_gcm_ok k iv aad m : bytes_ok m -> bytes_ok (aes_gcm_encrypt k iv aad m);
}.

(** ** thp/aead.rs *)
Section Aead.
Context {CR : Crypto}.

Definition seal (key iv aad plaintext : list Z) : list Z :=
  aes_gcm_encrypt key iv aad plaintext.

Definition open (key iv aad ciphertext : list Z) : outcome TrezorError (list Z) :=
  ok_or (thp (str "AES-GCM authentication failed"))
    (aes_gcm_decrypt key iv aad ciphertext).

Lemma open_seal `{!CryptoLaws} key iv aad m : open key iv aad (seal key iv aad m) = Ret m.
Proof. unfold open, seal. by rewrite aes_gcm_open_seal. Qed.
End Aead.

(** ** A concrete instance *)
Section Toy.
Definition toy_hash (n : nat) (m : list Z) : list Z :=
  be_bytes n (foldl (fun a b => a * 257 + b + 1) 5381 m mod 256 ^ Z.of_nat n)%Z.
Definition toy_pad (l : list Z) : list Z := resize 32 0%Z ((fun b => b mod 256)%Z <$> l).
Definition toy_dh (a p : list Z) : list Z := zip_with Z.lxor (toy_pad a) (toy_pad p).
Definition toy_base : list Z := 9%Z :: replicate 31 0%Z.
Definition toy_tag (k iv aad m : list Z) : list Z := toy_hash TAG_LEN (k ++ iv ++ aad ++ m).
Definition toy_encrypt (k iv aad m : list Z) : list Z := m ++ toy_tag k iv aad m.
Definition toy_decrypt (k iv aad c : list Z) : option (list Z) :=
  let m := take (length c - TAG_LEN) c in
  if decide (drop (length c - TAG_LEN) c = toy_tag k iv aad m) then Some m else None.

Definition toy_crypto : Crypto := {|
  sha256 := toy_hash 32;
  sha512 := toy_hash 64;
  hmac_sha256_mac k m := toy_hash 32 (k ++ m);
  x25519_dh := toy_dh;
  x25519_public a := toy_dh a toy_base;
  aes_gcm_encrypt := toy_encrypt;
  aes_gcm_decrypt := toy_decrypt;
|}.

Lemma toy_pad_length l : length (toy_pad l) = 32.
Proof. apply length_resize. Qed.

Lemma toy_pad_ok l : bytes_ok (toy_pad l).
Proof.
  unfold toy_pad. apply Forall_resize; [unfold is_byte; lia|].
  apply Forall_fmap, Forall_true. intros b. apply Z.mod_pos_bound. lia.
Qed.

Lemma toy_dh_length a p : length (toy_dh a p) = 32.
Proof. unfold toy_dh. by rewrite length_zip_with, !toy_pad_length. Qed.

Lemma toy_pad_id l : length l = 32 -> bytes_ok l -> toy_pad l = l.
Proof.
  intros Hl Hok.
  assert ((fun b => b mod 256)%Z <$> l = l) as Hid.
  { clear Hl. induction Hok as [|b l Hb _ IH]; [done|].
    rewrite fmap_cons, IH. unfold is_byte in Hb. by rewrite Z.mod_small. }
  unfold toy_pad. rewrite Hid, <- Hl. apply resize_all.
Qed.

Lemma toy_dh_ok a p : bytes_ok (toy_dh a p).
Proof.
  unfold toy_dh. pose proof (toy_pad_ok a) as Ha. pose proof (toy_pad_ok p) as Hp.
  revert Ha Hp. generalize (toy_pad a) (toy_pad p). intros l k Hl. revert k.
  induction Hl as [|x l Hx _ IH]; intros [|y k] Hk; simpl; try constructor.
  - apply Forall_cons in Hk as [Hy _]. apply (lxor_range 8); unfold is_byte in *; lia.
  - apply Forall_cons in Hk as [_ Hk]. by apply IH.
Qed.

Lemma toy_dh_comm a b p : toy_dh a (toy_dh b p) = toy_dh b (toy_dh a p).
Proof.
  unfold toy_dh at 1 3. rewrite !(toy_pad_id (toy_dh _ _))
    by (apply toy_dh_length || apply toy_dh_ok).
  unfold toy_dh. generalize (toy_pad a) (toy_pad b) (toy_pad p).
  induction l as [|x l IH]; intros [|y k] [|z m]; simpl; try done.
  rewrite IH. f_equal. rewrite <- !Z.lxor_assoc. by rewrite (Z.lxor_comm x).
Qed.

Lemma toy_open_seal k iv aad m : toy_decrypt k iv aad (toy_encrypt k iv aad m) = Some m.
Proof.
  unfold toy_decrypt, toy_encrypt.
  assert (length (m ++ toy_tag k iv aad m) - TAG_LEN = length m) as ->.
  { rewrite length_app. unfold toy_tag, toy_hash. rewrite length_be_bytes. lia. }
  rewrite take_app_length, drop_app_length. by rewrite decide_True.
Qed.

Lemma toy_crypto_laws : @CryptoLaws toy_crypto.
Proof.
  constructor; intros.
  - apply length_be_bytes.
  - apply be_bytes_ok.
  - apply length_be_bytes.
  - apply be_bytes_ok.
  - apply length_be_bytes.
  - apply toy_dh_comm.
  - apply toy_dh_comm.
  - apply toy_dh_length.
  - apply toy_dh_ok.
  - apply toy_dh_length.
  - apply toy_dh_ok.
  - apply toy_open_seal.
  - change (length (toy_encrypt k iv aad m) = length m + TAG_LEN).
    unfold toy_encrypt, toy_tag, toy_hash. by rewrite length_app, length_be_bytes.
  - apply bytes_ok_app. split; [done|apply be_bytes_ok].
Qed.
End Toy.
