(* ===== verification/Proto.v ===== *)
(** * Protobuf messages (proto.rs and the vendored .proto files)

    The Rust types are generated at build time from the .proto files, and their
    [encode_to_vec] and [decode] belong to prost; both are the operations of the
    class [ProtoMessage], one instance per message. The records here are the
    generated structs, with the fields the crate reads or sets; a field left out
    is always [Default::default()] in a message the crate builds, and is never read
    in a message it receives. *)

From stdpp Require Import countable.
From S2P Require Import Prelude Types.

Class ProtoMessage (T : Type) : Type := {
  encode_to_vec : T -> list Z;
  (** [T::decode(..)]; the left case carries the rendered [DecodeError]. *)
  decode : list Z -> rstring + T;
}.

Class MessageLaws (T : Type) `{ProtoMessage T} : Prop := {
  decode_encode (m : T) : decode (encode_to_vec m) = inr m;
  encode_ok (m : T) : bytes_ok (encode_to_vec m);
}.

(** ** messages-common.proto *)
Record ButtonAck : Type := mkButtonAck {}.
Record Failure : Type := { f_code : option Z; f_message : option rstring }.
Record HDNodeType : Type := { node_public_key : list Z }.

(** ** messages-management.proto *)
Record GetFeatures : Type := mkGetFeatures {}.
Record Features : Type := {
  feat_major_version : Z;
  feat_minor_version : Z;
  feat_patch_version : Z;
  feat_device_id : option rstring;
  feat_initialized : option bool;
  feat_model : option rstring;
}.

(** ** messages-thp.proto *)
Record ThpDeviceProperties : Type := {
  internal_model : rstring;
  model_variant : option Z;
  protocol_version_major : Z;
  protocol_version_minor : Z;
  pairing_methods : list Z;
}.
Record ThpHandshakeCompletionReqNoisePayload : Type := {
  host_pairing_credential_field : option (list Z);
}.
Record ThpCreateNewSession : Type := {
  cns_passphrase : option rstring;
  cns_on_device : option bool;
  cns_derive_cardano : option bool;
}.
Record ThpPairingRequest : Type := { pr_host_name : rstring; pr_app_name : rstring }.
Record ThpSelectMethod : Type := { selected_pairing_method : Z }.
Record ThpCodeEntryCommitment : Type := { commitment : list Z }.
Record ThpCodeEntryChallenge : Type := { challenge : list Z }.
Record ThpCodeEntryCpaceTrezor : Type := { cpace_trezor_public_key : list Z }.
Record ThpCodeEntryCpaceHostTag : Type := {
  cpace_host_public_key : list Z;
  host_tag : list Z;
}.
Record ThpCodeEntrySecret : Type := { secret : list Z }.
Record ThpCredentialRequest : Type := {
  host_static_public_key : list Z;
  cr_autoconnect : option bool;
  cr_credential : option (list Z);
}.
Record ThpCredentialResponse : Type := {
  trezor_static_public_key : list Z;
  issued_credential : list Z;
}.

(** The codecs of the messages exchanged below the chains. *)
Class ThpProto : Type := {
  #[global] pm_button_ack :: ProtoMessage ButtonAck;
  #[global] pm_failure :: ProtoMessage Failure;
  #[global] pm_get_features :: ProtoMessage GetFeatures;
  #[global] pm_features :: ProtoMessage Features;
  #[global] pm_device_properties :: ProtoMessage ThpDeviceProperties;
  #[global] pm_noise_payload :: ProtoMessage ThpHandshakeCompletionReqNoisePayload;
  #[global] pm_create_new_session :: ProtoMessage ThpCreateNewSession;
  #[global] pm_pairing_request :: ProtoMessage ThpPairingRequest;
  #[global] pm_select_method :: ProtoMessage ThpSelectMethod;
  #[global] pm_commitment :: ProtoMessage ThpCodeEntryCommitment;
  #[global] pm_challenge :: ProtoMessage ThpCodeEntryChallenge;
  #[global] pm_cpace_trezor :: ProtoMessage ThpCodeEntryCpaceTrezor;
  #[global] pm_cpace_host_tag :: ProtoMessage ThpCodeEntryCpaceHostTag;
  #[global] pm_secret :: ProtoMessage ThpCodeEntrySecret;
  #[global] pm_credential_request :: ProtoMessage ThpCredentialRequest;
  #[global] pm_credential_response :: ProtoMessage ThpCredentialResponse;
}.

Class ThpProtoLaws `{ThpProto} : Prop := {
  #[global] ml_button_ack :: MessageLaws ButtonAck;
  #[global] ml_failure :: MessageLaws Failure;
  #[global] ml_get_features :: MessageLaws GetFeatures;
  #[global] ml_features :: MessageLaws Features;
  #[global] ml_device_properties :: MessageLaws ThpDeviceProperties;
  #[global] ml_noise_payload :: MessageLaws ThpHandshakeCompletionReqNoisePayload;
  #[global] ml_create_new_session :: MessageLaws ThpCreateNewSession;
  #[global] ml_pairing_request :: MessageLaws ThpPairingRequest;
  #[global] ml_select_method :: MessageLaws ThpSelectMethod;
  #[global] ml_commitment :: MessageLaws ThpCodeEntryCommitment;
  #[global] ml_challenge :: MessageLaws ThpCodeEntryChallenge;
  #[global] ml_cpace_trezor :: MessageLaws ThpCodeEntryCpaceTrezor;
  #[global] ml_cpace_host_tag :: MessageLaws ThpCodeEntryCpaceHostTag;
  #[global] ml_secret :: MessageLaws ThpCodeEntrySecret;
  #[global] ml_credential_request :: MessageLaws ThpCredentialRequest;
  #[global] ml_credential_response :: MessageLaws ThpCredentialResponse;
}.

(** ** A concrete codec for every countable message *)
Section Toy.
Definition toy_encode_to_vec {T} `{Countable T} (m : T) : list Z :=
  let z := Z.pos (encode m) in
  le_bytes (Z.to_nat (Z.log2 z) + 1) z.
Definition toy_decode {T} `{Countable T} (l : list Z) : rstring + T :=
  match from_le l with
  | Zpos p => match countable.decode p with Some m => inr m | None => inl (str "bad") end
  | _ => inl (str "empty")
  end.
Definition toy_message (T : Type) `{Countable T} : ProtoMessage T :=
  {| encode_to_vec := toy_encode_to_vec; decode := toy_decode |}.

Lemma toy_message_laws (T : Type) `{Countable T} : @MessageLaws T (toy_message T).
Proof.
  constructor; intros m.
  - change (toy_decode (toy_encode_to_vec m) = inr m).
    unfold toy_decode, toy_encode_to_vec. rewrite from_le_le_bytes.
    rewrite Z.mod_small.
    + by rewrite countable.decode_encode.
    + split; [lia|]. pose proof (Z.log2_spec (Z.pos (encode m))) as [_ Hlt]; [lia|].
      pose proof (Z.log2_nonneg (Z.pos (encode m))).
      rewrite Nat2Z.inj_add, Z2Nat.id by done.
      eapply Z.lt_le_trans; [exact Hlt|].
      rewrite <- Z.add_1_r. apply Z.pow_le_mono_l. lia.
  - apply le_bytes_ok.
Qed.

#[local] Instance ButtonAck_eq_dec : EqDecision ButtonAck.
Proof. solve_decision. Defined.
#[local] Instance ButtonAck_countable : Countable ButtonAck.
Proof. refine (inj_countable' (fun _ => tt) (fun _ => mkButtonAck) _). by intros []. Defined.

#[local] Instance Failure_eq_dec : EqDecision Failure.
Proof. solve_decision. Defined.
#[local] Instance Failure_countable : Countable Failure.
Proof. refine (inj_countable' (fun m => (f_code m, f_message m)) (fun '(a, b) => Build_Failure a b) _). by intros []. Defined.

#[local] Instance GetFeatures_eq_dec : EqDecision GetFeatures.
Proof. solve_decision. Defined.
#[local] Instance GetFeatures_countable : Countable GetFeatures.
Proof. refine (inj_countable' (fun _ => tt) (fun _ => mkGetFeatures) _). by intros []. Defined.

#[local] Instance Features_eq_dec : EqDecision Features.
Proof. solve_decision. Defined.
#[local] Instance Features_countable : Countable Features.
Proof. refine (inj_countable' (fun m => (feat_major_version m, feat_minor_version m, feat_patch_version m, feat_device_id m, feat_initialized m, feat_model m)) (fun '(a, b, c, d, e, f) => Build_Features a b c d e f) _). by intros []. Defined.

#[local] Instance ThpDeviceProperties_eq_dec : EqDecision ThpDeviceProperties.
Proof. solve_decision. Defined.
#[local] Instance ThpDeviceProperties_countable : Countable ThpDeviceProperties.
Proof. refine (inj_countable' (fun m => (internal_model m, model_variant m, protocol_version_major m, protocol_version_minor m, pairing_methods m)) (fun '(a, b, c, d, e) => Build_ThpDeviceProperties a b c d e) _). by intros []. Defined.

#[local] Instance ThpHandshakeCompletionReqNoisePayload_eq_dec : EqDecision ThpHandshakeCompletionReqNoisePayload.
Proof. solve_decision. Defined.
#[local] Instance ThpHandshakeCompletionReqNoisePayload_countable : Countable ThpHandshakeCompletionReqNoisePayload.
Proof. refine (inj_countable' host_pairing_credential_field Build_ThpHandshakeCompletionReqNoisePayload _). by intros []. Defined.

#[local] Instance ThpCreateNewSession_eq_dec : EqDecision ThpCreateNewSession.
Proof. solve_decision. Defined.
#[local] Instance ThpCreateNewSession_countable : Countable ThpCreateNewSession.
Proof. refine (inj_countable' (fun m => (cns_passphrase m, cns_on_device m, cns_derive_cardano m)) (fun '(a, b, c) => Build_ThpCreateNewSession a b c) _). by intros []. Defined.

#[local] Instance ThpPairingRequest_eq_dec : EqDecision ThpPairingRequest.
Proof. solve_decision. Defined.
#[local] Instance ThpPairingRequest_countable : Countable ThpPairingRequest.
Proof. refine (inj_countable' (fun m => (pr_host_name m, pr_app_name m)) (fun '(a, b) => Build_ThpPairingRequest a b) _). by intros []. Defined.

#[local] Instance ThpSelectMethod_eq_dec : EqDecision ThpSelectMethod.
Proof. solve_decision. Defined.
#[local] Instance ThpSelectMethod_countable : Countable ThpSelectMethod.
Proof. refine (inj_countable' selected_pairing_method Build_ThpSelectMethod _). by intros []. Defined.

#[local] Instance ThpCodeEntryCommitment_eq_dec : EqDecision ThpCodeEntryCommitment.
Proof. solve_decision. Defined.
#[local] Instance ThpCodeEntryCommitment_countable : Countable ThpCodeEntryCommitment.
Proof. refine (inj_countable' commitment Build_ThpCodeEntryCommitment _). by intros []. Defined.

#[local] Instance ThpCodeEntryChallenge_eq_dec : EqDecision ThpCodeEntryChallenge.
Proof. solve_decision. Defined.
#[local] Instance ThpCodeEntryChallenge_countable : Countable ThpCodeEntryChallenge.
Proof. refine (inj_countable' challenge Build_ThpCodeEntryChallenge _). by intros []. Defined.

#[local] Instance ThpCodeEntryCpaceTrezor_eq_dec : EqDecision ThpCodeEntryCpaceTrezor.
Proof. solve_decision. Defined.
#[local] Instance ThpCodeEntryCpaceTrezor_countable : Countable ThpCodeEntryCpaceTrezor.
Proof. refine (inj_countable' cpace_trezor_public_key Build_ThpCodeEntryCpaceTrezor _). by intros []. Defined.

#[local] Instance ThpCodeEntryCpaceHostTag_eq_dec : EqDecision ThpCodeEntryCpaceHostTag.
Proof. solve_decision. Defined.
#[local] Instance ThpCodeEntryCpaceHostTag_countable : Countable ThpCodeEntryCpaceHostTag.
Proof. refine (inj_countable' (fun m => (cpace_host_public_key m, host_tag m)) (fun '(a, b) => Build_ThpCodeEntryCpaceHostTag a b) _). by intros []. Defined.

#[local] Instance ThpCodeEntrySecret_eq_dec : EqDecision ThpCodeEntrySecret.
Proof. solve_decision. Defined.
#[local] Instance ThpCodeEntrySecret_countable : Countable ThpCodeEntrySecret.
Proof. refine (inj_countable' secret Build_ThpCodeEntrySecret _). by intros []. Defined.

#[local] Instance ThpCredentialRequest_eq_dec : EqDecision ThpCredentialRequest.
Proof. solve_decision. Defined.
#[local] Instance ThpCredentialRequest_countable : Countable ThpCredentialRequest.
Proof. refine (inj_countable' (fun m => (host_static_public_key m, cr_autoconnect m, cr_credential m)) (fun '(a, b, c) => Build_ThpCredentialRequest a b c) _). by intros []. Defined.

#[local] Instance ThpCredentialResponse_eq_dec : EqDecision ThpCredentialResponse.
Proof. solve_decision. Defined.
#[local] Instance ThpCredentialResponse_countable : Countable ThpCredentialResponse.
Proof. refine (inj_countable' (fun m => (trezor_static_public_key m, issued_credential m)) (fun '(a, b) => Build_ThpCredentialResponse a b) _). by intros []. Defined.

Definition toy_thp_proto : ThpProto.
Proof. constructor; exact (toy_message _). Defined.

Lemma toy_thp_proto_laws : @ThpProtoLaws toy_thp_proto.
Proof. constructor; exact (toy_message_laws _). Qed.
End Toy.
