(* ===== verification/Env.v ===== *)
(** * The host environment

    What the crate calls back into: the foreign [TrezorTransport] (raw report
    I/O, transport.rs), the foreign [PairingCodeProvider] (pairing.rs) and the
    platform random number generator (the getrandom crate). An implementation is
    a type of worlds [W] with the class [Env]; theorems quantify over it, and
    [Script] and the mock device of thp/connection.rs are instances. *)

From S2P Require Import Prelude Types.

Class Env (W : Type) : Type := {
  (** [getrandom::getrandom] filling a buffer of [n] bytes, or its error *)
  getrandom : nat -> W -> (rstring + list Z) * W;
  (** [TrezorTransport::write_chunk]; it may panic, or never complete *)
  write_chunk : list Z -> ST W TrezorTransportError unit;
  (** [TrezorTransport::read_chunk] *)
  read_chunk : ST W TrezorTransportError (list Z);
  (** [PairingCodeProvider::request_code] *)
  request_code : W -> rstring * W;
}.

Section Calls.
Context {W : Type} `{!Env W}.

(** [getrandom(..).expect("platform RNG")] *)
Definition random_bytes (n : nat) : ST W TrezorError (list Z) := fun w =>
  match getrandom n w with
  | (inr b, w') => (Ret b, w')
  | (inl _, w') => (Panic, w')
  end.

(** [transport.write_chunk(packet).await?] *)
Definition env_write (packet : list Z) : ST W TrezorError unit := fun w =>
  let '(o, w') := write_chunk packet w in (err_into from_transport_error o, w').

(** [transport.read_chunk().await?] *)
Definition env_read : ST W TrezorError (list Z) := fun w =>
  let '(o, w') := read_chunk w in (err_into from_transport_error o, w').

Definition env_code : ST W TrezorError rstring := fun w =>
  let '(code, w') := request_code w in (Ret code, w').

(** Successive reads that deliver the given chunks. *)
Inductive reads : W -> list (list Z) -> W -> Prop :=
  | reads_nil w : reads w [] w
  | reads_cons w chunk w1 chunks w' :
      read_chunk w = (Ret chunk, w1) -> reads w1 chunks w' -> reads w (chunk :: chunks) w'.
End Calls.

(** ** A scripted environment

    The reports the device will send, in order, with the errors the transport
    will raise; every write is recorded, and when the script is used up a read
    stays pending. The reports of a script are arbitrary, so a theorem about all
    scripts is about every sequence of reports a device can send. *)
Record Script : Type := {
  inbox : list (TrezorTransportError + list Z);
  outbox : list (list Z);
  write_errors : list (option TrezorTransportError);
  entropy : list Z;
  codes : list rstring;
}.

Definition script_write (packet : list Z) : ST Script TrezorTransportError unit := fun w =>
  let w' o errs := {| inbox := inbox w; outbox := o; write_errors := errs;
                      entropy := entropy w; codes := codes w |} in
  match write_errors w with
  | Some e :: errs => (Fail e, w' (outbox w) errs)
  | None :: errs => (Ret tt, w' (outbox w ++ [packet]) errs)
  | [] => (Ret tt, w' (outbox w ++ [packet]) [])
  end.

Definition script_read : ST Script TrezorTransportError (list Z) := fun w =>
  match inbox w with
  | [] => (Pending, w)
  | r :: rest =>
    (of_result r, {| inbox := rest; outbox := outbox w; write_errors := write_errors w;
                entropy := entropy w; codes := codes w |})
  end.

Definition script_random (n : nat) (w : Script) : (rstring + list Z) * Script :=
  if n <=? length (entropy w) then
    (inr (take n (entropy w)),
     {| inbox := inbox w; outbox := outbox w; write_errors := write_errors w;
        entropy := drop n (entropy w); codes := codes w |})
  else (inl (str "entropy exhausted"), w).

Definition script_code (w : Script) : rstring * Script :=
  match codes w with
  | [] => ([], w)
  | c :: rest =>
    (c, {| inbox := inbox w; outbox := outbox w; write_errors := write_errors w;
           entropy := entropy w; codes := rest |})
  end.

#[export] Instance script_env : Env Script := {|
  getrandom := script_random;
  write_chunk := script_write;
  read_chunk := script_read;
  request_code := script_code;
|}.
