(* ===== verification/Channel.v ===== *)
(** * Channel allocation (thp/channel.rs) *)

From S2P Require Import Prelude Types Env Proto.

Definition ALLOCATION_NONCE_LEN : nat := 8.

Record ChannelAllocation : Type := {
  alloc_cid : Z;
  device_properties_raw : list Z;
  device_properties : ThpDeviceProperties;
}.

Section Channel.
Context {PM : ThpProto}.

Definition random_allocation_nonce {W} `{!Env W} : ST W TrezorError (list Z) :=
  random_bytes ALLOCATION_NONCE_LEN.

Definition build_allocation_request (nonce : list Z) : list Z := nonce.

Definition parse_allocation_response (sent_nonce payload : list Z)
    : outcome TrezorError ChannelAllocation :=
  if length payload <? ALLOCATION_NONCE_LEN + 2 then
    Fail (thp (str "channel allocation response too short"))
  else
    echoed ← slice payload 0 ALLOCATION_NONCE_LEN;
    if bool_decide (echoed <> sent_nonce) then
      Fail (thp (str "channel allocation nonce mismatch"))
    else
      c0 ← idx payload ALLOCATION_NONCE_LEN;
      c1 ← idx payload (ALLOCATION_NONCE_LEN + 1);
      let cid := from_be [c0; c1] in
      raw ← slice_from payload (ALLOCATION_NONCE_LEN + 2);
      props ← map_err (fun e => thp (str "device properties decode failed: " ++ e))
                (decode raw);
      mret {| alloc_cid := cid; device_properties_raw := raw;
              device_properties := props |}.

(** The response a device builds: [nonce || cid (BE) || properties]. *)
Definition build_response (nonce : list Z) (cid : Z) (props_raw : list Z) : list Z :=
  nonce ++ be_bytes 2 cid ++ props_raw.

(** Every response long enough splits into nonce, channel id and properties. *)
Lemma parse_allocation_eq sent nonce c0 c1 raw :
  length nonce = ALLOCATION_NONCE_LEN ->
  parse_allocation_response sent (nonce ++ [c0; c1] ++ raw) =
  if bool_decide (nonce <> sent) then
    Fail (thp (str "channel allocation nonce mismatch"))
  else
    props ← map_err (fun e => thp (str "device properties decode failed: " ++ e))
              (decode raw);
    Ret {| alloc_cid := from_be [c0; c1]; device_properties_raw := raw;
           device_properties := props |}.
Proof.
  intros Hn. unfold parse_allocation_response.
  replace (length (nonce ++ [c0; c1] ++ raw) <? ALLOCATION_NONCE_LEN + 2) with false
    by (symmetry; apply Nat.ltb_ge; rewrite !length_app; cbn [length]; lia).
  rewrite slice_ret by (rewrite ?length_app; cbn [length]; lia).
  rewrite Nat.sub_0_r, drop_0, <- Hn, take_app_length. mred.
  destruct (bool_decide (nonce <> sent)); [done|].
  rewrite (idx_ret _ _ c0) by (rewrite lookup_app_r, Nat.sub_diag by lia; done).
  rewrite (idx_ret _ _ c1)
    by (rewrite lookup_app_r by lia; rewrite Nat.add_comm, Nat.add_sub; done).
  unfold slice_from. rewrite slice_ret by (rewrite ?length_app; cbn [length]; lia).
  rewrite app_assoc. replace (length nonce + 2) with (length (nonce ++ [c0; c1]))
    by (by rewrite length_app).
  rewrite drop_app_length, take_ge by (rewrite length_app; lia). done.
Qed.

Lemma parse_built_response nonce cid props {PL : ThpProtoLaws} :
  length nonce = ALLOCATION_NONCE_LEN -> (0 <= cid < u16_mod)%Z ->
  parse_allocation_response nonce (build_response nonce cid (encode_to_vec props))
  = Ret {| alloc_cid := cid; device_properties_raw := encode_to_vec props;
           device_properties := props |}.
Proof.
  intros Hn Hcid. unfold build_response.
  destruct (length_2_inv (be_bytes 2 cid)) as (c0 & c1 & Hc); [apply length_be_bytes|].
  assert (from_be [c0; c1] = cid) as Hcid2 by (rewrite <- Hc; by apply from_be_be_bytes).
  rewrite Hc, parse_allocation_eq, bool_decide_false by auto. by rewrite decode_encode, Hcid2.
Qed.

(** The allocation response parses to the channel id and the exact property
    bytes the device sent when it echoes our nonce; with any other nonce, or
    when it is shorter than a nonce and a channel id, it is rejected. *)
Lemma allocation_response_roundtrip sent nonce cid props raw {PL : ThpProtoLaws} :
  length sent = ALLOCATION_NONCE_LEN -> length nonce = ALLOCATION_NONCE_LEN ->
  (0 <= cid < u16_mod)%Z ->
  parse_allocation_response sent (build_response sent cid (encode_to_vec props))
  = Ret {| alloc_cid := cid; device_properties_raw := encode_to_vec props;
           device_properties := props |} /\
  (nonce <> sent ->
   parse_allocation_response sent (build_response nonce cid raw)
   = Fail (thp (str "channel allocation nonce mismatch"))) /\
  (length raw < ALLOCATION_NONCE_LEN + 2 ->
   parse_allocation_response sent raw
   = Fail (thp (str "channel allocation response too short"))).
Proof.
  intros Hs Hn Hcid. split; [by apply parse_built_response|]. split.
  - intros Hne. unfold build_response.
    destruct (length_2_inv (be_bytes 2 cid)) as (c0 & c1 & Hc); [apply length_be_bytes|].
    rewrite Hc, parse_allocation_eq by done. by rewrite bool_decide_true.
  - intros Hlen. unfold parse_allocation_response. apply Nat.ltb_lt in Hlen.
    by rewrite Hlen.
Qed.
End Channel.

Lemma allocation_response_roundtrip_witness :
  let props := {| internal_model := str "T3W1"; model_variant := None;
                  protocol_version_major := 2; protocol_version_minor := 0;
                  pairing_methods := [2%Z] |} in
  let nonce := [1; 2; 3; 4; 5; 6; 7; 8]%Z in
  let P := toy_thp_proto in
  parse_allocation_response nonce (build_response nonce 0x1234 (encode_to_vec props))
  = Ret {| alloc_cid := 0x1234; device_properties_raw := encode_to_vec props;
           device_properties := props |}.
Proof.
  intros props nonce P.
  apply (allocation_response_roundtrip (PM := P) (PL := toy_thp_proto_laws)
           nonce nonce 0x1234 props []).
  - reflexivity.
  - reflexivity.
  - unfold u16_mod. lia.
Defined.
