(* ===== verification/Session.v ===== *)
(** * Encrypted transport session (thp/session.rs)

    Sealing and opening application payloads with per-direction nonces, the
    application-message header, and the refinement of the two mirrored sessions
    of a channel to a pair of FIFO queues of plaintexts. *)

From S2P Require Import Prelude Types Crypto.

Definition APP_HEADER_LEN : nat := 3.

(** Four zero bytes, then the nonce as a big-endian [u64]. *)
Definition iv_from_nonce (nonce : Z) : list Z := replicate 4 0%Z ++ be_bytes 8 nonce.

(** [SessionKeys] of thp/noise.rs. *)
Record SessionKeys : Type := {
  key_request : list Z;
  key_response : list Z;
  nonce_request : Z;
  nonce_response : Z;
  trezor_state : list Z;
  trezor_masked_static_pubkey : list Z;
  handshake_hash : list Z;
  host_static_pubkey : list Z;
}.

Record Session : Type := {
  key_send : list Z;
  key_recv : list Z;
  nonce_send : Z;
  nonce_recv : Z;
}.

Definition session_new (ks kr : list Z) (ns nr : Z) : Session :=
  {| key_send := ks; key_recv := kr; nonce_send := ns; nonce_recv := nr |}.

Definition from_handshake (keys : SessionKeys) : Session :=
  session_new (key_request keys) (key_response keys)
    (nonce_request keys) (nonce_response keys).

(** [self.nonce_send += 1] on a [u64]. *)
Definition bump (n : Z) : Z := ((n + 1) mod u64_mod)%Z.

Section Session.
Context {CR : Crypto}.

Definition session_seal (app_payload : list Z) (self : Session) : list Z * Session :=
  (seal (key_send self) (iv_from_nonce (nonce_send self)) [] app_payload,
   {| key_send := key_send self; key_recv := key_recv self;
      nonce_send := bump (nonce_send self); nonce_recv := nonce_recv self |}).

Definition session_open (ciphertext : list Z) : ST Session TrezorError (list Z) :=
  self ← get_st;
  pt ← lift (open (key_recv self) (iv_from_nonce (nonce_recv self)) [] ciphertext);
  put_st {| key_send := key_send self; key_recv := key_recv self;
            nonce_send := nonce_send self; nonce_recv := bump (nonce_recv self) |};;
  mret pt.
End Session.

Definition encode_app_message (session_id message_type : Z) (protobuf : list Z) : list Z :=
  [session_id] ++ be_bytes 2 message_type ++ protobuf.

Definition decode_app_message (payload : list Z)
    : outcome TrezorError (Z * Z * list Z) :=
  if length payload <? APP_HEADER_LEN then
    Fail (thp (str "application message shorter than its 3-byte header"))
  else
    session_id ← idx payload 0;
    t0 ← idx payload 1;
    t1 ← idx payload 2;
    body ← slice_from payload APP_HEADER_LEN;
    mret (session_id, from_be [t0; t1], body).

(** ** Application messages *)
Lemma decode_encode_app sid mt body :
  (0 <= mt < u16_mod)%Z ->
  decode_app_message (encode_app_message sid mt body) = Ret (sid, mt, body).
Proof.
  intros Hmt. unfold encode_app_message.
  destruct (length_2_inv (be_bytes 2 mt)) as (t0 & t1 & Ht); [apply length_be_bytes|].
  rewrite Ht. cbn [app]. unfold decode_app_message. cbn [length].
  change (S (S (S (length body))) <? APP_HEADER_LEN) with false. mred.
  cbn [idx lookup list_lookup]. unfold slice_from.
  rewrite slice_ret by (unfold APP_HEADER_LEN; simpl; lia).
  unfold APP_HEADER_LEN. cbn [drop]. rewrite drop_0, take_ge by (cbn [length]; lia).
  by rewrite <- Ht, from_be_be_bytes.
Qed.

(** An application message decodes to its session id, 16-bit type and body;
    a payload shorter than the header is rejected, and every other payload is
    decoded to the fields that encode back to it. *)
Lemma app_message_roundtrip sid mt body payload :
  (0 <= mt < u16_mod)%Z -> bytes_ok payload ->
  decode_app_message (encode_app_message sid mt body) = Ret (sid, mt, body) /\
  (length payload < APP_HEADER_LEN ->
   decode_app_message payload
   = Fail (thp (str "application message shorter than its 3-byte header"))) /\
  (APP_HEADER_LEN <= length payload ->
   exists sid' mt' body',
     decode_app_message payload = Ret (sid', mt', body') /\
     encode_app_message sid' mt' body' = payload).
Proof.
  intros Hmt Hp. split_and!.
  - by apply decode_encode_app.
  - intros H. unfold decode_app_message. apply Nat.ltb_lt in H. by rewrite H.
  - intros H. unfold APP_HEADER_LEN in H.
    destruct payload as [|s [|t0 [|t1 rest]]]; simpl in H; try lia.
    exists s, (from_be [t0; t1]), rest.
    assert (bytes_ok [t0; t1]) as Ht by apply (Forall_take _ 2 _ (Forall_drop _ 1 _ Hp)).
    assert (be_bytes 2 (from_be [t0; t1]) = [t0; t1]) as Hbe
      by (change 2 with (length [t0; t1]); by apply be_bytes_from_be).
    assert (s :: t0 :: t1 :: rest = encode_app_message s (from_be [t0; t1]) rest) as Heq
      by (unfold encode_app_message; by rewrite Hbe).
    split; [|done]. rewrite Heq. apply decode_encode_app.
    apply from_be_bounds in Ht. done.
Qed.

Lemma app_message_roundtrip_witness :
  decode_app_message (encode_app_message 0 0x11 [0xDE; 0xAD]%Z)
  = Ret (0, 0x11, [0xDE; 0xAD])%Z.
Proof.
  apply (app_message_roundtrip 0 0x11 [0xDE; 0xAD]%Z []).
  - unfold u16_mod. lia.
  - constructor.
Defined.

(** ** Nonces *)
Lemma iv_from_nonce_inj n m :
  (0 <= n < u64_mod)%Z -> (0 <= m < u64_mod)%Z ->
  iv_from_nonce n = iv_from_nonce m -> n = m.
Proof. intros Hn Hm H. apply app_inv_head in H. by apply (be_bytes_inj 8) in H. Qed.

Lemma length_iv_from_nonce n : length (iv_from_nonce n) = 12.
Proof. unfold iv_from_nonce. by rewrite length_app, length_replicate, length_be_bytes. Qed.

Lemma bump_small n k :
  (0 <= n)%Z -> (n + Z.of_nat k < u64_mod)%Z -> Nat.iter k bump n = (n + Z.of_nat k)%Z.
Proof.
  intros Hn. induction k as [|k IH]; intros Hk; [simpl; lia|].
  simpl. rewrite IH by lia. unfold bump. rewrite Z.mod_small by lia. lia.
Qed.

(** Sealing a list of payloads in order. *)
Fixpoint seal_all {CR : Crypto} (msgs : list (list Z)) (self : Session)
    : list (list Z) * Session :=
  match msgs with
  | [] => ([], self)
  | m :: ms =>
    let '(c, self1) := session_seal m self in
    let '(cs, self2) := seal_all ms self1 in
    (c :: cs, self2)
  end.

Lemma seal_all_state {CR : Crypto} msgs self :
  (seal_all msgs self).2 =
  {| key_send := key_send self; key_recv := key_recv self;
     nonce_send := Nat.iter (length msgs) bump (nonce_send self);
     nonce_recv := nonce_recv self |}.
Proof.
  revert self. induction msgs as [|m ms IH]; intros self; simpl; [by destruct self|].
  destruct (seal_all ms _) as [cs s2] eqn:Hs. simpl.
  specialize (IH (session_seal m self).2). simpl in IH. rewrite Hs in IH. simpl in IH.
  rewrite IH. f_equal. by rewrite <- Nat.iter_succ_r.
Qed.

Lemma seal_all_lookup {CR : Crypto} msgs self i m :
  msgs !! i = Some m ->
  (seal_all msgs self).1 !! i =
  Some (seal (key_send self) (iv_from_nonce (Nat.iter i bump (nonce_send self))) [] m).
Proof.
  revert self i. induction msgs as [|m0 ms IH]; intros self i Hi; [done|]. simpl.
  destruct (seal_all ms _) as [cs s2] eqn:Hs. destruct i as [|i]; simpl in Hi |- *.
  - by simplify_eq.
  - specialize (IH (session_seal m0 self).2 i Hi). simpl in IH. rewrite Hs in IH.
    simpl in IH. rewrite IH. by rewrite <- Nat.iter_succ_r.
Qed.

(** C31: A session never seals two messages under the same IV: while fewer than
    2^64 messages are sealed, the i-th ciphertext is the seal of the i-th
    payload under an IV of its own, and these IVs are pairwise distinct. *)
Theorem session_ivs_distinct {CR : Crypto} msgs self :
  (0 <= nonce_send self)%Z ->
  (nonce_send self + Z.of_nat (length msgs) <= u64_mod)%Z ->
  exists ivs,
    length ivs = length msgs /\ NoDup ivs /\
    Forall (fun iv => length iv = 12) ivs /\
    (seal_all msgs self).1 = zip_with (fun iv m => seal (key_send self) iv [] m) ivs msgs.
Proof.
  intros Hn Hk.
  exists ((fun i => iv_from_nonce (nonce_send self + Z.of_nat i)) <$> seq 0 (length msgs)).
  split_and!.
  - by rewrite length_fmap, length_seq.
  - apply NoDup_alt. intros i j x Hi Hj.
    apply list_lookup_fmap_Some in Hi as (i' & -> & [-> Hi]%lookup_seq).
    apply list_lookup_fmap_Some in Hj as (j' & Hx & [-> Hj]%lookup_seq).
    simpl in *. apply iv_from_nonce_inj in Hx; lia.
  - apply Forall_fmap, Forall_true. intros i. apply length_iv_from_nonce.
  - apply list_eq. intros i. rewrite lookup_zip_with, list_lookup_fmap.
    destruct (msgs !! i) as [m|] eqn:Hm.
    + pose proof (lookup_lt_Some _ _ _ Hm) as Hlt.
      rewrite (seal_all_lookup _ _ _ _ Hm), lookup_seq_lt by done. simpl.
      rewrite bump_small by lia. done.
    + assert (length (seal_all msgs self).1 = length msgs) as Hl.
      { clear. revert self. induction msgs as [|m ms IH]; intros self; simpl; [done|].
        specialize (IH (session_seal m self).2). simpl in IH.
        destruct (seal_all ms _) as [cs s2]. simpl in *. by rewrite IH. }
      apply lookup_ge_None in Hm. rewrite lookup_ge_None_2 by lia.
      rewrite lookup_seq_ge by lia. done.
Qed.

Lemma session_ivs_distinct_witness :
  exists ivs,
    length ivs = 2 /\ NoDup ivs /\ Forall (fun iv => length iv = 12) ivs /\
    (seal_all (CR := toy_crypto) [[1]; [1]]%Z (session_new [5]%Z [6]%Z 0 1)).1
    = zip_with (fun iv m => seal (CR := toy_crypto) [5]%Z iv [] m) ivs [[1]; [1]]%Z.
Proof.
  apply (session_ivs_distinct (CR := toy_crypto) [[1]; [1]]%Z (session_new [5]%Z [6]%Z 0 1)).
  - simpl. lia.
  - unfold u64_mod. simpl. lia.
Defined.

(** ** The encrypted channel as a pair of FIFO queues

    Two mirrored sessions and the ciphertexts in flight in each direction
    ([Link]), against the specification: the plaintexts in flight ([Queues]).
    [link_step] runs the code's [seal] and [open] at either end, in any
    interleaving. *)
Record Link : Type := {
  host_end : Session;
  trezor_end : Session;
  to_trezor : list (list Z);
  to_host : list (list Z);
}.

Record Queues : Type := { q_to_trezor : list (list Z); q_to_host : list (list Z) }.

Inductive event : Type :=
  | HostSeals (m : list Z)
  | TrezorSeals (m : list Z)
  | TrezorOpens (o : outcome TrezorError (list Z))
  | HostOpens (o : outcome TrezorError (list Z)).

Inductive link_step {CR : Crypto} : Link -> event -> Link -> Prop :=
  | step_host_seals h t c2t c2h m :
      link_step {| host_end := h; trezor_end := t; to_trezor := c2t; to_host := c2h |}
        (HostSeals m)
        {| host_end := (session_seal m h).2; trezor_end := t;
           to_trezor := c2t ++ [(session_seal m h).1]; to_host := c2h |}
  | step_trezor_seals h t c2t c2h m :
      link_step {| host_end := h; trezor_end := t; to_trezor := c2t; to_host := c2h |}
        (TrezorSeals m)
        {| host_end := h; trezor_end := (session_seal m t).2;
           to_trezor := c2t; to_host := c2h ++ [(session_seal m t).1] |}
  | step_trezor_opens h t c c2t c2h :
      link_step {| host_end := h; trezor_end := t; to_trezor := c :: c2t; to_host := c2h |}
        (TrezorOpens (session_open c t).1)
        {| host_end := h; trezor_end := (session_open c t).2;
           to_trezor := c2t; to_host := c2h |}
  | step_host_opens h t c c2t c2h :
      link_step {| host_end := h; trezor_end := t; to_trezor := c2t; to_host := c :: c2h |}
        (HostOpens (session_open c h).1)
        {| host_end := (session_open c h).2; trezor_end := t;
           to_trezor := c2t; to_host := c2h |}.

Inductive queues_step : Queues -> event -> Queues -> Prop :=
  | q_host_seals a b m :
      queues_step {| q_to_trezor := a; q_to_host := b |} (HostSeals m)
        {| q_to_trezor := a ++ [m]; q_to_host := b |}
  | q_trezor_seals a b m :
      queues_step {| q_to_trezor := a; q_to_host := b |} (TrezorSeals m)
        {| q_to_trezor := a; q_to_host := b ++ [m] |}
  | q_trezor_opens a b m :
      queues_step {| q_to_trezor := m :: a; q_to_host := b |} (TrezorOpens (Ret m))
        {| q_to_trezor := a; q_to_host := b |}
  | q_host_opens a b m :
      queues_step {| q_to_trezor := a; q_to_host := m :: b |} (HostOpens (Ret m))
        {| q_to_trezor := a; q_to_host := b |}.

(** Finite runs of a labelled transition system. *)
Inductive run {S L : Type} (step : S -> L -> S -> Prop) : S -> list L -> S -> Prop :=
  | run_nil s : run step s [] s
  | run_cons s l s1 ls s' : step s l s1 -> run step s1 ls s' -> run step s (l :: ls) s'.

Lemma run_simulation {S A L : Type} (step : S -> L -> S -> Prop) (spec : A -> L -> A -> Prop)
    (R : S -> A -> Prop) :
  (forall s l s1 a, step s l s1 -> R s a -> exists a1, spec a l a1 /\ R s1 a1) ->
  forall s ls s' a, run step s ls s' -> R s a -> exists a', run spec a ls a' /\ R s' a'.
Proof.
  intros Hsim s ls s' a Hrun. revert a.
  induction Hrun as [s|s l s1 ls s' Hstep _ IH]; intros a HR.
  - exists a. split; [constructor|done].
  - destruct (Hsim _ _ _ _ Hstep HR) as (a1 & Hspec & HR1).
    destruct (IH _ HR1) as (a' & Hrun' & HR'). exists a'. split; [|done].
    by econstructor.
Qed.

Section Refinement.
Context {CR : Crypto} {CL : CryptoLaws}.

Fixpoint ciphers (k : list Z) (n : Z) (msgs : list (list Z)) : list (list Z) :=
  match msgs with
  | [] => []
  | m :: ms => seal k (iv_from_nonce n) [] m :: ciphers k (bump n) ms
  end.

(** One direction: the sender is ahead of the receiver by the messages in
    flight, which are sealed under the nonces in between. *)
Definition direction_ok (sender receiver : Session) (msgs cts : list (list Z)) : Prop :=
  key_send sender = key_recv receiver /\
  nonce_send sender = Nat.iter (length msgs) bump (nonce_recv receiver) /\
  cts = ciphers (key_recv receiver) (nonce_recv receiver) msgs.

Definition link_abs (c : Link) (a : Queues) : Prop :=
  direction_ok (host_end c) (trezor_end c) (q_to_trezor a) (to_trezor c) /\
  direction_ok (trezor_end c) (host_end c) (q_to_host a) (to_host c).

Lemma ciphers_snoc k n msgs m :
  ciphers k n (msgs ++ [m]) =
  ciphers k n msgs ++ [seal k (iv_from_nonce (Nat.iter (length msgs) bump n)) [] m].
Proof.
  revert n. induction msgs as [|m0 ms IH]; intros n; [done|].
  cbn [app ciphers length]. by rewrite IH, Nat.iter_succ_r.
Qed.

Lemma direction_seal s r msgs cts m :
  direction_ok s r msgs cts ->
  direction_ok (session_seal m s).2 r (msgs ++ [m]) (cts ++ [(session_seal m s).1]).
Proof.
  intros (Hk & Hn & ->). unfold direction_ok. simpl. split_and!; [done| |].
  - rewrite length_app, Nat.add_comm. simpl. by rewrite Hn.
  - by rewrite ciphers_snoc, Hk, Hn.
Qed.

Lemma direction_open s r msgs c cts :
  direction_ok s r msgs (c :: cts) ->
  exists m ms, msgs = m :: ms /\ (session_open c r).1 = Ret m /\
    direction_ok s (session_open c r).2 ms cts /\
    key_send (session_open c r).2 = key_send r /\
    nonce_send (session_open c r).2 = nonce_send r.
Proof.
  intros (Hk & Hn & Hc). destruct msgs as [|m ms]; [done|].
  cbn [ciphers] in Hc. simplify_eq. exists m, ms. unfold session_open. mred.
  rewrite open_seal. split_and!; try done.
  unfold direction_ok. simpl. split_and!; [done| |done].
  rewrite Hn. cbn [length]. by rewrite Nat.iter_succ_r.
Qed.

(** The direction in which an endpoint receives does not see what it sends,
    and conversely. *)
Lemma direction_ext s r s' r' msgs cts :
  direction_ok s r msgs cts ->
  key_send s' = key_send s -> nonce_send s' = nonce_send s ->
  key_recv r' = key_recv r -> nonce_recv r' = nonce_recv r ->
  direction_ok s' r' msgs cts.
Proof. unfold direction_ok. by intros ? -> -> -> ->. Qed.

Lemma link_simulation c l c' a :
  link_step c l c' -> link_abs c a -> exists a', queues_step a l a' /\ link_abs c' a'.
Proof.
  intros Hstep [H1 H2]. destruct a as [qa qb].
  destruct Hstep as [h t c2t c2h m|h t c2t c2h m|h t c c2t c2h|h t c c2t c2h];
    cbn [host_end trezor_end to_trezor to_host q_to_trezor q_to_host] in *.
  - eexists. split; [constructor|]. split; simpl.
    + by apply direction_seal.
    + by eapply direction_ext.
  - eexists. split; [constructor|]. split; simpl.
    + by eapply direction_ext.
    + by apply direction_seal.
  - destruct (direction_open _ _ _ _ _ H1) as (m & ms & -> & -> & Hd & Hk & Hn).
    eexists. split; [constructor|]. split; simpl; [done|].
    by eapply direction_ext.
  - destruct (direction_open _ _ _ _ _ H2) as (m & ms & -> & -> & Hd & Hk & Hn).
    eexists. split; [constructor|]. split; simpl; [|done].
    by eapply direction_ext.
Qed.

(** C11: The encrypted channel implements a pair of FIFO queues: every run of
    the sealing and opening code at the two ends of a channel, in any
    interleaving, is a run of the queues. In particular no [open] fails, and
    each returns the payload at the head of its direction. *)
Theorem session_refines_queues h t ls c' :
  key_send h = key_recv t -> nonce_send h = nonce_recv t ->
  key_send t = key_recv h -> nonce_send t = nonce_recv h ->
  run link_step {| host_end := h; trezor_end := t; to_trezor := []; to_host := [] |} ls c' ->
  exists a', run queues_step {| q_to_trezor := []; q_to_host := [] |} ls a' /\
    length (to_trezor c') = length (q_to_trezor a') /\
    length (to_host c') = length (q_to_host a').
Proof.
  intros Hk1 Hn1 Hk2 Hn2 Hrun.
  destruct (run_simulation _ _ _ link_simulation _ _ _
              {| q_to_trezor := []; q_to_host := [] |} Hrun)
    as (a' & Hrun' & (_ & _ & ->) & _ & _ & ->).
  { split; split_and!; done. }
  exists a'. split; [done|].
  assert (forall k n ms, length (ciphers k n ms) = length ms) as Hl.
  { intros k n ms. revert n. induction ms as [|m ms IH]; intros n; simpl; auto. }
  by rewrite !Hl.
Qed.
End Refinement.

Lemma session_refines_queues_witness :
  let CR := toy_crypto in
  let h := session_new [5]%Z [6]%Z 0 1 in
  let t := session_new [6]%Z [5]%Z 1 0 in
  exists a', run queues_step {| q_to_trezor := []; q_to_host := [] |}
    [HostSeals [42]%Z; TrezorOpens (session_open (session_seal [42]%Z h).1 t).1] a' /\
    0 = length (q_to_trezor a') /\ 0 = length (q_to_host a').
Proof.
  intros CR h t.
  apply (session_refines_queues (CR := CR) (CL := toy_crypto_laws) h t _
           {| host_end := (session_seal [42]%Z h).2;
              trezor_end := (session_open (session_seal [42]%Z h).1 t).2;
              to_trezor := []; to_host := [] |}).
  - reflexivity.
  - reflexivity.
  - reflexivity.
  - reflexivity.
  - eapply run_cons; [apply step_host_seals|].
    eapply run_cons; [apply step_trezor_opens|].
    apply run_nil.
Defined.
