(* ===== verification/Noise.v ===== *)
(** * The THP handshake (thp/noise.rs)

    The host side HH0..HH3 ([HostHandshake]) and the device-side responder TH1/TH2
    of [test_support] ([TrezorResponder]), with the agreement theorem between
    them. *)

From S2P Require Import Prelude Types Env Crypto Proto Session.

(** [b"Noise_XX_25519_AESGCM_SHA256\x00\x00\x00\x00"] *)
Definition PROTOCOL_NAME : list Z :=
  str "Noise_XX_25519_AESGCM_SHA256" ++ replicate 4 0%Z.

Definition IV_ZERO : list Z := replicate 12 0%Z.
Definition IV_ONE : list Z := replicate 11 0%Z ++ [1%Z].
Definition PUBKEY_LEN : nat := 32.
Definition ENC_STATIC_LEN : nat := 48.
Definition INIT_RESPONSE_LEN : nat := PUBKEY_LEN + ENC_STATIC_LEN + TAG_LEN.

Section Primitives.
Context {CR : Crypto}.

Definition sha256_concat (parts : list (list Z)) : list Z := sha256 (concat parts).

Definition hmac_sha256 (key msg : list Z) : list Z := hmac_sha256_mac key msg.

Definition hkdf (ck input : list Z) : list Z * list Z :=
  let temp_key := hmac_sha256 ck input in
  let output_1 := hmac_sha256 temp_key [0x01%Z] in
  let second_input := output_1 ++ [0x02%Z] in
  let output_2 := hmac_sha256 temp_key second_input in
  (output_1, output_2).

Definition x25519 (scalar point : list Z) : list Z := x25519_dh scalar point.

Definition public_key (scalar : list Z) : list Z := x25519_public scalar.

Definition random_scalar {W} `{!Env W} : ST W TrezorError (list Z) := random_bytes 32.
End Primitives.

Definition as_array32 (slice : list Z) : outcome TrezorError (list Z) :=
  if length slice =? 32 then Ret slice
  else Fail (thp (str "expected a 32-byte field")).

(** ** The host *)
Record HostHandshake : Type := {
  hs_device_properties : list Z;
  hs_try_to_unlock : Z;
  hs_ephemeral_priv : list Z;
  hs_ephemeral_pub : list Z;
  hs_static_priv : list Z;
  hs_static_pub : list Z;
  hs_host_pairing_credential : option (list Z);
  hs_h : list Z;
  hs_ck : list Z;
  hs_masked_static : list Z;
}.

Section Host.
Context {CR : Crypto} {PM : ThpProto}.

Definition with_ephemeral (device_properties : list Z) (try_to_unlock : Z)
    (static_priv : list Z) (host_pairing_credential : option (list Z))
    (ephemeral_priv : list Z) : HostHandshake :=
  {| hs_device_properties := device_properties;
     hs_try_to_unlock := try_to_unlock;
     hs_ephemeral_priv := ephemeral_priv;
     hs_ephemeral_pub := public_key ephemeral_priv;
     hs_static_priv := static_priv;
     hs_static_pub := public_key static_priv;
     hs_host_pairing_credential := host_pairing_credential;
     hs_h := replicate 32 0%Z;
     hs_ck := replicate 32 0%Z;
     hs_masked_static := replicate 32 0%Z |}.

(** [HostHandshake::new], which draws the ephemeral scalar. *)
Definition handshake_new {W} `{!Env W} (device_properties : list Z)
    (try_to_unlock : Z) (static_priv : list Z)
    (host_pairing_credential : option (list Z)) : ST W TrezorError HostHandshake :=
  ephemeral_priv ← random_scalar;
  mret (with_ephemeral device_properties try_to_unlock static_priv
          host_pairing_credential ephemeral_priv).

Definition init_request_payload (self : HostHandshake) : list Z :=
  hs_ephemeral_pub self ++ [hs_try_to_unlock self].

Definition read_init_response (resp : list Z)
    : ST HostHandshake TrezorError (list Z) :=
  if negb (length resp =? INIT_RESPONSE_LEN) then
    throw (thp (str "handshake init response has the wrong size"))
  else
    self ← get_st;
    eph ← lift (slice resp 0 PUBKEY_LEN);
    trezor_ephemeral_pub ← lift (as_array32 eph);
    enc_static ← lift (slice resp PUBKEY_LEN (PUBKEY_LEN + ENC_STATIC_LEN));
    tag ← lift (slice resp (PUBKEY_LEN + ENC_STATIC_LEN) INIT_RESPONSE_LEN);
    let h := sha256_concat [PROTOCOL_NAME; hs_device_properties self] in
    let h := sha256_concat [h; hs_ephemeral_pub self] in
    let h := sha256_concat [h; [hs_try_to_unlock self]] in
    let h := sha256_concat [h; trezor_ephemeral_pub] in
    let '(ck, k) := hkdf PROTOCOL_NAME
                      (x25519 (hs_ephemeral_priv self) trezor_ephemeral_pub) in
    opened ← lift (open k IV_ZERO h enc_static);
    masked_static ← lift (as_array32 opened);
    let h := sha256_concat [h; enc_static] in
    let '(ck, k) := hkdf ck (x25519 (hs_ephemeral_priv self) masked_static) in
    empty ← lift (open k IV_ZERO h tag);
    if negb (length empty =? 0) then
      throw (thp (str "handshake authentication payload was not empty"))
    else
      let h := sha256_concat [h; tag] in
      let enc_host_static := seal k IV_ONE h (hs_static_pub self) in
      let h := sha256_concat [h; enc_host_static] in
      let '(ck, k) := hkdf ck (x25519 (hs_static_priv self) trezor_ephemeral_pub) in
      let payload := encode_to_vec {|
        host_pairing_credential_field := hs_host_pairing_credential self |} in
      let enc_payload := seal k IV_ZERO h payload in
      let h := sha256_concat [h; enc_payload] in
      put_st {| hs_device_properties := hs_device_properties self;
                hs_try_to_unlock := hs_try_to_unlock self;
                hs_ephemeral_priv := hs_ephemeral_priv self;
                hs_ephemeral_pub := hs_ephemeral_pub self;
                hs_static_priv := hs_static_priv self;
                hs_static_pub := hs_static_pub self;
                hs_host_pairing_credential := hs_host_pairing_credential self;
                hs_h := h; hs_ck := ck; hs_masked_static := masked_static |};;
      mret (enc_host_static ++ enc_payload).

Definition read_completion_response (resp : list Z)
    : ST HostHandshake TrezorError SessionKeys :=
  self ← get_st;
  let '(key_request, key_response) := hkdf (hs_ck self) [] in
  trezor_state ← lift (open key_response IV_ZERO [] resp);
  mret {| key_request := key_request; key_response := key_response;
          nonce_request := 0; nonce_response := 1; trezor_state := trezor_state;
          trezor_masked_static_pubkey := hs_masked_static self;
          handshake_hash := hs_h self;
          host_static_pubkey := hs_static_pub self |}.
End Host.

(** ** The device (test_support) *)
Record TrezorResponder : Type := {
  tr_device_properties : list Z;
  tr_static_priv : list Z;
  tr_static_pub : list Z;
  tr_ephemeral_priv : list Z;
  tr_h : list Z;
  tr_ck : list Z;
  tr_k : list Z;
}.

Record ResponderResult : Type := {
  rr_response : list Z;
  rr_host_static_pub : list Z;
  rr_key_request : list Z;
  rr_key_response : list Z;
}.

Section Responder.
Context {CR : Crypto} {PM : ThpProto}.

Definition responder_new (device_properties static_priv : list Z) : TrezorResponder :=
  {| tr_device_properties := device_properties;
     tr_static_priv := static_priv;
     tr_static_pub := public_key static_priv;
     tr_ephemeral_priv := replicate 32 0%Z;
     tr_h := replicate 32 0%Z; tr_ck := replicate 32 0%Z; tr_k := replicate 32 0%Z |}.

(** [unwrap] of a result: an error is a panic. *)
Definition unwrap {E E2 A} (o : outcome E A) : outcome E2 A :=
  match o with
  | Ret a => Ret a
  | Fail _ => Panic
  | Panic => Panic
  | Pending => Pending
  | NoFuel => NoFuel
  end.

(** TH1, with the scalar drawn by [random_scalar] as an argument. *)
Definition handle_init_request (ephemeral_priv req : list Z)
    : ST TrezorResponder TrezorError (list Z) :=
  self ← get_st;
  eph ← lift (slice req 0 PUBKEY_LEN);
  host_ephemeral_pub ← lift (unwrap (as_array32 eph));
  try_to_unlock ← lift (idx req PUBKEY_LEN);
  let ephemeral_pub := public_key ephemeral_priv in
  let h := sha256_concat [PROTOCOL_NAME; tr_device_properties self] in
  let h := sha256_concat [h; host_ephemeral_pub] in
  let h := sha256_concat [h; [try_to_unlock]] in
  let h := sha256_concat [h; ephemeral_pub] in
  let '(ck, k_a) := hkdf PROTOCOL_NAME (x25519 ephemeral_priv host_ephemeral_pub) in
  let mask := sha256_concat [tr_static_pub self; ephemeral_pub] in
  let masked_static := x25519 mask (tr_static_pub self) in
  let enc_static := seal k_a IV_ZERO h masked_static in
  let h := sha256_concat [h; enc_static] in
  let '(ck, k_b) := hkdf ck
                      (x25519 mask (x25519 (tr_static_priv self) host_ephemeral_pub)) in
  let tag := seal k_b IV_ZERO h [] in
  let h := sha256_concat [h; tag] in
  put_st {| tr_device_properties := tr_device_properties self;
            tr_static_priv := tr_static_priv self;
            tr_static_pub := tr_static_pub self;
            tr_ephemeral_priv := ephemeral_priv;
            tr_h := h; tr_ck := ck; tr_k := k_b |};;
  mret (ephemeral_pub ++ enc_static ++ tag).

(** TH2. *)
Definition handle_completion_request (req : list Z)
    : ST TrezorResponder TrezorError ResponderResult :=
  self ← get_st;
  enc_host_static ← lift (slice req 0 ENC_STATIC_LEN);
  enc_payload ← lift (slice_from req ENC_STATIC_LEN);
  opened ← lift (unwrap (open (tr_k self) IV_ONE (tr_h self) enc_host_static));
  host_static_pub ← lift (unwrap (as_array32 opened));
  let h := sha256_concat [tr_h self; enc_host_static] in
  let '(ck, k_c) := hkdf (tr_ck self) (x25519 (tr_ephemeral_priv self) host_static_pub) in
  payload_bytes ← lift (unwrap (open k_c IV_ZERO h enc_payload));
  msg ← lift (unwrap (map_err (fun e => thp e)
                (decode (T := ThpHandshakeCompletionReqNoisePayload) payload_bytes)));
  let trezor_state := [0x02%Z] in
  let '(key_request, key_response) := hkdf ck [] in
  let response := seal key_response IV_ZERO [] trezor_state in
  mret {| rr_response := response; rr_host_static_pub := host_static_pub;
          rr_key_request := key_request; rr_key_response := key_response |}.
End Responder.

(** ** Agreement *)
Section Agreement.
Context {CR : Crypto} {CL : CryptoLaws} {PM : ThpProto} {PL : ThpProtoLaws}.

Lemma as_array32_ok l : length l = 32 -> as_array32 l = Ret l.
Proof. intros H. unfold as_array32. by rewrite H. Qed.

Lemma seal_length k iv aad m : length (seal k iv aad m) = length m + TAG_LEN.
Proof. apply aes_gcm_length. Qed.

(** The transcript hash after the two ephemeral keys. *)
Definition h_ephemerals (dp host_pub : list Z) (ttu : Z) (trezor_pub : list Z) : list Z :=
  sha256_concat [sha256_concat [sha256_concat [sha256_concat
    [PROTOCOL_NAME; dp]; host_pub]; [ttu]]; trezor_pub].

Lemma handle_init_request_eq te he_pub ttu self ck1 mask masked enc h ck2 tag :
  length he_pub = PUBKEY_LEN ->
  ck1 = hkdf PROTOCOL_NAME (x25519 te he_pub) ->
  mask = sha256_concat [tr_static_pub self; public_key te] ->
  masked = x25519 mask (tr_static_pub self) ->
  h = h_ephemerals (tr_device_properties self) he_pub ttu (public_key te) ->
  enc = seal ck1.2 IV_ZERO h masked ->
  ck2 = hkdf ck1.1 (x25519 mask (x25519 (tr_static_priv self) he_pub)) ->
  tag = seal ck2.2 IV_ZERO (sha256_concat [h; enc]) [] ->
  handle_init_request te (he_pub ++ [ttu]) self =
  (Ret (public_key te ++ enc ++ tag),
   {| tr_device_properties := tr_device_properties self;
      tr_static_priv := tr_static_priv self;
      tr_static_pub := tr_static_pub self;
      tr_ephemeral_priv := te;
      tr_h := sha256_concat [sha256_concat [h; enc]; tag];
      tr_ck := ck2.1; tr_k := ck2.2 |}).
Proof.
  intros Hl Hck1 Hmask Hmasked Hh Henc Hck2 Htag. unfold handle_init_request. mred.
  rewrite slice_prefix by done. rewrite as_array32_ok by done. cbn [unwrap].
  rewrite (idx_ret _ _ ttu) by (rewrite lookup_app_r, Hl by lia; done).
  fold (h_ephemerals (tr_device_properties self) he_pub ttu (public_key te)).
  rewrite <- Hck1. destruct ck1 as [c1 k1]. cbn [fst snd] in *.
  rewrite <- Hmask, <- Hmasked, <- Hh, <- Henc, <- Hck2.
  destruct ck2 as [c2 k2]. cbn [fst snd] in *. by rewrite <- Htag.
Qed.

Lemma read_init_response_eq self epub masked ck1 ck2 ck3 h h2 h3 enc tag ehs ep :
  length epub = PUBKEY_LEN -> length masked = 32 ->
  h = h_ephemerals (hs_device_properties self) (hs_ephemeral_pub self)
        (hs_try_to_unlock self) epub ->
  ck1 = hkdf PROTOCOL_NAME (x25519 (hs_ephemeral_priv self) epub) ->
  enc = seal ck1.2 IV_ZERO h masked ->
  ck2 = hkdf ck1.1 (x25519 (hs_ephemeral_priv self) masked) ->
  tag = seal ck2.2 IV_ZERO (sha256_concat [h; enc]) [] ->
  h2 = sha256_concat [sha256_concat [h; enc]; tag] ->
  ehs = seal ck2.2 IV_ONE h2 (hs_static_pub self) ->
  h3 = sha256_concat [h2; ehs] ->
  ck3 = hkdf ck2.1 (x25519 (hs_static_priv self) epub) ->
  ep = seal ck3.2 IV_ZERO h3 (encode_to_vec
         {| host_pairing_credential_field := hs_host_pairing_credential self |}) ->
  read_init_response (epub ++ enc ++ tag) self =
  (Ret (ehs ++ ep),
   {| hs_device_properties := hs_device_properties self;
      hs_try_to_unlock := hs_try_to_unlock self;
      hs_ephemeral_priv := hs_ephemeral_priv self;
      hs_ephemeral_pub := hs_ephemeral_pub self;
      hs_static_priv := hs_static_priv self;
      hs_static_pub := hs_static_pub self;
      hs_host_pairing_credential := hs_host_pairing_credential self;
      hs_h := sha256_concat [h3; ep]; hs_ck := ck3.1; hs_masked_static := masked |}).
Proof.
  intros Hl Hm Hh Hck1 Henc Hck2 Htag Hh2 Hehs Hh3 Hck3 Hep.
  assert (length enc = ENC_STATIC_LEN) as Hle by (by rewrite Henc, seal_length, Hm).
  assert (length tag = TAG_LEN) as Hlt by (by rewrite Htag, seal_length).
  unfold read_init_response. rewrite !length_app, Hl, Hle, Hlt.
  change (negb (PUBKEY_LEN + (ENC_STATIC_LEN + TAG_LEN) =? INIT_RESPONSE_LEN)) with false.
  mred. rewrite slice_prefix by done. rewrite as_array32_ok by done.
  rewrite slice_mid by (by rewrite ?Hl, ?Hle).
  rewrite (app_assoc epub), slice_suffix by (by rewrite ?length_app, ?Hl, ?Hle, ?Hlt).
  fold (h_ephemerals (hs_device_properties self) (hs_ephemeral_pub self)
          (hs_try_to_unlock self) epub).
  rewrite <- Hh, <- Hck1. destruct ck1 as [c1 k1]. cbn [fst snd] in *.
  rewrite Henc at 1. rewrite open_seal, as_array32_ok by done.
  rewrite <- Hck2. destruct ck2 as [c2 k2]. cbn [fst snd] in *.
  rewrite Htag at 1. rewrite open_seal. cbn [length Nat.eqb negb].
  rewrite <- Hh2, <- Hehs, <- Hh3, <- Hck3. destruct ck3 as [c3 k3].
  cbn [fst snd] in *. by rewrite <- Hep.
Qed.

Lemma handle_completion_request_eq self hs_pub ck3 h3 ehs ep pl keys :
  length hs_pub = 32 ->
  ehs = seal (tr_k self) IV_ONE (tr_h self) hs_pub ->
  h3 = sha256_concat [tr_h self; ehs] ->
  ck3 = hkdf (tr_ck self) (x25519 (tr_ephemeral_priv self) hs_pub) ->
  ep = seal ck3.2 IV_ZERO h3
         (encode_to_vec (pl : ThpHandshakeCompletionReqNoisePayload)) ->
  keys = hkdf ck3.1 [] ->
  handle_completion_request (ehs ++ ep) self =
  (Ret {| rr_response := seal keys.2 IV_ZERO [] [0x02%Z];
          rr_host_static_pub := hs_pub;
          rr_key_request := keys.1; rr_key_response := keys.2 |}, self).
Proof.
  intros Hl Hehs Hh3 Hck3 Hep Hkeys.
  assert (length ehs = ENC_STATIC_LEN) as Hle by (by rewrite Hehs, seal_length, Hl).
  unfold handle_completion_request. mred.
  rewrite slice_prefix by done. rewrite slice_from_suffix by done.
  rewrite Hehs at 1. rewrite open_seal. cbn [unwrap].
  rewrite as_array32_ok by done. cbn [unwrap]. rewrite <- Hh3, <- Hck3.
  destruct ck3 as [c3 k3]. cbn [fst snd] in *.
  rewrite Hep, open_seal. cbn [unwrap]. rewrite decode_encode. cbn [map_err unwrap].
  rewrite <- Hkeys. by destruct keys.
Qed.

Lemma seal_ok k iv aad m : bytes_ok m -> bytes_ok (seal k iv aad m).
Proof. intros Hm. by apply aes_gcm_ok. Qed.

(** The host's secret with the masked static key is the device's, who masks after. *)
Lemma masked_secret he ts mask :
  x25519 he (x25519 mask (public_key ts)) = x25519 mask (x25519 ts (public_key he)).
Proof. unfold x25519. rewrite dh_comm. unfold public_key. by rewrite dh_public. Qed.

Lemma read_completion_response_eq self kr ks state :
  hkdf (hs_ck self) [] = (kr, ks) ->
  read_completion_response (seal ks IV_ZERO [] state) self =
  (Ret {| key_request := kr; key_response := ks; nonce_request := 0; nonce_response := 1;
          trezor_state := state; trezor_masked_static_pubkey := hs_masked_static self;
          handshake_hash := hs_h self; host_static_pubkey := hs_static_pub self |}, self).
Proof. intros H. unfold read_completion_response. mred. rewrite H. by rewrite open_seal. Qed.

(** The result of the whole exchange, in the order the messages travel. *)
Lemma handshake_exchange dp ttu hs cred he ts te :
  let host := with_ephemeral dp ttu hs cred he in
  exists resp trezor req host' result keys,
    handle_init_request te (init_request_payload host) (responder_new dp ts)
    = (Ret resp, trezor) /\
    length resp = INIT_RESPONSE_LEN /\ bytes_ok resp /\
    read_init_response resp host = (Ret req, host') /\
    length req = ENC_STATIC_LEN + TAG_LEN + length (encode_to_vec
      {| host_pairing_credential_field := cred |}) /\ bytes_ok req /\
    handle_completion_request req trezor = (Ret result, trezor) /\
    length (rr_response result) = 1 + TAG_LEN /\ bytes_ok (rr_response result) /\
    rr_host_static_pub result = public_key hs /\
    read_completion_response (rr_response result) host' = (Ret keys, host') /\
    keys = {| key_request := rr_key_request result;
              key_response := rr_key_response result;
              nonce_request := 0; nonce_response := 1; trezor_state := [0x02%Z];
              trezor_masked_static_pubkey :=
                x25519 (sha256_concat [public_key ts; public_key te]) (public_key ts);
              handshake_hash := hs_h host'; host_static_pubkey := public_key hs |}.
Proof.
  intros host.
  assert (Hpub : forall a, length (public_key a) = PUBKEY_LEN) by (intros; apply public_length).
  set (mask := sha256_concat [public_key ts; public_key te]).
  set (masked := x25519 mask (public_key ts)).
  assert (Hm : length masked = 32) by apply dh_length.
  pose proof (handle_init_request_eq te (public_key he) ttu (responder_new dp ts)
    _ _ _ _ _ _ _ (Hpub he) eq_refl eq_refl eq_refl eq_refl eq_refl eq_refl eq_refl)
    as Hinit.
  cbn [responder_new tr_static_pub tr_static_priv tr_device_properties] in Hinit.
  fold mask in Hinit. fold masked in Hinit.
  pose proof (read_init_response_eq host (public_key te) masked _ _ _ _ _ _ _ _ _ _
    (Hpub te) Hm eq_refl eq_refl eq_refl eq_refl eq_refl eq_refl eq_refl eq_refl
    eq_refl eq_refl) as Hread.
  cbn [host with_ephemeral hs_ephemeral_priv hs_static_priv hs_static_pub
    hs_device_properties hs_ephemeral_pub hs_try_to_unlock
    hs_host_pairing_credential] in Hread.
  assert (Hss1 : x25519 he (public_key te) = x25519 te (public_key he)) by apply dh_public.
  assert (Hss2 : x25519 hs (public_key te) = x25519 te (public_key hs)) by apply dh_public.
  rewrite Hss1, (masked_secret he ts mask : x25519 he masked = _), Hss2 in Hread.
  eexists _, _, _, _, _, _. split; [exact Hinit|].
  split; [by rewrite !length_app, !seal_length, Hpub, Hm|].
  split; [rewrite !bytes_ok_app; split_and!; auto using public_ok, seal_ok, dh_ok; apply seal_ok;
          [apply dh_ok|constructor]|].
  split; [exact Hread|].
  split; [rewrite !length_app, !seal_length, Hpub; unfold ENC_STATIC_LEN, PUBKEY_LEN, TAG_LEN; lia|].
  split; [rewrite !bytes_ok_app; split; apply seal_ok; [apply public_ok|apply encode_ok]|].
  split; [eapply handle_completion_request_eq; [apply Hpub|reflexivity..]|].
  cbn [rr_response rr_host_static_pub rr_key_request rr_key_response hs_h].
  split; [by rewrite seal_length|]. split; [by apply seal_ok, bytes_okb_true|].
  split; [reflexivity|]. refine (conj _ eq_refl).
  apply read_completion_response_eq, surjective_pairing.
Qed.

(** C17: Against a device that follows the specification, for every device
    properties blob, unlock byte, credential and pair of static and ephemeral
    keys, the handshake completes on both sides: the derived request and
    response keys agree, the device recovers the host's static public key, the
    host decrypts the device's state, and the nonces start at 0 and 1. *)
Theorem handshake_agreement dp ttu hs cred he ts te :
  let host := with_ephemeral dp ttu hs cred he in
  exists resp trezor req host' result keys,
    handle_init_request te (init_request_payload host) (responder_new dp ts)
    = (Ret resp, trezor) /\
    read_init_response resp host = (Ret req, host') /\
    (handle_completion_request req trezor).1 = Ret result /\
    (read_completion_response (rr_response result) host').1 = Ret keys /\
    key_request keys = rr_key_request result /\
    key_response keys = rr_key_response result /\
    rr_host_static_pub result = public_key hs /\
    host_static_pubkey keys = public_key hs /\
    trezor_masked_static_pubkey keys
    = x25519 (sha256_concat [public_key ts; public_key te]) (public_key ts) /\
    trezor_state keys = [0x02%Z] /\ nonce_request keys = 0%Z /\ nonce_response keys = 1%Z.
Proof.
  intros host.
  destruct (handshake_exchange dp ttu hs cred he ts te)
    as (resp & trezor & req & host' & result & keys & H1 & _ & _ & H2 & _ & _ & H3
        & _ & _ & Hpub & H4 & Hkeys).
  exists resp, trezor, req, host', result, keys.
  rewrite H3, H4, Hkeys. split; [exact H1|]. split; [exact H2|].
  cbn [key_request key_response host_static_pubkey trezor_masked_static_pubkey
    trezor_state nonce_request nonce_response]. by rewrite Hpub.
Qed.

(** Any response of another length is rejected before the state changes. *)
Lemma read_init_response_size resp self :
  length resp <> INIT_RESPONSE_LEN ->
  read_init_response resp self
  = (Fail (thp (str "handshake init response has the wrong size")), self).
Proof.
  intros H. unfold read_init_response. apply Nat.eqb_neq in H. by rewrite H.
Qed.
End Agreement.

Lemma handshake_agreement_witness :
  let CR := toy_crypto in
  let PM := toy_thp_proto in
  let host := with_ephemeral [1; 2]%Z 0 (replicate 32 0x11%Z) None (replicate 32 3%Z) in
  exists resp trezor req host' result keys,
    handle_init_request (replicate 32 4%Z) (init_request_payload host)
      (responder_new [1; 2]%Z (replicate 32 0x22%Z)) = (Ret resp, trezor) /\
    read_init_response resp host = (Ret req, host') /\
    (handle_completion_request req trezor).1 = Ret result /\
    (read_completion_response (rr_response result) host').1 = Ret keys /\
    key_request keys = rr_key_request result /\
    key_response keys = rr_key_response result /\
    rr_host_static_pub result = public_key (replicate 32 0x11%Z) /\
    host_static_pubkey keys = public_key (replicate 32 0x11%Z) /\
    trezor_masked_static_pubkey keys
    = x25519 (sha256_concat [public_key (replicate 32 0x22%Z); public_key (replicate 32 4%Z)])
        (public_key (replicate 32 0x22%Z)) /\
    trezor_state keys = [0x02%Z] /\ nonce_request keys = 0%Z /\ nonce_response keys = 1%Z.
Proof.
  intros CR PM.
  exact (handshake_agreement (CR := CR) (CL := toy_crypto_laws) (PM := PM)
           (PL := toy_thp_proto_laws) [1; 2]%Z 0 (replicate 32 0x11%Z) None
           (replicate 32 3%Z) (replicate 32 0x22%Z) (replicate 32 4%Z)).
Defined.
