(* ===== verification/Connection.v ===== *)
(** * THP connection driver (thp/connection.rs)

    [Connection] over an environment [W]: framed I/O, the Alternating Bit
    Protocol, channel allocation, the handshake and the application-message
    layer. A method on [&mut self] is a computation over [Connection * W]. The
    loops that read until the device answers take [fuel]; the theorems of
    ConnectionSafe.v show how much is enough. *)

From S2P Require Import Prelude Types Env Crypto Proto Framing Channel Session Noise.

Definition MSG_SUCCESS : Z := 2.
Definition MSG_FAILURE : Z := 3.
Definition MSG_BUTTON_REQUEST : Z := 26.
Definition MSG_BUTTON_ACK : Z := 27.
Definition MSG_CREATE_NEW_SESSION : Z := 1000.
Definition MANAGEMENT_SESSION_ID : Z := 0.
Definition SEEDED_SESSION_ID : Z := 1.
Definition CONTINUATION_BIT : Z := 0x80.
Definition MAX_ALLOC_READS : nat := 8.

(** The em dash of the messages is U+2014. *)
Definition em_dash : rstring := [0x2014%Z].

Definition decode_transport_error (payload : list Z) : TrezorError :=
  let code := default 0%Z (head payload) in
  if (code =? 1)%Z then TransportBusy
  else
    let detail :=
      if (code =? 2)%Z then
        str "the channel is unallocated " ++ em_dash
        ++ str " the device released it; reconnect to allocate a new one"
      else if (code =? 3)%Z then
        str "decryption failed (bad authentication tag); the channel must be re-established"
      else if (code =? 5)%Z then
        str "the device is locked " ++ em_dash
        ++ str " unlock your Trezor (enter your PIN on the device) and retry"
      else str "unrecognized THP transport error" in
    thp (str "THP transport error " ++ dec code ++ str ": " ++ detail).

Record Connection : Type := {
  packet_size : nat;
  cid : Z;
  send_seq : Z;
  recv_seq : Z;
  session : option Session;
  active_session_id : Z;
  seeded_with : option (option rstring * bool);
  pending_data : option (Z * list Z);
}.

Definition connection_new (packet_size : nat) : Connection :=
  {| packet_size := packet_size; cid := BROADCAST_CID; send_seq := 0; recv_seq := 0;
     session := None; active_session_id := MANAGEMENT_SESSION_ID;
     seeded_with := None; pending_data := None |}.

(** ** Field assignments *)
Definition set_cid (v : Z) (self : Connection) : Connection :=
  {| packet_size := packet_size self; cid := v; send_seq := send_seq self;
     recv_seq := recv_seq self; session := session self;
     active_session_id := active_session_id self; seeded_with := seeded_with self;
     pending_data := pending_data self |}.
Definition set_send_seq (v : Z) (self : Connection) : Connection :=
  {| packet_size := packet_size self; cid := cid self; send_seq := v;
     recv_seq := recv_seq self; session := session self;
     active_session_id := active_session_id self; seeded_with := seeded_with self;
     pending_data := pending_data self |}.
Definition set_recv_seq (v : Z) (self : Connection) : Connection :=
  {| packet_size := packet_size self; cid := cid self; send_seq := send_seq self;
     recv_seq := v; session := session self;
     active_session_id := active_session_id self; seeded_with := seeded_with self;
     pending_data := pending_data self |}.
Definition put_session (v : option Session) (self : Connection) : Connection :=
  {| packet_size := packet_size self; cid := cid self; send_seq := send_seq self;
     recv_seq := recv_seq self; session := v;
     active_session_id := active_session_id self; seeded_with := seeded_with self;
     pending_data := pending_data self |}.
Definition set_active_session_id (v : Z) (self : Connection) : Connection :=
  {| packet_size := packet_size self; cid := cid self; send_seq := send_seq self;
     recv_seq := recv_seq self; session := session self;
     active_session_id := v; seeded_with := seeded_with self;
     pending_data := pending_data self |}.
Definition set_seeded_with (v : option (option rstring * bool)) (self : Connection)
    : Connection :=
  {| packet_size := packet_size self; cid := cid self; send_seq := send_seq self;
     recv_seq := recv_seq self; session := session self;
     active_session_id := active_session_id self; seeded_with := v;
     pending_data := pending_data self |}.
Definition set_pending_data (v : option (Z * list Z)) (self : Connection) : Connection :=
  {| packet_size := packet_size self; cid := cid self; send_seq := send_seq self;
     recv_seq := recv_seq self; session := session self;
     active_session_id := active_session_id self; seeded_with := seeded_with self;
     pending_data := v |}.

(** [self.send_seq ^= 1], [self.recv_seq ^= 1] *)
Definition flip_send (self : Connection) : Connection :=
  set_send_seq (Z.lxor (send_seq self) 1) self.
Definition flip_recv (self : Connection) : Connection :=
  set_recv_seq (Z.lxor (recv_seq self) 1) self.

Definition seeded_key (self : Connection) : option (option rstring * bool) :=
  seeded_with self.
Definition set_session (s : Session) (self : Connection) : Connection :=
  put_session (Some s) self.

(** ** The driver *)

(** A method on [&mut self] that awaits the transport. *)
Abbreviation Conn W := (ST (Connection * W) TrezorError).

Section Driver.
Context {CR : Crypto} {PM : ThpProto} {W : Type} `{!Env W}.

Definition conn_get : Conn W Connection := fun s => (Ret s.1, s).
Definition conn_modify (f : Connection -> Connection) : Conn W unit := fun s =>
  (Ret tt, (f s.1, s.2)).
Definition on_env {A} (m : ST W TrezorError A) : Conn W A := fun s =>
  let '(o, w') := m s.2 in (o, (s.1, w')).

(** *** Raw framed message I/O *)
Fixpoint write_packets (packets : list (list Z)) : Conn W unit :=
  match packets with
  | [] => mret tt
  | packet :: rest => on_env (env_write packet);; write_packets rest
  end.

Definition write_framed (ctrl : Z) (payload : list Z) : Conn W unit :=
  self ← conn_get;
  packets ← lift (segment (packet_size self) (cid self) ctrl payload);
  write_packets packets.

Fixpoint read_loop (fuel : nat) (reasm : Reassembler) (ctrl : Z)
    : Conn W (Z * list Z) :=
  match fuel with
  | O => lift NoFuel
  | S fuel' =>
    chunk ← on_env env_read;
    match chunk with
    | [] => read_loop fuel' reasm ctrl
    | chunk_0 :: _ =>
      let ctrl := if (Z.land chunk_0 CONTINUATION_BIT =? 0)%Z then chunk_0 else ctrl in
      let '(pushed, reasm) := push_packet chunk reasm in
      done ← lift pushed;
      match done with
      | Some payload =>
        if (ctrl =? control.TRANSPORT_ERROR)%Z
        then throw (decode_transport_error payload)
        else mret (ctrl, payload)
      | None => read_loop fuel' reasm ctrl
      end
    end
  end.

Definition read_framed (fuel : nat) : Conn W (Z * list Z) :=
  read_loop fuel reassembler_new 0.

(** *** Alternating Bit Protocol *)
Definition send_ack (acked_seq : Z) : Conn W unit :=
  write_framed (control.ack_for acked_seq) [].

(** The loop of [send_data]: wait for the ACK of [self.send_seq]. *)
Fixpoint await_ack (fuel n : nat) : Conn W unit :=
  match n with
  | O => lift NoFuel
  | S n' =>
    r ← read_framed fuel;
    let '(rctrl, rpayload) := r in
    self ← conn_get;
    if control.is_ack rctrl then
      if (control.ack_seq_of rctrl =? send_seq self)%Z
      then conn_modify flip_send
      else await_ack fuel n'
    else
      conn_modify flip_send;;
      let seq := control.seq_of rctrl in
      send_ack seq;;
      self ← conn_get;
      if (seq =? recv_seq self)%Z then
        conn_modify flip_recv;;
        conn_modify (set_pending_data (Some (rctrl, rpayload)))
      else mret tt
  end.

Definition send_data (fuel : nat) (base_ctrl : Z) (payload : list Z) : Conn W unit :=
  self ← conn_get;
  let ctrl := control.with_seq base_ctrl (send_seq self) in
  write_framed ctrl payload;;
  await_ack fuel fuel.

(** The loop of [recv_data]. *)
Fixpoint await_data (fuel n : nat) : Conn W (Z * list Z) :=
  match n with
  | O => lift NoFuel
  | S n' =>
    r ← read_framed fuel;
    let '(ctrl, payload) := r in
    if control.is_ack ctrl then await_data fuel n'
    else
      let seq := control.seq_of ctrl in
      send_ack seq;;
      self ← conn_get;
      if (seq =? recv_seq self)%Z then
        conn_modify flip_recv;;
        mret (ctrl, payload)
      else await_data fuel n'
  end.

Definition recv_data (fuel : nat) : Conn W (Z * list Z) :=
  self ← conn_get;
  match pending_data self with
  | Some frame => conn_modify (set_pending_data None);; mret frame
  | None => await_data fuel fuel
  end.

(** *** Channel allocation *)
Fixpoint allocate_loop (fuel n : nat) (nonce : list Z) : Conn W ChannelAllocation :=
  match n with
  | O => throw (thp (str "no matching channel allocation response received"))
  | S n' =>
    r ← read_framed fuel;
    let '(ctrl, payload) := r in
    if (ctrl =? control.CHANNEL_ALLOCATION_RESPONSE)%Z then
      match parse_allocation_response nonce payload with
      | Ret allocation =>
        conn_modify (set_cid (alloc_cid allocation));;
        conn_modify (set_send_seq 0);;
        conn_modify (set_recv_seq 0);;
        conn_modify (set_pending_data None);;
        mret allocation
      | Fail _ => allocate_loop fuel n' nonce
      | Panic => lift Panic
      | Pending => lift Pending
      | NoFuel => lift NoFuel
      end
    else allocate_loop fuel n' nonce
  end.

Definition allocate (fuel : nat) : Conn W ChannelAllocation :=
  nonce ← on_env random_allocation_nonce;
  conn_modify (set_cid BROADCAST_CID);;
  write_framed control.CHANNEL_ALLOCATION_REQUEST (build_allocation_request nonce);;
  allocate_loop fuel MAX_ALLOC_READS nonce.

(** *** The handshake over the channel *)
Definition handshake (fuel : nat) (device_properties_raw host_static_priv : list Z)
    (credential : option (list Z)) : Conn W SessionKeys :=
  hs ← on_env (handshake_new device_properties_raw 0 host_static_priv credential);
  send_data fuel control.HANDSHAKE_INIT_REQUEST (init_request_payload hs);;
  r ← recv_data fuel;
  let '(_, init_resp) := r in
  let '(completion, hs) := read_init_response init_resp hs in
  completion ← lift completion;
  send_data fuel control.HANDSHAKE_COMPLETION_REQUEST completion;;
  r ← recv_data fuel;
  let '(_, comp_resp) := r in
  let '(keys, _) := read_completion_response comp_resp hs in
  lift keys.

(** *** Application messages *)
Definition no_session : TrezorError := thp (str "no encrypted session established").

Definition send_app (fuel : nat) (message_type : Z) (protobuf : list Z) : Conn W unit :=
  self ← conn_get;
  s ← lift (ok_or no_session (session self));
  let payload := encode_app_message (active_session_id self) message_type protobuf in
  let '(ct, s) := session_seal payload s in
  conn_modify (put_session (Some s));;
  send_data fuel control.ENCRYPTED_TRANSPORT ct.

Definition recv_app (fuel : nat) : Conn W (Z * list Z) :=
  r ← recv_data fuel;
  let '(_, ct) := r in
  self ← conn_get;
  s ← lift (ok_or no_session (session self));
  let '(opened, s) := session_open ct s in
  conn_modify (put_session (Some s));;
  pt ← lift opened;
  m ← lift (decode_app_message pt);
  let '(_, message_type, body) := m in
  mret (message_type, body).

Definition decode_failure (proto : list Z) : TrezorError :=
  match decode (T := Failure) proto with
  | inr f =>
    let code := default 0%Z (f_code f) in
    let reason := default [] (f_message f) in
    if (code =? 4)%Z then UserCanceled else DeviceRejected code reason
  | inl _ => thp (str "device returned an undecodable Failure")
  end.

(** The loop of [transceive]: one iteration per reply of the device. *)
Fixpoint transceive_loop (fuel n : nat) : Conn W (Z * list Z) :=
  match n with
  | O => lift NoFuel
  | S n' =>
    r ← recv_app fuel;
    let '(rt, rp) := r in
    if (rt =? MSG_BUTTON_REQUEST)%Z then
      send_app fuel MSG_BUTTON_ACK (encode_to_vec mkButtonAck);;
      transceive_loop fuel n'
    else if (rt =? MSG_FAILURE)%Z then throw (decode_failure rp)
    else mret (rt, rp)
  end.

Definition transceive (fuel : nat) (message_type : Z) (protobuf : list Z)
    : Conn W (Z * list Z) :=
  send_app fuel message_type protobuf;;
  transceive_loop fuel fuel.

Definition transceive_on (fuel : nat) (session_id message_type : Z)
    (protobuf : list Z) : Conn W (Z * list Z) :=
  conn_modify (set_active_session_id session_id);;
  transceive fuel message_type protobuf.

Definition create_seeded_session (fuel : nat) (passphrase : option rstring)
    (on_device : bool) : Conn W unit :=
  conn_modify (set_active_session_id SEEDED_SESSION_ID);;
  let key := (passphrase, on_device) in
  let msg := {| cns_passphrase := passphrase; cns_on_device := Some on_device;
                cns_derive_cardano := Some false |} in
  r ← transceive fuel MSG_CREATE_NEW_SESSION (encode_to_vec msg);
  let '(rt, _) := r in
  if negb (rt =? MSG_SUCCESS)%Z then
    throw (thp (str "expected Success after ThpCreateNewSession, got message type "
                ++ dec rt))
  else conn_modify (set_seeded_with (Some key)).
End Driver.
