(* ===== verification/ConnectionSafe.v ===== *)
(** * The driver on any device input: safety, invariant and termination

    A total-correctness triple [respects_or] over every script, proved for each
    operation of Connection.v by composition: no panic (or one only where a given
    condition holds), enough fuel, the invariant of the connection kept, and a read
    that stays pending only when the device has gone silent. AnyDevice.v carries it
    through the chain modules and the client. *)

From S2P Require Import Prelude Types Env Crypto Proto Framing Channel Session Noise Connection.

(** ** Invariants *)
Definition wf_pending (p : option (Z * list Z)) : Prop :=
  match p with
  | Some (ctrl, payload) => control.is_ack ctrl = false /\ bytes_ok payload
  | None => True
  end.

Lemma wf_pending_none : wf_pending None.
Proof. done. Qed.

(** The sequence bits are bits, the channel and session ids fit their width, and
    a stashed frame is a data frame. *)
Definition wf_connection (c : Connection) : Prop :=
  (0 <= cid c < u16_mod)%Z /\ is_bit (send_seq c) /\ is_bit (recv_seq c) /\
  is_byte (active_session_id c) /\ wf_pending (pending_data c).

Definition wf_script (w : Script) : Prop :=
  Forall (fun r => match r with inr chunk => bytes_ok chunk | inl _ => True end) (inbox w) /\
  bytes_ok (entropy w).

(** ** The triple *)
(** From a state with fewer than [n] reports left, [m] ends in a good state; it
    returns a value satisfying [Q] after reading at least [d] reports, or an
    error, or waits with no report left, or panics where [P] holds. *)
Definition respects_or (P : Script -> Prop) {A : Type} (n d : nat) (Q : A -> Prop)
    (m : Conn Script A) : Prop :=
  forall c w, wf_connection c -> wf_script w -> length (inbox w) < n ->
  match m (c, w) with
  | (o, (c', w')) =>
    wf_connection c' /\ wf_script w' /\ length (inbox w') <= length (inbox w) /\
    match o with
    | Ret a => length (inbox w') + d <= length (inbox w) /\ Q a
    | Fail _ => True
    | Pending => inbox w' = []
    | Panic => P w'
    | NoFuel => False
    end
  end.

Section Triple.
Context {P : Script -> Prop} {A : Type}.
Abbreviation respects := (respects_or P).

Lemma respects_weaken n n' d d' Q (m : Conn Script A) :
  respects n d Q m -> n' <= n -> d' <= d -> respects n' d' Q m.
Proof.
  intros Hm Hn Hd c w Hc Hw Hl. specialize (Hm c w Hc Hw ltac:(lia)).
  destruct (m (c, w)) as [[a|e| | |] [c' w']]; intuition (auto; lia).
Qed.

Lemma respects_ret n (Q : A -> Prop) a : Q a -> respects n 0 Q (mret a).
Proof. intros H c w Hc Hw _. cbn. split_and!; auto; lia. Qed.

Lemma respects_throw n d (Q : A -> Prop) e : respects n d Q (throw e).
Proof. intros c w Hc Hw _. cbn. auto. Qed.

(** A pure step that returns or reports an error. *)
Lemma respects_lift n (Q : A -> Prop) (o : outcome TrezorError A) :
  match o with Ret a => Q a | Fail _ => True | _ => False end -> respects n 0 Q (lift o).
Proof. intros H c w Hc Hw _. cbn. destruct o; split_and!; auto; lia. Qed.
End Triple.

Section Bind.
Context {P : Script -> Prop} {A B : Type}.
Abbreviation respects := (respects_or P).

Lemma respects_bind n d1 d2 (Q1 : A -> Prop) (Q2 : B -> Prop)
    (m : Conn Script A) (f : A -> Conn Script B) :
  respects n d1 Q1 m -> (forall a, Q1 a -> respects (n - d1) d2 Q2 (f a)) ->
  respects n (d1 + d2) Q2 (m ≫= f).
Proof.
  intros Hm Hf c w Hc Hw Hl. specialize (Hm c w Hc Hw Hl). unfold mbind, st_bind.
  destruct (m (c, w)) as [[a|e| | |] [c' w']].
  - destruct Hm as (Hc' & Hw' & Hle & Hd & Ha).
    destruct (f a (c', w')) as [o [c'' w'']] eqn:E.
    specialize (Hf a Ha c' w' Hc' Hw'). rewrite E in Hf.
    destruct Hf as (? & ? & ? & Ho); [lia|].
    split_and!; try done; [lia|]. destruct o; intuition (auto; lia).
  - done.
  - done.
  - done.
  - by destruct Hm as (_ & _ & _ & []).
Qed.

Lemma respects_if n d (Q : A -> Prop) (b : bool) (m1 m2 : Conn Script A) :
  (b = true -> respects n d Q m1) -> (b = false -> respects n d Q m2) ->
  respects n d Q (if b then m1 else m2).
Proof. destruct b; auto. Qed.

Lemma respects_modify n f :
  (forall c, wf_connection c -> wf_connection (f c)) ->
  respects n 0 (fun _ => True) (conn_modify (W := Script) f).
Proof. intros Hf c w Hc Hw _. cbn. split_and!; auto; lia. Qed.
End Bind.

(** The post-condition of a computation whose value is not constrained. *)
Abbreviation anything := (fun _ => True) (only parsing).

Lemma respects_get {P} n : respects_or P n 0 wf_connection (conn_get (W := Script)).
Proof. intros c w Hc Hw _. cbn. split_and!; auto; lia. Qed.

(** Sequencing with the count of the second computation only. *)
Lemma respects_seq {P A B} n d (Q1 : A -> Prop) (Q2 : B -> Prop)
    (m : Conn Script A) (f : A -> Conn Script B) :
  respects_or P n 0 Q1 m -> (forall a, Q1 a -> respects_or P n d Q2 (f a)) ->
  respects_or P n d Q2 (m ≫= f).
Proof.
  intros Hm Hf. apply (respects_bind n 0 d Q1); [done|]. intros a Ha.
  rewrite Nat.sub_0_r. auto.
Qed.

Create HintDb conn discriminated.
#[export] Hint Resolve respects_get respects_throw : conn.

(** ** Updates of the connection *)
Section Updates.
Context (c : Connection) (Hc : wf_connection c).

Lemma wf_flip_send : wf_connection (flip_send c).
Proof.
  destruct Hc as (? & Hs & ?). split_and!; cbn; try tauto. by apply lxor_bit.
Qed.

Lemma wf_flip_recv : wf_connection (flip_recv c).
Proof.
  destruct Hc as (? & ? & Hr & ?). split_and!; cbn; try tauto. by apply lxor_bit.
Qed.

Lemma wf_set_cid v : (0 <= v < u16_mod)%Z -> wf_connection (set_cid v c).
Proof. intros H. destruct Hc as (? & ?). split; cbn; tauto. Qed.

Lemma wf_set_send_seq v : is_bit v -> wf_connection (set_send_seq v c).
Proof. intros H. destruct Hc as (? & ? & ?). split_and!; cbn; tauto. Qed.

Lemma wf_set_recv_seq v : is_bit v -> wf_connection (set_recv_seq v c).
Proof. intros H. destruct Hc as (? & ? & ? & ?). split_and!; cbn; tauto. Qed.

Lemma wf_put_session v : wf_connection (put_session v c).
Proof. exact Hc. Qed.

Lemma wf_set_active v : is_byte v -> wf_connection (set_active_session_id v c).
Proof. intros H. destruct Hc as (? & ? & ? & ? & ?). split_and!; cbn; tauto. Qed.

Lemma wf_set_seeded v : wf_connection (set_seeded_with v c).
Proof. exact Hc. Qed.

Lemma wf_set_pending v : wf_pending v -> wf_connection (set_pending_data v c).
Proof. intros H. destruct Hc as (? & ? & ? & ? & ?). split_and!; cbn; tauto. Qed.
End Updates.

#[export] Hint Resolve wf_flip_send wf_flip_recv wf_set_cid wf_set_send_seq wf_set_recv_seq
  wf_put_session wf_set_active wf_set_seeded wf_set_pending wf_pending_none : conn.

(** ** Reading and writing frames *)
Section Frames.
Context {CR : Crypto} {CL : CryptoLaws} {PM : ThpProto} {PL : ThpProtoLaws}.
Context {P : Script -> Prop}.
Abbreviation respects := (respects_or P).

Lemma respects_write packet n :
  respects n 0 anything (on_env (W := Script) (env_write packet)).
Proof.
  intros c w Hc Hw _. unfold on_env, env_write. cbn [fst snd write_chunk script_env].
  unfold script_write.
  destruct (write_errors w) as [|[e|] errs]; cbn; split_and!; auto; lia.
Qed.

Lemma respects_write_packets n packets :
  respects n 0 anything (write_packets (W := Script) packets).
Proof.
  induction packets as [|p ps IH]; [by apply respects_ret|].
  eapply respects_seq; [apply respects_write|auto].
Qed.

Lemma respects_write_framed n ctrl payload :
  (0 <= ctrl < 128)%Z -> bytes_ok payload ->
  respects n 0 anything (write_framed (W := Script) ctrl payload).
Proof.
  intros Hctrl Hp. eapply respects_seq; [apply respects_get|]. intros c (Hcid & _).
  eapply (respects_seq _ _ anything); [|intros pkts _; apply respects_write_packets].
  apply respects_lift.
  destruct (segment_cases (packet_size c) (cid c) ctrl payload) as [[e ->]|[p ->]]; done.
Qed.

Lemma respects_read n :
  respects n 1 bytes_ok (on_env (W := Script) env_read).
Proof.
  intros c w Hc Hw _. unfold on_env, env_read. cbn [fst snd read_chunk script_env].
  unfold script_read. destruct Hw as [Hin He].
  destruct (inbox w) as [|[e|chunk] rest] eqn:Ei; cbn [of_result err_into fst snd inbox length].
  - rewrite Ei. split_and!; auto. by split; [rewrite Ei|].
  - apply Forall_cons in Hin as [_ Hin]. split_and!; auto; by split.
  - apply Forall_cons in Hin as [Hc1 Hin]. split_and!; auto; [by split|lia..].
Qed.

Definition frame_ok (f : Z * list Z) : Prop := bytes_ok f.2.

Lemma respects_read_loop n fuel reasm ctrl :
  n <= fuel -> wf_reassembler reasm ->
  respects n 1 frame_ok (read_loop (W := Script) fuel reasm ctrl).
Proof.
  revert n reasm ctrl. induction fuel as [|fuel IH]; intros n reasm ctrl Hn Hwf.
  { intros c w _ _ Hl. lia. }
  change 1 with (1 + 0). eapply respects_bind; [apply respects_read|].
  intros [|b chunk] Hchunk.
  { eapply respects_weaken; [apply (IH (n - 1)); [lia|done]|lia..]. }
  destruct (push_packet_settles (b :: chunk) reasm Hchunk Hwf) as [Hs Hwf'].
  cbv beta iota zeta.
  destruct (push_packet (b :: chunk) reasm) as [pushed reasm']. cbn [fst snd] in Hs, Hwf'.
  eapply (respects_seq _ _ (fun d => match d with Some p => bytes_ok p | None => True end)).
  { apply respects_lift. destruct pushed as [[]|[]| | |]; naive_solver. }
  intros [payload|] Hpay; cbv beta in Hpay.
  - apply respects_if; intros _; [apply respects_throw|by apply respects_ret].
  - eapply respects_weaken; [apply (IH (n - 1)); [lia|done]|lia..].
Qed.

Lemma respects_read_framed n fuel :
  n <= fuel -> respects n 1 frame_ok (read_framed (W := Script) fuel).
Proof. intros Hn. apply respects_read_loop; [done|apply wf_reassembler_new]. Qed.

(** ** The Alternating Bit Protocol *)
Lemma respects_send_ack n seq : respects n 0 anything (send_ack (W := Script) seq).
Proof. apply respects_write_framed; [apply ack_for_range|constructor]. Qed.

Lemma respects_await_ack n fuel k :
  n <= fuel -> n <= k -> respects n 1 anything (await_ack (W := Script) fuel k).
Proof.
  revert n. induction k as [|k IH]; intros n Hf Hk.
  { intros c w _ _ Hl. lia. }
  change 1 with (1 + 0). eapply respects_bind; [by apply respects_read_framed|].
  intros [rctrl rpayload] Hp. eapply respects_seq; [apply respects_get|]. intros self _.
  destruct (control.is_ack rctrl) eqn:Hack.
  - apply respects_if; intros _; [apply respects_modify; auto with conn|].
    eapply respects_weaken; [apply (IH (n - 1)); lia|lia..].
  - eapply respects_seq; [apply respects_modify; auto with conn|intros _ _].
    eapply respects_seq; [apply respects_send_ack|intros _ _].
    eapply respects_seq; [apply respects_get|intros self' _].
    apply respects_if; intros _; [|by apply respects_ret].
    eapply respects_seq; [apply respects_modify; auto with conn|intros _ _].
    apply respects_modify. intros c Hc. apply wf_set_pending; [done|]. by split.
Qed.

Lemma respects_send_data n fuel base payload :
  n <= fuel -> (0 <= base < 128)%Z -> bytes_ok payload ->
  respects n 1 anything (send_data (W := Script) fuel base payload).
Proof.
  intros Hn Hb Hp. eapply respects_seq; [apply respects_get|]. intros self _.
  eapply respects_seq.
  - apply respects_write_framed; [by apply with_seq_range|done].
  - intros _ _. by apply respects_await_ack.
Qed.

Lemma respects_await_data n fuel k :
  n <= fuel -> n <= k -> respects n 1 frame_ok (await_data (W := Script) fuel k).
Proof.
  revert n. induction k as [|k IH]; intros n Hf Hk.
  { intros c w _ _ Hl. lia. }
  change 1 with (1 + 0). eapply respects_bind; [by apply respects_read_framed|].
  intros [ctrl payload] Hp.
  assert (respects (n - 1) 0 frame_ok (await_data (W := Script) fuel k))
    by (eapply respects_weaken; [apply (IH (n - 1)); lia|lia..]).
  apply respects_if; intros _; [done|].
  eapply respects_seq; [apply respects_send_ack|intros _ _].
  eapply respects_seq; [apply respects_get|intros self _].
  apply respects_if; intros _; [|done].
  eapply respects_seq; [apply respects_modify; auto with conn|intros _ _].
  by apply respects_ret.
Qed.

Lemma respects_recv_data n fuel :
  n <= fuel -> respects n 0 frame_ok (recv_data (W := Script) fuel).
Proof.
  intros Hn. eapply respects_seq; [apply respects_get|].
  intros self (_ & _ & _ & _ & Hp). destruct (pending_data self) as [[ctrl payload]|].
  - eapply respects_seq; [apply respects_modify; auto with conn|intros _ _].
    apply respects_ret. apply Hp.
  - eapply respects_weaken; [by apply respects_await_data|lia..].
Qed.

(** ** Application messages *)
Lemma encode_app_ok sid mt body :
  is_byte sid -> bytes_ok body -> bytes_ok (encode_app_message sid mt body).
Proof.
  intros Hs Hb. unfold encode_app_message. rewrite !bytes_ok_app.
  split_and!; [by apply Forall_singleton|apply be_bytes_ok|done].
Qed.

Lemma respects_send_app n fuel mt body :
  n <= fuel -> bytes_ok body ->
  respects n 1 anything (send_app (W := Script) fuel mt body).
Proof.
  intros Hn Hb. eapply respects_seq; [apply respects_get|].
  intros self (_ & _ & _ & Hsid & _).
  eapply (respects_seq _ _ anything).
  { apply respects_lift. by destruct (session self). }
  intros s _. unfold session_seal. eapply respects_seq; [apply respects_modify; auto with conn|].
  intros _ _. apply respects_send_data; [done| |].
  - unfold control.ENCRYPTED_TRANSPORT. lia.
  - apply aes_gcm_ok. by apply encode_app_ok.
Qed.

Lemma decode_app_settles payload :
  match decode_app_message payload with Ret _ | Fail _ => True | _ => False end.
Proof.
  unfold decode_app_message. destruct (Nat.ltb_spec (length payload) APP_HEADER_LEN) as [|H];
    [done|].
  destruct payload as [|a [|b [|d l]]]; cbn [length] in H; unfold APP_HEADER_LEN in H; try lia.
  mred. cbn [idx lookup list_lookup]. unfold slice_from.
  rewrite slice_ret; [done|unfold APP_HEADER_LEN; simpl; lia|lia].
Qed.

Lemma respects_recv_app n fuel :
  n <= fuel -> respects n 0 anything (recv_app (W := Script) fuel).
Proof.
  intros Hn. eapply respects_seq; [by apply respects_recv_data|].
  intros [ctrl ct] _. eapply respects_seq; [apply respects_get|]. intros self _.
  eapply (respects_seq _ _ anything).
  { apply respects_lift. by destruct (session self). }
  intros s _. destruct (session_open ct s) as [opened s'] eqn:Ho.
  eapply respects_seq; [apply respects_modify; auto with conn|intros _ _].
  eapply (respects_seq _ _ anything).
  { apply respects_lift. revert Ho. unfold session_open, open. mred.
    destruct (aes_gcm_decrypt _ _ _ _); cbn; intros ?; by simplify_eq. }
  intros pt _. eapply (respects_seq _ _ anything).
  { apply respects_lift. pose proof (decode_app_settles pt). by destruct (decode_app_message pt). }
  intros [[sid mt] body] _. by apply respects_ret.
Qed.

Lemma respects_transceive_loop n fuel k :
  n <= fuel -> n <= k -> respects n 0 anything (transceive_loop (W := Script) fuel k).
Proof.
  revert n. induction k as [|k IH]; intros n Hf Hk.
  { intros c w _ _ Hl. lia. }
  eapply respects_seq; [by apply respects_recv_app|]. intros [rt rp] _.
  apply respects_if; intros _.
  - eapply (respects_weaken n n (1 + 0) 0); [|lia..]. eapply respects_bind.
    + apply respects_send_app; [done|apply encode_ok].
    + intros _ _. apply IH; lia.
  - apply respects_if; intros _; [apply respects_throw|by apply respects_ret].
Qed.

Lemma respects_transceive n fuel mt body :
  n <= fuel -> bytes_ok body ->
  respects n 1 anything (transceive (W := Script) fuel mt body).
Proof.
  intros Hn Hb. change 1 with (1 + 0). eapply respects_bind; [by apply respects_send_app|].
  intros _ _. apply respects_transceive_loop; lia.
Qed.

Lemma respects_create_seeded n fuel passphrase on_device :
  n <= fuel ->
  respects n 0 anything (create_seeded_session (W := Script) fuel passphrase on_device).
Proof.
  intros Hn. eapply respects_seq.
  { apply respects_modify. intros c Hc. apply wf_set_active; [done|].
    unfold is_byte, SEEDED_SESSION_ID. lia. }
  intros _ _. eapply respects_seq.
  { eapply respects_weaken; [apply respects_transceive; [done..|apply encode_ok]|lia..]. }
  intros [rt rp] _. apply respects_if; intros _; [apply respects_throw|].
  apply respects_modify. auto with conn.
Qed.
End Frames.

(** ** Allocation and handshake *)
Section Establish.
Context {CR : Crypto} {CL : CryptoLaws} {PM : ThpProto} {PL : ThpProtoLaws}.
Context {P : Script -> Prop}.
Abbreviation respects := (respects_or P).

Lemma random_bytes_ret n w :
  n <= length (entropy w) -> wf_script w ->
  exists w', random_bytes n w = (Ret (take n (entropy w)), w') /\
    inbox w' = inbox w /\ wf_script w'.
Proof.
  intros Hn [Hin He]. unfold random_bytes. cbn [getrandom script_env]. unfold script_random.
  apply Nat.leb_le in Hn. rewrite Hn. eexists. split; [done|]. split; [done|].
  split; [done|]. cbn [entropy]. by apply bytes_ok_drop.
Qed.

Lemma parse_allocation_settles nonce payload :
  bytes_ok payload ->
  match parse_allocation_response nonce payload with
  | Ret a => (0 <= alloc_cid a < u16_mod)%Z
  | Fail _ => True
  | _ => False
  end.
Proof.
  intros Hp. destruct (Nat.lt_ge_cases (length payload) (ALLOCATION_NONCE_LEN + 2)) as [Hl|Hl].
  { unfold parse_allocation_response. apply Nat.ltb_lt in Hl. by rewrite Hl. }
  rewrite <- (take_drop ALLOCATION_NONCE_LEN payload).
  assert (bytes_ok (drop ALLOCATION_NONCE_LEN payload)) as Hd by by apply bytes_ok_drop.
  assert (2 <= length (drop ALLOCATION_NONCE_LEN payload)) as Hdl by (rewrite length_drop; lia).
  destruct (drop ALLOCATION_NONCE_LEN payload) as [|c0 [|c1 raw]]; [simpl in Hdl; lia..|].
  change (c0 :: c1 :: raw) with ([c0; c1] ++ raw).
  rewrite parse_allocation_eq by (rewrite length_take; lia).
  destruct (bool_decide _); [done|]. destruct (decode raw) as [e|props]; [done|].
  cbn. apply (Forall_take _ 2), from_be_bounds in Hd. done.
Qed.

Lemma respects_allocate_loop n fuel k nonce :
  n <= fuel ->
  respects n 0 (fun a => (0 <= alloc_cid a < u16_mod)%Z)
    (allocate_loop (W := Script) fuel k nonce).
Proof.
  intros Hn. induction k as [|k IH]; [apply respects_throw|].
  eapply respects_seq.
  { eapply respects_weaken; [by apply respects_read_framed|lia..]. }
  intros [ctrl payload] Hp. apply respects_if; intros _; [|done].
  pose proof (parse_allocation_settles nonce payload Hp) as Ha.
  destruct (parse_allocation_response nonce payload) as [a|e| | |]; try done.
  eapply respects_seq; [apply respects_modify; auto with conn|intros _ _].
  eapply respects_seq; [apply respects_modify; intros; apply wf_set_send_seq; [done|by left]|].
  intros _ _.
  eapply respects_seq; [apply respects_modify; intros; apply wf_set_recv_seq; [done|by left]|].
  intros _ _. eapply respects_seq; [apply respects_modify; auto with conn|intros _ _].
  by apply respects_ret.
Qed.

Lemma respects_allocate_with n fuel nonce :
  n <= fuel -> bytes_ok nonce ->
  respects n 0 anything
    (conn_modify (set_cid BROADCAST_CID);;
     write_framed (W := Script) control.CHANNEL_ALLOCATION_REQUEST (build_allocation_request nonce);;
     allocate_loop fuel MAX_ALLOC_READS nonce).
Proof.
  intros Hn Hb. eapply respects_seq.
  { apply respects_modify. intros. apply wf_set_cid; [done|]. unfold BROADCAST_CID, u16_mod. lia. }
  intros _ _. eapply respects_seq.
  { apply respects_write_framed; [unfold control.CHANNEL_ALLOCATION_REQUEST; lia|done]. }
  intros _ _. intros c w Hc Hw Hl.
  pose proof (respects_allocate_loop n fuel MAX_ALLOC_READS nonce Hn c w Hc Hw Hl) as H.
  destruct (allocate_loop _ _ _ _) as [o [c' w']]. destruct o; tauto.
Qed.

Lemma read_init_response_settles resp hs :
  bytes_ok (hs_static_pub hs) ->
  match (read_init_response resp hs).1 with
  | Ret completion => bytes_ok completion
  | Fail _ => True
  | _ => False
  end.
Proof.
  intros Hpub. destruct (Nat.eqb_spec (length resp) INIT_RESPONSE_LEN) as [Hl|Hl].
  2: { unfold read_init_response. apply Nat.eqb_neq in Hl. by rewrite Hl. }
  unfold read_init_response. rewrite Hl, Nat.eqb_refl. cbn [negb]. mred.
  rewrite slice_ret by (rewrite ?Hl; unfold INIT_RESPONSE_LEN, PUBKEY_LEN; lia).
  rewrite as_array32_ok
    by (rewrite length_take, drop_0, Hl; unfold INIT_RESPONSE_LEN, PUBKEY_LEN,
        ENC_STATIC_LEN, TAG_LEN; lia).
  rewrite slice_ret by (rewrite ?Hl; unfold INIT_RESPONSE_LEN; lia).
  rewrite slice_ret by (rewrite ?Hl; unfold INIT_RESPONSE_LEN; lia).
  destruct (hkdf PROTOCOL_NAME _) as [ck1 k1]. unfold open.
  destruct (aes_gcm_decrypt k1 _ _ _) as [opened|]; cbn [ok_or fst]; [|done].
  unfold as_array32. destruct (length opened =? 32); [|done].
  destruct (hkdf ck1 _) as [ck2 k2].
  destruct (aes_gcm_decrypt k2 _ _ _) as [empty|]; cbn [ok_or fst]; [|done].
  destruct (length empty =? 0); cbn [negb fst]; [|done].
  destruct (hkdf ck2 _) as [ck3 k3]. cbn [fst]. apply bytes_ok_app.
  split; apply aes_gcm_ok; [done|apply encode_ok].
Qed.

Lemma read_completion_response_settles resp hs :
  match (read_completion_response resp hs).1 with Ret _ | Fail _ => True | _ => False end.
Proof.
  unfold read_completion_response. mred. destruct (hkdf _ _) as [a b]. unfold open.
  by destruct (aes_gcm_decrypt _ _ _ _).
Qed.

Lemma respects_handshake_with n fuel hs :
  n <= fuel -> bytes_ok (hs_static_pub hs) -> bytes_ok (init_request_payload hs) ->
  respects n 2 anything
    (send_data (W := Script) fuel control.HANDSHAKE_INIT_REQUEST (init_request_payload hs);;
     r ← recv_data fuel;
     let '(_, init_resp) := r in
     let '(completion, hs) := read_init_response init_resp hs in
     completion ← lift completion;
     send_data fuel control.HANDSHAKE_COMPLETION_REQUEST completion;;
     r ← recv_data fuel;
     let '(_, comp_resp) := r in
     let '(keys, _) := read_completion_response comp_resp hs in
     lift keys).
Proof.
  intros Hn Hpub Hinit. change 2 with (1 + 1). eapply respects_bind.
  { apply respects_send_data; [done| |done]. unfold control.HANDSHAKE_INIT_REQUEST. lia. }
  intros _ _. eapply respects_seq; [apply respects_recv_data; lia|]. intros [ctrl resp] _.
  pose proof (read_init_response_settles resp hs Hpub) as Hs.
  destruct (read_init_response resp hs) as [completion hs']. cbn [fst] in Hs.
  eapply (respects_seq _ _ bytes_ok); [apply respects_lift; by destruct completion|].
  intros comp Hcomp. change 1 with (1 + 0). eapply respects_bind.
  { apply respects_send_data; [lia| |done]. unfold control.HANDSHAKE_COMPLETION_REQUEST. lia. }
  intros _ _. eapply respects_seq; [apply respects_recv_data; lia|]. intros [ctrl2 resp2] _.
  pose proof (read_completion_response_settles resp2 hs') as Hk.
  destruct (read_completion_response resp2 hs') as [keys hs2]. cbn [fst] in Hk.
  apply respects_lift. by destruct keys.
Qed.

End Establish.

(** ** Properties *)
Section Robust.
Context {CR : Crypto} {CL : CryptoLaws} {PM : ThpProto} {PL : ThpProtoLaws}.

(** What a run guarantees whatever the device sent: the connection's invariant,
    no panic, enough fuel, and an unfinished wait only when the device is
    silent. *)
Definition robust {A} (r : outcome TrezorError A * (Connection * Script)) : Prop :=
  wf_connection r.2.1 /\ wf_script r.2.2 /\ r.1 <> Panic /\ r.1 <> NoFuel /\
  (r.1 = Pending -> inbox r.2.2 = []).

Lemma respects_robust {A} n d (Q : A -> Prop) m c w :
  respects_or (fun _ => False) n d Q m -> wf_connection c -> wf_script w -> length (inbox w) < n ->
  robust (m (c, w)).
Proof.
  intros Hm Hc Hw Hl. specialize (Hm c w Hc Hw Hl). unfold robust.
  destruct (m (c, w)) as [o [c' w']]. cbn [fst snd].
  destruct o; split_and!; try done; tauto.
Qed.

(** Whatever reports, transport errors and garbage the device's side of the
    transport delivers, an application exchange and the creation of a seeded
    session never panic and never loop without reading: the fuel of one more
    than the reports available is always enough, and the sequence bits, channel
    id, session id and stashed frame stay well formed. *)
Lemma exchange_robust fuel mt body passphrase on_device c w :
  wf_connection c -> wf_script w -> bytes_ok body -> length (inbox w) < fuel ->
  robust (transceive fuel mt body (c, w)) /\
  robust (create_seeded_session fuel passphrase on_device (c, w)).
Proof.
  intros Hc Hw Hb Hl. split; (eapply respects_robust; [|done..]).
  - by apply respects_transceive.
  - by apply respects_create_seeded.
Qed.

(** Channel establishment is as robust: given enough entropy, [allocate] and
    [handshake] never panic and terminate on every input of the device, and keep
    the connection's invariant. *)
Lemma establish_robust fuel props static_priv credential c w :
  wf_connection c -> wf_script w -> 32 <= length (entropy w) ->
  length (inbox w) < fuel ->
  robust (allocate fuel (c, w)) /\
  robust (handshake fuel props static_priv credential (c, w)).
Proof.
  intros Hc Hw He Hl. split.
  - destruct (random_bytes_ret ALLOCATION_NONCE_LEN w) as (w' & Hr & Hi & Hw');
      [unfold ALLOCATION_NONCE_LEN; lia|done|].
    unfold allocate, random_allocation_nonce, on_env. unfold mbind at 1, st_bind.
    cbn [fst snd]. rewrite Hr. eapply respects_robust.
    + apply (respects_allocate_with fuel); [done|]. apply bytes_ok_take, Hw.
    + done.
    + done.
    + by rewrite Hi.
  - destruct (random_bytes_ret 32 w) as (w' & Hr & Hi & Hw'); [done|done|].
    unfold handshake, handshake_new, random_scalar, on_env. unfold mbind at 1, st_bind.
    cbn [fst snd]. unfold mbind at 1, st_bind. rewrite Hr. eapply respects_robust.
    + apply (respects_handshake_with fuel); [done|apply public_ok|].
      apply bytes_ok_app. split; [apply public_ok|]. apply Forall_singleton.
      cbn. unfold is_byte. lia.
    + done.
    + done.
    + by rewrite Hi.
Qed.
End Robust.

(** Witnesses: a device that sends a stray report, then fails. *)
Definition garbage_script : Script :=
  {| inbox := [inr [0x80; 1; 2; 3]%Z; inr []; inl (Io (str "unplugged"))];
     outbox := []; write_errors := []; entropy := replicate 40 7%Z; codes := [] |}.

Lemma garbage_script_wf : wf_script garbage_script.
Proof.
  split; [|apply Forall_replicate; unfold is_byte; lia].
  repeat constructor; unfold is_byte; lia.
Qed.

Lemma connection_new_wf ps : wf_connection (connection_new ps).
Proof.
  split_and!; cbn; unfold is_bit, is_byte, u16_mod, BROADCAST_CID, MANAGEMENT_SESSION_ID;
    auto; lia.
Qed.

Lemma exchange_robust_witness :
  robust (transceive (CR := toy_crypto) (PM := toy_thp_proto) 4 55 []
            (connection_new 64, garbage_script)) /\
  robust (create_seeded_session (CR := toy_crypto) (PM := toy_thp_proto) 4 None false
            (connection_new 64, garbage_script)).
Proof.
  apply (exchange_robust (CR := toy_crypto) (CL := toy_crypto_laws) (PM := toy_thp_proto)
           (PL := toy_thp_proto_laws)).
  - apply connection_new_wf.
  - apply garbage_script_wf.
  - constructor.
  - simpl. lia.
Defined.

Lemma establish_robust_witness :
  robust (allocate (PM := toy_thp_proto) 4 (connection_new 64, garbage_script)) /\
  robust (handshake (CR := toy_crypto) (PM := toy_thp_proto) 4 [] [] None
            (connection_new 64, garbage_script)).
Proof.
  apply (establish_robust (CR := toy_crypto) (CL := toy_crypto_laws) (PM := toy_thp_proto)
           (PL := toy_thp_proto_laws)).
  - apply connection_new_wf.
  - apply garbage_script_wf.
  - simpl. lia.
  - simpl. lia.
Defined.
