(* ===== verification/ConnectionAbp.v ===== *)
(** * The driver against a device that follows the protocol

    Frames in flight as [Frame]s, cut into packets of any size by the device.
    [read_framed], [send_data] and [recv_data] on such traffic, exactly-once
    delivery under retransmission, early replies, channel allocation among
    unrelated traffic, and whole request/response exchanges with button
    requests. *)

From S2P Require Import Prelude Types Env Crypto Proto Framing Channel Session Noise.
From S2P Require Import Connection ConnectionSafe.

(** ** Traffic *)
Record Frame : Type := { fr_cid : Z; fr_ctrl : Z; fr_payload : list Z }.

Definition good_frame (f : Frame) : Prop :=
  valid_frame (fr_ctrl f) (fr_cid f) (fr_payload f) /\ fr_ctrl f <> control.TRANSPORT_ERROR.

Definition frame_packets (ps : nat) (f : Frame) : list (list Z) :=
  match segment ps (fr_cid f) (fr_ctrl f) (fr_payload f) with Ret p => p | _ => [] end.

Definition wire (ps : nat) (fs : list Frame) : list (list Z) := concat (frame_packets ps <$> fs).

Definition incoming (ps : nat) (fs : list Frame) : list (TrezorTransportError + list Z) :=
  inr <$> wire ps fs.

(** The world after reading up to [rest] and writing [out]. *)
Definition io (rest : list (TrezorTransportError + list Z)) (out : list (list Z)) (w : Script)
    : Script :=
  {| inbox := rest; outbox := outbox w ++ out; write_errors := [];
     entropy := entropy w; codes := codes w |}.

Lemma wire_cons ps f fs : wire ps (f :: fs) = frame_packets ps f ++ wire ps fs.
Proof. done. Qed.

Lemma wire_app ps fs1 fs2 : wire ps (fs1 ++ fs2) = wire ps fs1 ++ wire ps fs2.
Proof. unfold wire. by rewrite fmap_app, concat_app. Qed.

Lemma incoming_cons ps f fs rest :
  incoming ps (f :: fs) ++ rest = (inr <$> frame_packets ps f) ++ incoming ps fs ++ rest.
Proof. unfold incoming. by rewrite wire_cons, fmap_app, <- app_assoc. Qed.

Lemma incoming_app ps fs1 fs2 rest :
  incoming ps (fs1 ++ fs2) ++ rest = incoming ps fs1 ++ incoming ps fs2 ++ rest.
Proof. unfold incoming. by rewrite wire_app, fmap_app, <- app_assoc. Qed.

Lemma io_io r1 o1 r2 o2 w : io r2 o2 (io r1 o1 w) = io r2 (o1 ++ o2) w.
Proof. unfold io. cbn. by rewrite app_assoc. Qed.

Lemma io_nil w : write_errors w = [] -> io (inbox w) [] w = w.
Proof. intros H. unfold io. rewrite app_nil_r, <- H. by destruct w. Qed.

(** Frames of the two directions. *)
Definition host_frame (c : Connection) (ctrl : Z) (payload : list Z) : Frame :=
  {| fr_cid := cid c; fr_ctrl := ctrl; fr_payload := payload |}.
Definition ack_frame (c : Connection) (seq : Z) : Frame :=
  host_frame c (control.ack_for seq) [].

(** The host can frame messages and its transport reports no write error. *)
Definition ready (c : Connection) (w : Script) : Prop :=
  INIT_HEADER < packet_size c /\ (0 <= cid c < u16_mod)%Z /\ write_errors w = [].

Lemma ready_io c w rest out : ready c w -> ready c (io rest out w).
Proof. unfold ready. cbn. tauto. Qed.

Section Frames.
Context {CR : Crypto} {PM : ThpProto}.

Lemma frame_packets_spec ps f :
  INIT_HEADER < ps -> good_frame f ->
  exists first rest,
    frame_packets ps f = first :: rest /\
    head first = Some (fr_ctrl f) /\
    Forall (fun p => head p = Some CONTINUATION_CONTROL) rest /\
    forall s, exists s', feeds s (first :: rest) (fr_payload f) s'.
Proof.
  intros Hps [Hv _]. destruct (segment_spec ps _ _ _ Hps Hv)
    as (first & rest & Hseg & _ & Hhd & Hall & Hfeed).
  exists first, rest. unfold frame_packets. rewrite Hseg. split_and!; try done.
  intros s. eexists. apply Hfeed.
Qed.

(** The driver's test for an initiation packet. *)
Lemma initiation_bit ctrl : (0 <= ctrl < 128)%Z -> Z.land ctrl CONTINUATION_BIT = 0%Z.
Proof.
  intros Hctrl. apply Z.bits_inj'. intros i Hi. rewrite Z.bits_0, Z.land_spec.
  change CONTINUATION_BIT with (2 ^ 7)%Z. rewrite Z.pow2_bits_eqb by lia.
  destruct (Z.eqb_spec 7 i) as [<-|]; [|by rewrite andb_false_r].
  by rewrite (bits_above _ 7).
Qed.

Lemma frame_packets_nonempty ps f :
  INIT_HEADER < ps -> good_frame f -> 0 < length (frame_packets ps f).
Proof.
  intros Hps Hf. destruct (frame_packets_spec ps f Hps Hf) as (? & ? & -> & _). simpl. lia.
Qed.

Lemma length_wire ps fs :
  INIT_HEADER < ps -> Forall good_frame fs -> length fs <= length (wire ps fs).
Proof.
  intros Hps. induction 1 as [|f fs Hf _ IH]; [done|].
  pose proof (frame_packets_nonempty ps f Hps Hf).
  rewrite wire_cons, length_app. cbn [length]. lia.
Qed.

(** ** Reading one frame *)
Section Reading.
Context {W : Type} `{!Env W}.

Lemma feeds_chunk s p ps d s' : feeds s (p :: ps) d s' -> p <> [].
Proof. intros H ->. inversion H; subst; discriminate. Qed.

Lemma read_loop_step fuel s ctrl chunk c w w' :
  chunk <> [] -> read_chunk w = (Ret chunk, w') ->
  read_loop (S fuel) s ctrl (c, w) =
  (let b := default 0%Z (head chunk) in
   let ctrl := if (Z.land b CONTINUATION_BIT =? 0)%Z then b else ctrl in
   let '(pushed, s') := push_packet chunk s in
   (done ← lift pushed;
    match done with
    | Some payload =>
      if (ctrl =? control.TRANSPORT_ERROR)%Z then throw (decode_transport_error payload)
      else mret (ctrl, payload)
    | None => read_loop fuel s' ctrl
    end) (c, w')).
Proof.
  intros Hne Hin. cbn [read_loop].
  assert (Hr : on_env env_read (c, w) = (Ret chunk, (c, w')))
    by (unfold on_env, env_read; cbn [fst snd]; by rewrite Hin).
  rewrite (st_bind_ret _ _ _ _ _ Hr).
  destruct chunk as [|b chunk]; [done|]. cbn [head default].
  by destruct (push_packet (b :: chunk) s) as [pushed s'].
Qed.

Lemma read_loop_feeds fuel s pkts d s' ctrl c w w' :
  feeds s pkts d s' ->
  Forall (fun p => head p = Some CONTINUATION_CONTROL) pkts ->
  ctrl <> control.TRANSPORT_ERROR -> reads w pkts w' -> length pkts <= fuel ->
  read_loop fuel s ctrl (c, w) = (Ret (ctrl, d), (c, w')).
Proof.
  intros Hf. revert fuel w.
  induction Hf as [s p d s' Hp|s p s1 pkts d s' Hp Hf IH]; intros fuel w Hall Hte Hin Hfuel;
    (destruct fuel as [|fuel]; [simpl in Hfuel; lia|]);
    apply Forall_cons in Hall as [Hhd Hall]; inversion Hin as [|? ? w1 ? ? Hr Hin']; subst;
    rewrite (read_loop_step _ _ _ p c w w1) by (by intros -> || done);
    rewrite Hhd, Hp; cbv zeta;
    change (Z.land (default 0 (Some CONTINUATION_CONTROL)) CONTINUATION_BIT =? 0)%Z with false;
    mred.
  - apply Z.eqb_neq in Hte. rewrite Hte. by inversion Hin'; subst.
  - apply IH; [done..|simpl in Hfuel; lia].
Qed.

(** [read_framed] on the packets of a frame, whatever packet size they were cut to. *)
Lemma read_framed_reads ps f fuel c w w' :
  INIT_HEADER < ps -> good_frame f -> reads w (frame_packets ps f) w' ->
  length (frame_packets ps f) <= fuel ->
  read_framed fuel (c, w) = (Ret (fr_ctrl f, fr_payload f), (c, w')).
Proof.
  intros Hps Hf Hin Hfuel.
  destruct (frame_packets_spec ps f Hps Hf) as (first & pkts & Hfp & Hhd & Hall & Hfeed).
  rewrite Hfp in Hin, Hfuel. inversion Hin as [|? ? w1 ? ? Hr Hin']; subst.
  destruct fuel as [|fuel]; [cbn in Hfuel; lia|].
  unfold read_framed. rewrite (read_loop_step _ _ _ first c w w1) by (by intros -> || done).
  rewrite Hhd. cbn [from_option id]. cbv zeta.
  destruct Hf as [[Hctrl _] Hte]. rewrite (initiation_bit _ Hctrl).
  cbn [Z.eqb]. destruct (Hfeed reassembler_new) as [s' Hs].
  inversion Hs as [? ? ? ? Hp|? ? s1 ? ? ? Hp Hs1]; subst; rewrite Hp; mred.
  - apply Z.eqb_neq in Hte. rewrite Hte. by inversion Hin'; subst.
  - rewrite (read_loop_feeds _ _ pkts _ _ _ _ _ w' Hs1); [done..|cbn in Hfuel; lia].
Qed.
End Reading.

Lemma script_reads pkts rest w :
  inbox w = (inr <$> pkts) ++ rest -> write_errors w = [] -> reads w pkts (io rest [] w).
Proof.
  revert w. induction pkts as [|p pkts IH]; intros w Hin Hwe.
  - cbn in Hin. rewrite <- Hin, io_nil by done. constructor.
  - econstructor; [cbn [read_chunk script_env]; unfold script_read; by rewrite Hin|].
    match goal with |- reads ?w1 _ _ =>
      change (io rest [] w) with (io rest [] w1) end.
    by apply IH.
Qed.

Lemma read_framed_frame ps f fuel rest c w :
  INIT_HEADER < ps -> good_frame f -> write_errors w = [] ->
  inbox w = (inr <$> frame_packets ps f) ++ rest ->
  length (inbox w) <= fuel ->
  read_framed fuel (c, w) = (Ret (fr_ctrl f, fr_payload f), (c, io rest [] w)).
Proof.
  intros Hps Hf Hwe Hin Hfuel. apply (read_framed_reads ps); [done..|by apply script_reads|].
  rewrite Hin, length_app, length_fmap in Hfuel. lia.
Qed.

(** ** Writing one frame *)
Lemma write_packets_emits packets c w :
  write_errors w = [] ->
  write_packets packets (c, w) = (Ret tt, (c, io (inbox w) packets w)).
Proof.
  revert w. induction packets as [|p packets IH]; intros w Hwe; cbn [write_packets].
  - by rewrite io_nil.
  - erewrite st_bind_ret.
    2: { unfold on_env, env_write. cbn [fst snd write_chunk script_env].
         unfold script_write. by rewrite Hwe. }
    rewrite IH by done. unfold io. cbn. by rewrite <- app_assoc.
Qed.

Lemma write_framed_emits ctrl payload c w :
  ready c w -> valid_frame ctrl (cid c) payload ->
  write_framed ctrl payload (c, w)
  = (Ret tt, (c, io (inbox w) (frame_packets (packet_size c) (host_frame c ctrl payload)) w)).
Proof.
  intros (Hps & Hcid & Hwe) Hv.
  destruct (segment_spec _ _ _ _ Hps Hv) as (first & rest & Hseg & _).
  unfold write_framed, frame_packets, host_frame. cbn [fr_cid fr_ctrl fr_payload].
  rewrite Hseg. mred. cbn [conn_get fst]. rewrite Hseg. by apply write_packets_emits.
Qed.

Lemma ack_valid cid seq : (0 <= cid < u16_mod)%Z -> valid_frame (control.ack_for seq) cid [].
Proof.
  intros Hc. split_and!; try done; try apply ack_for_range; try lia.
  - constructor.
Qed.

Lemma send_ack_emits seq c w :
  ready c w ->
  send_ack seq (c, w)
  = (Ret tt, (c, io (inbox w) (wire (packet_size c) [ack_frame c seq]) w)).
Proof.
  intros H. unfold send_ack, wire. cbn. rewrite app_nil_r.
  apply write_framed_emits; [done|]. apply ack_valid, H.
Qed.
End Frames.

(** ** Waiting for an ACK, waiting for data *)
Section Waiting.
Context {CR : Crypto} {PM : ThpProto} (ps : nat) (Hps : INIT_HEADER < ps).

Lemma read_framed_incoming f fs fuel rest c w :
  good_frame f -> write_errors w = [] ->
  inbox w = incoming ps (f :: fs) ++ rest -> length (inbox w) <= fuel ->
  read_framed fuel (c, w)
  = (Ret (fr_ctrl f, fr_payload f), (c, io (incoming ps fs ++ rest) [] w)).
Proof.
  intros Hf Hwe Hin Hfuel. apply (read_framed_frame ps); try done.
  by rewrite Hin, incoming_cons.
Qed.

Lemma incoming_fuel f fs rest w fuel :
  inbox w = incoming ps (f :: fs) ++ rest -> length (inbox w) <= fuel ->
  length (incoming ps fs ++ rest) <= fuel.
Proof. intros -> H. rewrite incoming_cons, length_app in H. lia. Qed.

(** An ACK of the message the host is waiting on, or of another one. *)
Definition acks (c : Connection) (f : Frame) : Prop :=
  control.is_ack (fr_ctrl f) = true /\ control.ack_seq_of (fr_ctrl f) = send_seq c.
Definition stale_ack (c : Connection) (f : Frame) : Prop :=
  control.is_ack (fr_ctrl f) = true /\ control.ack_seq_of (fr_ctrl f) <> send_seq c.

Lemma await_ack_spec fuel n stale f rest c w :
  Forall good_frame stale -> Forall (stale_ack c) stale ->
  good_frame f -> acks c f -> write_errors w = [] ->
  inbox w = incoming ps (stale ++ [f]) ++ rest ->
  length (inbox w) <= fuel -> length stale < n ->
  await_ack fuel n (c, w) = (Ret tt, (flip_send c, io rest [] w)).
Proof.
  intros Hg Hs Hf [Hack Hseq]. revert w n. induction stale as [|g stale IH];
    intros w n Hwe Hin Hfuel Hn; (destruct n as [|n]; [lia|]); cbn [await_ack];
    cbn [app] in Hin.
  - rewrite (st_bind_ret _ _ _ _ _ (read_framed_incoming f [] fuel rest c w Hf Hwe Hin Hfuel)).
    mred. cbn [conn_get fst]. by rewrite Hack, Hseq, Z.eqb_refl.
  - apply Forall_cons in Hg as [Hg Hgs]. apply Forall_cons in Hs as [[Hga Hgq] Hss].
    rewrite (st_bind_ret _ _ _ _ _
      (read_framed_incoming g (stale ++ [f]) fuel rest c w Hg Hwe Hin Hfuel)).
    apply Z.eqb_neq in Hgq. mred. cbn [conn_get fst]. rewrite Hga, Hgq.
    rewrite IH; [|done..|cbn; by eapply incoming_fuel|cbn in Hn; lia].
    by rewrite io_io.
Qed.

(** A frame [recv_data] drops: an ACK, or a message already processed. *)
Definition skippable (seq : Z) (f : Frame) : Prop :=
  control.is_ack (fr_ctrl f) = true \/ control.seq_of (fr_ctrl f) <> seq.
Definition fresh_data (seq : Z) (f : Frame) : Prop :=
  control.is_ack (fr_ctrl f) = false /\ control.seq_of (fr_ctrl f) = seq.

(** The ACKs [recv_data] answers frames with: one per data frame. *)
Definition answers (c : Connection) (fs : list Frame) : list Frame :=
  fs ≫= fun f => if control.is_ack (fr_ctrl f) then []
                 else [ack_frame c (control.seq_of (fr_ctrl f))].

Lemma answers_cons c f fs :
  answers c (f :: fs) =
  (if control.is_ack (fr_ctrl f) then [] else [ack_frame c (control.seq_of (fr_ctrl f))])
  ++ answers c fs.
Proof. done. Qed.

Lemma await_data_spec fuel n noise f rest c w :
  Forall good_frame noise -> Forall (skippable (recv_seq c)) noise ->
  good_frame f -> fresh_data (recv_seq c) f -> ready c w ->
  inbox w = incoming ps (noise ++ [f]) ++ rest ->
  length (inbox w) <= fuel -> length noise < n ->
  await_data fuel n (c, w)
  = (Ret (fr_ctrl f, fr_payload f),
     (flip_recv c, io rest (wire (packet_size c) (answers c (noise ++ [f]))) w)).
Proof.
  intros Hg Hs Hf [Hack Hseq]. revert w n. induction noise as [|g noise IH];
    intros w n Hr Hin Hfuel Hn; (destruct n as [|n]; [lia|]); cbn [await_data];
    cbn [app] in Hin |- *; rewrite answers_cons.
  - rewrite (st_bind_ret _ _ _ _ _
      (read_framed_incoming f [] fuel rest c w Hf (proj2 (proj2 Hr)) Hin Hfuel)).
    rewrite Hack. cbv zeta. rewrite (st_bind_ret _ _ _ _ _
      (send_ack_emits _ _ _ (ready_io _ _ _ _ Hr))).
    mred. cbn [conn_get fst]. rewrite Hseq, Z.eqb_refl. unfold conn_modify.
    cbn [fst snd app]. by rewrite io_io.
  - apply Forall_cons in Hg as [Hg Hgs]. apply Forall_cons in Hs as [Hgs1 Hss].
    rewrite (st_bind_ret _ _ _ _ _
      (read_framed_incoming g (noise ++ [f]) fuel rest c w Hg (proj2 (proj2 Hr)) Hin Hfuel)).
    destruct Hgs1 as [Hga|Hgq].
    + rewrite Hga. rewrite IH; try done; [by rewrite io_io|by apply ready_io| |cbn in Hn; lia].
      cbn. by eapply incoming_fuel.
    + destruct (control.is_ack (fr_ctrl g)) eqn:Hga.
      { rewrite IH; try done; [by rewrite io_io|by apply ready_io| |cbn in Hn; lia].
        cbn. by eapply incoming_fuel. }
      cbv zeta. rewrite (st_bind_ret _ _ _ _ _
        (send_ack_emits _ _ _ (ready_io _ _ _ _ Hr))).
      apply Z.eqb_neq in Hgq. mred. cbn [conn_get fst]. rewrite Hgq.
      rewrite IH; try done; [|by do 2 apply ready_io| |cbn in Hn; lia].
      * by rewrite !io_io, wire_app.
      * cbn. by eapply incoming_fuel.
Qed.

(** ** [send_data] and [recv_data] *)
Lemma recv_data_spec fuel noise f rest c w :
  pending_data c = None ->
  Forall good_frame noise -> Forall (skippable (recv_seq c)) noise ->
  good_frame f -> fresh_data (recv_seq c) f -> ready c w ->
  inbox w = incoming ps (noise ++ [f]) ++ rest -> length (inbox w) <= fuel ->
  recv_data fuel (c, w)
  = (Ret (fr_ctrl f, fr_payload f),
     (flip_recv c, io rest (wire (packet_size c) (answers c (noise ++ [f]))) w)).
Proof.
  intros Hp Hg Hs Hf Hd Hr Hin Hfuel. unfold recv_data. mred. cbn [conn_get fst].
  rewrite Hp. apply await_data_spec; try done.
  rewrite Hin in Hfuel. unfold incoming in Hfuel. rewrite length_app, length_fmap in Hfuel.
  pose proof (length_wire ps (noise ++ [f]) Hps) as Hl. rewrite length_app in Hl.
  cbn [length] in Hl. assert (Forall good_frame (noise ++ [f])).
  { apply Forall_app. split; [done|by apply Forall_singleton]. }
  specialize (Hl ltac:(done)). lia.
Qed.

Lemma send_data_spec fuel base payload stale f rest c w :
  Forall good_frame stale -> Forall (stale_ack c) stale ->
  good_frame f -> acks c f -> ready c w ->
  valid_frame (control.with_seq base (send_seq c)) (cid c) payload ->
  inbox w = incoming ps (stale ++ [f]) ++ rest -> length (inbox w) <= fuel ->
  send_data fuel base payload (c, w)
  = (Ret tt,
     (flip_send c,
      io rest (wire (packet_size c)
                 [host_frame c (control.with_seq base (send_seq c)) payload]) w)).
Proof.
  intros Hg Hs Hf Hk Hr Hv Hin Hfuel. unfold send_data. mred. cbn [conn_get fst].
  rewrite write_framed_emits by done.
  rewrite (await_ack_spec fuel fuel stale f rest); try done.
  - unfold wire. cbn [fmap list_fmap concat]. by rewrite io_io, !app_nil_r.
  - rewrite Hin in Hfuel. unfold incoming in Hfuel. rewrite length_app, length_fmap in Hfuel.
    pose proof (length_wire ps (stale ++ [f]) Hps) as Hl. rewrite length_app in Hl.
    cbn [length] in Hl. assert (Forall good_frame (stale ++ [f])).
    { apply Forall_app. split; [done|by apply Forall_singleton]. }
    specialize (Hl ltac:(done)). lia.
Qed.
End Waiting.

(** ** Exactly-once delivery *)

(** A message of the device: its control byte without the sequence bit, the
    channel id it is stamped with, and how often it is retransmitted. *)
Record Message : Type := {
  m_base : Z;
  m_cid : Z;
  m_payload : list Z;
  m_copies : nat;
}.

Definition data_controls : list Z :=
  [control.HANDSHAKE_INIT_REQUEST; control.HANDSHAKE_INIT_RESPONSE;
   control.HANDSHAKE_COMPLETION_REQUEST; control.HANDSHAKE_COMPLETION_RESPONSE;
   control.ENCRYPTED_TRANSPORT].

Definition message_frame (seq : Z) (m : Message) : Frame :=
  {| fr_cid := m_cid m; fr_ctrl := control.with_seq (m_base m) seq; fr_payload := m_payload m |}.

(** What an alternating-bit sender puts on the link, without the ACKs. *)
Fixpoint transmissions (seq : Z) (ms : list Message) : list Frame :=
  match ms with
  | [] => []
  | m :: rest =>
    replicate (S (m_copies m)) (message_frame seq m) ++ transmissions (Z.lxor seq 1) rest
  end.

Definition data_only (fs : list Frame) : list Frame :=
  filter (fun f => control.is_ack (fr_ctrl f) = false) fs.

(** [n] calls of [recv_data], keeping the payloads. *)
Fixpoint recv_n {W} `{!Env W} (fuel n : nat) : Conn W (list (list Z)) :=
  match n with
  | O => mret []
  | S n' =>
    r ← recv_data fuel;
    rest ← recv_n fuel n';
    mret (r.2 :: rest)
  end.

Lemma filter_split {A} (P : A -> Prop) `{!forall x, Decision (P x)} l l1 x l2 :
  filter P l = l1 ++ x :: l2 ->
  exists k1 k2, l = k1 ++ x :: k2 /\ filter P k1 = l1 /\ filter P k2 = l2.
Proof.
  revert l1. induction l as [|y l IH]; intros l1 Heq; [by destruct l1|].
  rewrite filter_cons in Heq. destruct (decide (P y)) as [Hy|Hy].
  - destruct l1 as [|z l1]; simpl in Heq; injection Heq as -> Heq.
    + by exists [], l.
    + destruct (IH _ Heq) as (k1 & k2 & -> & <- & <-). exists (z :: k1), k2.
      split_and!; try done. rewrite filter_cons. by destruct (decide (P z)).
  - destruct (IH _ Heq) as (k1 & k2 & -> & <- & <-). exists (y :: k1), k2.
    split_and!; try done. rewrite filter_cons. by destruct (decide (P y)).
Qed.

Section Delivery.
Context (ps : nat) (Hps : INIT_HEADER < ps).

Lemma old_copies_skippable d prev noise seq :
  data_only noise = replicate d prev ->
  (d <> 0 -> control.seq_of (fr_ctrl prev) <> seq) ->
  Forall (skippable seq) noise.
Proof.
  intros Hd Hprev. apply Forall_forall. intros f Hf. unfold skippable.
  destruct (control.is_ack (fr_ctrl f)) eqn:Hack; [by left|]. right.
  assert (f ∈ data_only noise) as Hin by (apply list_elem_of_filter; done).
  rewrite Hd in Hin. apply elem_of_replicate in Hin as [-> Hne]. auto.
Qed.

Lemma lxor_bit_ne seq : is_bit seq -> seq <> Z.lxor seq 1.
Proof. by intros [-> | ->]. Qed.

Lemma recv_n_delivers fuel ms : forall fs d prev c w rest,
  Forall good_frame fs -> ready c w -> pending_data c = None -> is_bit (recv_seq c) ->
  Forall (fun m => In (m_base m) data_controls) ms ->
  (d <> 0 -> control.seq_of (fr_ctrl prev) <> recv_seq c) ->
  data_only fs = replicate d prev ++ transmissions (recv_seq c) ms ->
  inbox w = incoming ps fs ++ rest -> length (inbox w) <= fuel ->
  exists w',
    recv_n fuel (length ms) (c, w)
    = (Ret (m_payload <$> ms),
       (set_recv_seq (Nat.iter (length ms) (fun b => Z.lxor b 1) (recv_seq c)) c, w')).
Proof.
  induction ms as [|m ms IH]; intros fs d prev c w rest Hg Hr Hp Hb Hms Hprev Hd Hin Hfuel.
  { exists w. cbn. by destruct c. }
  apply Forall_cons in Hms as [Hm Hms]. cbn [transmissions replicate app] in Hd.
  apply filter_split in Hd as (noise & fs' & -> & Hnoise & Hfs').
  apply Forall_app in Hg as [Hgn [Hgf Hgs]%Forall_cons].
  destruct (with_seq_props (m_base m) (recv_seq c) Hb Hm) as (Hack & Hseq & _).
  pose proof Hfuel as Hfuel2.
  rewrite cons_middle, app_assoc, incoming_app in Hin.
  rewrite Hin, length_app in Hfuel2.
  cbn [length recv_n]. rewrite (st_bind_ret _ _ _ _ _
    (recv_data_spec ps Hps fuel noise (message_frame (recv_seq c) m) _ c w Hp Hgn
       (old_copies_skippable d prev noise _ Hnoise Hprev) Hgf (conj Hack Hseq) Hr Hin Hfuel)).
  edestruct (IH fs' (m_copies m) (message_frame (recv_seq c) m) (flip_recv c)
    (io (incoming ps fs' ++ rest) (wire (packet_size c)
       (answers c (noise ++ [message_frame (recv_seq c) m]))) w) rest) as [w' Hw'];
    [done|by apply ready_io|done|by apply lxor_bit|done| |exact Hfs'|done| |].
  - intros _. cbn [message_frame fr_ctrl]. rewrite Hseq. by apply lxor_bit_ne.
  - cbn [io inbox]. lia.
  - rewrite (st_bind_ret _ _ _ _ _ Hw'). exists w'. mred. cbn [fr_payload message_frame snd].
    rewrite Nat.iter_succ_r. by destruct c.
Qed.

(** C12: Exactly-once, in-order delivery: if the device sends messages under the
    alternating bit, each any number of times, with any number of ACK frames
    anywhere in between, then as many calls of [recv_data] as there are
    messages return exactly their payloads, once each and in order, whatever
    packet size the device uses; the host's receive bit has flipped once per
    message. *)
Theorem abp_exactly_once fuel fs ms c w rest :
  Forall good_frame fs -> ready c w -> pending_data c = None -> is_bit (recv_seq c) ->
  Forall (fun m => In (m_base m) data_controls) ms ->
  data_only fs = transmissions (recv_seq c) ms ->
  inbox w = incoming ps fs ++ rest -> length (inbox w) <= fuel ->
  exists w',
    recv_n fuel (length ms) (c, w)
    = (Ret (m_payload <$> ms),
       (set_recv_seq (Nat.iter (length ms) (fun b => Z.lxor b 1) (recv_seq c)) c, w')).
Proof.
  intros Hg Hr Hp Hb Hms Hd Hin Hfuel.
  apply (recv_n_delivers fuel ms fs 0 {| fr_cid := 0; fr_ctrl := 0; fr_payload := [] |}
           c w rest); done.
Qed.
End Delivery.

(** ** A data frame where an ACK was expected *)
Section Early.
Context (ps : nat) (Hps : INIT_HEADER < ps).

(** Whatever its sequence bit, a data frame ends the wait for the ACK. *)
Lemma await_ack_data fuel n f rest c w :
  good_frame f -> control.is_ack (fr_ctrl f) = false -> ready c w ->
  inbox w = incoming ps [f] ++ rest -> length (inbox w) <= fuel -> 0 < n ->
  await_ack fuel n (c, w)
  = (Ret tt,
     (if (control.seq_of (fr_ctrl f) =? recv_seq c)%Z
      then set_pending_data (Some (fr_ctrl f, fr_payload f)) (flip_recv (flip_send c))
      else flip_send c,
      io rest (wire (packet_size c) [ack_frame c (control.seq_of (fr_ctrl f))]) w)).
Proof.
  intros Hf Hack Hr Hin Hfuel Hn. destruct n as [|n]; [lia|]. cbn [await_ack].
  rewrite (st_bind_ret _ _ _ _ _
    (read_framed_incoming ps Hps f [] fuel rest c w Hf (proj2 (proj2 Hr)) Hin Hfuel)).
  mred. cbn [conn_get fst]. rewrite Hack. cbv [conn_modify fst snd].
  rewrite send_ack_emits by (by apply (ready_io (flip_send c))).
  cbn [conn_get fst flip_send set_send_seq recv_seq].
  rewrite io_io. by destruct (_ =? _)%Z.
Qed.

Lemma send_data_early fuel base payload f rest c w :
  good_frame f -> control.is_ack (fr_ctrl f) = false -> ready c w ->
  valid_frame (control.with_seq base (send_seq c)) (cid c) payload ->
  inbox w = incoming ps [f] ++ rest -> length (inbox w) <= fuel ->
  send_data fuel base payload (c, w)
  = (Ret tt,
     (if (control.seq_of (fr_ctrl f) =? recv_seq c)%Z
      then set_pending_data (Some (fr_ctrl f, fr_payload f)) (flip_recv (flip_send c))
      else flip_send c,
      io rest (wire (packet_size c)
        [host_frame c (control.with_seq base (send_seq c)) payload;
         ack_frame c (control.seq_of (fr_ctrl f))]) w)).
Proof.
  intros Hf Hack Hr Hv Hin Hfuel. unfold send_data. mred. cbn [conn_get fst].
  rewrite write_framed_emits by done.
  rewrite (await_ack_data fuel fuel f rest); try done.
  - unfold wire. cbn [fmap list_fmap concat]. by rewrite io_io.
  - by apply ready_io.
  - rewrite Hin in Hfuel. unfold incoming in Hfuel. rewrite length_app, length_fmap in Hfuel.
    pose proof (length_wire ps [f] Hps) as Hl. cbn [length] in Hl.
    specialize (Hl ltac:(by apply Forall_singleton)). lia.
Qed.

(** C26: A device that answers without ACKing is indistinguishable, for the caller
    and for every later operation, from one that ACKs first: sending a message
    and receiving the reply gives the same payload, leaves the same connection
    (both sequence bits flipped, nothing stashed) and writes the same frames. *)
Theorem early_reply_equivalent fuel base payload f dcid rest c w1 w2 :
  good_frame f -> fresh_data (recv_seq c) f -> ready c w1 -> ready c w2 ->
  pending_data c = None -> is_bit (send_seq c) -> (0 <= dcid < u16_mod)%Z ->
  valid_frame (control.with_seq base (send_seq c)) (cid c) payload ->
  let ack := {| fr_cid := dcid; fr_ctrl := control.ack_for (send_seq c); fr_payload := [] |} in
  inbox w1 = incoming ps [f] ++ rest -> inbox w2 = incoming ps [ack; f] ++ rest ->
  length (inbox w1) <= fuel -> length (inbox w2) <= fuel ->
  let exchange := send_data fuel base payload;; recv_data fuel in
  let after out := (Ret (fr_ctrl f, fr_payload f), (flip_recv (flip_send c), out)) in
  let written := wire (packet_size c)
    [host_frame c (control.with_seq base (send_seq c)) payload; ack_frame c (recv_seq c)] in
  exchange (c, w1) = after (io rest written w1) /\
  exchange (c, w2) = after (io rest written w2).
Proof.
  intros Hf [Hack Hseq] Hr1 Hr2 Hp Hb Hdc Hv ack Hin1 Hin2 Hf1 Hf2 exchange after written.
  unfold exchange, after, written. split.
  - rewrite (st_bind_ret _ _ _ _ _
      (send_data_early fuel base payload f rest c w1 Hf Hack Hr1 Hv Hin1 Hf1)).
    rewrite Hseq, Z.eqb_refl. unfold recv_data. mred. cbn [conn_get fst].
    cbn [pending_data set_pending_data]. cbv [conn_modify fst snd]. do 2 f_equal.
    destruct c. cbn in Hp |- *. by subst.
  - assert (good_frame ack) as Hga.
    { split; [by apply ack_valid|]. cbn. by destruct Hb as [-> | ->]. }
    destruct (ack_for_props (send_seq c) Hb) as [Ha1 Ha2].
    change [ack; f] with ([ack] ++ [f]) in Hin2. rewrite incoming_app in Hin2.
    rewrite (st_bind_ret _ _ _ _ _
      (send_data_spec ps Hps fuel base payload [] ack (incoming ps [f] ++ rest) c w2
         (Forall_nil_2 _) (Forall_nil_2 _) Hga (conj Ha1 Ha2) Hr2 Hv Hin2 Hf2)).
    rewrite (recv_data_spec ps Hps fuel [] f rest (flip_send c)); try done.
    + rewrite io_io. unfold answers. cbn [mbind list_bind app]. rewrite Hack, Hseq.
      cbn [flip_send set_send_seq packet_size recv_seq]. by rewrite <- wire_app.
    + by apply (ready_io (flip_send c)).
    + rewrite Hin2, length_app in Hf2. cbn [io inbox]. lia.
Qed.

(** The wait for an ACK is also ended by a data frame that was already
    processed: a retransmission of the previous reply, which says nothing about
    the message just sent, completes [send_data] and flips the send bit. *)
Lemma duplicate_taken_as_ack fuel base payload f rest c w :
  good_frame f -> control.is_ack (fr_ctrl f) = false ->
  control.seq_of (fr_ctrl f) <> recv_seq c -> ready c w ->
  valid_frame (control.with_seq base (send_seq c)) (cid c) payload ->
  inbox w = incoming ps [f] ++ rest -> length (inbox w) <= fuel ->
  exists w', send_data fuel base payload (c, w) = (Ret tt, (flip_send c, w')).
Proof.
  intros Hf Hack Hseq Hr Hv Hin Hfuel. eexists.
  rewrite (send_data_early fuel base payload f rest c w Hf Hack Hr Hv Hin Hfuel).
  apply Z.eqb_neq in Hseq. by rewrite Hseq.
Qed.
End Early.

(** ** Channel allocation among unrelated traffic *)
Section Allocation.
Context {CR : Crypto} {PM : ThpProto} (ps : nat) (Hps : INIT_HEADER < ps).

(** Traffic [allocate] skips: another kind of frame, or a response that does not
    parse for our nonce. *)
Definition unrelated (nonce : list Z) (f : Frame) : Prop :=
  fr_ctrl f <> control.CHANNEL_ALLOCATION_RESPONSE \/
  exists e, parse_allocation_response nonce (fr_payload f) = Fail e.

Definition allocated (a : ChannelAllocation) (c : Connection) : Connection :=
  set_pending_data None (set_recv_seq 0 (set_send_seq 0 (set_cid (alloc_cid a) c))).

Definition allocation_request (nonce : list Z) : Frame :=
  {| fr_cid := BROADCAST_CID; fr_ctrl := control.CHANNEL_ALLOCATION_REQUEST;
     fr_payload := nonce |}.

(** The environment once the request is written, with [traffic] left to read. *)
Definition requested (nonce : list Z) (traffic : list (TrezorTransportError + list Z))
    (c : Connection) (w : Script) : Script :=
  {| inbox := traffic; outbox := outbox w ++ wire (packet_size c) [allocation_request nonce];
     write_errors := []; entropy := drop ALLOCATION_NONCE_LEN (entropy w); codes := codes w |}.

Lemma io_requested nonce traffic traffic' c w :
  io traffic' [] (requested nonce traffic c w) = requested nonce traffic' c w.
Proof. unfold io, requested. cbn [outbox entropy codes]. by rewrite app_nil_r. Qed.

Lemma allocate_loop_skips fuel n nonce noise fs rest c w :
  Forall good_frame noise -> Forall (unrelated nonce) noise -> write_errors w = [] ->
  length noise <= n ->
  inbox w = incoming ps (noise ++ fs) ++ rest -> length (inbox w) <= fuel ->
  allocate_loop fuel n nonce (c, w)
  = allocate_loop fuel (n - length noise) nonce (c, io (incoming ps fs ++ rest) [] w).
Proof.
  intros Hg Hu. revert n w. induction noise as [|f noise IH]; intros n w Hwe Hn Hin Hfuel.
  { cbn [length] in *. rewrite Nat.sub_0_r. cbn [app] in Hin. by rewrite <- Hin, io_nil. }
  apply Forall_cons in Hg as [Hf Hg]. apply Forall_cons in Hu as [Hfu Hu].
  destruct n as [|n]; [cbn in Hn; lia|]. cbn [app] in Hin.
  cbn [allocate_loop length Nat.sub]. rewrite (st_bind_ret _ _ _ _ _
    (read_framed_incoming ps Hps f (noise ++ fs) fuel rest c w Hf Hwe Hin Hfuel)).
  destruct (Z.eqb_spec (fr_ctrl f) control.CHANNEL_ALLOCATION_RESPONSE) as [Heq|_].
  - destruct Hfu as [?|[err ->]]; [done|].
    rewrite IH; try done; [by rewrite io_io|cbn [length] in Hn; lia|].
    cbn [io inbox]. by eapply (incoming_fuel ps Hps f).
  - rewrite IH; try done; [by rewrite io_io|cbn [length] in Hn; lia|].
    cbn [io inbox]. by eapply (incoming_fuel ps Hps f).
Qed.

Lemma allocate_sends fuel c w nonce :
  length nonce = ALLOCATION_NONCE_LEN -> bytes_ok nonce ->
  take ALLOCATION_NONCE_LEN (entropy w) = nonce ->
  ready c w ->
  allocate fuel (c, w) =
  allocate_loop fuel MAX_ALLOC_READS nonce
    (set_cid BROADCAST_CID c, requested nonce (inbox w) c w).
Proof.
  intros Hl Hok Hn (Hp & Hc & Hwe). unfold allocate, random_allocation_nonce.
  erewrite st_bind_ret.
  2: { unfold on_env, random_bytes. cbn [fst snd getrandom script_env]. unfold script_random.
       replace (ALLOCATION_NONCE_LEN <=? length (entropy w)) with true; [reflexivity|].
       symmetry. apply Nat.leb_le. rewrite <- Hl, <- Hn, length_take. lia. }
  rewrite Hn. mred. unfold conn_modify. cbn [fst snd].
  rewrite write_framed_emits.
  - unfold requested, wire, allocation_request. cbn [fmap list_fmap concat]. rewrite app_nil_r. done.
  - split_and!; try done.
  - split_and!; try done. unfold build_allocation_request. rewrite Hl. done.
Qed.

End Allocation.

(** ** Witnesses *)
Definition script_of (traffic : list (TrezorTransportError + list Z)) : Script :=
  {| inbox := traffic; outbox := []; write_errors := []; entropy := [1; 2; 3; 4; 5; 6; 7; 8]%Z;
     codes := [] |}.

Definition on_channel (n : Z) : Connection := set_cid n (connection_new 64).

(** Two messages, the first sent three times, with stray ACKs around them. *)
Definition first_message : Message :=
  {| m_base := control.ENCRYPTED_TRANSPORT; m_cid := 3; m_payload := [1; 2; 3]%Z; m_copies := 2 |}.
Definition second_message : Message :=
  {| m_base := control.ENCRYPTED_TRANSPORT; m_cid := 3; m_payload := [4]%Z; m_copies := 0 |}.
Definition stray : Frame := {| fr_cid := 3; fr_ctrl := 0x20; fr_payload := [] |}.
Definition noisy_link : list Frame :=
  [stray; message_frame 0 first_message; message_frame 0 first_message; stray;
   message_frame 0 first_message; message_frame 1 second_message].

Lemma good_frame_compute f :
  ((0 <=? fr_ctrl f) && (fr_ctrl f <? 128) && (0 <=? fr_cid f) && (fr_cid f <? u16_mod)
   && bytes_okb (fr_payload f)
   && (Z.of_nat (length (fr_payload f) + CRC_LEN) <? u16_mod)
   && negb (fr_ctrl f =? control.TRANSPORT_ERROR))%Z = true -> good_frame f.
Proof.
  rewrite !andb_true_iff, !Z.leb_le, !Z.ltb_lt, negb_true_iff, Z.eqb_neq. intros H.
  unfold good_frame, valid_frame. pose proof (bytes_okb_true (fr_payload f)). tauto.
Qed.

Lemma noisy_link_good : Forall good_frame noisy_link.
Proof. repeat (apply Forall_cons; split; [by apply good_frame_compute|]). constructor. Qed.

Lemma on_channel_ready traffic : ready (on_channel 3) (script_of traffic).
Proof. split_and!; cbn; unfold INIT_HEADER, u16_mod; lia || done. Qed.

Lemma abp_exactly_once_witness :
  exists w',
    recv_n 9 2 (on_channel 3, script_of (incoming 64 noisy_link ++ []))
    = (Ret [[1; 2; 3]; [4]]%Z, (set_recv_seq 0 (on_channel 3), w')).
Proof.
  apply (abp_exactly_once 64 ltac:(unfold INIT_HEADER; lia) 9 noisy_link
           [first_message; second_message] (on_channel 3)
           (script_of (incoming 64 noisy_link ++ [])) []).
  - apply noisy_link_good.
  - apply on_channel_ready.
  - reflexivity.
  - by left.
  - repeat constructor; simpl; tauto.
  - reflexivity.
  - reflexivity.
  - by apply Nat.leb_le.
Defined.

Lemma early_reply_equivalent_witness :
  let c := on_channel 3 in
  let f := message_frame 0 first_message in
  let ack := {| fr_cid := 3; fr_ctrl := control.ack_for 0; fr_payload := [] |} in
  let exchange := send_data 9 control.ENCRYPTED_TRANSPORT [7]%Z;; recv_data 9 in
  let written := wire 64 [host_frame c (control.with_seq control.ENCRYPTED_TRANSPORT 0) [7]%Z;
                          ack_frame c 0] in
  exchange (c, script_of (incoming 64 [f] ++ []))
  = (Ret (fr_ctrl f, fr_payload f),
     (flip_recv (flip_send c), io [] written (script_of (incoming 64 [f] ++ [])))) /\
  exchange (c, script_of (incoming 64 [ack; f] ++ []))
  = (Ret (fr_ctrl f, fr_payload f),
     (flip_recv (flip_send c), io [] written (script_of (incoming 64 [ack; f] ++ [])))).
Proof.
  intros c f ack.
  apply (early_reply_equivalent 64 ltac:(unfold INIT_HEADER; lia) 9
           control.ENCRYPTED_TRANSPORT [7]%Z f 3 [] c).
  - by apply good_frame_compute.
  - done.
  - apply on_channel_ready.
  - apply on_channel_ready.
  - reflexivity.
  - by left.
  - unfold u16_mod. lia.
  - apply (good_frame_compute {| fr_cid := 3; fr_ctrl := 4; fr_payload := [7]%Z |}).
    reflexivity.
  - reflexivity.
  - reflexivity.
  - by apply Nat.leb_le.
  - by apply Nat.leb_le.
Defined.

(** The previous reply again, while the host waits for the ACK of its next
    message: the host has received sequence bit 0 and expects 1. *)
Lemma duplicate_taken_as_ack_witness :
  let c := set_recv_seq 1 (on_channel 3) in
  let w := script_of (incoming 64 [message_frame 0 first_message] ++ []) in
  exists w', send_data 9 control.ENCRYPTED_TRANSPORT [7]%Z (c, w) = (Ret tt, (flip_send c, w')).
Proof.
  intros c w.
  apply (duplicate_taken_as_ack 64 ltac:(unfold INIT_HEADER; lia) 9
           control.ENCRYPTED_TRANSPORT [7]%Z (message_frame 0 first_message) [] c w).
  - by apply good_frame_compute.
  - reflexivity.
  - discriminate.
  - apply on_channel_ready.
  - apply (good_frame_compute {| fr_cid := 3; fr_ctrl := 4; fr_payload := [7]%Z |}).
    reflexivity.
  - reflexivity.
  - by apply Nat.leb_le.
Defined.

