(* ===== verification/ConnectionExchange.v ===== *)
(** * Application exchanges over the driver

    One request and any number of button requests, sealed by the device's
    session and delivered by the protocol of ConnectionAbp.v: what [transceive]
    returns, what it writes, and where it leaves both sessions. *)

From S2P Require Import Prelude Types Env Crypto Proto Framing Channel Session Noise.
From S2P Require Import Connection ConnectionSafe ConnectionAbp.

Section Exchange.
Context {CR : Crypto} {CL : CryptoLaws} {PM : ThpProto}.
Context (ps : nat) (Hps : INIT_HEADER < ps).

(** A body that fits one transport payload with its header, tag and CRC. *)
Definition fits (body : list Z) : Prop :=
  bytes_ok body /\ (Z.of_nat (length body) + 23 < u16_mod)%Z.

(** The device seals for the host what the host opens. *)
Definition synced (s d : Session) : Prop :=
  key_send d = key_recv s /\ nonce_send d = nonce_recv s.

Definition sealed (sid : Z) (d : Session) (m : Z * list Z) : list Z * Session :=
  session_seal (encode_app_message sid m.1 m.2) d.

(** The device's side: each request is ACKed, then answered. *)
Fixpoint device_frames (dcid sid ss rs : Z) (d : Session) (replies : list (Z * list Z))
    : list Frame :=
  match replies with
  | [] => []
  | m :: rest =>
    {| fr_cid := dcid; fr_ctrl := control.ack_for ss; fr_payload := [] |}
    :: {| fr_cid := dcid; fr_ctrl := control.with_seq control.ENCRYPTED_TRANSPORT rs;
          fr_payload := (sealed sid d m).1 |}
    :: device_frames dcid sid (Z.lxor ss 1) (Z.lxor rs 1) (sealed sid d m).2 rest
  end.

(** The connection after one message each way. *)
Definition step_session (s : Session) : Session :=
  {| key_send := key_send s; key_recv := key_recv s;
     nonce_send := bump (nonce_send s); nonce_recv := bump (nonce_recv s) |}.
Definition step_connection (c : Connection) : Connection :=
  put_session (step_session <$> session c) (flip_recv (flip_send c)).

(** The host's side: each message, then the ACK of its reply. *)
Fixpoint host_frames (c : Connection) (s : Session) (requests : list (Z * list Z))
    : list Frame :=
  match requests with
  | [] => []
  | m :: rest =>
    host_frame c (control.with_seq control.ENCRYPTED_TRANSPORT (send_seq c))
      (sealed (active_session_id c) s m).1
    :: ack_frame c (recv_seq c)
    :: host_frames (step_connection c) (step_session s) rest
  end.

Lemma sealed_payload sid d m :
  is_byte sid -> fits m.2 ->
  bytes_ok (sealed sid d m).1 /\
  (Z.of_nat (length (sealed sid d m).1 + CRC_LEN) < u16_mod)%Z.
Proof.
  intros Hs [Hok Hl]. cbn [sealed session_seal fst]. split.
  - apply aes_gcm_ok. by apply encode_app_ok.
  - rewrite seal_length. unfold encode_app_message. rewrite !length_app, length_be_bytes.
    unfold TAG_LEN, CRC_LEN. cbn [length]. lia.
Qed.

Lemma encrypted_frame_good cid' seq sid d m :
  is_bit seq -> is_byte sid -> fits m.2 -> (0 <= cid' < u16_mod)%Z ->
  good_frame {| fr_cid := cid'; fr_ctrl := control.with_seq control.ENCRYPTED_TRANSPORT seq;
                fr_payload := (sealed sid d m).1 |}.
Proof.
  intros Hb Hs Hm Hc.
  destruct (with_seq_props control.ENCRYPTED_TRANSPORT seq Hb) as (_ & _ & Hte & Hr);
    [simpl; tauto|].
  destruct (sealed_payload sid d m Hs Hm) as [Hok Hl].
  split; [|done]. split_and!; try done; try apply Hr; try apply Hc.
Qed.

Lemma ack_frame_good cid' seq :
  is_bit seq -> (0 <= cid' < u16_mod)%Z ->
  good_frame {| fr_cid := cid'; fr_ctrl := control.ack_for seq; fr_payload := [] |}.
Proof. intros Hb Hc. split; [by apply ack_valid|]. cbn. by destruct Hb as [-> | ->]. Qed.

(** Everything a step of an exchange starts from. *)
Definition can_exchange (c : Connection) (s d : Session) (w : Script) : Prop :=
  ready c w /\ wf_connection c /\ pending_data c = None /\ session c = Some s /\ synced s d.

Lemma can_exchange_step c s d m sid rest out w :
  can_exchange c s d w ->
  can_exchange (step_connection c) (step_session s) (sealed sid d m).2 (io rest out w).
Proof.
  intros (Hr & Hwf & Hp & Hs & Hk & Hn). split; [by apply (ready_io c)|]. split.
  { apply wf_put_session. auto with conn. }
  split; [done|]. unfold step_connection. cbn. rewrite Hs. split; [done|].
  split; [done|]. cbn. by rewrite Hn.
Qed.

(** Sending seals the message under the next nonce. *)
Lemma send_app_eq fuel mt body c s w :
  session c = Some s ->
  send_app fuel mt body (c, w)
  = send_data fuel control.ENCRYPTED_TRANSPORT (sealed (active_session_id c) s (mt, body)).1
      (put_session (Some (sealed (active_session_id c) s (mt, body)).2) c, w).
Proof.
  intros Hs. unfold send_app. mred. cbn [conn_get fst]. by rewrite Hs.
Qed.

Definition opened_session (s : Session) : Session :=
  {| key_send := key_send s; key_recv := key_recv s; nonce_send := nonce_send s;
     nonce_recv := bump (nonce_recv s) |}.

(** Receiving what the device sealed for the host opens to the device's message. *)
Lemma recv_app_opens fuel sid d m ctrl c c' s w w' :
  recv_data fuel (c, w) = (Ret (ctrl, (sealed sid d m).1), (c', w')) ->
  session c' = Some s -> synced s d -> (0 <= m.1 < u16_mod)%Z ->
  recv_app fuel (c, w) = (Ret m, (put_session (Some (opened_session s)) c', w')).
Proof.
  intros Hr Hs [Hk Hn] Hm. unfold recv_app. rewrite (st_bind_ret _ _ _ _ _ Hr).
  mred. cbn [conn_get fst]. rewrite Hs. cbn [ok_or]. unfold session_open. mred.
  unfold sealed. cbn [session_seal fst]. rewrite Hk, Hn, open_seal.
  cbv [conn_modify fst snd]. rewrite decode_encode_app by done. by destruct m.
Qed.

(** One data message out and its answer in, whatever either carries. *)
Lemma data_exchange fuel dcid base dbase payload reply c fs rest w :
  wf_connection c -> ready c w -> pending_data c = None ->
  In base data_controls -> In dbase data_controls ->
  bytes_ok payload -> (Z.of_nat (length payload + CRC_LEN) < u16_mod)%Z ->
  bytes_ok reply -> (Z.of_nat (length reply + CRC_LEN) < u16_mod)%Z ->
  (0 <= dcid < u16_mod)%Z ->
  inbox w = incoming ps
    ({| fr_cid := dcid; fr_ctrl := control.ack_for (send_seq c); fr_payload := [] |}
     :: {| fr_cid := dcid; fr_ctrl := control.with_seq dbase (recv_seq c);
           fr_payload := reply |} :: fs) ++ rest ->
  length (inbox w) <= fuel ->
  exists w1,
    send_data fuel base payload (c, w) = (Ret tt, (flip_send c, w1)) /\
    recv_data fuel (flip_send c, w1)
    = (Ret (control.with_seq dbase (recv_seq c), reply),
       (flip_recv (flip_send c),
        io (incoming ps fs ++ rest)
          (wire (packet_size c)
             [host_frame c (control.with_seq base (send_seq c)) payload;
              ack_frame c (recv_seq c)]) w)).
Proof.
  intros Hwf Hr Hp Hbase Hdbase Hpok Hpl Hrok Hrl Hdc Hin Hfuel.
  pose proof Hwf as (Hcid & Hss & Hrs & _).
  set (ack := {| fr_cid := dcid; fr_ctrl := control.ack_for (send_seq c); fr_payload := [] |})
    in *.
  set (data := {| fr_cid := dcid; fr_ctrl := control.with_seq dbase (recv_seq c);
                  fr_payload := reply |}) in *.
  destruct (with_seq_props dbase (recv_seq c) Hrs Hdbase) as (Hd1 & Hd2 & Hd3 & Hd4).
  destruct (with_seq_props base (send_seq c) Hss Hbase) as (_ & _ & _ & Hb4).
  assert (Hga : good_frame ack) by by apply ack_frame_good.
  assert (Hgd : good_frame data) by (split; [by split_and!; try apply Hd4; try apply Hdc|done]).
  change (ack :: data :: fs) with ([ack] ++ [data] ++ fs) in Hin. rewrite !incoming_app in Hin.
  pose proof Hfuel as Hfuel2. rewrite Hin, length_app in Hfuel2.
  eexists. split.
  { apply (send_data_spec ps Hps fuel base payload [] ack (incoming ps ([data] ++ fs) ++ rest)
      c w (Forall_nil_2 _) (Forall_nil_2 _) Hga (ack_for_props _ Hss) Hr); try done.
    by rewrite Hin, (incoming_app ps [data]). }
  rewrite (recv_data_spec ps Hps fuel [] data (incoming ps fs ++ rest)); try done.
  - rewrite io_io. unfold answers. cbn [mbind list_bind app fr_ctrl data]. rewrite Hd1, Hd2.
    cbn [app fr_payload]. by rewrite <- wire_app.
  - by apply (ready_io c).
  - cbn [io inbox]. by rewrite (incoming_app ps [data]).
  - cbn [io inbox]. rewrite incoming_app. lia.
Qed.

(** One message out, one reply in. *)
Lemma exchange_step {A} fuel dcid sid mt body reply c s d fs rest w
    (k : Z * list Z -> Conn Script A) :
  can_exchange c s d w -> fits body -> fits reply.2 -> is_byte sid ->
  (0 <= reply.1 < u16_mod)%Z -> (0 <= dcid < u16_mod)%Z ->
  inbox w = incoming ps
    ({| fr_cid := dcid; fr_ctrl := control.ack_for (send_seq c); fr_payload := [] |}
     :: {| fr_cid := dcid;
           fr_ctrl := control.with_seq control.ENCRYPTED_TRANSPORT (recv_seq c);
           fr_payload := (sealed sid d reply).1 |} :: fs) ++ rest ->
  length (inbox w) <= fuel ->
  (send_app fuel mt body;; recv_app fuel ≫= k) (c, w)
  = k reply (step_connection c,
             io (incoming ps fs ++ rest)
               (wire (packet_size c)
                  [host_frame c (control.with_seq control.ENCRYPTED_TRANSPORT (send_seq c))
                     (sealed (active_session_id c) s (mt, body)).1;
                   ack_frame c (recv_seq c)]) w).
Proof.
  intros (Hr & Hwf & Hp & Hs & Hk & Hn) Hb Hrb Hsid Hrt Hdc Hin Hfuel.
  destruct (sealed_payload (active_session_id c) s (mt, body)) as [Hct Hctl];
    [apply Hwf|done|].
  destruct (sealed_payload sid d reply Hsid Hrb) as [Hrok Hrl].
  set (c0 := put_session (Some (sealed (active_session_id c) s (mt, body)).2) c).
  assert (Hwf0 : wf_connection c0) by (apply wf_put_session; auto with conn).
  destruct (data_exchange fuel dcid control.ENCRYPTED_TRANSPORT control.ENCRYPTED_TRANSPORT
    (sealed (active_session_id c) s (mt, body)).1 (sealed sid d reply).1 c0 fs rest w Hwf0 Hr Hp)
    as (w1 & Hsend & Hrecv); try (done || (simpl; tauto)).
  rewrite (st_bind_ret _ _ _ _ _ (eq_trans (send_app_eq fuel mt body c s w Hs) Hsend)).
  rewrite (st_bind_ret _ _ _ _ _
    (recv_app_opens fuel sid d reply _ _ _ _ _ _ Hrecv eq_refl (conj Hk Hn) Hrt)).
  destruct reply as [rt rp]. f_equal. unfold step_connection. by rewrite Hs.
Qed.

(** ** Whole exchanges *)
Definition button_request (m : Z * list Z) : Prop := m.1 = MSG_BUTTON_REQUEST.
Definition button_ack : Z * list Z := (MSG_BUTTON_ACK, encode_to_vec mkButtonAck).

(** What the final reply of the device amounts to for the caller. *)
Definition reply_outcome (m : Z * list Z) : outcome TrezorError (Z * list Z) :=
  if (m.1 =? MSG_FAILURE)%Z then Fail (decode_failure m.2) else Ret m.

Lemma transceive_loop_exchange fuel dcid sid buttons final : forall mt body c s d rest w n,
  can_exchange c s d w -> fits body -> fits (encode_to_vec mkButtonAck) ->
  is_byte sid -> (0 <= dcid < u16_mod)%Z ->
  Forall button_request buttons -> Forall (fun m => fits m.2) (buttons ++ [final]) ->
  (0 <= final.1 < u16_mod)%Z -> final.1 <> MSG_BUTTON_REQUEST ->
  inbox w = incoming ps
    (device_frames dcid sid (send_seq c) (recv_seq c) d (buttons ++ [final])) ++ rest ->
  length (inbox w) <= fuel -> length buttons < n ->
  (send_app fuel mt body;; transceive_loop fuel n) (c, w)
  = (reply_outcome final,
     (Nat.iter (S (length buttons)) step_connection c,
      io rest (wire (packet_size c)
        (host_frames c s ((mt, body) :: replicate (length buttons) button_ack))) w)).
Proof.
  induction buttons as [|b buttons IH];
    intros mt body c s d rest w n Hce Hb Hba Hsid Hdc Hbr Hfit Hft Hfinal Hin Hfuel Hn;
    (destruct n as [|n]; [lia|]); cbn [transceive_loop length replicate].
  - cbn [app device_frames] in Hin, Hfit. rewrite Forall_singleton in Hfit.
    rewrite (exchange_step fuel dcid sid mt body final c s d [] rest w); try done.
    destruct final as [rt rp]. cbn [fst] in *. unfold reply_outcome. cbn [fst snd].
    apply Z.eqb_neq in Hfinal. rewrite Hfinal. by destruct (rt =? MSG_FAILURE)%Z.
  - apply Forall_cons in Hbr as [Hb1 Hbr]. cbn [app] in Hfit, Hin.
    apply Forall_cons in Hfit as [Hfb Hfit]. cbn [device_frames] in Hin.
    erewrite (exchange_step fuel dcid sid mt body b c s d _ rest w);
      [|done..|by rewrite Hb1|done|exact Hin|done].
    destruct b as [rt rp]. cbn [fst] in Hb1. unfold button_request in Hb1. cbn in Hb1.
    subst rt. rewrite Z.eqb_refl.
    erewrite (IH MSG_BUTTON_ACK _ _ (step_session s)
      (sealed sid d (MSG_BUTTON_REQUEST, rp)).2 rest);
      [|by apply can_exchange_step|done..|reflexivity| |cbn [length] in Hn; lia].
    + rewrite io_io. f_equal. f_equal; [by rewrite <- Nat.iter_succ_r|].
      f_equal. cbn [host_frames]. by rewrite <- wire_app.
    + cbn [io inbox]. rewrite Hin in Hfuel.
      set (fs := device_frames _ _ _ _ _ _) in *.
      match type of Hfuel with
      | context [?a :: ?b :: fs] => change (a :: b :: fs) with ([a; b] ++ fs) in Hfuel
      end.
      rewrite incoming_app, length_app in Hfuel. lia.
Qed.

Lemma device_frames_good dcid sid ss rs d replies :
  is_bit ss -> is_bit rs -> is_byte sid -> (0 <= dcid < u16_mod)%Z ->
  Forall (fun m => fits m.2) replies ->
  Forall good_frame (device_frames dcid sid ss rs d replies) /\
  length (device_frames dcid sid ss rs d replies) = 2 * length replies.
Proof.
  intros Hs Hr Hsid Hc Hf. revert ss rs d Hs Hr.
  induction Hf as [|m ms Hm _ IH]; intros ss rs d Hs Hr; [by split; constructor|].
  cbn [device_frames length]. destruct (IH (Z.lxor ss 1) (Z.lxor rs 1) (sealed sid d m).2)
    as [Hg Hl]; [by apply lxor_bit..|]. split; [|lia].
  constructor; [by apply ack_frame_good|]. constructor; [by apply encrypted_frame_good|done].
Qed.

(** Reading a device's frames takes at least two packets a message. *)
Lemma device_frames_packets dcid sid ss rs d replies rest :
  is_bit ss -> is_bit rs -> is_byte sid -> (0 <= dcid < u16_mod)%Z ->
  Forall (fun m => fits m.2) replies ->
  2 * length replies <= length (incoming ps (device_frames dcid sid ss rs d replies) ++ rest).
Proof.
  intros Hs Hr Hsid Hc Hf. unfold incoming. rewrite length_app, length_fmap.
  destruct (device_frames_good dcid sid ss rs d replies Hs Hr Hsid Hc Hf) as [Hg <-].
  pose proof (length_wire ps _ Hps Hg). lia.
Qed.

(** C14: [transceive] completes a whole exchange: whatever number of
    ButtonRequests the device inserts, the host answers each with one ButtonAck,
    ACKs every message, and returns exactly the device's final message, or the
    decoded error when it is a Failure; what it writes is the request and the
    ButtonAcks, each sealed under the next nonce and framed with the alternating
    sequence bit, and both nonces and both bits have advanced once per message. *)
Theorem transceive_exchange fuel dcid sid buttons final mt body c s d rest w :
  can_exchange c s d w -> fits body -> fits (encode_to_vec mkButtonAck) ->
  is_byte sid -> (0 <= dcid < u16_mod)%Z ->
  Forall button_request buttons -> Forall (fun m => fits m.2) (buttons ++ [final]) ->
  (0 <= final.1 < u16_mod)%Z -> final.1 <> MSG_BUTTON_REQUEST ->
  inbox w = incoming ps
    (device_frames dcid sid (send_seq c) (recv_seq c) d (buttons ++ [final])) ++ rest ->
  length (inbox w) <= fuel ->
  transceive fuel mt body (c, w)
  = (reply_outcome final,
     (Nat.iter (S (length buttons)) step_connection c,
      io rest (wire (packet_size c)
        (host_frames c s ((mt, body) :: replicate (length buttons) button_ack))) w)).
Proof.
  intros Hce Hb Hba Hsid Hdc Hbr Hfit Hft Hfinal Hin Hfuel.
  apply (transceive_loop_exchange fuel dcid sid buttons final mt body c s d rest w fuel);
    try done.
  destruct Hce as (_ & (_ & Hss & Hrs & _) & _).
  pose proof (device_frames_packets dcid sid _ _ d _ rest Hss Hrs Hsid Hdc Hfit) as Hl.
  rewrite Hin in Hfuel. rewrite length_app in Hl. cbn [length] in Hl. lia.
Qed.
End Exchange.

(** Witness: a request answered after one button request. *)
Definition host_session : Session := session_new [1]%Z [2]%Z 0 1.
Definition device_session : Session := session_new [2]%Z [1]%Z 1 0.
Definition exchange_connection : Connection :=
  put_session (Some host_session) (on_channel 3).

Lemma transceive_exchange_witness :
  let CR := toy_crypto in let PM := toy_thp_proto in
  let replies := [(MSG_BUTTON_REQUEST, [])] ++ [(17%Z, [9; 9]%Z)] in
  let w := script_of (incoming 64 (device_frames 3 0 0 0 device_session replies) ++ []) in
  transceive 20 55 [] (exchange_connection, w)
  = (Ret (17%Z, [9; 9]%Z),
     (Nat.iter 2 step_connection exchange_connection,
      io [] (wire 64 (host_frames exchange_connection host_session
                        [(55%Z, []); button_ack])) w)).
Proof.
  intros CR PM replies w.
  apply (transceive_exchange (CR := toy_crypto) (CL := toy_crypto_laws)
           (PM := toy_thp_proto) 64
           ltac:(unfold INIT_HEADER; lia) 20 3 0 [(MSG_BUTTON_REQUEST, [])] (17%Z, [9; 9]%Z)
           55 [] exchange_connection host_session device_session [] w).
  - split; [apply on_channel_ready|]. split; [|done]. apply wf_put_session.
    apply wf_set_cid; [apply connection_new_wf|unfold u16_mod; lia].
  - split; [by apply bytes_okb_true|done].
  - split; [by apply bytes_okb_true|done].
  - unfold is_byte. lia.
  - unfold u16_mod. lia.
  - apply Forall_singleton. reflexivity.
  - repeat (apply Forall_cons; split; [split; [by apply bytes_okb_true|done]|]). constructor.
  - unfold u16_mod. cbn. lia.
  - discriminate.
  - reflexivity.
  - apply Nat.leb_le. vm_compute. reflexivity.
Defined.
