(* ===== verification/BringUp.v ===== *)
(** * Bringing a channel up (thp/connection.rs over channel.rs and noise.rs)

    Allocation and handshake through the packets of the driver, against a device
    that follows the specification: the end-to-end theorem over framing, the
    alternating bit protocol, channel allocation and the Noise exchange. *)

From S2P Require Import Prelude Types Env Crypto Proto Framing Channel Session Noise Connection.
From S2P Require Import ConnectionSafe ConnectionAbp ConnectionExchange.

Section BringUp.
Context {CR : Crypto} {CL : CryptoLaws} {PM : ThpProto} {PL : ThpProtoLaws}.
(** The packet size of the device. *)
Context (ps : nat) (Hps : INIT_HEADER < ps).

(** What remains of the environment after reading and writing frames and drawing
    [n] random bytes. *)
Definition after_allocation (rest : list (TrezorTransportError + list Z))
    (out : list (list Z)) (n : nat) (w : Script) : Script :=
  {| inbox := rest; outbox := outbox w ++ out; write_errors := [];
     entropy := drop n (entropy w); codes := codes w |}.

Lemma allocate_reads fuel f a nonce rest c w :
  length nonce = ALLOCATION_NONCE_LEN -> bytes_ok nonce ->
  take ALLOCATION_NONCE_LEN (entropy w) = nonce -> ready c w ->
  length (inbox w) <= fuel -> good_frame f ->
  fr_ctrl f = control.CHANNEL_ALLOCATION_RESPONSE ->
  parse_allocation_response nonce (fr_payload f) = Ret a ->
  inbox w = incoming ps [f] ++ rest ->
  allocate fuel (c, w) = (Ret a, (allocated a c,
    after_allocation rest (wire (packet_size c) [allocation_request nonce])
      ALLOCATION_NONCE_LEN w)).
Proof.
  intros Hl Hok Hn Hr Hfuel Hf Hctrl Hparse Hin.
  rewrite (allocate_sends ps Hps fuel c w nonce) by done. unfold MAX_ALLOC_READS.
  cbn [allocate_loop]. erewrite st_bind_ret.
  2: { apply (read_framed_incoming ps Hps f [] fuel rest); try done. }
  rewrite Hctrl, Z.eqb_refl, Hparse. mred. unfold conn_modify, after_allocation, io.
  cbn [fst snd inbox outbox write_errors entropy codes]. by rewrite app_nil_r.
Qed.

(** One handshake message out and its answer in. *)
Lemma handshake_step {A} fuel dcid base dbase payload reply c fs rest w
    (k : Z * list Z -> Conn Script A) :
  wf_connection c -> ready c w -> pending_data c = None ->
  In base data_controls -> In dbase data_controls ->
  bytes_ok payload -> (Z.of_nat (length payload + CRC_LEN) < u16_mod)%Z ->
  bytes_ok reply -> (Z.of_nat (length reply + CRC_LEN) < u16_mod)%Z ->
  (0 <= dcid < u16_mod)%Z ->
  inbox w = incoming ps
    ({| fr_cid := dcid; fr_ctrl := control.ack_for (send_seq c); fr_payload := [] |}
     :: {| fr_cid := dcid; fr_ctrl := control.with_seq dbase (recv_seq c);
           fr_payload := reply |} :: fs) ++ rest ->
  length (inbox w) <= fuel ->
  (send_data fuel base payload;; recv_data fuel ≫= k) (c, w)
  = k (control.with_seq dbase (recv_seq c), reply)
      (flip_recv (flip_send c),
       io (incoming ps fs ++ rest)
         (wire (packet_size c)
            [host_frame c (control.with_seq base (send_seq c)) payload;
             ack_frame c (recv_seq c)]) w).
Proof.
  intros Hwf Hr Hp Hbase Hdbase Hpok Hpl Hrok Hrl Hdc Hin Hfuel.
  destruct (data_exchange ps Hps fuel dcid base dbase payload reply c fs rest w)
    as (w1 & Hsend & Hrecv); try done.
  by rewrite (st_bind_ret _ _ _ _ _ Hsend), (st_bind_ret _ _ _ _ _ Hrecv).
Qed.

(** ** The whole exchange *)
Definition bring_up {W} `{!Env W} (fuel : nat) (host_static : list Z)
    (credential : option (list Z)) : Conn W (ChannelAllocation * SessionKeys) :=
  allocation ← allocate fuel;
  keys ← handshake fuel (device_properties_raw allocation) host_static credential;
  mret (allocation, keys).

Definition allocation_frame (dcid : Z) (nonce : list Z) (channel : Z) (raw : list Z) : Frame :=
  {| fr_cid := dcid; fr_ctrl := control.CHANNEL_ALLOCATION_RESPONSE;
     fr_payload := build_response nonce channel raw |}.

(** The device's side of the handshake: each message ACKed, then answered. *)
Definition handshake_frames (channel : Z) (resp final : list Z) : list Frame :=
  [{| fr_cid := channel; fr_ctrl := control.ack_for 0; fr_payload := [] |};
   {| fr_cid := channel; fr_ctrl := control.with_seq control.HANDSHAKE_INIT_RESPONSE 0;
      fr_payload := resp |};
   {| fr_cid := channel; fr_ctrl := control.ack_for 1; fr_payload := [] |};
   {| fr_cid := channel; fr_ctrl := control.with_seq control.HANDSHAKE_COMPLETION_RESPONSE 1;
      fr_payload := final |}].

(** The host's side, as it goes out. *)
Definition host_handshake_frames (channel : Z) (init req : list Z) : list Frame :=
  [{| fr_cid := channel; fr_ctrl := control.with_seq control.HANDSHAKE_INIT_REQUEST 0;
      fr_payload := init |};
   {| fr_cid := channel; fr_ctrl := control.ack_for 0; fr_payload := [] |};
   {| fr_cid := channel; fr_ctrl := control.with_seq control.HANDSHAKE_COMPLETION_REQUEST 1;
      fr_payload := req |};
   {| fr_cid := channel; fr_ctrl := control.ack_for 1; fr_payload := [] |}].

Lemma handshake_new_draws raw hs cred he c w rest :
  entropy w = he ++ rest -> length he = 32 ->
  on_env (handshake_new raw 0 hs cred) (c, w)
  = (Ret (with_ephemeral raw 0 hs cred he),
     (c, {| inbox := inbox w; outbox := outbox w; write_errors := write_errors w;
            entropy := rest; codes := codes w |})).
Proof.
  intros He Hl. unfold on_env, handshake_new, random_scalar, random_bytes. mred.
  cbn [fst snd getrandom script_env]. unfold script_random.
  rewrite He, length_app, Hl. cbn [Nat.leb Nat.add].
  rewrite <- Hl, take_app_length, drop_app_length. done.
Qed.

Lemma init_request_bytes raw hs cred he :
  let payload := init_request_payload (with_ephemeral raw 0 hs cred he) in
  bytes_ok payload /\ length payload = 33.
Proof.
  unfold init_request_payload, with_ephemeral. cbn [hs_ephemeral_pub hs_try_to_unlock].
  unfold public_key. rewrite bytes_ok_app, length_app, public_length.
  split; [|done]. split; [apply public_ok|by apply bytes_okb_true].
Qed.

Lemma flipped_twice c :
  is_bit (send_seq c) -> is_bit (recv_seq c) ->
  flip_recv (flip_send (flip_recv (flip_send c))) = c.
Proof. intros Hs Hr. destruct c. cbn in *. by destruct Hs as [-> | ->], Hr as [-> | ->]. Qed.

(** The frames of the two exchanges of the handshake, from fresh sequence bits. *)
Lemma handshake_frames_written c channel init req :
  cid c = channel -> send_seq c = 0%Z -> recv_seq c = 0%Z ->
  let c1 := flip_recv (flip_send c) in
  [host_frame c (control.with_seq control.HANDSHAKE_INIT_REQUEST (send_seq c)) init;
   ack_frame c (recv_seq c)]
  ++ [host_frame c1 (control.with_seq control.HANDSHAKE_COMPLETION_REQUEST (send_seq c1)) req;
      ack_frame c1 (recv_seq c1)]
  = host_handshake_frames channel init req.
Proof.
  intros Hcid Hss Hrs. unfold ack_frame, host_frame, host_handshake_frames.
  cbn [flip_recv flip_send set_recv_seq set_send_seq send_seq recv_seq cid app].
  rewrite Hss, Hrs, Hcid. change (Z.lxor 0 1) with 1%Z. reflexivity.
Qed.

Lemma handshake_runs fuel channel raw hs cred he resp req final host' keys c w rest erest :
  wf_connection c -> ready c w -> pending_data c = None -> cid c = channel ->
  send_seq c = 0%Z -> recv_seq c = 0%Z ->
  entropy w = he ++ erest -> length he = 32 ->
  bytes_ok resp -> (Z.of_nat (length resp + CRC_LEN) < u16_mod)%Z ->
  bytes_ok req -> (Z.of_nat (length req + CRC_LEN) < u16_mod)%Z ->
  bytes_ok final -> (Z.of_nat (length final + CRC_LEN) < u16_mod)%Z ->
  let host := with_ephemeral raw 0 hs cred he in
  bytes_ok (init_request_payload host) -> length (init_request_payload host) = 33 ->
  read_init_response resp host = (Ret req, host') ->
  (read_completion_response final host').1 = Ret keys ->
  inbox w = incoming ps (handshake_frames channel resp final) ++ rest ->
  length (inbox w) <= fuel ->
  handshake fuel raw hs cred (c, w)
  = (Ret keys, (c, {| inbox := rest;
       outbox := outbox w ++ wire (packet_size c)
         (host_handshake_frames channel (init_request_payload host) req);
       write_errors := []; entropy := erest; codes := codes w |})).
Proof.
  intros Hwf Hr Hp Hcid Hss Hrs He Hl Hrok Hrl Hqok Hql Hfok Hfl host Hiok Hil Hinit Hcomp Hin
    Hfuel.
  unfold handshake. rewrite (st_bind_ret _ _ _ _ _ (handshake_new_draws raw hs cred he c w erest He Hl)).
  fold host. set (w1 := {| inbox := inbox w; outbox := _; write_errors := _; entropy := _;
    codes := _ |}).
  assert (Hr1 : ready c w1) by exact Hr.
  change (handshake_frames channel resp final) with
    ({| fr_cid := channel; fr_ctrl := control.ack_for 0; fr_payload := [] |}
     :: {| fr_cid := channel; fr_ctrl := control.with_seq control.HANDSHAKE_INIT_RESPONSE 0;
           fr_payload := resp |}
     :: drop 2 (handshake_frames channel resp final)) in Hin.
  assert (Hch : (0 <= channel < u16_mod)%Z) by (rewrite <- Hcid; apply Hwf).
  rewrite (handshake_step fuel channel control.HANDSHAKE_INIT_REQUEST
    control.HANDSHAKE_INIT_RESPONSE (init_request_payload host) resp c
    (drop 2 (handshake_frames channel resp final)) rest w1); try done.
  2-3: by unfold data_controls; simpl; tauto.
  2: by rewrite Hil.
  2: by rewrite Hss, Hrs.
  rewrite Hinit. cbv beta iota. rewrite (st_bind_ret (lift (Ret req)) _ _ req _ eq_refl).
  set (c1 := flip_recv (flip_send c)). set (w2 := io _ _ w1).
  assert (Hwf1 : wf_connection c1) by (unfold c1; auto with conn).
  change (drop 2 (handshake_frames channel resp final)) with
    ({| fr_cid := channel; fr_ctrl := control.ack_for 1; fr_payload := [] |}
     :: {| fr_cid := channel; fr_ctrl := control.with_seq control.HANDSHAKE_COMPLETION_RESPONSE 1;
           fr_payload := final |} :: []) in w2.
  assert (Hr2 : ready c1 w2) by (by apply (ready_io c)).
  rewrite (handshake_step fuel channel control.HANDSHAKE_COMPLETION_REQUEST
    control.HANDSHAKE_COMPLETION_RESPONSE req final c1 [] rest w2); try done.
  2-3: by unfold data_controls; simpl; tauto.
  2: { unfold c1. cbn [flip_recv flip_send set_recv_seq set_send_seq send_seq recv_seq].
       rewrite Hss, Hrs. unfold w2. done. }
  2: { change (inbox w2) with (incoming ps (drop 2 (handshake_frames channel resp final)) ++ rest).
       rewrite Hin, !incoming_cons, !length_app in Hfuel. rewrite length_app. lia. }
  destruct (read_completion_response final host') as [o hs']. cbn [fst] in Hcomp.
  rewrite Hcomp. unfold lift.
  pose proof (handshake_frames_written c channel (init_request_payload host) req Hcid Hss Hrs) as Ef.
  cbv zeta in Ef. fold c1 in Ef.
  unfold c1 at 1. rewrite (flipped_twice c) by (rewrite ?Hss, ?Hrs; by left).
  unfold w2. rewrite io_io. unfold io, w1.
  cbn [inbox outbox write_errors entropy codes].
  change (packet_size c1) with (packet_size c). rewrite <- wire_app, Ef. reflexivity.
Qed.

Lemma allocated_ready a c w :
  ready c w -> (0 <= alloc_cid a < u16_mod)%Z -> ready (allocated a c) w.
Proof. intros (Hp & _ & Hwe) Ha. by split. Qed.

Lemma allocated_wf a c :
  wf_connection c -> (0 <= alloc_cid a < u16_mod)%Z -> wf_connection (allocated a c).
Proof.
  intros (_ & _ & _ & Hact & _) Ha. split; [exact Ha|]. split; [by left|]. split; [by left|].
  by split.
Qed.

Lemma alloc_frame_good dcid nonce channel raw :
  length nonce = ALLOCATION_NONCE_LEN -> bytes_ok nonce -> bytes_ok raw ->
  (0 <= dcid < u16_mod)%Z -> (Z.of_nat (length raw + 14) < u16_mod)%Z ->
  good_frame (allocation_frame dcid nonce channel raw).
Proof.
  intros Hn Hnok Hraw Hd Hl. split; [|done]. split; [done|]. split; [exact Hd|].
  cbn [fr_payload allocation_frame]. unfold build_response. split.
  - rewrite !bytes_ok_app. split; [done|]. split; [apply be_bytes_ok|done].
  - rewrite !length_app, length_be_bytes, Hn. unfold ALLOCATION_NONCE_LEN, CRC_LEN. lia.
Qed.

(** What the handshake produced on the two sides, as [handshake_exchange] gives it. *)
Definition handshaken (raw hs : list Z) (cred : option (list Z)) (he resp req final : list Z)
    (keys : SessionKeys) : Prop :=
  exists host',
    length resp = INIT_RESPONSE_LEN /\ bytes_ok resp
    /\ read_init_response resp (with_ephemeral raw 0 hs cred he) = (Ret req, host')
    /\ length req = ENC_STATIC_LEN + TAG_LEN
                     + length (encode_to_vec {| host_pairing_credential_field := cred |})
    /\ bytes_ok req /\ length final = 1 + TAG_LEN /\ bytes_ok final
    /\ read_completion_response final host' = (Ret keys, host').

(** The device answers both messages of the handshake and agrees on its results. *)
Lemma device_handshake raw hs cred he ts te :
  exists resp trezor req result keys,
    handle_init_request te (init_request_payload (with_ephemeral raw 0 hs cred he))
      (responder_new raw ts) = (Ret resp, trezor)
    /\ handle_completion_request req trezor = (Ret result, trezor)
    /\ key_request keys = rr_key_request result /\ key_response keys = rr_key_response result
    /\ host_static_pubkey keys = public_key hs /\ rr_host_static_pub result = public_key hs
    /\ trezor_state keys = [0x02%Z] /\ nonce_request keys = 0%Z /\ nonce_response keys = 1%Z
    /\ handshaken raw hs cred he resp req (rr_response result) keys.
Proof.
  destruct (handshake_exchange raw 0 hs cred he ts te) as (resp & trezor & req & host' & result
    & keys & Hinit & Hrl & Hrok & Hread & Hql & Hqok & Hcomp & Hfl & Hfok & Hpub & Hdone & Hkeys).
  exists resp, trezor, req, result, keys. rewrite Hkeys at 1 2 3 4 5 6.
  cbn [key_request key_response trezor_state nonce_request nonce_response host_static_pubkey].
  do 9 (split; [done|]). by exists host'.
Qed.

Definition after_bring_up (rest : list (TrezorTransportError + list Z)) (erest : list Z)
    (nonce : list Z) (channel : Z) (init req : list Z) (c : Connection) (w : Script) : Script :=
  {| inbox := rest;
     outbox := outbox w ++ wire (packet_size c)
       (allocation_request nonce :: host_handshake_frames channel init req);
     write_errors := []; entropy := erest; codes := codes w |}.

(** Allocation and handshake, followed by any computation on the channel. *)
Lemma bring_up_runs {A} props channel dcid hs cred he nonce resp req final keys
    (k : ChannelAllocation -> SessionKeys -> Conn Script A) fuel c w rest erest :
  length nonce = ALLOCATION_NONCE_LEN -> bytes_ok nonce -> length he = 32 ->
  (0 <= channel < u16_mod)%Z -> (0 <= dcid < u16_mod)%Z ->
  let raw := encode_to_vec (props : ThpDeviceProperties) in
  (Z.of_nat (length raw + 14) < u16_mod)%Z ->
  (Z.of_nat (length (encode_to_vec {| host_pairing_credential_field := cred |}) + 68)
   < u16_mod)%Z ->
  handshaken raw hs cred he resp req final keys ->
  wf_connection c -> ready c w -> entropy w = nonce ++ he ++ erest ->
  inbox w = incoming ps (allocation_frame dcid nonce channel raw
              :: handshake_frames channel resp final) ++ rest ->
  length (inbox w) <= fuel ->
  let a := {| alloc_cid := channel; device_properties_raw := raw;
              device_properties := props |} in
  (allocation ← allocate fuel;
   keys ← handshake fuel (device_properties_raw allocation) hs cred;
   k allocation keys) (c, w)
  = k a keys (allocated a c, after_bring_up rest erest nonce channel
      (init_request_payload (with_ephemeral raw 0 hs cred he)) req c w).
Proof.
  intros Hn Hnok Hhe Hch Hdc raw Hraw Hcred
    (host' & Hrl & Hrok & Hread & Hql & Hqok & Hfl & Hfok & Hdone) Hwf Hr He Hin Hfuel a.
  assert (Hrawok : bytes_ok raw) by apply encode_ok.
  pose proof (parse_built_response nonce channel props Hn Hch) as Hparse.
  rewrite incoming_cons in Hin.
  rewrite (st_bind_ret _ _ _ _ _
    (allocate_reads fuel (allocation_frame dcid nonce channel raw) a nonce
       (incoming ps (handshake_frames channel resp final) ++ rest) c w Hn Hnok
       ltac:(by rewrite He, <- Hn, take_app_length) Hr Hfuel
       (alloc_frame_good dcid nonce channel raw Hn Hnok Hrawok Hdc Hraw) eq_refl Hparse
       ltac:(by rewrite incoming_cons))).
  set (w1 := after_allocation _ _ _ w).
  assert (Hr1 : ready c w1) by (split_and!; [apply Hr..|reflexivity]).
  assert (He1 : entropy w1 = he ++ erest)
    by (unfold w1, after_allocation; cbn [entropy]; by rewrite He, <- Hn, drop_app_length).
  destruct (init_request_bytes raw hs cred he) as [Hiok Hil].
  rewrite (st_bind_ret (handshake fuel raw hs cred) _ _ keys _
    (handshake_runs fuel channel raw hs cred he resp req final host' keys
       (allocated a c) w1 rest erest (allocated_wf a c Hwf Hch) (allocated_ready a c w1 Hr1 Hch)
       eq_refl eq_refl eq_refl eq_refl He1 Hhe Hrok
       ltac:(rewrite Hrl; reflexivity) Hqok
       ltac:(rewrite Hql; unfold ENC_STATIC_LEN, PUBKEY_LEN, TAG_LEN, CRC_LEN; lia) Hfok
       ltac:(rewrite Hfl; reflexivity) Hiok Hil Hread ltac:(by rewrite Hdone)
       eq_refl ltac:(cbn [w1 after_allocation inbox];
                     rewrite Hin, !length_app in Hfuel; rewrite length_app; lia))).
  unfold w1, after_allocation, after_bring_up. cbn [outbox codes packet_size allocated].
  change (packet_size (allocated a c)) with (packet_size c).
  by rewrite <- app_assoc, <- wire_app.
Qed.

(** C10: Against a device that follows the specification, through the packets of the
    transport (whatever packet size each side uses, and whatever channel id the
    device stamps on its broadcast answer): allocation and handshake complete
    without an error; the channel id is the assigned one; the derived keys are
    the device's; the pairing state byte that the device encrypted is read; the host
    has written exactly the allocation request, its two handshake messages with
    sequence bits 0 and 1 and one ACK for each answer, and is left with both sequence bits at 0 for the first application message. *)
Theorem bring_up_agrees props channel dcid hs cred he ts te nonce :
  length nonce = ALLOCATION_NONCE_LEN -> bytes_ok nonce -> length he = 32 ->
  (0 <= channel < u16_mod)%Z -> (0 <= dcid < u16_mod)%Z ->
  let raw := encode_to_vec (props : ThpDeviceProperties) in
  let host := with_ephemeral raw 0 hs cred he in
  (Z.of_nat (length raw + 14) < u16_mod)%Z ->
  (Z.of_nat (length (encode_to_vec {| host_pairing_credential_field := cred |}) + 68)
   < u16_mod)%Z ->
  exists resp trezor req result keys,
    handle_init_request te (init_request_payload host) (responder_new raw ts)
    = (Ret resp, trezor)
    /\ handle_completion_request req trezor = (Ret result, trezor)
    /\ key_request keys = rr_key_request result /\ key_response keys = rr_key_response result
    /\ rr_host_static_pub result = public_key hs
    /\ trezor_state keys = [0x02%Z] /\ nonce_request keys = 0%Z /\ nonce_response keys = 1%Z
    /\ forall fuel c w rest erest,
      wf_connection c -> ready c w -> entropy w = nonce ++ he ++ erest ->
      inbox w = incoming ps (allocation_frame dcid nonce channel raw
                  :: handshake_frames channel resp (rr_response result)) ++ rest ->
      length (inbox w) <= fuel ->
      let a := {| alloc_cid := channel; device_properties_raw := raw;
                  device_properties := props |} in
      bring_up fuel hs cred (c, w)
      = (Ret (a, keys), (allocated a c,
          after_bring_up rest erest nonce channel (init_request_payload host) req c w)).
Proof.
  intros Hn Hnok Hhe Hch Hdc raw host Hraw Hcred.
  destruct (device_handshake raw hs cred he ts te) as (resp & trezor & req & result & keys
    & Hinit & Hcomp & Hkq & Hkr & _ & Hpub & Hstate & Hnq & Hnr & Hhs).
  exists resp, trezor, req, result, keys. do 8 (split; [done|]).
  intros fuel c w rest erest Hwf Hr He Hin Hfuel.
  exact (bring_up_runs props channel dcid hs cred he nonce resp req (rr_response result) keys
    (fun a keys => mret (a, keys)) fuel c w rest erest Hn Hnok Hhe Hch Hdc Hraw Hcred Hhs Hwf Hr
    He Hin Hfuel).
Qed.
End BringUp.

Lemma bring_up_agrees_witness :
  let CR := toy_crypto in let PM := toy_thp_proto in
  let nonce := replicate 8 7%Z in let he := replicate 32 3%Z in
  let hs := replicate 32 0x11%Z in let props := {| internal_model := str "T3W1"; model_variant := None;
                  protocol_version_major := 2; protocol_version_minor := 0;
                  pairing_methods := [2%Z] |} in
  let raw := encode_to_vec props in
  exists resp result req keys,
    let w := {| inbox := incoming 64 (allocation_frame BROADCAST_CID nonce 0x1234 raw
                  :: handshake_frames 0x1234 resp (rr_response result)) ++ [];
                outbox := []; write_errors := []; entropy := nonce ++ he ++ []; codes := [] |} in
    let a := {| alloc_cid := 0x1234; device_properties_raw := raw; device_properties := props |} in
    key_request keys = rr_key_request result /\
    bring_up (length (inbox w)) hs None (connection_new 244, w)
    = (Ret (a, keys), (allocated a (connection_new 244),
        {| inbox := []; write_errors := []; entropy := []; codes := [];
           outbox := [] ++ wire 244 (allocation_request nonce
             :: host_handshake_frames 0x1234
                  (init_request_payload (with_ephemeral raw 0 hs None he)) req) |})).
Proof.
  intros CR PM nonce he hs props raw.
  destruct (bring_up_agrees (CR := toy_crypto) (CL := toy_crypto_laws) (PM := toy_thp_proto)
    (PL := toy_thp_proto_laws) 64 ltac:(unfold INIT_HEADER; lia) props 0x1234 BROADCAST_CID hs None
    he (replicate 32 0x22%Z) (replicate 32 4%Z) nonce)
    as (resp & trezor & req & result & keys & _ & _ & Hk & _ & _ & _ & _ & _ & Hrun);
    [reflexivity|by apply bytes_okb_true|reflexivity|unfold u16_mod; lia..
    |unfold u16_mod, BROADCAST_CID; lia|by apply Z.ltb_lt; vm_compute
    |by apply Z.ltb_lt; vm_compute|].
  exists resp, result, req, keys. intros w a. split; [exact Hk|].
  refine (Hrun (length (inbox w)) (connection_new 244) w [] [] _ _ _ _ _); try reflexivity.
  - apply connection_new_wf.
  - split; [|split; [vm_compute; split; congruence|done]]. cbn. unfold INIT_HEADER. lia.
Defined.
