(* ===== verification/MockDevice.v ===== *)
(** * The mock devices of the driver's tests (thp/connection.rs, mod tests)

    [MockDevice], the in-memory Trezor that speaks framing, the alternating bit
    protocol and the handshake, and [LockedDevice], as environments of the
    driver. The test [driver_completes_allocation_and_handshake_against_mock_device]
    holds for every model name, key, credential and source of randomness, and
    [locked_device_surfaces_decoded_error] for every entropy. *)

From S2P Require Import Prelude Types Env Crypto Proto Framing Channel Session Noise Connection.
From S2P Require Import ConnectionSafe ConnectionAbp ConnectionExchange BringUp.

(** ** [MockDevice] *)
Inductive Phase : Type := ExpectAlloc | ExpectInit | ExpectCompletion | Done.

Definition DEVICE_CID : Z := 0x0003.

Record MockInner : Type := {
  reasm : Reassembler;
  last_init_ctrl : Z;
  mock_outbox : list (list Z);
  device_seq : Z;
  device_props_raw : list Z;
  responder : TrezorResponder;
  phase : Phase;
  agreed_keys : option (list Z * list Z);
}.

(** The device, and the platform random generator it shares with the host. *)
Record MockDevice : Type := { inner : MockInner; platform_rng : list Z }.

Section Mock.
Context {CR : Crypto} {PM : ThpProto}.

Definition mock_props (model : rstring) : ThpDeviceProperties :=
  {| internal_model := model; model_variant := None; protocol_version_major := 2;
     protocol_version_minor := 0; pairing_methods := [2%Z] |}.

(** [MockDevice::new] *)
Definition mock_new (model : rstring) (trezor_static : list Z) : MockInner :=
  let device_props_raw := encode_to_vec (mock_props model) in
  {| reasm := reassembler_new; last_init_ctrl := 0; mock_outbox := []; device_seq := 0;
     device_props_raw := device_props_raw;
     responder := responder_new device_props_raw trezor_static;
     phase := ExpectAlloc; agreed_keys := None |}.

(** ** Field assignments *)
Definition set_reasm (r : Reassembler) (s : MockDevice) : MockDevice :=
  {| inner := {| reasm := r; last_init_ctrl := last_init_ctrl (inner s);
       mock_outbox := mock_outbox (inner s); device_seq := device_seq (inner s);
       device_props_raw := device_props_raw (inner s); responder := responder (inner s);
       phase := phase (inner s); agreed_keys := agreed_keys (inner s) |};
     platform_rng := platform_rng s |}.
Definition set_last_init_ctrl (b : Z) (s : MockDevice) : MockDevice :=
  {| inner := {| reasm := reasm (inner s); last_init_ctrl := b;
       mock_outbox := mock_outbox (inner s); device_seq := device_seq (inner s);
       device_props_raw := device_props_raw (inner s); responder := responder (inner s);
       phase := phase (inner s); agreed_keys := agreed_keys (inner s) |};
     platform_rng := platform_rng s |}.
Definition set_mock_outbox (o : list (list Z)) (s : MockDevice) : MockDevice :=
  {| inner := {| reasm := reasm (inner s); last_init_ctrl := last_init_ctrl (inner s);
       mock_outbox := o; device_seq := device_seq (inner s);
       device_props_raw := device_props_raw (inner s); responder := responder (inner s);
       phase := phase (inner s); agreed_keys := agreed_keys (inner s) |};
     platform_rng := platform_rng s |}.
Definition flip_device_seq (s : MockDevice) : MockDevice :=
  {| inner := {| reasm := reasm (inner s); last_init_ctrl := last_init_ctrl (inner s);
       mock_outbox := mock_outbox (inner s); device_seq := Z.lxor (device_seq (inner s)) 1;
       device_props_raw := device_props_raw (inner s); responder := responder (inner s);
       phase := phase (inner s); agreed_keys := agreed_keys (inner s) |};
     platform_rng := platform_rng s |}.
Definition set_responder (r : TrezorResponder) (s : MockDevice) : MockDevice :=
  {| inner := {| reasm := reasm (inner s); last_init_ctrl := last_init_ctrl (inner s);
       mock_outbox := mock_outbox (inner s); device_seq := device_seq (inner s);
       device_props_raw := device_props_raw (inner s); responder := r;
       phase := phase (inner s); agreed_keys := agreed_keys (inner s) |};
     platform_rng := platform_rng s |}.
Definition set_phase (p : Phase) (s : MockDevice) : MockDevice :=
  {| inner := {| reasm := reasm (inner s); last_init_ctrl := last_init_ctrl (inner s);
       mock_outbox := mock_outbox (inner s); device_seq := device_seq (inner s);
       device_props_raw := device_props_raw (inner s); responder := responder (inner s);
       phase := p; agreed_keys := agreed_keys (inner s) |};
     platform_rng := platform_rng s |}.
Definition set_agreed_keys (k : list Z * list Z) (s : MockDevice) : MockDevice :=
  {| inner := {| reasm := reasm (inner s); last_init_ctrl := last_init_ctrl (inner s);
       mock_outbox := mock_outbox (inner s); device_seq := device_seq (inner s);
       device_props_raw := device_props_raw (inner s); responder := responder (inner s);
       phase := phase (inner s); agreed_keys := Some k |};
     platform_rng := platform_rng s |}.
Definition set_platform_rng (e : list Z) (s : MockDevice) : MockDevice :=
  {| inner := inner s; platform_rng := e |}.

(** ** Its methods *)
Abbreviation Mock := (ST MockDevice TrezorTransportError).

Definition mock_modify (f : MockDevice -> MockDevice) : Mock unit := fun s => (Ret tt, f s).

Definition enqueue (cid ctrl : Z) (payload : list Z) : Mock unit :=
  packets ← lift (unwrap (segment BLE_PACKET_SIZE cid ctrl payload));
  self ← get_st;
  put_st (set_mock_outbox (mock_outbox (inner self) ++ packets) self).

(** [getrandom] of the process. *)
Definition mock_random (n : nat) (s : MockDevice) : (rstring + list Z) * MockDevice :=
  if n <=? length (platform_rng s) then
    (inr (take n (platform_rng s)), set_platform_rng (drop n (platform_rng s)) s)
  else (inl (str "entropy exhausted"), s).

(** [random_scalar()] on the device's side. *)
Definition mock_scalar : Mock (list Z) := fun s =>
  match mock_random 32 s with
  | (inr b, s') => (Ret b, s')
  | (inl _, s') => (Panic, s')
  end.

(** A call on [self.responder]. *)
Definition on_responder {A} (m : ST TrezorResponder TrezorError A) : Mock A := fun s =>
  let '(o, r) := m (responder (inner s)) in (unwrap o, set_responder r s).

Definition on_message (ctrl : Z) (payload : list Z) : Mock unit :=
  if control.is_ack ctrl then mret tt
  else
    self ← get_st;
    match phase (inner self) with
    | ExpectAlloc =>
      nonce ← lift (slice payload 0 8);
      enqueue BROADCAST_CID control.CHANNEL_ALLOCATION_RESPONSE
        (nonce ++ be_bytes 2 DEVICE_CID ++ device_props_raw (inner self));;
      mock_modify (set_phase ExpectInit)
    | ExpectInit =>
      enqueue DEVICE_CID (control.ack_for (control.seq_of ctrl)) [];;
      ephemeral ← mock_scalar;
      resp ← on_responder (handle_init_request ephemeral payload);
      enqueue DEVICE_CID
        (control.with_seq control.HANDSHAKE_INIT_RESPONSE (device_seq (inner self))) resp;;
      mock_modify flip_device_seq;;
      mock_modify (set_phase ExpectCompletion)
    | ExpectCompletion =>
      enqueue DEVICE_CID (control.ack_for (control.seq_of ctrl)) [];;
      result ← on_responder (handle_completion_request payload);
      mock_modify (set_agreed_keys (rr_key_request result, rr_key_response result));;
      enqueue DEVICE_CID
        (control.with_seq control.HANDSHAKE_COMPLETION_RESPONSE (device_seq (inner self)))
        (rr_response result);;
      mock_modify flip_device_seq;;
      mock_modify (set_phase Done)
    | Done => mret tt
    end.

Definition mock_write (data : list Z) : Mock unit := fun self =>
  match data with
  | [] => (Ret tt, self)
  | data_0 :: _ =>
    let self := if (Z.land data_0 CONTINUATION_BIT =? 0)%Z
                then set_last_init_ctrl data_0 self else self in
    let ctrl := last_init_ctrl (inner self) in
    let '(pushed, r) := push_packet data (reasm (inner self)) in
    (done ← lift (err_into (fun e => Io (error_to_string e)) pushed);
     match done with
     | Some payload => on_message ctrl payload
     | None => mret tt
     end) (set_reasm r self)
  end.

Definition mock_read : Mock (list Z) := fun self =>
  match mock_outbox (inner self) with
  | packet :: rest => (Ret packet, set_mock_outbox rest self)
  | [] => (Fail (Io (str "mock device has no queued data")), self)
  end.

#[export] Instance mock_env : Env MockDevice := {|
  getrandom := mock_random;
  write_chunk := mock_write;
  read_chunk := mock_read;
  request_code := fun s => ([], s);
|}.
End Mock.

(** ** The driver over any environment *)
Section Over.
Context {CR : Crypto} {CL : CryptoLaws} {PM : ThpProto} {W : Type} `{!Env W}.
(** The packet size of the device. *)
Context (ps : nat) (Hps : INIT_HEADER < ps).

Lemma send_data_over fuel base payload f c w w1 w2 :
  write_framed (control.with_seq base (send_seq c)) payload (c, w) = (Ret tt, (c, w1)) ->
  good_frame f -> acks c f -> reads w1 (frame_packets ps f) w2 ->
  length (frame_packets ps f) <= fuel ->
  send_data fuel base payload (c, w) = (Ret tt, (flip_send c, w2)).
Proof.
  intros Hw Hf [Ha Hs] Hr Hl. pose proof (frame_packets_nonempty ps f Hps Hf).
  unfold send_data. mred. cbn [conn_get fst]. rewrite Hw.
  destruct fuel as [|n]; [lia|]. cbn [await_ack].
  rewrite (st_bind_ret _ _ _ _ _ (read_framed_reads ps f (S n) c w1 w2 Hps Hf Hr Hl)).
  mred. cbn [conn_get fst]. by rewrite Ha, Hs, Z.eqb_refl.
Qed.

Lemma recv_data_over fuel f c w w1 w2 :
  pending_data c = None -> good_frame f -> fresh_data (recv_seq c) f ->
  reads w (frame_packets ps f) w1 -> length (frame_packets ps f) <= fuel ->
  send_ack (recv_seq c) (c, w1) = (Ret tt, (c, w2)) ->
  recv_data fuel (c, w) = (Ret (fr_ctrl f, fr_payload f), (flip_recv c, w2)).
Proof.
  intros Hp Hf [Ha Hs] Hr Hl Hw. pose proof (frame_packets_nonempty ps f Hps Hf).
  unfold recv_data. mred. cbn [conn_get fst]. rewrite Hp.
  destruct fuel as [|n]; [lia|]. cbn [await_data].
  rewrite (st_bind_ret _ _ _ _ _ (read_framed_reads ps f (S n) c w w1 Hps Hf Hr Hl)).
  rewrite Ha, Hs. rewrite (st_bind_ret (send_ack _) _ _ _ _ Hw).
  mred. cbn [conn_get fst]. by rewrite Z.eqb_refl.
Qed.
End Over.

(** ** The mock device's side of a frame *)
Section MockFrames.
Context {CR : Crypto} {CL : CryptoLaws} {PM : ThpProto}.

(** The reassembler after a frame, on a device whose last control byte is the frame's. *)
Definition heard (f : Frame) (s : MockDevice) : MockDevice :=
  set_reasm (done_state (fr_ctrl f) (fr_cid f) (length (fr_payload f) + CRC_LEN))
    (set_last_init_ctrl (fr_ctrl f) s).

Lemma mock_write_continues p s r o :
  head p = Some CONTINUATION_CONTROL -> push_packet p (reasm (inner s)) = (Ret o, r) ->
  mock_write p s
  = match o with
    | Some payload => on_message (last_init_ctrl (inner s)) payload (set_reasm r s)
    | None => (Ret tt, set_reasm r s)
    end.
Proof.
  intros Hh Hp. destruct p as [|b p]; [done|]. injection Hh as ->. unfold mock_write.
  change (Z.land CONTINUATION_CONTROL CONTINUATION_BIT =? 0)%Z with false. cbv iota zeta.
  rewrite Hp. mred. by destruct o.
Qed.

Lemma mock_hears_rest c s pkts d r s' :
  feeds (reasm (inner s)) pkts d r ->
  Forall (fun p => head p = Some CONTINUATION_CONTROL) pkts ->
  on_message (last_init_ctrl (inner s)) d (set_reasm r s) = (Ret tt, s') ->
  write_packets pkts (c, s) = (Ret tt, (c, s')).
Proof.
  intros Hf. remember (reasm (inner s)) as q eqn:Hq. revert s Hq.
  induction Hf as [q p d r Hp|q p q1 pkts d r Hp Hf IH]; intros s -> Hall Hm;
    apply Forall_cons in Hall as [Hh Hall]; cbn [write_packets];
    unfold mbind at 1, st_bind, on_env at 1, env_write; cbn [fst snd write_chunk mock_env];
    rewrite (mock_write_continues p s _ _ Hh Hp).
  - rewrite Hm. done.
  - cbn [err_into]. by apply IH.
Qed.

(** What the host writes as one frame reaches [on_message] once, whole. *)
Lemma mock_hears ctrl payload c s s' :
  INIT_HEADER < packet_size c -> valid_frame ctrl (cid c) payload ->
  on_message ctrl payload (heard (host_frame c ctrl payload) s) = (Ret tt, s') ->
  write_framed ctrl payload (c, s) = (Ret tt, (c, s')).
Proof.
  intros Hps Hv Hm. pose proof Hv as [Hctrl _].
  destruct (segment_spec _ _ _ _ Hps Hv) as (first & rest & Hseg & _ & Hh & Hall & Hfeed).
  unfold write_framed. mred. cbn [conn_get fst]. rewrite Hseg. cbn [write_packets].
  destruct first as [|b first]; [done|]. injection Hh as ->.
  unfold mbind at 1, st_bind, on_env at 1, env_write. cbn [fst snd write_chunk mock_env].
  unfold mock_write. rewrite (initiation_bit _ Hctrl), Z.eqb_refl. cbv zeta.
  specialize (Hfeed (reasm (inner s))). unfold heard, host_frame in Hm. cbn in Hm.
  inversion Hfeed as [? ? ? ? Hp|? ? s1 ? ? ? Hp Hf]; subst; cbn [inner reasm set_last_init_ctrl];
    rewrite Hp; mred; cbn [err_into last_init_ctrl].
  - rewrite Hm. done.
  - by eapply mock_hears_rest; [exact Hf|done|].
Qed.

Lemma mock_hears_ack seq c s :
  INIT_HEADER < packet_size c -> (0 <= cid c < u16_mod)%Z -> is_bit seq ->
  send_ack seq (c, s) = (Ret tt, (c, heard (ack_frame c seq) s)).
Proof.
  intros Hps Hc Hb. apply mock_hears; [done|by apply ack_valid|].
  unfold on_message. by rewrite (proj1 (ack_for_props seq Hb)).
Qed.

Lemma mock_reads pkts rest s :
  mock_outbox (inner s) = pkts ++ rest -> reads s pkts (set_mock_outbox rest s).
Proof.
  revert s. induction pkts as [|p pkts IH]; intros s Ho.
  - cbn in Ho. rewrite <- Ho. destruct s as [[] ?]. constructor.
  - econstructor; [cbn [read_chunk mock_env]; unfold mock_read; by rewrite Ho|].
    change (set_mock_outbox rest s) with (set_mock_outbox rest (set_mock_outbox (pkts ++ rest) s)).
    by apply IH.
Qed.

Lemma enqueue_run cid ctrl payload s :
  valid_frame ctrl cid payload ->
  enqueue cid ctrl payload s
  = (Ret tt, set_mock_outbox (mock_outbox (inner s)
      ++ frame_packets BLE_PACKET_SIZE
           {| fr_cid := cid; fr_ctrl := ctrl; fr_payload := payload |}) s).
Proof.
  intros Hv. destruct (segment_spec BLE_PACKET_SIZE _ _ _ ltac:(by apply Nat.ltb_lt) Hv)
    as (first & rest & Hseg & _).
  unfold enqueue, frame_packets. cbn [fr_cid fr_ctrl fr_payload]. by rewrite Hseg.
Qed.
End MockFrames.

(** ** The exchanges of the test *)
Section Exchanges.
Context {CR : Crypto} {CL : CryptoLaws} {PM : ThpProto} {PL : ThpProtoLaws}.

(** The mock device in a phase, with nothing queued. *)
Definition mock_in (p : Phase) (seq : Z) (raw : list Z) (r : TrezorResponder) (rng : list Z)
    (keys : option (list Z * list Z)) (s : MockDevice) : Prop :=
  phase (inner s) = p /\ mock_outbox (inner s) = [] /\ device_seq (inner s) = seq
  /\ device_props_raw (inner s) = raw /\ responder (inner s) = r /\ platform_rng s = rng
  /\ agreed_keys (inner s) = keys.

Lemma mock_random_draws n e rest s :
  platform_rng s = e ++ rest -> length e = n ->
  mock_random n s = (inr e, set_platform_rng rest s).
Proof.
  intros Hr <-. unfold mock_random. rewrite Hr, length_app.
  rewrite (proj2 (Nat.leb_le _ _)) by lia. by rewrite take_app_length, drop_app_length.
Qed.

Definition mock_allocation_frame (nonce raw : list Z) : Frame :=
  allocation_frame BROADCAST_CID nonce DEVICE_CID raw.

Lemma mock_allocates fuel props raw r nonce e c s :
  raw = encode_to_vec (props : ThpDeviceProperties) ->
  length nonce = ALLOCATION_NONCE_LEN -> bytes_ok nonce ->
  (Z.of_nat (length raw + 14) < u16_mod)%Z -> INIT_HEADER < packet_size c ->
  mock_in ExpectAlloc 0 raw r (nonce ++ e) None s ->
  length (frame_packets BLE_PACKET_SIZE (mock_allocation_frame nonce raw)) <= fuel ->
  let a := {| alloc_cid := DEVICE_CID; device_properties_raw := raw;
              device_properties := props |} in
  exists s', allocate fuel (c, s) = (Ret a, (allocated a c, s'))
    /\ mock_in ExpectInit 0 raw r e None s'.
Proof.
  intros Hraw Hn Hnok Hl Hps (Hph & Hout & Hseq & Hdp & Hr & Hrng & Hk) Hfuel a.
  assert (Hbytes : bytes_ok raw) by (rewrite Hraw; apply encode_ok).
  assert (Hgood : good_frame (mock_allocation_frame nonce raw))
    by (apply (alloc_frame_good BLE_PACKET_SIZE ltac:(by apply Nat.ltb_lt)); try done; unfold BROADCAST_CID, u16_mod; lia).
  set (s1 := set_platform_rng e s).
  set (req := host_frame (set_cid BROADCAST_CID c) control.CHANNEL_ALLOCATION_REQUEST nonce).
  set (s2 := set_phase ExpectInit (set_mock_outbox
    (frame_packets BLE_PACKET_SIZE (mock_allocation_frame nonce raw) ++ []) (heard req s1))).
  exists (set_mock_outbox [] s2). split; [|by repeat split].
  assert (Hw : on_message control.CHANNEL_ALLOCATION_REQUEST nonce (heard req s1)
               = (Ret tt, s2)).
  { unfold on_message. mred.
    change (control.is_ack control.CHANNEL_ALLOCATION_REQUEST) with false. cbv beta iota.
    change (phase (inner (heard req s1))) with (phase (inner s)).
    rewrite Hph, (slice_ret nonce 0 8) by (rewrite ?Hn; unfold ALLOCATION_NONCE_LEN; lia).
    rewrite drop_0, take_ge by (rewrite Hn; unfold ALLOCATION_NONCE_LEN; lia). mred.
    change (device_props_raw (inner (heard req s1))) with (device_props_raw (inner s)).
    rewrite Hdp. rewrite (enqueue_run BROADCAST_CID control.CHANNEL_ALLOCATION_RESPONSE
      (nonce ++ be_bytes 2 DEVICE_CID ++ raw) (heard req s1) (proj1 Hgood)).
    unfold s2, mock_modify. rewrite app_nil_r.
    change (mock_outbox (inner (heard req s1))) with (mock_outbox (inner s)). by rewrite Hout. }
  unfold allocate, random_allocation_nonce.
  rewrite (st_bind_ret (on_env _) _ _ nonce (c, s1)).
  2: { unfold on_env, random_bytes. cbn [fst snd getrandom mock_env].
       by rewrite (mock_random_draws _ nonce e s). }
  rewrite (st_bind_ret (conn_modify _) _ _ tt _ eq_refl). cbn [fst snd].
  rewrite (st_bind_ret (write_framed _ _) _ _ tt (set_cid BROADCAST_CID c, s2)).
  2: { apply mock_hears; [done| |exact Hw].
       split; [done|]. split; [vm_compute; split; congruence|]. split; [done|].
       unfold build_allocation_request. by rewrite Hn. }
  unfold MAX_ALLOC_READS. cbn [allocate_loop].
  rewrite (st_bind_ret _ _ _ _ _
    (read_framed_reads BLE_PACKET_SIZE _ fuel _ s2 (set_mock_outbox [] s2)
       ltac:(by apply Nat.ltb_lt) Hgood (mock_reads _ [] s2 eq_refl) Hfuel)).
  cbn [fr_ctrl mock_allocation_frame allocation_frame fr_payload]. rewrite Z.eqb_refl, Hraw.
  rewrite (parse_built_response nonce DEVICE_CID props Hn) by done.
  mred. unfold a. by rewrite Hraw.
Qed.

Definition mock_ack (seq : Z) : Frame :=
  {| fr_cid := DEVICE_CID; fr_ctrl := control.ack_for seq; fr_payload := [] |}.
Definition mock_data (base seq : Z) (reply : list Z) : Frame :=
  {| fr_cid := DEVICE_CID; fr_ctrl := control.with_seq base seq; fr_payload := reply |}.

Lemma device_cid_range : (0 <= DEVICE_CID < u16_mod)%Z.
Proof. unfold DEVICE_CID, u16_mod. lia. Qed.

Lemma mock_ack_good seq : is_bit seq -> good_frame (mock_ack seq).
Proof. intros Hb. by apply ack_frame_good, device_cid_range. Qed.

Lemma mock_data_good base seq reply :
  is_bit seq -> In base data_controls -> bytes_ok reply ->
  (Z.of_nat (length reply + CRC_LEN) < u16_mod)%Z -> good_frame (mock_data base seq reply).
Proof.
  intros Hb Hbase Hok Hl. destruct (with_seq_props base seq Hb Hbase) as (_ & _ & Hte & Hr).
  split; [|done]. split_and!; try done; [apply Hr..].
Qed.

(** One handshake message, its ACK and its answer. *)
Lemma mock_turn {A} fuel base dbase payload reply c s s1 (k : Z * list Z -> Conn MockDevice A) :
  wf_connection c -> INIT_HEADER < packet_size c -> pending_data c = None ->
  In base data_controls -> In dbase data_controls ->
  bytes_ok payload -> (Z.of_nat (length payload + CRC_LEN) < u16_mod)%Z ->
  bytes_ok reply -> (Z.of_nat (length reply + CRC_LEN) < u16_mod)%Z ->
  let ctrl := control.with_seq base (send_seq c) in
  on_message ctrl payload (heard (host_frame c ctrl payload) s) = (Ret tt, s1) ->
  mock_outbox (inner s1)
  = frame_packets BLE_PACKET_SIZE (mock_ack (send_seq c))
    ++ frame_packets BLE_PACKET_SIZE (mock_data dbase (recv_seq c) reply) ->
  length (frame_packets BLE_PACKET_SIZE (mock_ack (send_seq c))) <= fuel ->
  length (frame_packets BLE_PACKET_SIZE (mock_data dbase (recv_seq c) reply)) <= fuel ->
  (send_data fuel base payload;; recv_data fuel ≫= k) (c, s)
  = k (control.with_seq dbase (recv_seq c), reply)
      (flip_recv (flip_send c), heard (ack_frame c (recv_seq c)) (set_mock_outbox [] s1)).
Proof.
  intros (Hcid & Hss & Hrs & _) Hps Hp Hbase Hdbase Hpok Hpl Hrok Hrl ctrl Hm Hout Hf1 Hf2.
  destruct (with_seq_props base (send_seq c) Hss Hbase) as (_ & _ & _ & Hctrl).
  destruct (with_seq_props dbase (recv_seq c) Hrs Hdbase) as (Hd1 & Hd2 & _).
  pose proof (mock_ack_good _ Hss) as Hga.
  pose proof (mock_data_good _ _ _ Hrs Hdbase Hrok Hrl) as Hgd.
  set (data := frame_packets BLE_PACKET_SIZE (mock_data dbase (recv_seq c) reply)) in *.
  assert (Hsend : send_data (W := MockDevice) fuel base payload (c, s)
                  = (Ret tt, (flip_send c, set_mock_outbox data s1))).
  { apply (send_data_over (W := MockDevice) BLE_PACKET_SIZE ltac:(by apply Nat.ltb_lt) fuel base payload
      (mock_ack (send_seq c)) c s s1); [|done|by apply ack_for_props|by apply mock_reads|done].
    by apply mock_hears. }
  rewrite (st_bind_ret _ _ _ _ _ Hsend).
  assert (Hrecv : recv_data (W := MockDevice) fuel (flip_send c, set_mock_outbox data s1)
                  = (Ret (control.with_seq dbase (recv_seq c), reply),
                     (flip_recv (flip_send c),
                      heard (ack_frame c (recv_seq c)) (set_mock_outbox [] s1)))).
  { apply (recv_data_over (W := MockDevice) BLE_PACKET_SIZE ltac:(by apply Nat.ltb_lt) fuel
      (mock_data dbase (recv_seq c) reply) (flip_send c) _ (set_mock_outbox [] s1)); try done.
    - apply (mock_reads data [] (set_mock_outbox data s1)). cbn. by rewrite app_nil_r.
    - by apply (mock_hears_ack (recv_seq c) (flip_send c)). }
  by rewrite (st_bind_ret _ _ _ _ _ Hrecv).
Qed.

Lemma mock_in_heard p seq raw r rng keys f s :
  mock_in p seq raw r rng keys s -> mock_in p seq raw r rng keys (heard f s).
Proof. done. Qed.

Lemma mock_init ctrl payload raw r te e resp r' s :
  control.is_ack ctrl = false -> control.seq_of ctrl = 0%Z -> length te = 32 ->
  mock_in ExpectInit 0 raw r (te ++ e) None s ->
  handle_init_request te payload r = (Ret resp, r') ->
  bytes_ok resp -> (Z.of_nat (length resp + CRC_LEN) < u16_mod)%Z ->
  exists s1, on_message ctrl payload s = (Ret tt, s1)
    /\ mock_outbox (inner s1)
       = frame_packets BLE_PACKET_SIZE (mock_ack 0)
         ++ frame_packets BLE_PACKET_SIZE (mock_data control.HANDSHAKE_INIT_RESPONSE 0 resp)
    /\ mock_in ExpectCompletion 1 raw r' e None (set_mock_outbox [] s1).
Proof.
  intros Hack Hseq Hte (Hph & Hout & Hsq & Hdp & Hr & Hrng & Hk) Hreq Hok Hl.
  pose proof (mock_ack_good 0 (or_introl eq_refl)) as Hga.
  assert (Hgd : good_frame (mock_data control.HANDSHAKE_INIT_RESPONSE 0 resp))
    by (apply mock_data_good; [by left|simpl; tauto|done..]).
  unfold on_message. rewrite Hack. mred. rewrite Hph, Hsq, Hseq.
  rewrite (enqueue_run DEVICE_CID (control.ack_for 0) [] s (proj1 Hga)). rewrite Hout.
  cbn [app]. unfold mock_scalar.
  rewrite (mock_random_draws 32 te e) by done.
  unfold on_responder. cbn [set_platform_rng set_mock_outbox inner responder]. rewrite Hr, Hreq.
  cbn [unwrap].
  rewrite (enqueue_run DEVICE_CID (control.with_seq control.HANDSHAKE_INIT_RESPONSE 0) resp
    _ (proj1 Hgd)).
  eexists. split; [reflexivity|]. split; [reflexivity|].
  unfold mock_in. cbn. rewrite Hsq. by split_and!.
Qed.

Lemma mock_completion ctrl payload raw r e result s :
  control.is_ack ctrl = false -> control.seq_of ctrl = 1%Z ->
  mock_in ExpectCompletion 1 raw r e None s ->
  handle_completion_request payload r = (Ret result, r) ->
  bytes_ok (rr_response result) ->
  (Z.of_nat (length (rr_response result) + CRC_LEN) < u16_mod)%Z ->
  exists s1, on_message ctrl payload s = (Ret tt, s1)
    /\ mock_outbox (inner s1)
       = frame_packets BLE_PACKET_SIZE (mock_ack 1)
         ++ frame_packets BLE_PACKET_SIZE
              (mock_data control.HANDSHAKE_COMPLETION_RESPONSE 1 (rr_response result))
    /\ mock_in Done 0 raw r e (Some (rr_key_request result, rr_key_response result))
         (set_mock_outbox [] s1).
Proof.
  intros Hack Hseq (Hph & Hout & Hsq & Hdp & Hr & Hrng & Hk) Hreq Hok Hl.
  pose proof (mock_ack_good 1 (or_intror eq_refl)) as Hga.
  assert (Hgd : good_frame (mock_data control.HANDSHAKE_COMPLETION_RESPONSE 1
                              (rr_response result)))
    by (apply mock_data_good; [by right|simpl; tauto|done..]).
  unfold on_message. rewrite Hack. mred. rewrite Hph, Hsq, Hseq.
  rewrite (enqueue_run DEVICE_CID (control.ack_for 1) [] s (proj1 Hga)). rewrite Hout.
  cbn [app]. unfold on_responder. cbn [set_mock_outbox inner responder]. rewrite Hr, Hreq.
  cbn [unwrap mock_modify].
  rewrite (enqueue_run DEVICE_CID (control.with_seq control.HANDSHAKE_COMPLETION_RESPONSE 1)
    (rr_response result) _ (proj1 Hgd)).
  eexists. split; [reflexivity|]. split; [reflexivity|].
  unfold mock_in. cbn. rewrite Hsq. by split_and!.
Qed.

Lemma packets_within fs f fuel :
  In f fs -> length (wire BLE_PACKET_SIZE fs) <= fuel ->
  length (frame_packets BLE_PACKET_SIZE f) <= fuel.
Proof.
  induction fs as [|g fs IH]; [done|]. rewrite wire_cons, length_app.
  intros [-> |Hin] Hl; [lia|]. apply IH; [done|lia].
Qed.

(** The ephemeral scalar of the host, drawn from the shared generator. *)
Lemma mock_handshake_new raw hs cred he e c s :
  platform_rng s = he ++ e -> length he = 32 ->
  on_env (handshake_new raw 0 hs cred) (c, s)
  = (Ret (with_ephemeral raw 0 hs cred he), (c, set_platform_rng e s)).
Proof.
  intros Hr Hl. unfold on_env, handshake_new, random_scalar, random_bytes. mred.
  cbn [fst snd getrandom mock_env]. by rewrite (mock_random_draws 32 he e s).
Qed.

(** The two exchanges of the handshake, as the driver makes them. *)
Lemma mock_init_turn fuel payload raw r te e resp r' c s :
  wf_connection c -> INIT_HEADER < packet_size c -> pending_data c = None ->
  send_seq c = 0%Z -> recv_seq c = 0%Z -> mock_in ExpectInit 0 raw r (te ++ e) None s ->
  length te = 32 -> handle_init_request te payload r = (Ret resp, r') ->
  bytes_ok payload -> length payload = 33 -> bytes_ok resp -> length resp = INIT_RESPONSE_LEN ->
  length (wire BLE_PACKET_SIZE [mock_ack 0; mock_data control.HANDSHAKE_INIT_RESPONSE 0 resp])
  <= fuel ->
  exists s', mock_in ExpectCompletion 1 raw r' e None s'
    /\ forall A (k : Z * list Z -> Conn MockDevice A),
       (send_data fuel control.HANDSHAKE_INIT_REQUEST payload;; recv_data fuel ≫= k) (c, s)
       = k (control.with_seq control.HANDSHAKE_INIT_RESPONSE 0, resp)
           (flip_recv (flip_send c), s').
Proof.
  intros Hwf Hps Hp Hss Hrs Hin Hte Hreq Hpok Hpl Hrok Hrl Hfuel.
  destruct (with_seq_props control.HANDSHAKE_INIT_REQUEST 0 (or_introl eq_refl))
    as (Ha0 & Hs0 & _); [simpl; tauto|].
  destruct (mock_init _ payload raw r te e resp r'
    (heard (host_frame c (control.with_seq control.HANDSHAKE_INIT_REQUEST 0) payload) s)
    Ha0 Hs0 Hte (mock_in_heard _ _ _ _ _ _ _ _ Hin) Hreq Hrok ltac:(by rewrite Hrl))
    as (s1 & Hm & Ho & Hi).
  exists (heard (ack_frame c (recv_seq c)) (set_mock_outbox [] s1)). split; [exact Hi|].
  intros A k. rewrite <- Hrs at 1. apply mock_turn; rewrite ?Hss, ?Hrs; try done;
    rewrite ?Hpl, ?Hrl; try done; try (by unfold data_controls; simpl; tauto);
    (eapply packets_within; [|exact Hfuel]; simpl; tauto).
Qed.

Lemma mock_completion_turn fuel payload raw r e result c s :
  wf_connection c -> INIT_HEADER < packet_size c -> pending_data c = None ->
  send_seq c = 1%Z -> recv_seq c = 1%Z -> mock_in ExpectCompletion 1 raw r e None s ->
  handle_completion_request payload r = (Ret result, r) ->
  bytes_ok payload -> (Z.of_nat (length payload + CRC_LEN) < u16_mod)%Z ->
  bytes_ok (rr_response result) -> length (rr_response result) = 1 + TAG_LEN ->
  length (wire BLE_PACKET_SIZE
    [mock_ack 1; mock_data control.HANDSHAKE_COMPLETION_RESPONSE 1 (rr_response result)])
  <= fuel ->
  exists s', mock_in Done 0 raw r e (Some (rr_key_request result, rr_key_response result)) s'
    /\ forall A (k : Z * list Z -> Conn MockDevice A),
       (send_data fuel control.HANDSHAKE_COMPLETION_REQUEST payload;; recv_data fuel ≫= k) (c, s)
       = k (control.with_seq control.HANDSHAKE_COMPLETION_RESPONSE 1, rr_response result)
           (flip_recv (flip_send c), s').
Proof.
  intros Hwf Hps Hp Hss Hrs Hin Hreq Hpok Hpl Hrok Hrl Hfuel.
  destruct (with_seq_props control.HANDSHAKE_COMPLETION_REQUEST 1 (or_intror eq_refl))
    as (Ha1 & Hs1 & _); [simpl; tauto|].
  destruct (mock_completion _ payload raw r e result
    (heard (host_frame c (control.with_seq control.HANDSHAKE_COMPLETION_REQUEST 1) payload) s)
    Ha1 Hs1 (mock_in_heard _ _ _ _ _ _ _ _ Hin) Hreq Hrok ltac:(by rewrite Hrl))
    as (s1 & Hm & Ho & Hi).
  exists (heard (ack_frame c (recv_seq c)) (set_mock_outbox [] s1)). split; [exact Hi|].
  intros A k. rewrite <- Hrs at 1. apply mock_turn; rewrite ?Hss, ?Hrs; try done;
    rewrite ?Hrl; try done; try (by unfold data_controls; simpl; tauto);
    (eapply packets_within; [|exact Hfuel]; simpl; tauto).
Qed.

Lemma mock_handshakes fuel raw hs cred he te e resp r trezor req result keys c s :
  wf_connection c -> INIT_HEADER < packet_size c -> pending_data c = None ->
  send_seq c = 0%Z -> recv_seq c = 0%Z ->
  mock_in ExpectInit 0 raw r (he ++ te ++ e) None s -> length he = 32 -> length te = 32 ->
  handle_init_request te (init_request_payload (with_ephemeral raw 0 hs cred he)) r
  = (Ret resp, trezor) ->
  handle_completion_request req trezor = (Ret result, trezor) ->
  handshaken raw hs cred he resp req (rr_response result) keys ->
  (Z.of_nat (length (encode_to_vec {| host_pairing_credential_field := cred |}) + 68)
   < u16_mod)%Z ->
  length (wire BLE_PACKET_SIZE (handshake_frames DEVICE_CID resp (rr_response result))) <= fuel ->
  exists s', handshake fuel raw hs cred (c, s) = (Ret keys, (c, s'))
    /\ mock_in Done 0 raw trezor e (Some (rr_key_request result, rr_key_response result)) s'.
Proof.
  intros Hwf Hps Hp Hss Hrs Hin Hhe Hte Hinit Hcomp
    (host' & Hrl & Hrok & Hread & Hql & Hqok & Hfl & Hfok & Hdone) Hcred Hfuel.
  destruct (init_request_bytes raw hs cred he) as [Hiok Hil].
  change (handshake_frames DEVICE_CID resp (rr_response result)) with
    ([mock_ack 0; mock_data control.HANDSHAKE_INIT_RESPONSE 0 resp]
     ++ [mock_ack 1; mock_data control.HANDSHAKE_COMPLETION_RESPONSE 1 (rr_response result)])
    in Hfuel.
  rewrite wire_app, length_app in Hfuel.
  unfold handshake. pose proof Hin as (_ & _ & _ & _ & _ & Hrng & _).
  rewrite (st_bind_ret _ _ _ _ _ (mock_handshake_new raw hs cred he (te ++ e) c s Hrng Hhe)).
  destruct (mock_init_turn fuel
    (init_request_payload (with_ephemeral raw 0 hs cred he)) raw r te e resp trezor c (set_platform_rng (te ++ e) s)
    Hwf Hps Hp Hss Hrs) as (s1 & Hi1 & ->); try done; [|lia|].
  { by destruct Hin as (? & ? & ? & ? & ? & ? & ?). }
  rewrite Hread. rewrite (st_bind_ret (lift (Ret req)) _ _ req _ eq_refl).
  destruct (mock_completion_turn fuel req raw trezor e result (flip_recv (flip_send c)) s1)
    as (s2 & Hi2 & ->); try done; [by auto with conn|cbn; by rewrite Hss|cbn; by rewrite Hrs| |lia|].
  { rewrite Hql. unfold ENC_STATIC_LEN, PUBKEY_LEN, TAG_LEN, CRC_LEN. lia. }
  exists s2. split; [|exact Hi2]. rewrite Hdone. mred.
  by rewrite (flipped_twice c (proj1 (proj2 Hwf)) (proj1 (proj2 (proj2 Hwf)))).
Qed.

(** C18: The driver completes channel allocation and the handshake against the
    in-memory mock device, for every model name, device key, host key, stored
    credential and supply of randomness: it is given channel 3 and the device's
    properties, neither side panics, and the session keys it derives are those
    the device agreed on, with nonces 0 and 1 and the pairing state the device
    encrypted. *)
Theorem mock_driver_completes model ts hs cred nonce he te e :
  length nonce = ALLOCATION_NONCE_LEN -> bytes_ok nonce -> length he = 32 -> length te = 32 ->
  let props := mock_props model in
  let raw := encode_to_vec props in
  (Z.of_nat (length raw + 14) < u16_mod)%Z ->
  (Z.of_nat (length (encode_to_vec {| host_pairing_credential_field := cred |}) + 68)
   < u16_mod)%Z ->
  let start := {| inner := mock_new model ts; platform_rng := nonce ++ he ++ te ++ e |} in
  let a := {| alloc_cid := DEVICE_CID; device_properties_raw := raw;
              device_properties := props |} in
  exists n keys, forall fuel, n <= fuel -> exists conn device,
    bring_up fuel hs cred (connection_new BLE_PACKET_SIZE, start)
    = (Ret (a, keys), (conn, device))
    /\ agreed_keys (inner device) = Some (key_request keys, key_response keys)
    /\ nonce_request keys = 0%Z /\ nonce_response keys = 1%Z /\ trezor_state keys = [0x02%Z]
    /\ host_static_pubkey keys = public_key hs
    /\ phase (inner device) = Done /\ mock_outbox (inner device) = []
    /\ cid conn = DEVICE_CID /\ send_seq conn = 0%Z /\ recv_seq conn = 0%Z.
Proof.
  intros Hn Hnok Hhe Hte props raw Hraw Hcred start a.
  destruct (device_handshake raw hs cred he ts te) as (resp & trezor & req & result & keys & Hinit
    & Hcomp & Hkq & Hkr & Hpub & _ & Hst & Hn0 & Hn1 & Hhand).
  exists (length (wire BLE_PACKET_SIZE (mock_allocation_frame nonce raw
            :: handshake_frames DEVICE_CID resp (rr_response result)))), keys.
  intros fuel Hfuel. rewrite wire_cons, length_app in Hfuel.
  assert (Hps : INIT_HEADER < BLE_PACKET_SIZE) by by apply Nat.ltb_lt.
  set (c0 := connection_new BLE_PACKET_SIZE).
  destruct (mock_allocates fuel props raw (responder_new raw ts) nonce (he ++ te ++ e) c0 start)
    as (s1 & Ha & Hi1); try done; [lia|].
  destruct (mock_handshakes fuel raw hs cred he te e resp (responder_new raw ts) trezor req
    result keys (allocated a c0) s1) as (s2 & Hh & Hi2); try done;
    [by apply allocated_wf; [apply connection_new_wf|apply device_cid_range]|lia|].
  exists (allocated a c0), s2. split.
  { unfold bring_up. by rewrite (st_bind_ret _ _ _ _ _ Ha), (st_bind_ret _ _ _ _ _ Hh). }
  destruct Hi2 as (Hph & Ho & _ & _ & _ & _ & Hk). rewrite Hkq, Hkr. by split_and!.
Qed.
End Exchanges.

(** ** [LockedDevice]: a DEVICE_LOCKED transport error for any request *)
Record LockedDevice : Type := { locked_out : list (list Z); locked_rng : list Z }.

Definition locked_new (rng : list Z) : outcome TrezorError LockedDevice :=
  frame ← unwrap (segment BLE_PACKET_SIZE BROADCAST_CID control.TRANSPORT_ERROR [5%Z]);
  Ret {| locked_out := frame; locked_rng := rng |}.

Definition locked_write (data : list Z) : ST LockedDevice TrezorTransportError unit := mret tt.

Definition locked_read : ST LockedDevice TrezorTransportError (list Z) := fun s =>
  match locked_out s with
  | packet :: rest => (Ret packet, {| locked_out := rest; locked_rng := locked_rng s |})
  | [] => (Fail (Io (str "empty")), s)
  end.

Definition locked_random (n : nat) (s : LockedDevice) : (rstring + list Z) * LockedDevice :=
  if n <=? length (locked_rng s) then
    (inr (take n (locked_rng s)),
     {| locked_out := locked_out s; locked_rng := drop n (locked_rng s) |})
  else (inl (str "entropy exhausted"), s).

#[export] Instance locked_env : Env LockedDevice := {|
  getrandom := locked_random;
  write_chunk := locked_write;
  read_chunk := locked_read;
  request_code := fun s => ([], s);
|}.


Section Locked.
Context {CR : Crypto} {CL : CryptoLaws} {PM : ThpProto}.

Lemma locked_hears c d packets : write_packets packets (c, d) = (Ret tt, (c, d : LockedDevice)).
Proof. induction packets as [|p packets IH]; [done|exact IH]. Qed.

Definition device_locked : TrezorError :=
  thp (str "THP transport error 5: the device is locked " ++ em_dash
       ++ str " unlock your Trezor (enter your PIN on the device) and retry").

Lemma locked_reads fuel c rng dev :
  locked_new rng = Ret dev ->
  (read_framed (S fuel) (c, dev)).1 = Fail device_locked.
Proof. intros [= <-]. vm_compute. reflexivity. Qed.

(** [locked_device_surfaces_decoded_error]: allocation against a locked device fails with
    the decoded error, which names the lock. *)
Lemma locked_device_surfaces_decoded_error fuel nonce rng dev :
  length nonce = ALLOCATION_NONCE_LEN -> bytes_ok nonce -> 0 < fuel ->
  locked_new (nonce ++ rng) = Ret dev ->
  (allocate fuel (connection_new BLE_PACKET_SIZE, dev)).1 = Fail device_locked.
Proof.
  intros Hn Hnok Hfuel Hdev. destruct fuel as [|fuel]; [lia|].
  assert (Hdev' : exists dev', locked_new rng = Ret dev'
      /\ locked_random ALLOCATION_NONCE_LEN dev = (inr nonce, dev')).
  { eexists. split; [reflexivity|]. injection Hdev as <-. unfold locked_random.
    cbn [locked_rng locked_out]. rewrite length_app, Hn. cbn [Nat.leb ALLOCATION_NONCE_LEN Nat.add].
    by rewrite <- Hn, take_app_length, drop_app_length. }
  destruct Hdev' as (dev' & Hdev' & Hdraw).
  set (conn := connection_new BLE_PACKET_SIZE).
  destruct (segment_spec BLE_PACKET_SIZE BROADCAST_CID control.CHANNEL_ALLOCATION_REQUEST nonce)
    as (first & rest & Hseg & _).
  { by apply Nat.ltb_lt. }
  { split; [done|]. split; [vm_compute; split; congruence|]. split; [done|]. by rewrite Hn. }
  unfold allocate, random_allocation_nonce.
  rewrite (st_bind_ret (on_env _) _ _ nonce (conn, dev')).
  2: { unfold on_env, random_bytes. cbn [fst snd getrandom locked_env]. by rewrite Hdraw. }
  rewrite (st_bind_ret (conn_modify _) _ _ tt _ eq_refl). cbn [fst snd].
  change (set_cid BROADCAST_CID conn) with conn.
  rewrite (st_bind_ret (write_framed _ _) _ _ tt (conn, dev')).
  2: { unfold write_framed, build_allocation_request. mred. cbn [conn_get fst].
       change (segment (packet_size conn) (cid conn)) with (segment BLE_PACKET_SIZE BROADCAST_CID).
       rewrite Hseg. apply locked_hears. }
  pose proof (locked_reads fuel conn rng dev' Hdev') as Hread.
  unfold MAX_ALLOC_READS. cbn [allocate_loop]. unfold mbind, st_bind.
  destruct (read_framed (S fuel) (conn, dev')) as [o s]. cbn [fst] in Hread. by subst o.
Qed.
End Locked.

(** The test's keys, with a random generator of the toy primitives. *)
Lemma mock_driver_completes_witness :
  let CR := toy_crypto in let PM := toy_thp_proto in
  exists n keys, forall fuel, n <= fuel -> exists conn device,
    (bring_up fuel (replicate 32 0x11%Z) None (connection_new BLE_PACKET_SIZE,
       {| inner := mock_new (str "T3W1") (replicate 32 0x22%Z);
          platform_rng := replicate 8 7%Z ++ replicate 32 3%Z ++ replicate 32 4%Z ++ [] |})).2
    = (conn, device)
    /\ agreed_keys (inner device) = Some (key_request keys, key_response keys).
Proof.
  intros CR PM.
  destruct (mock_driver_completes (CR := CR) (CL := toy_crypto_laws) (PM := PM)
    (PL := toy_thp_proto_laws) (str "T3W1") (replicate 32 0x22%Z) (replicate 32 0x11%Z) None
    (replicate 8 7%Z) (replicate 32 3%Z) (replicate 32 4%Z) []) as (n & keys & H).
  { reflexivity. }
  { apply bytes_okb_true. reflexivity. }
  { reflexivity. }
  { reflexivity. }
  { apply Z.ltb_lt. vm_compute. reflexivity. }
  { apply Z.ltb_lt. vm_compute. reflexivity. }
  exists n, keys. intros fuel Hf. destruct (H fuel Hf) as (conn & device & Hrun & Hk & _).
  exists conn, device. split; [by rewrite Hrun|exact Hk].
Defined.
