(* ===== verification/Text.v ===== *)
(** * Rust string operations

    [trim], [strip_prefix], [strip_suffix], [split] and [u32::from_str] on the
    code points of a [String], as the path parser and the pairing code reader
    use them, with a decimal printer to state round trips. *)

From S2P Require Import Prelude Types.

(** [char::is_whitespace]: the Unicode White_Space property. *)
Definition is_whitespace (c : Z) : bool :=
  ((0x9 <=? c) && (c <=? 0xD) || (c =? 0x20) || (c =? 0x85) || (c =? 0xA0)
   || (c =? 0x1680) || (0x2000 <=? c) && (c <=? 0x200A) || (c =? 0x2028)
   || (c =? 0x2029) || (c =? 0x202F) || (c =? 0x205F) || (c =? 0x3000))%Z.

Fixpoint trim_start (s : rstring) : rstring :=
  match s with
  | c :: rest => if is_whitespace c then trim_start rest else s
  | [] => []
  end.

Definition trim_end (s : rstring) : rstring := reverse (trim_start (reverse s)).
Definition trim (s : rstring) : rstring := trim_end (trim_start s).

Fixpoint strip_prefix (p s : rstring) : option rstring :=
  match p, s with
  | [], _ => Some s
  | a :: p', b :: s' => if (a =? b)%Z then strip_prefix p' s' else None
  | _ :: _, [] => None
  end.

(** [s.strip_suffix(c)] of one character. *)
Definition strip_suffix (c : Z) (s : rstring) : option rstring :=
  reverse <$> strip_prefix [c] (reverse s).

(** [s.split(c)]: one piece more than there are separators. *)
Fixpoint split (c : Z) (s : rstring) : list rstring :=
  match s with
  | [] => [[]]
  | x :: rest =>
    if (x =? c)%Z then [] :: split c rest
    else match split c rest with
         | piece :: pieces => (x :: piece) :: pieces
         | [] => [[x]]
         end
  end.

Definition is_digit (c : Z) : bool := ((48 <=? c) && (c <=? 57))%Z.

(** The digit loop of [u32::from_str], with its checked arithmetic. *)
Fixpoint parse_digits (acc : Z) (s : rstring) : option Z :=
  match s with
  | [] => Some acc
  | c :: rest =>
    if is_digit c then
      let acc := (acc * 10 + (c - 48))%Z in
      if (acc <? u32_mod)%Z then parse_digits acc rest else None
    else None
  end.

(** [s.parse::<u32>()]: an optional [+], then at least one digit. *)
Definition parse_u32 (s : rstring) : option Z :=
  match s with
  | [] => None
  | c :: rest =>
    let digits := if (c =? 43)%Z then rest else s in
    match digits with
    | [] => None
    | _ => parse_digits 0 digits
    end
  end.

(** ** Decimal printing *)
Fixpoint le_digits (fuel : nat) (n : Z) : rstring :=
  match fuel with
  | O => []
  | S fuel' => (48 + n mod 10)%Z :: (if (n / 10 =? 0)%Z then [] else le_digits fuel' (n / 10)%Z)
  end.

(** A [u32] has at most ten decimal digits. *)
Definition show_u32 (n : Z) : rstring := reverse (le_digits 10 n).

(** ** Lemmas *)
Lemma trim_start_no_space s :
  match head s with Some c => is_whitespace c = false | None => True end -> trim_start s = s.
Proof. destruct s as [|c s]; [done|]. simpl. by intros ->. Qed.

Lemma trim_no_space s :
  match head s with Some c => is_whitespace c = false | None => True end ->
  match last s with Some c => is_whitespace c = false | None => True end -> trim s = s.
Proof.
  intros Hh Hl. unfold trim, trim_end. rewrite (trim_start_no_space s) by done.
  rewrite trim_start_no_space; [apply reverse_involutive|].
  by rewrite <- last_reverse, reverse_involutive.
Qed.

Lemma strip_prefix_app p s : strip_prefix p (p ++ s) = Some s.
Proof. induction p as [|c p IH]; [done|]. simpl. by rewrite Z.eqb_refl. Qed.

Lemma strip_suffix_snoc c s : strip_suffix c (s ++ [c]) = Some s.
Proof.
  unfold strip_suffix. rewrite reverse_app. cbn. rewrite Z.eqb_refl. cbn.
  by rewrite reverse_involutive.
Qed.

Lemma strip_suffix_other c d s : (c <> d)%Z -> strip_suffix c (s ++ [d]) = None.
Proof.
  intros H. unfold strip_suffix. rewrite reverse_app. cbn. apply Z.eqb_neq in H. by rewrite H.
Qed.

Lemma split_piece c s : c ∉ s -> split c s = [s].
Proof.
  induction s as [|x s IH]; [done|]. intros [Hx Hs]%not_elem_of_cons. simpl.
  apply not_eq_sym, Z.eqb_neq in Hx. by rewrite Hx, IH.
Qed.

Lemma split_app c s t : c ∉ s -> split c (s ++ c :: t) = s :: split c t.
Proof.
  induction s as [|x s IH]; intros Hs; simpl; [by rewrite Z.eqb_refl|].
  apply not_elem_of_cons in Hs as [Hx Hs].
  apply not_eq_sym, Z.eqb_neq in Hx. by rewrite Hx, IH.
Qed.

Lemma le_digits_digit fuel n : Forall (fun c => is_digit c = true) (le_digits fuel n).
Proof.
  revert n. induction fuel as [|fuel IH]; intros n; simpl; constructor.
  - unfold is_digit. pose proof (Z.mod_pos_bound n 10). lia.
  - destruct (n / 10 =? 0)%Z; [constructor|apply IH].
Qed.

Lemma le_digits_value fuel n :
  (0 <= n < 10 ^ Z.of_nat fuel)%Z ->
  foldr (fun c acc => (c - 48) + 10 * acc)%Z 0%Z (le_digits fuel n) = n.
Proof.
  revert n. induction fuel as [|fuel IH]; intros n Hn; [simpl in *; lia|].
  rewrite Nat2Z.inj_succ, Z.pow_succ_r in Hn by lia. cbn [le_digits foldr].
  pose proof (Z.div_mod n 10). destruct (Z.eqb_spec (n / 10) 0) as [H0|H0]; [simpl; lia|].
  rewrite IH; [lia|]. split; [apply Z.div_pos; lia|]. apply Z.div_lt_upper_bound; lia.
Qed.

Lemma foldl_digits_bound s acc :
  Forall (fun c => is_digit c = true) s -> (0 <= acc)%Z ->
  (acc <= foldl (fun a c => a * 10 + (c - 48)) acc s)%Z.
Proof.
  intros Hs. revert acc. induction Hs as [|c s Hc _ IH]; intros acc Ha; simpl; [lia|].
  unfold is_digit in Hc. etrans; [|apply IH; lia]. lia.
Qed.

Lemma parse_digits_fold s acc :
  Forall (fun c => is_digit c = true) s -> (0 <= acc)%Z ->
  (foldl (fun a c => a * 10 + (c - 48)) acc s < u32_mod)%Z ->
  parse_digits acc s = Some (foldl (fun a c => a * 10 + (c - 48)) acc s)%Z.
Proof.
  intros Hs. revert acc. induction Hs as [|c s Hc Hs IH]; intros acc Ha Hb; [done|].
  cbn [parse_digits foldl] in *. rewrite Hc.
  assert (0 <= acc * 10 + (c - 48))%Z by (unfold is_digit in Hc; lia).
  pose proof (foldl_digits_bound s (acc * 10 + (c - 48)) Hs).
  replace (acc * 10 + (c - 48) <? u32_mod)%Z with true by lia. by apply IH.
Qed.

Lemma show_u32_digits n : Forall (fun c => is_digit c = true) (show_u32 n).
Proof. apply Forall_reverse, le_digits_digit. Qed.

Lemma show_u32_cons n : exists c rest, show_u32 n = c :: rest /\ is_digit c = true.
Proof.
  pose proof (show_u32_digits n) as H. unfold show_u32 in *.
  destruct (reverse (le_digits 10 n)) as [|c rest] eqn:E.
  - apply (f_equal length) in E. rewrite length_reverse in E. cbn in E. lia.
  - apply Forall_cons in H as [H _]. eauto.
Qed.

Lemma foldl_digits_reverse s :
  foldl (fun a c => a * 10 + (c - 48))%Z 0%Z (reverse s)
  = foldr (fun c acc => (c - 48) + 10 * acc)%Z 0%Z s.
Proof.
  induction s as [|c s IH]; [done|]. rewrite reverse_cons, foldl_app, IH. simpl. lia.
Qed.

Lemma parse_digits_show n : (0 <= n < u32_mod)%Z -> parse_digits 0 (show_u32 n) = Some n.
Proof.
  intros Hn.
  assert (foldl (fun a c => a * 10 + (c - 48)) 0 (show_u32 n) = n)%Z as Hv.
  { unfold show_u32. rewrite foldl_digits_reverse. apply le_digits_value.
    unfold u32_mod in Hn. lia. }
  rewrite parse_digits_fold; [by rewrite Hv|apply show_u32_digits|lia|lia].
Qed.

Lemma parse_u32_show n : (0 <= n < u32_mod)%Z -> parse_u32 (show_u32 n) = Some n.
Proof.
  intros Hn. destruct (show_u32_cons n) as (c & rest & E & Hc). unfold parse_u32.
  rewrite E. replace (c =? 43)%Z with false by (unfold is_digit in Hc; lia).
  rewrite <- E. by apply parse_digits_show.
Qed.

Lemma parse_digits_range s acc n :
  parse_digits acc s = Some n -> (0 <= acc < u32_mod)%Z -> (0 <= n < u32_mod)%Z.
Proof.
  revert acc. induction s as [|c s IH]; intros acc; cbn [parse_digits].
  - intros [= ->]. done.
  - destruct (is_digit c) eqn:Hc; [|done].
    destruct (Z.ltb_spec (acc * 10 + (c - 48)) u32_mod) as [Hlt|]; [|done].
    intros H Hacc. apply (IH _ H). unfold is_digit in Hc. lia.
Qed.

Lemma parse_u32_range s n : parse_u32 s = Some n -> (0 <= n < u32_mod)%Z.
Proof.
  unfold parse_u32. destruct s as [|c rest]; [done|].
  destruct (if (c =? 43)%Z then rest else c :: rest) as [|d l]; [done|].
  intros H. eapply parse_digits_range; [exact H|]. unfold u32_mod. lia.
Qed.
