(* ===== verification/Bip32.v ===== *)
(** * Derivation paths (bip32.rs) *)

From S2P Require Import Prelude Types Text.

Definition HARDENED : Z := 0x80000000.

Definition invalid_path (input detail : rstring) : TrezorError :=
  thp (str "invalid derivation path '" ++ input ++ str "': " ++ detail).

(** One iteration of the loop over [body.split('/')]. *)
Definition parse_component (input raw : rstring) : outcome TrezorError Z :=
  let comp := trim raw in
  if bool_decide (comp = []) then Fail (invalid_path input (str "empty component"))
  else
    let '(digits, hardened) :=
      match strip_suffix 39 comp with
      | Some d => (d, true)
      | None =>
        match strip_suffix 104 comp with
        | Some d => (d, true)
        | None =>
          match strip_suffix 72 comp with
          | Some d => (d, true)
          | None => (comp, false)
          end
        end
      end in
    idx ← ok_or (invalid_path input (str "bad component '" ++ comp ++ str "'"))
            (parse_u32 digits);
    if (HARDENED <=? idx)%Z then
      Fail (invalid_path input (str "index '" ++ comp ++ str "' out of range"))
    else mret (if hardened then Z.lor idx HARDENED else idx).

Fixpoint parse_components (input : rstring) (raws : list rstring)
    : outcome TrezorError (list Z) :=
  match raws with
  | [] => mret []
  | raw :: rest =>
    i ← parse_component input raw;
    out ← parse_components input rest;
    mret (i :: out)
  end.

Definition parse_path (input : rstring) : outcome TrezorError (list Z) :=
  let trimmed := trim input in
  let body :=
    match strip_prefix (str "m/") trimmed with
    | Some b => b
    | None => default trimmed (strip_prefix (str "M/") trimmed)
    end in
  if bool_decide (body = []) || bool_decide (body = str "m") || bool_decide (body = str "M")
  then Ret []
  else parse_components input (split 47 body).

(** ** The canonical text of a path *)
Definition show_component (i : Z) : rstring :=
  show_u32 (i mod HARDENED) ++ (if (HARDENED <=? i)%Z then [39%Z] else []).

Fixpoint show_components (path : list Z) : rstring :=
  match path with
  | [] => []
  | [i] => show_component i
  | i :: rest => show_component i ++ 47%Z :: show_components rest
  end.

Definition show_path (path : list Z) : rstring := str "m/" ++ show_components path.

(** ** Lemmas *)
Definition is_u32 (i : Z) : Prop := (0 <= i < u32_mod)%Z.

Lemma digit_facts c :
  is_digit c = true ->
  is_whitespace c = false /\ c <> 47%Z /\ c <> 39%Z /\ c <> 104%Z /\ c <> 72%Z /\ c <> 109%Z /\
  c <> 77%Z.
Proof. unfold is_digit, is_whitespace. intros H. split_and!; lia. Qed.

(** A component starts with a digit and ends with one or with the apostrophe. *)
Lemma show_component_shape i :
  exists c s d, show_component i = c :: s /\ last (show_component i) = Some d /\
    is_digit c = true /\ (is_digit d = true \/ d = 39%Z) /\
    Forall (fun x => is_digit x = true \/ x = 39%Z) (show_component i).
Proof.
  unfold show_component. destruct (show_u32_cons (i mod HARDENED)) as (c & s & E & Hc).
  pose proof (show_u32_digits (i mod HARDENED)) as Hall. rewrite E in *.
  assert (Forall (fun x => is_digit x = true \/ x = 39%Z) (c :: s)) as Hall'
    by (eapply Forall_impl; [exact Hall|]; tauto).
  destruct (HARDENED <=? i)%Z.
  - exists c, (s ++ [39%Z]), 39%Z. split_and!; auto.
    + by rewrite last_snoc.
    + apply Forall_app. split; [done|]. apply Forall_singleton. by right.
  - rewrite app_nil_r. destruct (last (c :: s)) as [d|] eqn:Hd.
    + exists c, s, d. split_and!; auto. left.
      apply last_Some_elem_of in Hd. rewrite Forall_forall in Hall. auto.
    + by apply last_None in Hd.
Qed.

Lemma trim_component i : trim (show_component i) = show_component i.
Proof.
  destruct (show_component_shape i) as (c & s & d & E & Hd & Hc & Hdd & _).
  apply trim_no_space.
  - rewrite E. cbn. by apply digit_facts.
  - rewrite Hd. destruct Hdd as [H | ->]; [by apply digit_facts|done].
Qed.

Lemma hardened_bits i :
  is_u32 i -> (if (HARDENED <=? i)%Z then Z.lor (i mod HARDENED) HARDENED else (i mod HARDENED)%Z) = i.
Proof.
  unfold is_u32, u32_mod, HARDENED. intros Hi.
  destruct (Z.leb_spec 0x80000000 i) as [H|H]; [|apply Z.mod_small; lia].
  change 0x80000000%Z with (2 ^ 31)%Z. rewrite <- Z.land_ones by lia.
  rewrite Z.lor_land_distr_l. change (Z.lor (Z.ones 31) (2 ^ 31)) with (Z.ones 32).
  assert (Z.lor i (2 ^ 31) = i) as ->.
  { assert (Z.testbit i 31 = true) as Hb.
    { rewrite Z.testbit_true by lia. replace (i / 2 ^ 31)%Z with 1%Z; [done|].
      apply (Z.div_unique i (2 ^ 31) 1 (i - 2 ^ 31)); lia. }
    apply Z.bits_inj'. intros n Hn. rewrite Z.lor_spec, Z.pow2_bits_eqb by lia.
    destruct (Z.eqb_spec 31 n) as [<-|]; [by rewrite Hb|by rewrite orb_false_r]. }
  rewrite Z.land_ones by lia. apply Z.mod_small. lia.
Qed.

Lemma parse_component_show input i :
  is_u32 i -> parse_component input (show_component i) = Ret i.
Proof.
  intros Hi. unfold parse_component. rewrite trim_component.
  destruct (show_component_shape i) as (c & s & d & E & Hd & Hc & Hdd & _).
  rewrite bool_decide_false by (by rewrite E).
  assert (0 <= i mod HARDENED < HARDENED)%Z as Hm by (apply Z.mod_pos_bound; unfold HARDENED; lia).
  assert (parse_u32 (show_u32 (i mod HARDENED)) = Some (i mod HARDENED)%Z) as Hp.
  { apply parse_u32_show. unfold u32_mod, HARDENED in *. lia. }
  pose proof (hardened_bits i Hi) as Hb. unfold show_component in *.
  destruct (HARDENED <=? i)%Z eqn:Hh.
  - rewrite strip_suffix_snoc, Hp. cbn.
    replace (HARDENED <=? i mod HARDENED)%Z with false by lia. by rewrite Hb.
  - rewrite app_nil_r in *. clear E.
    assert (is_digit d = true) as Hdig.
    { apply last_Some_elem_of in Hd. pose proof (show_u32_digits (i mod HARDENED)) as Hall.
      rewrite Forall_forall in Hall. auto. }
    apply last_Some in Hd as [l Hl]. destruct (digit_facts d Hdig) as (_ & _ & ? & ? & ? & _).
    rewrite Hl in Hp |- *. rewrite !strip_suffix_other by auto. rewrite Hp. cbn.
    replace (HARDENED <=? i mod HARDENED)%Z with false by lia. by rewrite Hb.
Qed.

Lemma no_slash i : 47%Z ∉ show_component i.
Proof.
  destruct (show_component_shape i) as (_ & _ & _ & _ & _ & _ & _ & Hall).
  intros H. rewrite Forall_forall in Hall. by destruct (Hall _ H).
Qed.

Lemma parse_components_show input path :
  path <> [] -> Forall is_u32 path ->
  parse_components input (split 47 (show_components path)) = Ret path.
Proof.
  intros Hne Hp. induction Hp as [|i path Hi Hp IH]; [done|].
  destruct path as [|j path].
  - cbn [show_components]. rewrite split_piece by apply no_slash.
    cbn [parse_components]. by rewrite parse_component_show.
  - cbn [show_components] in *. rewrite split_app by apply no_slash. cbn [parse_components].
    rewrite parse_component_show by done. mred. by rewrite IH.
Qed.

Lemma show_components_shape i path :
  exists c s d, show_components (i :: path) = c :: s /\
    last (show_components (i :: path)) = Some d /\ is_digit c = true /\
    is_whitespace d = false.
Proof.
  revert i. induction path as [|j path IH]; intros i;
    destruct (show_component_shape i) as (c & s & d & E & Hd & Hc & Hdd & _).
  - exists c, s, d. split_and!; auto. destruct Hdd as [H | ->]; [by apply digit_facts|done].
  - destruct (IH j) as (c' & s' & d' & E' & Hd' & _ & Hw').
    exists c, (s ++ 47%Z :: show_components (j :: path)), d'.
    change (show_components (i :: j :: path))
      with (show_component i ++ 47%Z :: show_components (j :: path)).
    split_and!; auto; [by rewrite E|].
    rewrite last_app_cons, last_cons. by rewrite Hd'.
Qed.

Lemma parse_components_range input raws path :
  parse_components input raws = Ret path -> Forall is_u32 path.
Proof.
  revert path. induction raws as [|raw raws IH]; intros path; cbn [parse_components].
  { intros [= <-]. constructor. }
  intros (i & Hi & H)%outcome_bind_inv. apply outcome_bind_inv in H as (out & Ho & [= <-]).
  constructor; [|by apply IH]. unfold parse_component in Hi.
  destruct (bool_decide (trim raw = [])); [done|].
  match type of Hi with
  | (let '(_, _) := ?m in _) = _ => destruct m as [digits hardened]
  end.
  apply outcome_bind_inv in Hi as (n & Hn & Hi).
  destruct (parse_u32 digits) as [n'|] eqn:Hpu; [|done]. cbn in Hn. injection Hn as <-.
  apply parse_u32_range in Hpu. destruct (Z.leb_spec HARDENED n') as [|Hlt]; [done|].
  injection Hi as <-. unfold is_u32, HARDENED in *. destruct hardened; [|done].
  apply (lxor_range 32 _ 0) in Hpu; [|lia..]. rewrite Z.lxor_0_r in Hpu.
  split; [apply Z.lor_nonneg; lia|]. change u32_mod with (2 ^ 32)%Z. apply bits_bound; [lia| |].
  - apply Z.lor_nonneg. lia.
  - intros k Hk. rewrite Z.lor_spec, (bits_above n' 32), (bits_above 0x80000000 32) by lia. done.
Qed.

(** Parsing ends with a path or an error on every text. *)
Lemma parse_path_total input :
  (exists path, parse_path input = Ret path) \/ exists e, parse_path input = Fail e.
Proof.
  assert (Hone : forall raw, (exists i, parse_component input raw = Ret i)
    \/ exists e, parse_component input raw = Fail e).
  { intros raw. unfold parse_component. cbv zeta.
    destruct (bool_decide _); [right; by eexists|].
    destruct (match strip_suffix 39 (trim raw) with Some d => (d, true) | None => _ end) as [d b].
    destruct (parse_u32 d) as [i|]; cbn [ok_or mbind outcome_bind]; [|right; by eexists].
    destruct (_ <=? _)%Z; [right|left]; by eexists. }
  assert (Hall : forall raws, (exists p, parse_components input raws = Ret p)
    \/ exists e, parse_components input raws = Fail e).
  { induction raws as [|raw raws IH]; cbn [parse_components]; [left; by eexists|].
    destruct (Hone raw) as [[i ->]|[e ->]]; [|right; by eexists].
    destruct IH as [[q ->]|[e ->]]; [left|right]; by eexists. }
  unfold parse_path. cbv zeta. destruct (_ || _); eauto.
Qed.

(** C34: A path of 32-bit indices, written with an apostrophe on the hardened
    ones, parses back to exactly those indices; and whatever text [parse_path]
    accepts, it returns 32-bit indices, so the parsed path can be written and
    parsed again. *)
Theorem bip32_roundtrip path input :
  Forall is_u32 path ->
  parse_path (show_path path) = Ret path /\
  (forall p, parse_path input = Ret p -> Forall is_u32 p /\ parse_path (show_path p) = Ret p).
Proof.
  assert (forall path, Forall is_u32 path -> parse_path (show_path path) = Ret path) as Hrt.
  { clear. intros [|i path] Hp; [done|].
    destruct (show_components_shape i path) as (c & s & d & E & Hd & Hc & Hw).
    unfold parse_path. assert (trim (show_path (i :: path)) = show_path (i :: path)) as ->.
    { apply trim_no_space; [done|]. unfold show_path. change (str "m/") with [109; 47]%Z.
      rewrite E in *. cbn [app]. by rewrite !last_cons_cons, Hd. }
    rewrite (strip_prefix_app (str "m/") (show_components (i :: path))
      : strip_prefix (str "m/") (show_path (i :: path)) = _). cbv zeta.
    destruct (digit_facts c Hc) as (_ & _ & _ & _ & _ & H1 & H2).
    rewrite !bool_decide_false; [by apply parse_components_show|..];
      rewrite E; try done; intros [= -> _]; done. }
  intros Hp. split; [by apply Hrt|]. intros p H. assert (Forall is_u32 p) as Hr.
  { revert H. unfold parse_path. destruct (_ || _); [intros [= <-]; constructor|].
    apply parse_components_range. }
  split; [done|]. by apply Hrt.
Qed.

Lemma bip32_roundtrip_witness :
  parse_path (show_path [0x8000002C; 0x8000003C; 0x80000000; 0; 0]%Z)
  = Ret [0x8000002C; 0x8000003C; 0x80000000; 0; 0]%Z.
Proof.
  refine (proj1 (bip32_roundtrip [0x8000002C; 0x8000003C; 0x80000000; 0; 0]%Z [] _)).
  repeat (apply Forall_cons; split; [unfold is_u32, u32_mod; lia|]). constructor.
Defined.
