(* ===== verification/ChainProto.v ===== *)
(** * Messages of the chain applications

    The messages of messages-ethereum.proto, messages-solana.proto,
    messages-tron.proto and messages-bitcoin.proto that the chain modules build
    or read, each with the fields the code sets or reads (the generated structs
    leave the others at their default); the Bitcoin [TxAck*] wrappers, which hold
    one field, are identified with it. The codec of each chain is a class, as in
    Proto.v, with a concrete instance. *)

From stdpp Require Import countable.
From S2P Require Import Prelude Types Proto.

(** ** messages-ethereum.proto *)
Record EthereumGetAddress : Type := {
  ega_address_n : list Z;
  ega_show_display : option bool;
}.
Record EthereumAddress : Type := {
  ea_address : option rstring;
}.
Record EthereumGetPublicKey : Type := {
  egp_address_n : list Z;
  egp_show_display : option bool;
}.
Record EthereumPublicKey : Type := {
  ep_node : HDNodeType;
}.
Record EthereumSignMessage : Type := {
  esm_address_n : list Z;
  esm_message : list Z;
}.
Record EthereumMessageSignature : Type := {
  ems_signature : list Z;
}.
Record EthereumAccessList : Type := {
  eal_address : rstring;
  eal_storage_keys : list (list Z);
}.
Record EthereumSignTxEip1559 : Type := {
  est_address_n : list Z;
  est_nonce : list Z;
  est_max_gas_fee : list Z;
  est_max_priority_fee : list Z;
  est_gas_limit : list Z;
  est_to : option rstring;
  est_value : list Z;
  est_data_initial_chunk : option (list Z);
  est_data_length : Z;
  est_chain_id : Z;
  est_access_list : list EthereumAccessList;
}.
Record EthereumTxRequest : Type := {
  etr_data_length : option Z;
  etr_signature_v : option Z;
  etr_signature_r : option (list Z);
  etr_signature_s : option (list Z);
}.

Class EthereumProto : Type := {
  #[global] pm_ega :: ProtoMessage EthereumGetAddress;
  #[global] pm_ea :: ProtoMessage EthereumAddress;
  #[global] pm_egp :: ProtoMessage EthereumGetPublicKey;
  #[global] pm_ep :: ProtoMessage EthereumPublicKey;
  #[global] pm_esm :: ProtoMessage EthereumSignMessage;
  #[global] pm_ems :: ProtoMessage EthereumMessageSignature;
  #[global] pm_est :: ProtoMessage EthereumSignTxEip1559;
  #[global] pm_etr :: ProtoMessage EthereumTxRequest;
}.

Class EthereumProtoLaws `{EthereumProto} : Prop := {
  #[global] ml_ega :: MessageLaws EthereumGetAddress;
  #[global] ml_ea :: MessageLaws EthereumAddress;
  #[global] ml_egp :: MessageLaws EthereumGetPublicKey;
  #[global] ml_ep :: MessageLaws EthereumPublicKey;
  #[global] ml_esm :: MessageLaws EthereumSignMessage;
  #[global] ml_ems :: MessageLaws EthereumMessageSignature;
  #[global] ml_est :: MessageLaws EthereumSignTxEip1559;
  #[global] ml_etr :: MessageLaws EthereumTxRequest;
}.

(** ** messages-solana.proto *)
Record SolanaGetAddress : Type := {
  sga_address_n : list Z;
  sga_show_display : option bool;
}.
Record SolanaAddress : Type := {
  sa_address : rstring;
}.
Record SolanaSignTx : Type := {
  sst_address_n : list Z;
  sst_serialized_tx : list Z;
}.
Record SolanaTxSignature : Type := {
  sts_signature : list Z;
}.
Record SolanaSignMessage : Type := {
  ssm_address_n : list Z;
  ssm_message : list Z;
}.
Record SolanaMessageSignature : Type := {
  sms_signature : list Z;
}.

Class SolanaProto : Type := {
  #[global] pm_sga :: ProtoMessage SolanaGetAddress;
  #[global] pm_sa :: ProtoMessage SolanaAddress;
  #[global] pm_sst :: ProtoMessage SolanaSignTx;
  #[global] pm_sts :: ProtoMessage SolanaTxSignature;
  #[global] pm_ssm :: ProtoMessage SolanaSignMessage;
  #[global] pm_sms :: ProtoMessage SolanaMessageSignature;
}.

Class SolanaProtoLaws `{SolanaProto} : Prop := {
  #[global] ml_sga :: MessageLaws SolanaGetAddress;
  #[global] ml_sa :: MessageLaws SolanaAddress;
  #[global] ml_sst :: MessageLaws SolanaSignTx;
  #[global] ml_sts :: MessageLaws SolanaTxSignature;
  #[global] ml_ssm :: MessageLaws SolanaSignMessage;
  #[global] ml_sms :: MessageLaws SolanaMessageSignature;
}.

(** ** messages-tron.proto *)
Record TronRawContract : Type := {
  trc_type : Z;
  trc_type_url : rstring;
  trc_value : list Z;
}.
Record TronGetAddress : Type := {
  tga_address_n : list Z;
  tga_show_display : option bool;
}.
Record TronAddress : Type := {
  ta_address : rstring;
}.
Record TronRawTransaction : Type := {
  trt_ref_block_bytes : list Z;
  trt_ref_block_hash : list Z;
  trt_expiration : Z;
  trt_data : option (list Z);
  trt_contract : list TronRawContract;
  trt_timestamp : Z;
  trt_fee_limit : option Z;
}.
Record TronSignTx : Type := {
  tst_address_n : list Z;
  tst_ref_block_bytes : list Z;
  tst_ref_block_hash : list Z;
  tst_expiration : Z;
  tst_data : option (list Z);
  tst_timestamp : Z;
  tst_fee_limit : option Z;
}.
Record TronSignature : Type := {
  ts_signature : list Z;
}.
Record TronTransferContract : Type := {
  ttc_owner_address : list Z;
  ttc_to_address : list Z;
  ttc_amount : Z;
}.
Record TronTriggerSmartContract : Type := {
  ttsc_owner_address : list Z;
  ttsc_contract_address : list Z;
  ttsc_data : list Z;
}.

Class TronProto : Type := {
  #[global] pm_tga :: ProtoMessage TronGetAddress;
  #[global] pm_ta :: ProtoMessage TronAddress;
  #[global] pm_trt :: ProtoMessage TronRawTransaction;
  #[global] pm_tst :: ProtoMessage TronSignTx;
  #[global] pm_ts :: ProtoMessage TronSignature;
  #[global] pm_ttc :: ProtoMessage TronTransferContract;
  #[global] pm_ttsc :: ProtoMessage TronTriggerSmartContract;
}.

Class TronProtoLaws `{TronProto} : Prop := {
  #[global] ml_tga :: MessageLaws TronGetAddress;
  #[global] ml_ta :: MessageLaws TronAddress;
  #[global] ml_trt :: MessageLaws TronRawTransaction;
  #[global] ml_tst :: MessageLaws TronSignTx;
  #[global] ml_ts :: MessageLaws TronSignature;
  #[global] ml_ttc :: MessageLaws TronTransferContract;
  #[global] ml_ttsc :: MessageLaws TronTriggerSmartContract;
}.

(** ** messages-bitcoin.proto *)
Record TxRequestDetails : Type := {
  trd_request_index : option Z;
  trd_tx_hash : option (list Z);
}.
Record TxRequestSerialized : Type := {
  trs_signature_index : option Z;
  trs_signature : option (list Z);
}.
Record GetPublicKey : Type := {
  gpk_address_n : list Z;
  gpk_show_display : option bool;
  gpk_coin_name : option rstring;
  gpk_script_type : option Z;
  gpk_ignore_xpub_magic : option bool;
}.
Record PublicKey : Type := {
  pk_xpub : rstring;
  pk_root_fingerprint : option Z;
}.
Record SignMessage : Type := {
  sm_address_n : list Z;
  sm_message : list Z;
  sm_coin_name : option rstring;
  sm_script_type : option Z;
}.
Record MessageSignature : Type := {
  mss_address : rstring;
  mss_signature : list Z;
}.
Record SignTx : Type := {
  stx_outputs_count : Z;
  stx_inputs_count : Z;
  stx_coin_name : option rstring;
  stx_version : option Z;
  stx_lock_time : option Z;
  stx_serialize : option bool;
}.
Record TxRequest : Type := {
  txr_request_type : option Z;
  txr_details : option TxRequestDetails;
  txr_serialized : option TxRequestSerialized;
}.
Record TxAckInput : Type := {
  tai_address_n : list Z;
  tai_prev_hash : list Z;
  tai_prev_index : Z;
  tai_sequence : option Z;
  tai_script_type : option Z;
  tai_amount : Z;
}.
Record TxAckOutput : Type := {
  tao_address : option rstring;
  tao_address_n : list Z;
  tao_amount : Z;
  tao_script_type : option Z;
}.
Record TxAckPrevMeta : Type := {
  tapm_version : Z;
  tapm_lock_time : Z;
  tapm_inputs_count : Z;
  tapm_outputs_count : Z;
}.
Record TxAckPrevInput : Type := {
  tapi_prev_hash : list Z;
  tapi_prev_index : Z;
  tapi_script_sig : list Z;
  tapi_sequence : Z;
}.
Record TxAckPrevOutput : Type := {
  tapo_amount : Z;
  tapo_script_pubkey : list Z;
}.

Class BitcoinProto : Type := {
  #[global] pm_gpk :: ProtoMessage GetPublicKey;
  #[global] pm_pk :: ProtoMessage PublicKey;
  #[global] pm_sm :: ProtoMessage SignMessage;
  #[global] pm_mss :: ProtoMessage MessageSignature;
  #[global] pm_stx :: ProtoMessage SignTx;
  #[global] pm_txr :: ProtoMessage TxRequest;
  #[global] pm_tai :: ProtoMessage TxAckInput;
  #[global] pm_tao :: ProtoMessage TxAckOutput;
  #[global] pm_tapm :: ProtoMessage TxAckPrevMeta;
  #[global] pm_tapi :: ProtoMessage TxAckPrevInput;
  #[global] pm_tapo :: ProtoMessage TxAckPrevOutput;
}.

Class BitcoinProtoLaws `{BitcoinProto} : Prop := {
  #[global] ml_gpk :: MessageLaws GetPublicKey;
  #[global] ml_pk :: MessageLaws PublicKey;
  #[global] ml_sm :: MessageLaws SignMessage;
  #[global] ml_mss :: MessageLaws MessageSignature;
  #[global] ml_stx :: MessageLaws SignTx;
  #[global] ml_txr :: MessageLaws TxRequest;
  #[global] ml_tai :: MessageLaws TxAckInput;
  #[global] ml_tao :: MessageLaws TxAckOutput;
  #[global] ml_tapm :: MessageLaws TxAckPrevMeta;
  #[global] ml_tapi :: MessageLaws TxAckPrevInput;
  #[global] ml_tapo :: MessageLaws TxAckPrevOutput;
}.

(** ** Concrete codecs *)
Section Toy.
#[local] Instance HDNodeType_eq_dec : EqDecision HDNodeType.
Proof. solve_decision. Defined.
#[local] Instance HDNodeType_countable : Countable HDNodeType.
Proof.
  refine (inj_countable'
    (fun m => node_public_key m)
    (fun a => Build_HDNodeType a) _). by intros [].
Defined.

#[local] Instance EthereumGetAddress_eq_dec : EqDecision EthereumGetAddress.
Proof. solve_decision. Defined.
#[local] Instance EthereumGetAddress_countable : Countable EthereumGetAddress.
Proof.
  refine (inj_countable'
    (fun m => (ega_address_n m, ega_show_display m))
    (fun '(a, b) => Build_EthereumGetAddress a b) _). by intros [].
Defined.

#[local] Instance EthereumAddress_eq_dec : EqDecision EthereumAddress.
Proof. solve_decision. Defined.
#[local] Instance EthereumAddress_countable : Countable EthereumAddress.
Proof.
  refine (inj_countable'
    (fun m => ea_address m)
    (fun a => Build_EthereumAddress a) _). by intros [].
Defined.

#[local] Instance EthereumGetPublicKey_eq_dec : EqDecision EthereumGetPublicKey.
Proof. solve_decision. Defined.
#[local] Instance EthereumGetPublicKey_countable : Countable EthereumGetPublicKey.
Proof.
  refine (inj_countable'
    (fun m => (egp_address_n m, egp_show_display m))
    (fun '(a, b) => Build_EthereumGetPublicKey a b) _). by intros [].
Defined.

#[local] Instance EthereumPublicKey_eq_dec : EqDecision EthereumPublicKey.
Proof. solve_decision. Defined.
#[local] Instance EthereumPublicKey_countable : Countable EthereumPublicKey.
Proof.
  refine (inj_countable'
    (fun m => ep_node m)
    (fun a => Build_EthereumPublicKey a) _). by intros [].
Defined.

#[local] Instance EthereumSignMessage_eq_dec : EqDecision EthereumSignMessage.
Proof. solve_decision. Defined.
#[local] Instance EthereumSignMessage_countable : Countable EthereumSignMessage.
Proof.
  refine (inj_countable'
    (fun m => (esm_address_n m, esm_message m))
    (fun '(a, b) => Build_EthereumSignMessage a b) _). by intros [].
Defined.

#[local] Instance EthereumMessageSignature_eq_dec : EqDecision EthereumMessageSignature.
Proof. solve_decision. Defined.
#[local] Instance EthereumMessageSignature_countable : Countable EthereumMessageSignature.
Proof.
  refine (inj_countable'
    (fun m => ems_signature m)
    (fun a => Build_EthereumMessageSignature a) _). by intros [].
Defined.

#[local] Instance EthereumAccessList_eq_dec : EqDecision EthereumAccessList.
Proof. solve_decision. Defined.
#[local] Instance EthereumAccessList_countable : Countable EthereumAccessList.
Proof.
  refine (inj_countable'
    (fun m => (eal_address m, eal_storage_keys m))
    (fun '(a, b) => Build_EthereumAccessList a b) _). by intros [].
Defined.

#[local] Instance EthereumSignTxEip1559_eq_dec : EqDecision EthereumSignTxEip1559.
Proof. solve_decision. Defined.
#[local] Instance EthereumSignTxEip1559_countable : Countable EthereumSignTxEip1559.
Proof.
  refine (inj_countable'
    (fun m => (est_address_n m, est_nonce m, est_max_gas_fee m, est_max_priority_fee m,
               est_gas_limit m, est_to m, est_value m, est_data_initial_chunk m,
               est_data_length m, est_chain_id m, est_access_list m))
    (fun '(a, b, c, d, e, f, g, h, i, j, k) =>
       Build_EthereumSignTxEip1559 a b c d e f g h i j k) _). by intros [].
Defined.

#[local] Instance EthereumTxRequest_eq_dec : EqDecision EthereumTxRequest.
Proof. solve_decision. Defined.
#[local] Instance EthereumTxRequest_countable : Countable EthereumTxRequest.
Proof.
  refine (inj_countable'
    (fun m => (etr_data_length m, etr_signature_v m, etr_signature_r m, etr_signature_s m))
    (fun '(a, b, c, d) => Build_EthereumTxRequest a b c d) _). by intros [].
Defined.

Definition toy_ethereum_proto : EthereumProto.
Proof. constructor; exact (toy_message _). Defined.

Lemma toy_ethereum_proto_laws : @EthereumProtoLaws toy_ethereum_proto.
Proof. constructor; exact (toy_message_laws _). Qed.

#[local] Instance SolanaGetAddress_eq_dec : EqDecision SolanaGetAddress.
Proof. solve_decision. Defined.
#[local] Instance SolanaGetAddress_countable : Countable SolanaGetAddress.
Proof.
  refine (inj_countable'
    (fun m => (sga_address_n m, sga_show_display m))
    (fun '(a, b) => Build_SolanaGetAddress a b) _). by intros [].
Defined.

#[local] Instance SolanaAddress_eq_dec : EqDecision SolanaAddress.
Proof. solve_decision. Defined.
#[local] Instance SolanaAddress_countable : Countable SolanaAddress.
Proof.
  refine (inj_countable'
    (fun m => sa_address m)
    (fun a => Build_SolanaAddress a) _). by intros [].
Defined.

#[local] Instance SolanaSignTx_eq_dec : EqDecision SolanaSignTx.
Proof. solve_decision. Defined.
#[local] Instance SolanaSignTx_countable : Countable SolanaSignTx.
Proof.
  refine (inj_countable'
    (fun m => (sst_address_n m, sst_serialized_tx m))
    (fun '(a, b) => Build_SolanaSignTx a b) _). by intros [].
Defined.

#[local] Instance SolanaTxSignature_eq_dec : EqDecision SolanaTxSignature.
Proof. solve_decision. Defined.
#[local] Instance SolanaTxSignature_countable : Countable SolanaTxSignature.
Proof.
  refine (inj_countable'
    (fun m => sts_signature m)
    (fun a => Build_SolanaTxSignature a) _). by intros [].
Defined.

#[local] Instance SolanaSignMessage_eq_dec : EqDecision SolanaSignMessage.
Proof. solve_decision. Defined.
#[local] Instance SolanaSignMessage_countable : Countable SolanaSignMessage.
Proof.
  refine (inj_countable'
    (fun m => (ssm_address_n m, ssm_message m))
    (fun '(a, b) => Build_SolanaSignMessage a b) _). by intros [].
Defined.

#[local] Instance SolanaMessageSignature_eq_dec : EqDecision SolanaMessageSignature.
Proof. solve_decision. Defined.
#[local] Instance SolanaMessageSignature_countable : Countable SolanaMessageSignature.
Proof.
  refine (inj_countable'
    (fun m => sms_signature m)
    (fun a => Build_SolanaMessageSignature a) _). by intros [].
Defined.

Definition toy_solana_proto : SolanaProto.
Proof. constructor; exact (toy_message _). Defined.

Lemma toy_solana_proto_laws : @SolanaProtoLaws toy_solana_proto.
Proof. constructor; exact (toy_message_laws _). Qed.

#[local] Instance TronRawContract_eq_dec : EqDecision TronRawContract.
Proof. solve_decision. Defined.
#[local] Instance TronRawContract_countable : Countable TronRawContract.
Proof.
  refine (inj_countable'
    (fun m => (trc_type m, trc_type_url m, trc_value m))
    (fun '(a, b, c) => Build_TronRawContract a b c) _). by intros [].
Defined.

#[local] Instance TronGetAddress_eq_dec : EqDecision TronGetAddress.
Proof. solve_decision. Defined.
#[local] Instance TronGetAddress_countable : Countable TronGetAddress.
Proof.
  refine (inj_countable'
    (fun m => (tga_address_n m, tga_show_display m))
    (fun '(a, b) => Build_TronGetAddress a b) _). by intros [].
Defined.

#[local] Instance TronAddress_eq_dec : EqDecision TronAddress.
Proof. solve_decision. Defined.
#[local] Instance TronAddress_countable : Countable TronAddress.
Proof.
  refine (inj_countable'
    (fun m => ta_address m)
    (fun a => Build_TronAddress a) _). by intros [].
Defined.

#[local] Instance TronRawTransaction_eq_dec : EqDecision TronRawTransaction.
Proof. solve_decision. Defined.
#[local] Instance TronRawTransaction_countable : Countable TronRawTransaction.
Proof.
  refine (inj_countable'
    (fun m => (trt_ref_block_bytes m, trt_ref_block_hash m, trt_expiration m, trt_data m, trt_contract m, trt_timestamp m, trt_fee_limit m))
    (fun '(a, b, c, d, e, f, g) => Build_TronRawTransaction a b c d e f g) _). by intros [].
Defined.

#[local] Instance TronSignTx_eq_dec : EqDecision TronSignTx.
Proof. solve_decision. Defined.
#[local] Instance TronSignTx_countable : Countable TronSignTx.
Proof.
  refine (inj_countable'
    (fun m => (tst_address_n m, tst_ref_block_bytes m, tst_ref_block_hash m, tst_expiration m, tst_data m, tst_timestamp m, tst_fee_limit m))
    (fun '(a, b, c, d, e, f, g) => Build_TronSignTx a b c d e f g) _). by intros [].
Defined.

#[local] Instance TronSignature_eq_dec : EqDecision TronSignature.
Proof. solve_decision. Defined.
#[local] Instance TronSignature_countable : Countable TronSignature.
Proof.
  refine (inj_countable'
    (fun m => ts_signature m)
    (fun a => Build_TronSignature a) _). by intros [].
Defined.

#[local] Instance TronTransferContract_eq_dec : EqDecision TronTransferContract.
Proof. solve_decision. Defined.
#[local] Instance TronTransferContract_countable : Countable TronTransferContract.
Proof.
  refine (inj_countable'
    (fun m => (ttc_owner_address m, ttc_to_address m, ttc_amount m))
    (fun '(a, b, c) => Build_TronTransferContract a b c) _). by intros [].
Defined.

#[local] Instance TronTriggerSmartContract_eq_dec : EqDecision TronTriggerSmartContract.
Proof. solve_decision. Defined.
#[local] Instance TronTriggerSmartContract_countable : Countable TronTriggerSmartContract.
Proof.
  refine (inj_countable'
    (fun m => (ttsc_owner_address m, ttsc_contract_address m, ttsc_data m))
    (fun '(a, b, c) => Build_TronTriggerSmartContract a b c) _). by intros [].
Defined.

Definition toy_tron_proto : TronProto.
Proof. constructor; exact (toy_message _). Defined.

Lemma toy_tron_proto_laws : @TronProtoLaws toy_tron_proto.
Proof. constructor; exact (toy_message_laws _). Qed.

#[local] Instance TxRequestDetails_eq_dec : EqDecision TxRequestDetails.
Proof. solve_decision. Defined.
#[local] Instance TxRequestDetails_countable : Countable TxRequestDetails.
Proof.
  refine (inj_countable'
    (fun m => (trd_request_index m, trd_tx_hash m))
    (fun '(a, b) => Build_TxRequestDetails a b) _). by intros [].
Defined.

#[local] Instance TxRequestSerialized_eq_dec : EqDecision TxRequestSerialized.
Proof. solve_decision. Defined.
#[local] Instance TxRequestSerialized_countable : Countable TxRequestSerialized.
Proof.
  refine (inj_countable'
    (fun m => (trs_signature_index m, trs_signature m))
    (fun '(a, b) => Build_TxRequestSerialized a b) _). by intros [].
Defined.

#[local] Instance GetPublicKey_eq_dec : EqDecision GetPublicKey.
Proof. solve_decision. Defined.
#[local] Instance GetPublicKey_countable : Countable GetPublicKey.
Proof.
  refine (inj_countable'
    (fun m => (gpk_address_n m, gpk_show_display m, gpk_coin_name m, gpk_script_type m, gpk_ignore_xpub_magic m))
    (fun '(a, b, c, d, e) => Build_GetPublicKey a b c d e) _). by intros [].
Defined.

#[local] Instance PublicKey_eq_dec : EqDecision PublicKey.
Proof. solve_decision. Defined.
#[local] Instance PublicKey_countable : Countable PublicKey.
Proof.
  refine (inj_countable'
    (fun m => (pk_xpub m, pk_root_fingerprint m))
    (fun '(a, b) => Build_PublicKey a b) _). by intros [].
Defined.

#[local] Instance SignMessage_eq_dec : EqDecision SignMessage.
Proof. solve_decision. Defined.
#[local] Instance SignMessage_countable : Countable SignMessage.
Proof.
  refine (inj_countable'
    (fun m => (sm_address_n m, sm_message m, sm_coin_name m, sm_script_type m))
    (fun '(a, b, c, d) => Build_SignMessage a b c d) _). by intros [].
Defined.

#[local] Instance MessageSignature_eq_dec : EqDecision MessageSignature.
Proof. solve_decision. Defined.
#[local] Instance MessageSignature_countable : Countable MessageSignature.
Proof.
  refine (inj_countable'
    (fun m => (mss_address m, mss_signature m))
    (fun '(a, b) => Build_MessageSignature a b) _). by intros [].
Defined.

#[local] Instance SignTx_eq_dec : EqDecision SignTx.
Proof. solve_decision. Defined.
#[local] Instance SignTx_countable : Countable SignTx.
Proof.
  refine (inj_countable'
    (fun m => (stx_outputs_count m, stx_inputs_count m, stx_coin_name m, stx_version m, stx_lock_time m, stx_serialize m))
    (fun '(a, b, c, d, e, f) => Build_SignTx a b c d e f) _). by intros [].
Defined.

#[local] Instance TxRequest_eq_dec : EqDecision TxRequest.
Proof. solve_decision. Defined.
#[local] Instance TxRequest_countable : Countable TxRequest.
Proof.
  refine (inj_countable'
    (fun m => (txr_request_type m, txr_details m, txr_serialized m))
    (fun '(a, b, c) => Build_TxRequest a b c) _). by intros [].
Defined.

#[local] Instance TxAckInput_eq_dec : EqDecision TxAckInput.
Proof. solve_decision. Defined.
#[local] Instance TxAckInput_countable : Countable TxAckInput.
Proof.
  refine (inj_countable'
    (fun m => (tai_address_n m, tai_prev_hash m, tai_prev_index m, tai_sequence m, tai_script_type m, tai_amount m))
    (fun '(a, b, c, d, e, f) => Build_TxAckInput a b c d e f) _). by intros [].
Defined.

#[local] Instance TxAckOutput_eq_dec : EqDecision TxAckOutput.
Proof. solve_decision. Defined.
#[local] Instance TxAckOutput_countable : Countable TxAckOutput.
Proof.
  refine (inj_countable'
    (fun m => (tao_address m, tao_address_n m, tao_amount m, tao_script_type m))
    (fun '(a, b, c, d) => Build_TxAckOutput a b c d) _). by intros [].
Defined.

#[local] Instance TxAckPrevMeta_eq_dec : EqDecision TxAckPrevMeta.
Proof. solve_decision. Defined.
#[local] Instance TxAckPrevMeta_countable : Countable TxAckPrevMeta.
Proof.
  refine (inj_countable'
    (fun m => (tapm_version m, tapm_lock_time m, tapm_inputs_count m, tapm_outputs_count m))
    (fun '(a, b, c, d) => Build_TxAckPrevMeta a b c d) _). by intros [].
Defined.

#[local] Instance TxAckPrevInput_eq_dec : EqDecision TxAckPrevInput.
Proof. solve_decision. Defined.
#[local] Instance TxAckPrevInput_countable : Countable TxAckPrevInput.
Proof.
  refine (inj_countable'
    (fun m => (tapi_prev_hash m, tapi_prev_index m, tapi_script_sig m, tapi_sequence m))
    (fun '(a, b, c, d) => Build_TxAckPrevInput a b c d) _). by intros [].
Defined.

#[local] Instance TxAckPrevOutput_eq_dec : EqDecision TxAckPrevOutput.
Proof. solve_decision. Defined.
#[local] Instance TxAckPrevOutput_countable : Countable TxAckPrevOutput.
Proof.
  refine (inj_countable'
    (fun m => (tapo_amount m, tapo_script_pubkey m))
    (fun '(a, b) => Build_TxAckPrevOutput a b) _). by intros [].
Defined.

Definition toy_bitcoin_proto : BitcoinProto.
Proof. constructor; exact (toy_message _). Defined.

Lemma toy_bitcoin_proto_laws : @BitcoinProtoLaws toy_bitcoin_proto.
Proof. constructor; exact (toy_message_laws _). Qed.
End Toy.
