(* ===== verification/Host.v ===== *)
(** * The interface the chain modules are written against

    The pairing and chain modules use a connection only through [transceive] and
    [transceive_on], the random number generator and the code provider: the class
    [Host]. [driver] implements it with the connection driver; [scripted_host]
    is a device given by its answers, which records every request, so that a
    theorem about it states what a module asks and what it makes of the
    answers. *)

From S2P Require Import Prelude Types Env Crypto Proto Framing Channel Session Noise Connection.

Class Host (S : Type) : Type := {
  (** [conn.transceive(message_type, protobuf)] *)
  h_transceive : Z -> list Z -> ST S TrezorError (Z * list Z);
  (** [conn.transceive_on(session_id, message_type, protobuf)] *)
  h_transceive_on : Z -> Z -> list Z -> ST S TrezorError (Z * list Z);
  h_random : nat -> ST S TrezorError (list Z);
  h_code : ST S TrezorError rstring;
}.

(** The driver, with the fuel its loops get. *)
Definition driver {CR : Crypto} {PM : ThpProto} {W : Type} `{!Env W} (fuel : nat)
    : Host (Connection * W) :=
  {| h_transceive := transceive fuel;
     h_transceive_on := transceive_on fuel;
     h_random n := on_env (random_bytes n);
     h_code := on_env env_code |}.

(** ** A device given by its answers *)
Record Answers : Type := {
  (** what each [transceive] returns: a driver error, or a message *)
  an_replies : list (TrezorError + Z * list Z);
  (** the bytes the generator will yield *)
  an_entropy : list Z;
  (** what the user will type, one string per prompt *)
  an_codes : list rstring;
  (** session id where the request names one, message type, body *)
  an_log : list (option Z * Z * list Z);
}.

Definition answer (sid : option Z) (mt : Z) (body : list Z)
    : ST Answers TrezorError (Z * list Z) := fun s =>
  let log := an_log s ++ [(sid, mt, body)] in
  match an_replies s with
  | [] => (Pending, {| an_replies := []; an_entropy := an_entropy s; an_codes := an_codes s;
                       an_log := log |})
  | r :: rest =>
    ((match r with inl e => Fail e | inr m => Ret m end),
     {| an_replies := rest; an_entropy := an_entropy s; an_codes := an_codes s; an_log := log |})
  end.

Definition answer_random (n : nat) : ST Answers TrezorError (list Z) := fun s =>
  if n <=? length (an_entropy s) then
    (Ret (take n (an_entropy s)),
     {| an_replies := an_replies s; an_entropy := drop n (an_entropy s);
        an_codes := an_codes s; an_log := an_log s |})
  else (Panic, s).

Definition answer_code : ST Answers TrezorError rstring := fun s =>
  match an_codes s with
  | [] => (Ret [], s)
  | code :: rest =>
    (Ret code, {| an_replies := an_replies s; an_entropy := an_entropy s; an_codes := rest;
                  an_log := an_log s |})
  end.

#[export] Instance scripted_host : Host Answers := {|
  h_transceive := answer None;
  h_transceive_on sid := answer (Some sid);
  h_random := answer_random;
  h_code := answer_code;
|}.

(** The device after a request. *)
Definition asked (sid : option Z) (mt : Z) (body : list Z)
    (rest : list (TrezorError + Z * list Z)) (s : Answers) : Answers :=
  {| an_replies := rest; an_entropy := an_entropy s; an_codes := an_codes s;
     an_log := an_log s ++ [(sid, mt, body)] |}.

Lemma answer_reply sid mt body s m rest :
  an_replies s = inr m :: rest -> answer sid mt body s = (Ret m, asked sid mt body rest s).
Proof. intros Hr. unfold answer. by rewrite Hr. Qed.

Lemma answer_error sid mt body s e rest :
  an_replies s = inl e :: rest -> answer sid mt body s = (Fail e, asked sid mt body rest s).
Proof. intros Hr. unfold answer. by rewrite Hr. Qed.

(** ** Errors of a typed request

    Every chain request checks the type of the reply and decodes it, with the
    same wording. *)
Definition wrong_type (what : string) (expected actual : Z) : TrezorError :=
  thp (str "expected " ++ str what ++ str " (" ++ dec expected ++ str "), got message type "
       ++ dec actual).

Definition decode_failed (what : string) (e : rstring) : TrezorError :=
  thp (str what ++ str " decode: " ++ e).
