(* ===== verification/HostSim.v ===== *)
(** * The host interface over packets

    The pairing and chain modules are written against [Host] and their theorems
    are about a device given by its answers (Host.v). This file states what it
    means for another host to implement that specification and proves that the
    connection driver does: every request of a run on answers is one exchange of
    sealed frames, the outcome is the same, and what is on the wire is exactly
    the requests of the log. *)

From S2P Require Import Prelude Types Env Crypto Proto Framing Channel Session Noise Connection.
From S2P Require Import ConnectionSafe ConnectionAbp ConnectionExchange Host.

(** ** Simulation of a run on answers *)
Section Simulation.
Context {S : Type} (R : Answers -> S -> Prop) (fits_ask : option Z * Z * list Z -> Prop).

(** A run on answers ends in [o] and [a]; the run simulating it ends in the same
    outcome and a related state, or waits for ever with it. *)
Definition simulated {A} (r1 : outcome TrezorError A * Answers)
    (r2 : outcome TrezorError A * S) : Prop :=
  match r1.1 with
  | Pending => r2.1 = Pending
  | o => r2.1 = o /\ R r1.2 r2.2
  end.

(** Requests are only added to the log; and from related states, provided that all
    the requests of the run fit a transport payload, the runs correspond. *)
Definition sim {A} (m1 : ST Answers TrezorError A) (m2 : ST S TrezorError A) : Prop :=
  forall a, an_log a `prefix_of` an_log (m1 a).2
    /\ forall s, R a s -> Forall fits_ask (an_log (m1 a).2) -> simulated (m1 a) (m2 s).

Lemma sim_lift {A} (o : outcome TrezorError A) : sim (lift o) (lift o).
Proof. intros a. split; [done|]. intros s HR _. by destruct o. Qed.

Lemma sim_ret {A} (x : A) : sim (mret x) (mret x).
Proof. intros a. by split. Qed.

Lemma sim_throw {A} e : sim (A := A) (throw e) (throw e).
Proof. apply sim_lift. Qed.

Lemma sim_bind {A B} m1 m2 (f1 : A -> ST Answers TrezorError B) f2 :
  sim m1 m2 -> (forall x, sim (f1 x) (f2 x)) -> sim (m1 ≫= f1) (m2 ≫= f2).
Proof.
  intros Hm Hf a. destruct (Hm a) as [Hlog Hrun]. unfold mbind, st_bind in *.
  destruct (m1 a) as [[x|e| | |] a1] eqn:E1; cbn [fst snd] in *; split; try done.
  2: intros s HR Hfit.
  3-6: intros s HR Hfit; specialize (Hrun s HR Hfit); unfold simulated in *;
    destruct (m2 s) as [[] ?]; cbn [fst snd] in *; intuition congruence.
  - etrans; [exact Hlog|]. exact (proj1 (Hf x a1)).
  - pose proof (Hf x a1) as [Hlog1 Hrun1].
    assert (Hfit1 : Forall fits_ask (an_log a1))
      by (destruct Hlog1 as [l Hl]; rewrite Hl in Hfit; by apply Forall_app in Hfit as [? _]).
    specialize (Hrun s HR Hfit1). unfold simulated in Hrun. cbn [fst snd] in Hrun.
    destruct (m2 s) as [o2 s1]. cbn [fst snd] in Hrun. destruct Hrun as [-> HR1].
    by apply Hrun1.
Qed.

Lemma sim_if {A} (b : bool) (m1 m1' : ST Answers TrezorError A) m2 m2' :
  sim m1 m2 -> sim m1' m2' -> sim (if b then m1 else m1') (if b then m2 else m2').
Proof. by destruct b. Qed.
End Simulation.

(** A host implements the answers specification through [R]. *)
Class HostSim {S} (HS : Host S) (R : Answers -> S -> Prop)
    (fits_ask : option Z * Z * list Z -> Prop) : Prop := {
  sim_transceive mt body : sim R fits_ask (h_transceive mt body) (h_transceive mt body);
  sim_transceive_on sid mt body :
    sim R fits_ask (h_transceive_on sid mt body) (h_transceive_on sid mt body);
  sim_random n : sim R fits_ask (h_random n) (h_random n);
  sim_code : sim R fits_ask h_code h_code;
}.

Create HintDb sim.
#[export] Hint Resolve sim_lift sim_ret sim_throw sim_transceive sim_transceive_on sim_random
  sim_code : sim.

(** Structural proof of a simulation: both programs are the same code. *)
Ltac sim_step :=
  first
    [ solve [eauto with sim]
    | apply sim_bind; [|intros ?]
    | apply sim_if
    | match goal with |- sim _ _ (match ?x with _ => _ end) _ => destruct x end ].

(** ** The driver serves the answers of a device *)
Section Served.
Context {CR : Crypto} {CL : CryptoLaws} {PM : ThpProto}.
(** The packet size, channel id and session id the device uses, and the bound on
    the packets of one blocking read. *)
Context (ps : nat) (Hps : INIT_HEADER < ps) (dcid sid : Z) (Hdcid : (0 <= dcid < u16_mod)%Z)
  (Hsid : is_byte sid) (fuel : nat) (Hfuel : 0 < fuel).
(** An empty message has a short encoding. *)
Context (Hack : fits (encode_to_vec mkButtonAck)).
(** The log, the packets written and the connection the run starts from. *)
Context (log0 : list (option Z * Z * list Z)) (out0 : list (list Z)) (c0 : Connection).

(** What the device sends for one request: button requests, then a message. *)
Definition turn : Type := list (Z * list Z) * (Z * list Z).
Definition turn_messages (t : turn) : list (Z * list Z) := t.1 ++ [t.2].

(** The turn amounts to the answer [r]. *)
Definition turn_ok (t : turn) (r : TrezorError + Z * list Z) : Prop :=
  Forall button_request t.1 /\ Forall (fun m => fits m.2) (turn_messages t)
  /\ (0 <= t.2.1 < u16_mod)%Z /\ t.2.1 <> MSG_BUTTON_REQUEST
  /\ reply_outcome t.2 = match r with inl e => Fail e | inr m => Ret m end.

Definition ask_fits (ask : option Z * Z * list Z) : Prop :=
  fits ask.2 /\ match ask.1.1 with Some s => is_byte s | None => True end.

(** The session id a request selects. *)
Definition activate (s : option Z) (c : Connection) : Connection :=
  match s with Some v => set_active_session_id v c | None => c end.

(** A request of the log, with the number of button requests it met. *)
Definition after_ask (c : Connection) (x : (option Z * Z * list Z) * nat) : Connection :=
  Nat.iter (S x.2) step_connection (activate x.1.1.1 c).

Definition ask_frames (c : Connection) (x : (option Z * Z * list Z) * nat) : list Frame :=
  match session c with
  | Some s => host_frames (activate x.1.1.1 c) s
                ((x.1.1.2, x.1.2) :: replicate x.2 button_ack)
  | None => []
  end.

(** The frames of a sequence of requests, from a connection. *)
Fixpoint transcript (c : Connection) (asks : list ((option Z * Z * list Z) * nat))
    : list Frame :=
  match asks with
  | [] => []
  | x :: rest => ask_frames c x ++ transcript (after_ask c x) rest
  end.

(** A device that will serve the answers is at the other end. *)
Definition connected (a : Answers) (c : Connection) (w : Script) : Prop :=
  exists s d turns,
    can_exchange c s d w
    /\ Forall2 turn_ok turns (an_replies a)
    /\ inbox w = incoming ps (device_frames dcid sid (send_seq c) (recv_seq c) d
                   (concat (turn_messages <$> turns)))
    /\ length (inbox w) <= fuel
    /\ entropy w = an_entropy a /\ codes w = an_codes a.

Definition serves (a : Answers) (cw : Connection * Script) : Prop :=
  connected a cw.1 cw.2 /\
  exists asks,
    an_log a = log0 ++ asks.*1
    /\ outbox cw.2 = out0 ++ wire (packet_size c0) (transcript c0 asks)
    /\ cw.1 = foldl after_ask c0 asks.

Lemma packet_size_iter n c : packet_size (Nat.iter n step_connection c) = packet_size c.
Proof. induction n as [|n IH]; [done|]. cbn. by rewrite <- IH. Qed.

Lemma packet_size_after asks c : packet_size (foldl after_ask c asks) = packet_size c.
Proof.
  revert c. induction asks as [|x asks IH]; intros c; [done|]. cbn [foldl]. rewrite IH.
  unfold after_ask. rewrite packet_size_iter. by destruct x as [[[[]]]].
Qed.

Lemma seeded_after asks c : seeded_with (foldl after_ask c asks) = seeded_with c.
Proof.
  revert c. induction asks as [|x asks IH]; intros c; [done|]. cbn [foldl]. rewrite IH.
  unfold after_ask. assert (forall n c', seeded_with (Nat.iter n step_connection c') = seeded_with c')
    as -> by (intros n c'; induction n as [|n IHn]; [done|]; cbn; by rewrite <- IHn).
  by destruct x as [[[[]]]].
Qed.

Lemma transcript_app c asks1 asks2 :
  transcript c (asks1 ++ asks2)
  = transcript c asks1 ++ transcript (foldl after_ask c asks1) asks2.
Proof.
  revert c. induction asks1 as [|x asks1 IH]; intros c; [done|]. cbn [app transcript foldl].
  by rewrite IH, app_assoc.
Qed.

(** The device's session after its messages. *)
Definition device_after (d : Session) (ms : list (Z * list Z)) : Session :=
  foldl (fun d m => (sealed sid d m).2) d ms.

Lemma device_frames_app ms1 ms2 ss rs d :
  device_frames dcid sid ss rs d (ms1 ++ ms2)
  = device_frames dcid sid ss rs d ms1
    ++ device_frames dcid sid (Nat.iter (length ms1) (Z.lxor 1) ss)
         (Nat.iter (length ms1) (Z.lxor 1) rs) (device_after d ms1) ms2.
Proof.
  revert ss rs d. induction ms1 as [|m ms1 IH]; intros ss rs d; [done|].
  cbn [app device_frames length]. rewrite IH, !Nat.iter_succ_r.
  by rewrite (Z.lxor_comm ss), (Z.lxor_comm rs).
Qed.

Lemma iter_step_seqs n c :
  send_seq (Nat.iter n step_connection c) = Nat.iter n (Z.lxor 1) (send_seq c)
  /\ recv_seq (Nat.iter n step_connection c) = Nat.iter n (Z.lxor 1) (recv_seq c).
Proof.
  induction n as [|n [IH1 IH2]]; [done|]. rewrite !Nat.iter_succ, <- IH1, <- IH2.
  by split; apply Z.lxor_comm.
Qed.

Lemma can_exchange_iter ms c s d w rest out :
  can_exchange c s d w ->
  exists s', can_exchange (Nat.iter (length ms) step_connection c) s' (device_after d ms)
               (io rest out w).
Proof.
  revert c s d w. induction ms as [|m ms IH]; intros c s d w Hce; cbn [length device_after foldl].
  - exists s. destruct Hce as (Hr & Hrest). split; [by apply (ready_io c)|done].
  - rewrite Nat.iter_succ_r.
    apply (can_exchange_step c s d m sid (inbox w) []) in Hce.
    destruct (IH _ _ _ _ Hce) as [s' Hs']. exists s'.
    by rewrite io_io in Hs'.
Qed.

Lemma can_exchange_activate id c s d w :
  can_exchange c s d w -> match id with Some v => is_byte v | None => True end ->
  can_exchange (activate id c) s d w.
Proof.
  intros (Hr & Hwf & Hp & Hs & Hk) Hid. destruct id as [v|]; [|done].
  split; [exact Hr|]. split; [by apply wf_set_active|]. done.
Qed.

Lemma answer_log id mt body a : an_log a `prefix_of` an_log (answer id mt body a).2.
Proof. unfold answer. destruct (an_replies a); by eexists. Qed.

Lemma answer_fits id mt body a P :
  Forall P (an_log (answer id mt body a).2) -> P (id, mt, body).
Proof.
  unfold answer. destruct (an_replies a); cbn [snd an_log]; intros H;
    apply Forall_app in H as [_ H]; exact (Forall_inv H).
Qed.

(** A silent device: the request goes out and the call waits for its ACK. *)
Lemma transceive_silent mt body c s d w :
  can_exchange c s d w -> fits body -> inbox w = [] ->
  (transceive fuel mt body (c, w)).1 = Pending.
Proof.
  intros (Hr & Hwf & _ & Hs & _) Hb Hin. pose proof Hwf as (Hc & Hss & _ & Hact & _).
  unfold transceive, send_app, send_data. mred. cbn [conn_get fst]. rewrite Hs.
  cbn [ok_or session_seal conn_modify fst snd]. mred.
  change (seal _ _ _ _) with (sealed (active_session_id c) s (mt, body)).1.
  rewrite write_framed_emits.
  - destruct fuel as [|n]; [lia|]. cbn [await_ack]. unfold read_framed. mred.
    cbn [read_loop]. unfold on_env, env_read. mred. cbn [io inbox read_chunk script_env fst snd].
    unfold script_read. cbn [io inbox]. by rewrite Hin.
  - exact Hr.
  - apply (encrypted_frame_good ps Hps (cid c)); done.
Qed.

Definition served_turn (id : option Z) (mt : Z) (body : list Z) (buttons : nat) (c : Connection)
    (s : Session) (rest : list (TrezorTransportError + list Z)) (w : Script)
    : Connection * Script :=
  (Nat.iter (S buttons) step_connection (activate id c),
   io rest (wire (packet_size (activate id c)) (host_frames (activate id c) s
     ((mt, body) :: replicate buttons button_ack))) w).

(** The state after a turn serves the remaining answers. *)
Lemma serves_asked id mt body a c s d t turns r replies asks w :
  can_exchange (activate id c) s d w -> session c = Some s ->
  Forall2 turn_ok turns replies -> an_replies a = r :: replies ->
  let rest := incoming ps (device_frames dcid sid
    (Nat.iter (length (turn_messages t)) (Z.lxor 1) (send_seq c))
    (Nat.iter (length (turn_messages t)) (Z.lxor 1) (recv_seq c))
    (device_after d (turn_messages t)) (concat (turn_messages <$> turns))) in
  length rest <= fuel -> entropy w = an_entropy a -> codes w = an_codes a ->
  an_log a = log0 ++ asks.*1 -> outbox w = out0 ++ wire (packet_size c0) (transcript c0 asks) ->
  c = foldl after_ask c0 asks ->
  serves (asked id mt body replies a) (served_turn id mt body (length t.1) c s rest w).
Proof.
  intros Hce Hs Ht Hre rest Hl He Hcd Hlog Hout Hc.
  assert (Hlen : length (turn_messages t) = S (length t.1))
    by (unfold turn_messages; rewrite length_app, Nat.add_comm; done).
  unfold served_turn. set (out := wire _ _).
  destruct (can_exchange_iter (turn_messages t) (activate id c) s d w rest out Hce)
    as [s' Hce'].
  rewrite Hlen in Hce'. split.
  { exists s', (device_after d (turn_messages t)), turns.
    split; [exact Hce'|]. split; [exact Ht|]. split; [|by repeat split].
    cbn [fst snd io inbox]. destruct (iter_step_seqs (S (length t.1)) (activate id c)) as [-> ->].
    unfold rest. rewrite Hlen. by destruct id. }
  exists (asks ++ [((id, mt, body), length t.1)]). cbn [fst snd].
  rewrite fmap_app, transcript_app, foldl_app, wire_app, <- Hc.
  split; [cbn [asked an_log fmap list_fmap fst]; by rewrite Hlog, app_assoc|].
  split; [|done].
  cbn [io outbox]. rewrite Hout, <- app_assoc. do 2 f_equal. unfold out.
  cbn [transcript fst snd]. rewrite app_nil_r. unfold ask_frames. cbn [fst snd]. rewrite Hs. replace (packet_size (activate id c)) with (packet_size c0); [done|].
  rewrite Hc. symmetry. destruct id; apply packet_size_after.
Qed.

Lemma serves_answer id mt body a c w :
  serves a (c, w) -> ask_fits (id, mt, body) ->
  simulated serves (answer id mt body a) (transceive fuel mt body (activate id c, w)).
Proof.
  intros [(s & d & turns & Hce & Ht & Hin & Hl & He & Hcd) (asks & Hlog & Hout & Hc)] [Hb Hid].
  cbn [fst snd] in *. pose proof (can_exchange_activate id c s d w Hce Hid) as Hce'.
  assert (Hs : session c = Some s) by apply Hce.
  assert (Hbits : is_bit (send_seq c) /\ is_bit (recv_seq c))
    by (destruct Hce as (_ & Hw & _); split; apply Hw).
  unfold simulated, answer. remember (an_replies a) as replies eqn:Hre.
  destruct Ht as [|t r turns replies Htok Ht]; cbn [fst].
  { by apply (transceive_silent mt body _ s d w). }
  pose proof Htok as (Hbtn & Hfit & Hty & Hnb & Hro).
  rewrite fmap_cons, concat_cons, device_frames_app, <- (app_nil_r (incoming ps _)),
    incoming_app, app_nil_r in Hin.
  set (rest := incoming ps (device_frames dcid sid _ _ _ (concat (turn_messages <$> turns))))
    in Hin.
  pose proof (device_frames_packets ps Hps dcid sid (send_seq c) (recv_seq c) d
    (turn_messages t) rest (proj1 Hbits) (proj2 Hbits) Hsid Hdcid Hfit) as Hx.
  assert (Hlen : length (turn_messages t) = length t.1 + 1) by apply length_app.
  rewrite <- Hin, Hlen in Hx.
  unfold transceive. rewrite (transceive_loop_exchange ps Hps fuel dcid sid t.1 t.2 mt body
    (activate id c) s d rest w fuel Hce' Hb Hack Hsid Hdcid Hbtn Hfit Hty Hnb).
  3: exact Hl.
  3: lia.
  2: { rewrite Hin. by destruct id. }
  rewrite Hro. cbn [fst snd].
  pose proof (serves_asked id mt body a c s d t turns r replies asks w Hce' Hs Ht (eq_sym Hre))
    as Hst.
  rewrite Hin, length_app in Hl.
  destruct r; (split; [done|]); apply Hst; try done; fold rest; lia.
Qed.

Lemma serves_io a c w e cds :
  serves a (c, w) ->
  serves {| an_replies := an_replies a; an_entropy := e; an_codes := cds; an_log := an_log a |}
    (c, {| inbox := inbox w; outbox := outbox w; write_errors := write_errors w; entropy := e;
           codes := cds |}).
Proof.
  intros [(s & d & turns & Hce & Ht & Hin & Hl & _) Hrest].
  split; [|exact Hrest]. exists s, d, turns. by split; [exact Hce|].
Qed.

(** The driver over packets implements the specification by answers. *)
#[export] Instance driver_sim : HostSim (driver fuel) serves ask_fits.
Proof.
  split.
  - intros mt body a. split; [apply answer_log|]. intros [c w] HR Hfit.
    apply (serves_answer None); [done|]. by apply answer_fits in Hfit.
  - intros id mt body a. split; [apply answer_log|]. intros [c w] HR Hfit.
    apply (serves_answer (Some id)); [done|]. by apply answer_fits in Hfit.
  - intros n a. unfold h_random, scripted_host, driver, answer_random.
    destruct (n <=? length (an_entropy a)) eqn:E; (split; [done|]); intros [c w] HR _;
      pose proof HR as [(_ & _ & _ & _ & _ & _ & _ & He & _) _];
      unfold on_env, random_bytes; cbn [getrandom script_env fst snd]; unfold script_random; cbn [fst snd] in He;
      rewrite He, E; (split; [done|]); [|exact HR].
    cbn [fst snd]. pose proof HR as [(_ & _ & _ & _ & _ & _ & _ & _ & Hcd) _]. cbn [fst snd] in Hcd. rewrite Hcd.
    by apply serves_io.
  - intros a. unfold h_code, scripted_host, driver, answer_code. split.
    { by destruct (an_codes a). }
    intros [c w] HR _. pose proof HR as [(_ & _ & _ & _ & _ & _ & _ & He & Hcd) _]. cbn [fst snd] in *.
    unfold on_env, env_code. cbn [request_code script_env fst snd]. unfold script_code.
    rewrite Hcd. destruct (an_codes a) as [|x l] eqn:Ea; (split; [done|]); [exact HR|].
    cbn [fst snd]. rewrite He. by apply serves_io.
Qed.
End Served.

(** ** Runs of the driver from runs on answers *)
Section Runs.
Context {CR : Crypto} {PM : ThpProto} (ps : nat) (dcid sid : Z) (fuel : nat).

(** The state [cw'] after a run on answers from [a] to [a'] that started at [cw]. *)
Definition served_run (a a' : Answers) (cw cw' : Connection * Script) : Prop :=
  connected ps dcid sid fuel a' cw'.1 cw'.2
  /\ exists asks, an_log a' = an_log a ++ asks.*1
       /\ outbox cw'.2 = outbox cw.2 ++ wire (packet_size cw.1) (transcript cw.1 asks)
       /\ cw'.1 = foldl after_ask cw.1 asks.

Lemma simulated_run {A} (m1 : ST Answers TrezorError A) (m2 : Conn Script A) a c w o a' :
  (forall log0 out0 c0, sim (serves ps dcid sid fuel log0 out0 c0) ask_fits m1 m2) ->
  connected ps dcid sid fuel a c w -> m1 a = (o, a') -> Forall ask_fits (an_log a') ->
  (m2 (c, w)).1 = o /\ (o <> Pending -> served_run a a' (c, w) (m2 (c, w)).2).
Proof.
  intros Hsim Hcon Hm Hfit.
  destruct (Hsim (an_log a) (outbox w) c a) as [_ Hrun]. rewrite Hm in Hrun.
  specialize (Hrun (c, w)). unfold simulated in Hrun. cbn [fst snd] in Hrun.
  destruct (m2 (c, w)) as [o2 cw'].
  assert (Hserves : serves ps dcid sid fuel (an_log a) (outbox w) c a (c, w)).
  { split; [exact Hcon|]. exists []. cbn. by rewrite !app_nil_r. }
  specialize (Hrun Hserves Hfit). cbn [fst snd] in *.
  destruct o; intuition congruence.
Qed.

(** The device side does not see the log, nor which wallet is noted. *)
Lemma connected_seeded a c w k log :
  connected ps dcid sid fuel a c w ->
  connected ps dcid sid fuel
    {| an_replies := an_replies a; an_entropy := an_entropy a; an_codes := an_codes a;
       an_log := log |} (set_seeded_with k c) w.
Proof.
  intros (s & d & turns & (Hr & Hwf & Hrest) & Hdev). exists s, d, turns.
  split; [|exact Hdev]. split; [exact Hr|]. split; [by apply wf_set_seeded|exact Hrest].
Qed.

(** Two runs one after the other. *)
Lemma served_run_trans a1 a2 a3 s1 s2 s3 :
  served_run a1 a2 s1 s2 -> served_run a2 a3 s2 s3 -> served_run a1 a3 s1 s3.
Proof.
  intros [_ (asks1 & Hl1 & Ho1 & Hc1)] [Hcon (asks2 & Hl2 & Ho2 & Hc2)].
  split; [exact Hcon|]. exists (asks1 ++ asks2). rewrite fmap_app.
  split; [by rewrite Hl2, Hl1, app_assoc|]. split; [|by rewrite foldl_app, Hc2, Hc1].
  rewrite Ho2, Ho1, Hc1, packet_size_after, transcript_app, wire_app. by rewrite app_assoc.
Qed.
End Runs.

(** ** The wallet noted in a connection does not reach the wire *)
Section Seeded.
Context {CR : Crypto} {PM : ThpProto} (k : option (option rstring * bool)).

Lemma step_seeded c :
  step_connection (set_seeded_with k c) = set_seeded_with k (step_connection c).
Proof. done. Qed.

Lemma iter_seeded n c :
  Nat.iter n step_connection (set_seeded_with k c)
  = set_seeded_with k (Nat.iter n step_connection c).
Proof. induction n as [|n IH]; [done|]. by rewrite !Nat.iter_succ, IH. Qed.

Lemma after_ask_seeded c x :
  after_ask (set_seeded_with k c) x = set_seeded_with k (after_ask c x).
Proof. unfold after_ask. rewrite <- iter_seeded. by destruct x as [[[[]]]]. Qed.

Lemma host_frames_seeded c s ms : host_frames (set_seeded_with k c) s ms = host_frames c s ms.
Proof.
  revert c s. induction ms as [|m ms IH]; intros c s; [done|]. cbn [host_frames].
  by rewrite step_seeded, IH.
Qed.

Lemma transcript_seeded c asks : transcript (set_seeded_with k c) asks = transcript c asks.
Proof.
  revert c. induction asks as [|x asks IH]; intros c; [done|]. cbn [transcript].
  rewrite after_ask_seeded, IH. f_equal. unfold ask_frames. cbn [set_seeded_with session].
  destruct (session c) as [s|]; [|done]. destruct x as [[[id mt] body] n].
  rewrite <- (host_frames_seeded (activate id c)). by destruct id.
Qed.

Lemma foldl_seeded c asks :
  foldl after_ask (set_seeded_with k c) asks = set_seeded_with k (foldl after_ask c asks).
Proof.
  revert c. induction asks as [|x asks IH]; intros c; [done|]. cbn [foldl].
  by rewrite after_ask_seeded, IH.
Qed.
End Seeded.
