(* ===== verification/Ethereum.v ===== *)
(** * Ethereum (chains/ethereum.rs)

    The RLP reader and the EIP-1559 envelope decoder, the requests of the chain
    over a [Host], and their properties. *)

From S2P Require Import Prelude Types Proto ChainProto Host.

Definition ETH_GET_ADDRESS : Z := 56.
Definition ETH_ADDRESS : Z := 57.
Definition ETH_GET_PUBLIC_KEY : Z := 450.
Definition ETH_PUBLIC_KEY : Z := 451.
Definition ETH_SIGN_MESSAGE : Z := 64.
Definition ETH_MESSAGE_SIGNATURE : Z := 66.
Definition ETH_SIGN_TX_EIP1559 : Z := 452.
Definition ETH_TX_REQUEST : Z := 59.

(** ** RLP *)

(** [pos.checked_add(n)] on [usize]. *)
Definition checked_add (pos : nat) (n : Z) : option Z :=
  let e := (Z.of_nat pos + n)%Z in if (e <? u64_mod)%Z then Some e else None.

(** [for &x in bytes { v = (v << 8) | x }] on 64 bits. *)
Definition shift_in (v x : Z) : Z := Z.lor (Z.shiftl v 8 mod u64_mod) x.
Definition be_to_u64 (bytes : list Z) : Z := foldl shift_in 0%Z bytes.

(** The position is the [&mut usize]. *)
Definition rlp_read_len (buf : list Z) (n : Z) : ST nat TrezorError Z :=
  pos ← get_st;
  e ← lift (ok_or (thp (str "RLP length-prefix overflow")) (checked_add pos n));
  if (Z.of_nat (length buf) <? e)%Z then throw (thp (str "RLP length-prefix exceeds buffer"))
  else
    bytes ← lift (slice buf pos (Z.to_nat e));
    let len := foldl shift_in 0%Z bytes in
    put_st (Z.to_nat e);;
    mret len.

(** The end of [rlp_read], once the header is read. *)
Definition rlp_payload (buf : list Z) (is_list : bool) (len : Z)
    : ST nat TrezorError (bool * list Z) :=
  pos ← get_st;
  e ← lift (ok_or (thp (str "RLP length overflow")) (checked_add pos len));
  if (Z.of_nat (length buf) <? e)%Z then throw (thp (str "RLP item length exceeds buffer"))
  else
    payload ← lift (slice buf pos (Z.to_nat e));
    put_st (Z.to_nat e);;
    mret (is_list, payload).

Definition rlp_read (buf : list Z) : ST nat TrezorError (bool * list Z) :=
  pos ← get_st;
  b ← lift (ok_or (thp (str "RLP truncated")) (buf !! pos));
  put_st (pos + 1);;
  if (b <=? 0x7f)%Z then mret (false, [b])
  else if (b <=? 0xb7)%Z then rlp_payload buf false (b - 0x80)%Z
  else if (b <=? 0xbf)%Z then
    len ← rlp_read_len buf (b - 0xb7)%Z; rlp_payload buf false len
  else if (b <=? 0xf7)%Z then rlp_payload buf true (b - 0xc0)%Z
  else len ← rlp_read_len buf (b - 0xf7)%Z; rlp_payload buf true len.

(** [while ipos < payload.len()] *)
Fixpoint rlp_items (fuel : nat) (payload : list Z) (ipos : nat)
    : outcome TrezorError (list (list Z)) :=
  match fuel with
  | O => NoFuel
  | S fuel' =>
    if ipos <? length payload then
      let '(r, ipos) := rlp_read payload ipos in
      item ← r;
      items ← rlp_items fuel' payload ipos;
      mret (item.2 :: items)
    else mret []
  end.

Definition rlp_decode_list (buf : list Z) : outcome TrezorError (list (list Z)) :=
  let '(r, _) := rlp_read buf 0 in
  h ← r;
  let '(is_list, payload) := h : bool * list Z in
  if negb is_list then Fail (thp (str "EIP-1559 envelope body is not an RLP list"))
  else rlp_items (S (length payload)) payload 0.

(** ** The EIP-1559 envelope *)
Record Eip1559Tx : Type := {
  tx_chain_id : Z;
  tx_nonce : list Z;
  tx_max_priority_fee : list Z;
  tx_max_fee : list Z;
  tx_gas_limit : list Z;
  tx_to : list Z;
  tx_value : list Z;
  tx_data : list Z;
}.

Definition decode_eip1559_envelope (envelope : list Z) : outcome TrezorError Eip1559Tx :=
  if bool_decide (head envelope <> Some 0x02%Z)
  then Fail (thp (str "not an EIP-1559 (0x02-typed) envelope"))
  else
    body ← slice_from envelope 1;
    items ← rlp_decode_list body;
    if length items <? 8 then
      Fail (thp (str "EIP-1559 payload has " ++ dec (Z.of_nat (length items))
                 ++ str " items, expected at least 8"))
    else
      i0 ← idx items 0; i1 ← idx items 1; i2 ← idx items 2; i3 ← idx items 3;
      i4 ← idx items 4; i5 ← idx items 5; i6 ← idx items 6; i7 ← idx items 7;
      mret {| tx_chain_id := be_to_u64 i0; tx_nonce := i1; tx_max_priority_fee := i2;
              tx_max_fee := i3; tx_gas_limit := i4; tx_to := i5; tx_value := i6;
              tx_data := i7 |}.

(** [format!("{b:02x}")] of each byte. *)
Definition hex_digit (d : Z) : Z := (if d <? 10 then 48 + d else 87 + d)%Z.
Definition hex_lower (bytes : list Z) : rstring :=
  bytes ≫= fun b => [hex_digit (b / 16)%Z; hex_digit (b mod 16)%Z].

(** ** Requests *)
Section Requests.
Context {EP : EthereumProto} {S : Type} `{!Host S}.

Definition get_address (session_id : Z) (path : list Z) : ST S TrezorError rstring :=
  r ← h_transceive_on session_id ETH_GET_ADDRESS
        (encode_to_vec {| ega_address_n := path; ega_show_display := Some false |});
  let '(rt, rp) := r in
  if negb (rt =? ETH_ADDRESS)%Z then throw (wrong_type "EthereumAddress" ETH_ADDRESS rt)
  else
    m ← lift (map_err (decode_failed "EthereumAddress") (decode rp));
    lift (ok_or (thp (str "EthereumAddress missing address")) (ea_address m)).

Definition account_path (account : Z) : list Z :=
  [0x8000002C; 0x8000003C; Z.lor 0x80000000 account; 0; 0]%Z.

Definition get_public_key (session_id : Z) (path : list Z) : ST S TrezorError (list Z) :=
  r ← h_transceive_on session_id ETH_GET_PUBLIC_KEY
        (encode_to_vec {| egp_address_n := path; egp_show_display := Some false |});
  let '(rt, rp) := r in
  if negb (rt =? ETH_PUBLIC_KEY)%Z then throw (wrong_type "EthereumPublicKey" ETH_PUBLIC_KEY rt)
  else
    m ← lift (map_err (decode_failed "EthereumPublicKey") (decode rp));
    mret (node_public_key (ep_node m)).

Definition sign_message (session_id : Z) (path message : list Z)
    : ST S TrezorError (list Z) :=
  r ← h_transceive_on session_id ETH_SIGN_MESSAGE
        (encode_to_vec {| esm_address_n := path; esm_message := message |});
  let '(rt, rp) := r in
  if negb (rt =? ETH_MESSAGE_SIGNATURE)%Z
  then throw (wrong_type "EthereumMessageSignature" ETH_MESSAGE_SIGNATURE rt)
  else
    m ← lift (map_err (decode_failed "EthereumMessageSignature") (decode rp));
    let sig := ems_signature m in
    if length sig <? 64 then throw (thp (str "Ethereum signature shorter than 64 bytes"))
    else lift (slice sig 0 64).

Definition sign_message_full (session_id : Z) (path message : list Z)
    : ST S TrezorError (list Z) :=
  r ← h_transceive_on session_id ETH_SIGN_MESSAGE
        (encode_to_vec {| esm_address_n := path; esm_message := message |});
  let '(rt, rp) := r in
  if negb (rt =? ETH_MESSAGE_SIGNATURE)%Z
  then throw (wrong_type "EthereumMessageSignature" ETH_MESSAGE_SIGNATURE rt)
  else
    m ← lift (map_err (decode_failed "EthereumMessageSignature") (decode rp));
    let sig := ems_signature m in
    if length sig <? 65 then throw (thp (str "Ethereum signature shorter than 65 bytes"))
    else lift (slice sig 0 65).

Definition sign_eip1559 (session_id : Z) (path envelope : list Z)
    : ST S TrezorError Secp256k1Signature :=
  tx ← lift (decode_eip1559_envelope envelope);
  let to_str := if bool_decide (tx_to tx = []) then [] else str "0x" ++ hex_lower (tx_to tx) in
  (* [tx.data.len() as u32] *)
  let data_length := (Z.of_nat (length (tx_data tx)) mod u32_mod)%Z in
  let msg := {|
    est_address_n := path; est_nonce := tx_nonce tx; est_max_gas_fee := tx_max_fee tx;
    est_max_priority_fee := tx_max_priority_fee tx; est_gas_limit := tx_gas_limit tx;
    est_to := Some to_str; est_value := tx_value tx;
    est_data_initial_chunk := Some (tx_data tx); est_data_length := data_length;
    est_chain_id := tx_chain_id tx; est_access_list := [] |} in
  r ← h_transceive_on session_id ETH_SIGN_TX_EIP1559 (encode_to_vec msg);
  let '(rt, rp) := r in
  if negb (rt =? ETH_TX_REQUEST)%Z then throw (wrong_type "EthereumTxRequest" ETH_TX_REQUEST rt)
  else
    req ← lift (map_err (decode_failed "EthereumTxRequest") (decode rp));
    match etr_signature_r req, etr_signature_s req with
    | Some r, Some s =>
      let raw_v := default 0%Z (etr_signature_v req) in
      let v := (if 27 <=? raw_v then (raw_v - 27) mod u8_mod else raw_v mod u8_mod)%Z in
      mret {| sig_v := v; sig_r := r; sig_s := s |}
    | _, _ =>
      throw (thp (str "EthereumTxRequest carried no signature (device asked for more data?)"))
    end.
End Requests.

(** ** The encoder of the tests (an independent RLP implementation) *)
Fixpoint minimal_be_loop (fuel : nat) (n : Z) : list Z :=
  match fuel with
  | O => []
  | S fuel' => if (0 <? n)%Z then Z.land n 0xff :: minimal_be_loop fuel' (Z.shiftr n 8) else []
  end.

(** A 64-bit [usize] has at most eight bytes. *)
Definition minimal_be (n : Z) : list Z := reverse (minimal_be_loop 8 n).

Definition rlp_header (short long : Z) (len : nat) : list Z :=
  if len <? 56 then [(short + Z.of_nat len)%Z]
  else
    let lb := minimal_be (Z.of_nat len) in
    (long + Z.of_nat (length lb))%Z :: lb.

Definition rlp_str_prefix (len : nat) : list Z := rlp_header 0x80 0xb7 len.

Definition rlp_bytes (data : list Z) : list Z :=
  match data with
  | [b] => if (b <? 0x80)%Z then data else rlp_str_prefix 1 ++ data
  | _ => rlp_str_prefix (length data) ++ data
  end.

Definition rlp_list (items : list (list Z)) : list Z :=
  let inner := concat items in rlp_header 0xc0 0xf7 (length inner) ++ inner.

(** ** Integers *)
Lemma shift_in_eq v x :
  (0 <= v < u64_mod)%Z -> is_byte x -> shift_in v x = ((v * 256 + x) mod u64_mod)%Z.
Proof.
  intros Hv Hx. unfold shift_in, is_byte, u64_mod in *. rewrite Z.shiftl_mul_pow2 by lia.
  change 18446744073709551616%Z with (2 ^ 56 * 2 ^ 8)%Z.
  rewrite Zmult_mod_distr_r. rewrite lor_shift_add by lia.
  pose proof (Z.mod_pos_bound v (2 ^ 56)). change (2 ^ 8)%Z with 256%Z.
  rewrite (Z.div_mod v (2 ^ 56)) at 2 by lia.
  replace ((2 ^ 56 * (v / 2 ^ 56) + v mod 2 ^ 56) * 256 + x)%Z
    with ((v mod 2 ^ 56 * 256 + x) + (v / 2 ^ 56) * (2 ^ 56 * 256))%Z by lia.
  rewrite Z.mod_add by lia. symmetry. apply Z.mod_small. lia.
Qed.

Lemma be_fold v bytes :
  (0 <= v < u64_mod)%Z -> bytes_ok bytes ->
  foldl shift_in v bytes = (foldl (fun a b => a * 256 + b) v bytes mod u64_mod)%Z.
Proof.
  intros Hv Hb. revert v Hv. induction Hb as [|x bytes Hx _ IH]; intros v Hv; simpl.
  { by rewrite Z.mod_small. }
  rewrite IH by (rewrite shift_in_eq by done; apply Z.mod_pos_bound; unfold u64_mod; lia).
  rewrite shift_in_eq by done. clear. generalize (v * 256 + x)%Z. clear.
  induction bytes as [|y bytes IH] using rev_ind; intros z; [simpl; by rewrite Z.mod_mod|].
  rewrite !foldl_app. simpl. rewrite <- Z.add_mod_idemp_l by done.
  rewrite <- Z.mul_mod_idemp_l by done. rewrite IH.
  rewrite Z.mul_mod_idemp_l by done. by rewrite Z.add_mod_idemp_l.
Qed.

Lemma be_to_u64_eq bytes : bytes_ok bytes -> be_to_u64 bytes = (from_be bytes mod u64_mod)%Z.
Proof. intros H. unfold be_to_u64. rewrite be_fold; [done|unfold u64_mod; lia|done]. Qed.

Lemma minimal_be_loop_spec fuel n :
  (0 <= n < 256 ^ Z.of_nat fuel)%Z ->
  from_le (minimal_be_loop fuel n) = n /\ bytes_ok (minimal_be_loop fuel n) /\
  length (minimal_be_loop fuel n) <= fuel /\
  ((0 < n)%Z -> 0 < length (minimal_be_loop fuel n)).
Proof.
  revert n. induction fuel as [|fuel IH]; intros n Hn.
  { simpl in *. split_and!; [lia|constructor|lia..]. }
  rewrite Nat2Z.inj_succ, Z.pow_succ_r in Hn by lia. cbn [minimal_be_loop].
  destruct (Z.ltb_spec 0 n) as [H0|H0].
  - rewrite Z.shiftr_div_pow2 by lia. change (2 ^ 8)%Z with 256%Z.
    change 0xff%Z with (Z.ones 8). rewrite Z.land_ones by lia. change (2 ^ 8)%Z with 256%Z.
    destruct (IH (n / 256)%Z) as (Hv & Hok & Hl & _).
    { split; [apply Z.div_pos; lia|]. apply Z.div_lt_upper_bound; lia. }
    split_and!.
    + cbn [from_le foldr]. fold (from_le (minimal_be_loop fuel (n / 256))). rewrite Hv.
      rewrite (Z.div_mod n 256) at 3 by lia. lia.
    + constructor; [|done]. unfold is_byte. apply Z.mod_pos_bound. lia.
    + cbn [length]. lia.
    + cbn [length]. lia.
  - split_and!; [simpl; lia|constructor|simpl; lia|lia].
Qed.

Lemma minimal_be_spec n :
  (0 <= n < u64_mod)%Z ->
  from_be (minimal_be n) = n /\ bytes_ok (minimal_be n) /\ length (minimal_be n) <= 8 /\
  ((0 < n)%Z -> 0 < length (minimal_be n)).
Proof.
  intros Hn. destruct (minimal_be_loop_spec 8 n Hn) as (Hv & Hok & Hl & H0).
  unfold minimal_be. rewrite from_be_reverse, length_reverse. split_and!; try done.
  by apply Forall_reverse.
Qed.

(** ** The reader on any input *)
Definition thp_error (e : TrezorError) : Prop := match e with Thp _ => True | _ => False end.

Lemma shift_in_nonneg v bytes :
  (0 <= v)%Z -> bytes_ok bytes -> (0 <= foldl shift_in v bytes)%Z.
Proof.
  intros Hv Hb. revert v Hv. induction Hb as [|x bytes Hx _ IH]; intros v Hv; simpl; [done|].
  apply IH. unfold shift_in, is_byte in *. apply Z.lor_nonneg. split; [|lia].
  apply Z.mod_pos_bound. unfold u64_mod. lia.
Qed.

Lemma rlp_read_len_safe buf n pos :
  bytes_ok buf -> pos <= length buf -> (0 <= n)%Z ->
  match rlp_read_len buf n pos with
  | (Ret len, pos') => pos <= pos' /\ pos' <= length buf /\ (0 <= len)%Z
  | (Fail e, _) => thp_error e
  | _ => False
  end.
Proof.
  intros Hb Hpos Hn. unfold rlp_read_len, checked_add. mred.
  destruct (_ <? u64_mod)%Z; [|done]. cbn [ok_or].
  destruct (Z.ltb_spec (Z.of_nat (length buf)) (Z.of_nat pos + n)) as [|Hle]; [done|].
  rewrite slice_ret by lia. split_and!; [lia..|].
  apply shift_in_nonneg; [done|]. by apply bytes_ok_take, bytes_ok_drop.
Qed.

(** A read that succeeds advances within the buffer; any other reports a THP
    error. *)
Definition advances (buf : list Z) (pos : nat)
    (r : outcome TrezorError (bool * list Z) * nat) : Prop :=
  match r with
  | (Ret h, pos') => pos < pos' /\ pos' <= length buf /\ bytes_ok h.2
  | (Fail e, _) => thp_error e
  | _ => False
  end.

Lemma rlp_payload_safe buf pos0 is_list len pos :
  bytes_ok buf -> pos0 < pos -> pos <= length buf -> (0 <= len)%Z ->
  advances buf pos0 (rlp_payload buf is_list len pos).
Proof.
  intros Hb H0 Hpos Hlen. unfold rlp_payload, checked_add. mred.
  destruct (_ <? u64_mod)%Z; [|done]. cbn [ok_or].
  destruct (Z.ltb_spec (Z.of_nat (length buf)) (Z.of_nat pos + len)) as [|Hle]; [done|].
  rewrite slice_ret by lia. cbn [advances snd]. split_and!; [lia..|].
  by apply bytes_ok_take, bytes_ok_drop.
Qed.

Lemma rlp_long_safe buf pos0 is_list n pos :
  bytes_ok buf -> pos0 < pos -> pos <= length buf -> (0 <= n)%Z ->
  advances buf pos0 ((rlp_read_len buf n ≫= rlp_payload buf is_list) pos).
Proof.
  intros Hb H0 Hpos Hn. pose proof (rlp_read_len_safe buf n pos Hb Hpos Hn) as H.
  unfold mbind, st_bind.
  destruct (rlp_read_len buf n pos) as [[len|e| | |] p]; try done.
  apply rlp_payload_safe; [done|lia..].
Qed.

Lemma rlp_read_safe buf pos : bytes_ok buf -> advances buf pos (rlp_read buf pos).
Proof.
  intros Hb. unfold rlp_read. unfold mbind at 1 2 3, st_bind, get_st, lift, put_st.
  destruct (buf !! pos) as [b|] eqn:Hpos; [|done]. cbn [ok_or].
  pose proof (lookup_lt_Some _ _ _ Hpos) as Hlt.
  pose proof (Forall_lookup_1 _ _ _ _ Hb Hpos) as Hbyte. unfold is_byte in Hbyte.
  destruct (Z.leb_spec b 0x7f).
  { split_and!; [lia..|]. by apply Forall_singleton. }
  destruct (Z.leb_spec b 0xb7); [apply rlp_payload_safe; [done|lia..]|].
  destruct (Z.leb_spec b 0xbf); [apply rlp_long_safe; [done|lia..]|].
  destruct (Z.leb_spec b 0xf7); [apply rlp_payload_safe; [done|lia..]|].
  apply rlp_long_safe; [done|lia..].
Qed.

Lemma rlp_items_safe fuel payload ipos :
  bytes_ok payload -> length payload - ipos < fuel ->
  match rlp_items fuel payload ipos with
  | Ret items => Forall bytes_ok items
  | Fail e => thp_error e
  | _ => False
  end.
Proof.
  intros Hb. revert ipos. induction fuel as [|fuel IH]; intros ipos Hf; [lia|].
  cbn [rlp_items]. destruct (Nat.ltb_spec ipos (length payload)) as [Hlt|Hge]; [|constructor].
  pose proof (rlp_read_safe payload ipos Hb) as H. unfold advances in H.
  destruct (rlp_read payload ipos) as [[h|e| | |] pos']; try done. mred.
  destruct H as (H1 & H2 & Hok). specialize (IH pos' ltac:(lia)).
  destruct (rlp_items fuel payload pos'); try done. by constructor.
Qed.

Lemma rlp_decode_list_safe buf :
  bytes_ok buf ->
  match rlp_decode_list buf with
  | Ret items => Forall bytes_ok items
  | Fail e => thp_error e
  | _ => False
  end.
Proof.
  intros Hb. unfold rlp_decode_list. pose proof (rlp_read_safe buf 0 Hb) as H.
  unfold advances in H. destruct (rlp_read buf 0) as [[[is_list payload]|e| | |] p]; try done.
  mred. destruct is_list; [|done]. apply rlp_items_safe; [apply H|lia].
Qed.

Lemma decode_eip1559_envelope_settles envelope :
  bytes_ok envelope ->
  match decode_eip1559_envelope envelope with
  | Ret tx => (0 <= tx_chain_id tx < u64_mod)%Z /\
      Forall bytes_ok [tx_nonce tx; tx_max_priority_fee tx; tx_max_fee tx; tx_gas_limit tx;
                       tx_to tx; tx_value tx; tx_data tx]
  | Fail e => thp_error e
  | _ => False
  end.
Proof.
  intros Hb. unfold decode_eip1559_envelope.
  destruct (bool_decide (head envelope <> Some 2%Z)) eqn:Hh; [done|].
  apply bool_decide_eq_false in Hh. destruct envelope as [|b body]; [by destruct Hh|]. clear Hh.
  unfold slice_from. rewrite slice_ret by (cbn [length]; lia). mred.
  assert (bytes_ok (take (length (b :: body) - 1) (drop 1 (b :: body)))) as Hbody
    by by apply bytes_ok_take, bytes_ok_drop.
  pose proof (rlp_decode_list_safe _ Hbody) as H.
  destruct (rlp_decode_list _) as [items|e| | |]; try done.
  destruct (Nat.ltb_spec (length items) 8) as [|H8]; [done|].
  destruct items as [|i0 [|i1 [|i2 [|i3 [|i4 [|i5 [|i6 [|i7 items]]]]]]]];
    try (cbn [length] in H8; lia).
  cbn [idx lookup list_lookup]. cbn [tx_chain_id tx_nonce tx_max_priority_fee tx_max_fee
    tx_gas_limit tx_to tx_value tx_data].
  pose proof (Forall_nil_2 bytes_ok) as Hnil.
  rewrite !Forall_cons in H. rewrite !Forall_cons. split; [|tauto].
  rewrite be_to_u64_eq by tauto. apply Z.mod_pos_bound. unfold u64_mod. lia.
Qed.

(** ** Reading what the encoder wrote *)
Inductive RlpItem : Type :=
  | RlpBytes (data : list Z)
  | RlpList (items : list (list Z)).

Definition rlp_encode (it : RlpItem) : list Z :=
  match it with RlpBytes d => rlp_bytes d | RlpList l => rlp_list l end.
Definition rlp_is_list (it : RlpItem) : bool :=
  match it with RlpBytes _ => false | RlpList _ => true end.
Definition rlp_content (it : RlpItem) : list Z :=
  match it with RlpBytes d => d | RlpList l => concat l end.

Section RoundTrip.
Context (buf : list Z) (Hbuf : (Z.of_nat (length buf) < u64_mod)%Z).

Lemma checked_add_ok pos n :
  (0 <= n)%Z -> (Z.of_nat pos + n <= Z.of_nat (length buf))%Z ->
  checked_add pos n = Some (Z.of_nat pos + n)%Z.
Proof.
  intros Hn Hle. unfold checked_add.
  replace (Z.of_nat pos + n <? u64_mod)%Z with true by lia. done.
Qed.

Lemma rlp_payload_mid pre payload post is_list len pos :
  buf = pre ++ payload ++ post -> pos = length pre -> len = Z.of_nat (length payload) ->
  rlp_payload buf is_list len pos
  = (Ret (is_list, payload), length pre + length payload).
Proof.
  intros Hb -> ->. unfold rlp_payload. mred.
  assert (length buf = length pre + (length payload + length post)) as Hl
    by (rewrite Hb, !length_app; lia).
  rewrite checked_add_ok by lia. cbn [ok_or].
  replace (Z.of_nat (length buf) <? Z.of_nat (length pre) + Z.of_nat (length payload))%Z
    with false by lia.
  rewrite <- Nat2Z.inj_add, Nat2Z.id. rewrite Hb. by rewrite slice_mid.
Qed.

Lemma rlp_read_len_mid pre lb post len pos :
  buf = pre ++ lb ++ post -> pos = length pre -> bytes_ok lb -> from_be lb = len ->
  (0 <= len < u64_mod)%Z ->
  rlp_read_len buf (Z.of_nat (length lb)) pos = (Ret len, length pre + length lb).
Proof.
  intros Hb -> Hok Hv Hr. unfold rlp_read_len. mred.
  assert (length buf = length pre + (length lb + length post)) as Hl
    by (rewrite Hb, !length_app; lia).
  rewrite checked_add_ok by lia. cbn [ok_or].
  replace (Z.of_nat (length buf) <? Z.of_nat (length pre) + Z.of_nat (length lb))%Z
    with false by lia.
  rewrite <- Nat2Z.inj_add, Nat2Z.id. rewrite Hb, slice_mid by done.
  fold (be_to_u64 lb). rewrite be_to_u64_eq, Hv, Z.mod_small by done. done.
Qed.

(** The prefix bytes of a string and of a list. *)
Definition rlp_kind (short : Z) (is_list : bool) : Prop :=
  (short, is_list) = (0x80%Z, false) \/ (short, is_list) = (0xc0%Z, true).

Lemma rlp_read_short pre short is_list payload post :
  rlp_kind short is_list -> length payload < 56 ->
  buf = pre ++ [(short + Z.of_nat (length payload))%Z] ++ payload ++ post ->
  rlp_read buf (length pre) = (Ret (is_list, payload), length pre + 1 + length payload).
Proof.
  intros Hs Hshort Hb. pose proof Hb as Hlen. apply (f_equal length) in Hlen.
  rewrite !length_app in Hlen. cbn [length] in Hlen.
  unfold rlp_read. unfold mbind at 1 2 3, st_bind, get_st, lift, put_st.
  rewrite Hb at 1. rewrite lookup_app_r, Nat.sub_diag by lia. cbn [lookup list_lookup app ok_or].
  replace (short + Z.of_nat (length payload) <=? 0x7f)%Z with false
    by (destruct Hs as [[= -> ->]|[= -> ->]]; lia).
  assert (rlp_payload buf is_list (Z.of_nat (length payload)) (length pre + 1)
    = (Ret (is_list, payload), length pre + 1 + length payload)) as Hp.
  { rewrite (rlp_payload_mid (pre ++ [(short + Z.of_nat (length payload))%Z]) payload post);
      try done; [by rewrite length_app|by rewrite <- app_assoc|by rewrite length_app]. }
  rewrite <- Hp. destruct Hs as [[= -> ->]|[= -> ->]].
  - replace (0x80 + Z.of_nat (length payload) <=? 0xb7)%Z with true by lia. do 2 f_equal. lia.
  - replace (0xc0 + Z.of_nat (length payload) <=? 0xb7)%Z with false by lia.
    replace (0xc0 + Z.of_nat (length payload) <=? 0xbf)%Z with false by lia.
    replace (0xc0 + Z.of_nat (length payload) <=? 0xf7)%Z with true by lia. f_equal. lia.
Qed.

Lemma rlp_read_long pre short is_list lb payload post :
  rlp_kind short is_list -> bytes_ok lb -> from_be lb = Z.of_nat (length payload) ->
  0 < length lb <= 8 ->
  buf = pre ++ ((short + 55 + Z.of_nat (length lb))%Z :: lb) ++ payload ++ post ->
  rlp_read buf (length pre)
  = (Ret (is_list, payload), length pre + S (length lb) + length payload).
Proof.
  intros Hs Hok Hv Hl8 Hb. set (b := (short + 55 + Z.of_nat (length lb))%Z) in *.
  pose proof Hb as Hlen. apply (f_equal length) in Hlen. rewrite !length_app in Hlen.
  cbn [length] in Hlen.
  unfold rlp_read. unfold mbind at 1 2 3, st_bind, get_st, lift, put_st.
  rewrite Hb at 1. rewrite lookup_app_r, Nat.sub_diag by lia. cbn [lookup list_lookup app ok_or].
  replace (b <=? 0x7f)%Z with false by (destruct Hs as [[= -> ->]|[= -> ->]]; lia).
  assert ((rlp_read_len buf (Z.of_nat (length lb)) ≫= rlp_payload buf is_list) (length pre + 1)
    = (Ret (is_list, payload), length pre + S (length lb) + length payload)) as Hp.
  { erewrite st_bind_ret.
    2: { apply (rlp_read_len_mid (pre ++ [b]) lb (payload ++ post));
           [by rewrite Hb, <- app_assoc|by rewrite length_app|done|exact Hv|lia]. }
    rewrite (rlp_payload_mid ((pre ++ [b]) ++ lb) payload post); [|..|done].
    - f_equal. rewrite !length_app. cbn [length]. lia.
    - by rewrite Hb, <- !app_assoc.
    - by rewrite !length_app. }
  rewrite <- Hp. destruct Hs as [[= -> ->]|[= -> ->]].
  - replace (b <=? 0xb7)%Z with false by lia. replace (b <=? 0xbf)%Z with true by lia.
    unfold mbind, st_bind. replace (b - 0xb7)%Z with (Z.of_nat (length lb)) by lia. done.
  - replace (b <=? 0xb7)%Z with false by lia. replace (b <=? 0xbf)%Z with false by lia.
    replace (b <=? 0xf7)%Z with false by lia.
    unfold mbind, st_bind. replace (b - 0xf7)%Z with (Z.of_nat (length lb)) by lia. done.
Qed.

Lemma rlp_read_header pre short is_list payload post :
  rlp_kind short is_list ->
  buf = pre ++ rlp_header short (short + 55) (length payload) ++ payload ++ post ->
  rlp_read buf (length pre)
  = (Ret (is_list, payload),
     length pre + length (rlp_header short (short + 55) (length payload) ++ payload)).
Proof.
  intros Hs Hb. pose proof Hb as Hlen. apply (f_equal length) in Hlen.
  rewrite !length_app in Hlen. unfold rlp_header in *.
  destruct (Nat.ltb_spec (length payload) 56) as [Hshort|Hlong].
  - rewrite (rlp_read_short pre short is_list payload post Hs Hshort Hb), length_app.
    cbn [length]. f_equal. lia.
  - destruct (minimal_be_spec (Z.of_nat (length payload))) as (Hv & Hok & Hl8 & Hpos); [lia|].
    specialize (Hpos ltac:(lia)).
    rewrite (rlp_read_long pre short is_list _ payload post Hs Hok Hv ltac:(lia) Hb), length_app.
    cbn [length]. f_equal. lia.
Qed.

Lemma rlp_read_encoded pre it post :
  bytes_ok (rlp_content it) -> buf = pre ++ rlp_encode it ++ post ->
  rlp_read buf (length pre)
  = (Ret (rlp_is_list it, rlp_content it), length pre + length (rlp_encode it)).
Proof.
  intros Hok Hb. destruct it as [d|l]; cbn [rlp_encode rlp_is_list rlp_content] in *.
  - assert (rlp_bytes d = rlp_header 0x80 (0x80 + 55) (length d) ++ d \/
            exists b, d = [b] /\ rlp_bytes d = d /\ (b < 0x80)%Z) as [He|(b & -> & He & Hlt)].
    { unfold rlp_bytes, rlp_str_prefix. destruct d as [|b [|b' d]]; auto.
      destruct (Z.ltb_spec b 0x80); [right; eauto|by left]. }
    + rewrite He, <- app_assoc in Hb. rewrite He.
      apply (rlp_read_header pre 0x80 false d post); [by left|done].
    + rewrite He in *. unfold rlp_read. unfold mbind at 1 2 3, st_bind, get_st, lift, put_st.
      assert (buf !! length pre = Some b) as ->
        by (rewrite Hb, lookup_app_r, Nat.sub_diag by lia; done). cbn [ok_or]. replace (b <=? 0x7f)%Z with true by lia. done.
  - unfold rlp_list in *. rewrite <- app_assoc in Hb.
    apply (rlp_read_header pre 0xc0 true (concat l) post); [by right|done].
Qed.
End RoundTrip.

(** ** What the reader accepts *)
(** [rlp_reads enc is_list payload]: [enc] is one RLP item with that payload. The reader is
    lenient about lengths: one below 56 may be written in the long form, with leading
    zeros. *)
Inductive rlp_reads : list Z -> bool -> list Z -> Prop :=
  | rlp_single b : (b <= 0x7f)%Z -> rlp_reads [b] false [b]
  | rlp_short short is_list payload :
      rlp_kind short is_list -> length payload < 56 ->
      rlp_reads ((short + Z.of_nat (length payload))%Z :: payload) is_list payload
  | rlp_long short is_list lb payload :
      rlp_kind short is_list -> 0 < length lb <= 8 ->
      from_be lb = Z.of_nat (length payload) ->
      rlp_reads ((short + 55 + Z.of_nat (length lb))%Z :: lb ++ payload) is_list payload.

Lemma rlp_read_complete buf pre enc is_list payload post :
  (Z.of_nat (length buf) < u64_mod)%Z -> bytes_ok enc -> rlp_reads enc is_list payload ->
  buf = pre ++ enc ++ post ->
  rlp_read buf (length pre) = (Ret (is_list, payload), length pre + length enc).
Proof.
  intros Hl Hok He Hb. destruct He as [b Hlt|short il payload Hk Hs|short il lb payload Hk Hn Hv].
  - unfold rlp_read. unfold mbind at 1 2 3, st_bind, get_st, lift, put_st.
    assert (buf !! length pre = Some b) as -> by (rewrite Hb, lookup_app_r, Nat.sub_diag by lia; done).
    cbn [ok_or]. by replace (b <=? 0x7f)%Z with true by lia.
  - rewrite (rlp_read_short buf Hl pre short il payload post Hk Hs Hb). cbn [length]. f_equal. lia.
  - apply Forall_cons in Hok as [_ Hok]. apply bytes_ok_app in Hok as [Hlb _].
    rewrite (rlp_read_long buf Hl pre short il lb payload post Hk Hlb Hv Hn).
    + cbn [length]. rewrite length_app. f_equal. lia.
    + rewrite Hb. cbn [app]. by rewrite <- app_assoc.
Qed.

Lemma rlp_payload_inv buf is_list len pos il payload pos' :
  (0 <= len)%Z -> pos <= length buf ->
  rlp_payload buf is_list len pos = (Ret (il, payload), pos') ->
  il = is_list /\ Z.of_nat (length payload) = len /\ pos' = pos + length payload
  /\ drop pos buf = payload ++ drop pos' buf.
Proof.
  intros Hlen Hpos. unfold rlp_payload, checked_add. mred.
  destruct (_ <? u64_mod)%Z; [|done]. cbn [ok_or].
  destruct (Z.ltb_spec (Z.of_nat (length buf)) (Z.of_nat pos + len)) as [|Hle]; [done|].
  rewrite slice_ret by lia. intros [= <- <- <-].
  rewrite length_take, length_drop. split_and!; [done|lia|lia|].
  replace (Z.to_nat (Z.of_nat pos + len)) with (pos + Z.to_nat len) by lia.
  rewrite Nat.add_sub_swap, Nat.sub_diag by lia.
  by rewrite <- drop_drop, take_drop.
Qed.

Lemma rlp_read_len_inv buf n pos len pos' :
  bytes_ok buf -> (0 < n <= 8)%Z -> pos <= length buf ->
  rlp_read_len buf n pos = (Ret len, pos') ->
  exists lb, Z.of_nat (length lb) = n /\ from_be lb = len /\ pos' = pos + length lb
    /\ pos' <= length buf /\ drop pos buf = lb ++ drop pos' buf.
Proof.
  intros Hb Hn Hpos. unfold rlp_read_len, checked_add. mred.
  destruct (_ <? u64_mod)%Z; [|done]. cbn [ok_or].
  destruct (Z.ltb_spec (Z.of_nat (length buf)) (Z.of_nat pos + n)) as [|Hle]; [done|].
  rewrite slice_ret by lia. intros [= <- <-].
  replace (Z.to_nat (Z.of_nat pos + n) - pos) with (Z.to_nat n) by lia.
  assert (Hok : bytes_ok (take (Z.to_nat n) (drop pos buf))) by by apply bytes_ok_take, bytes_ok_drop.
  assert (Hll : length (take (Z.to_nat n) (drop pos buf)) = Z.to_nat n)
    by (rewrite length_take, length_drop; lia).
  exists (take (Z.to_nat n) (drop pos buf)). rewrite Hll. split_and!; try lia.
  - change (foldl shift_in 0%Z ?l) with (be_to_u64 l). rewrite be_to_u64_eq by done.
    symmetry. apply Z.mod_small. pose proof (from_be_bounds _ Hok) as Hbd. rewrite Hll in Hbd.
    split; [lia|]. eapply Z.lt_le_trans; [apply Hbd|]. unfold u64_mod.
    change 18446744073709551616%Z with (256 ^ 8)%Z. apply Z.pow_le_mono_r; lia.
  - replace (Z.to_nat (Z.of_nat pos + n)) with (pos + Z.to_nat n) by lia.
    by rewrite <- drop_drop, take_drop.
Qed.

Lemma rlp_read_sound buf pos is_list payload pos' :
  bytes_ok buf -> rlp_read buf pos = (Ret (is_list, payload), pos') ->
  exists enc, rlp_reads enc is_list payload /\ pos' = pos + length enc
    /\ drop pos buf = enc ++ drop pos' buf.
Proof.
  intros Hb. unfold rlp_read. unfold mbind at 1 2 3, st_bind, get_st, lift, put_st.
  destruct (buf !! pos) as [b|] eqn:Hpos; [|done]. cbn [ok_or].
  pose proof (lookup_lt_Some _ _ _ Hpos) as Hlt.
  pose proof (Forall_lookup_1 _ _ _ _ Hb Hpos) as Hbyte. unfold is_byte in Hbyte.
  pose proof (drop_S _ _ _ Hpos) as Hdrop. rewrite <- Nat.add_1_r in Hdrop.
  assert (Hshort : forall short il, rlp_kind short il -> (short <= b <= short + 55)%Z ->
    rlp_payload buf il (b - short) (pos + 1) = (Ret (is_list, payload), pos') ->
    exists enc, rlp_reads enc is_list payload /\ pos' = pos + length enc
      /\ drop pos buf = enc ++ drop pos' buf).
  { intros short il Hk Hr H. apply rlp_payload_inv in H as (-> & Hl & -> & Hd); [|lia..].
    exists (b :: payload). split_and!; [|cbn [length]; lia|by rewrite Hdrop, Hd].
    replace b with (short + Z.of_nat (length payload))%Z by lia. constructor; [done|lia]. }
  assert (Hlong : forall short il, rlp_kind short il -> (short + 55 < b <= short + 63)%Z ->
    (rlp_read_len buf (b - (short + 55)) ≫= rlp_payload buf il) (pos + 1)
      = (Ret (is_list, payload), pos') ->
    exists enc, rlp_reads enc is_list payload /\ pos' = pos + length enc
      /\ drop pos buf = enc ++ drop pos' buf).
  { intros short il Hk Hr H. apply st_bind_inv in H as (len & p1 & Hlen & H).
    apply rlp_read_len_inv in Hlen as (lb & Hn & Hv & -> & Hle & Hd1); [|done|lia..].
    assert (0 <= len)%Z.
    { rewrite <- Hv. apply from_be_bounds. apply (bytes_ok_drop (pos + 1)) in Hb.
      rewrite Hd1 in Hb. by apply bytes_ok_app in Hb as [? _]. }
    apply rlp_payload_inv in H as (-> & Hl & -> & Hd2); [|lia..].
    exists (b :: lb ++ payload). split_and!.
    - replace b with (short + 55 + Z.of_nat (length lb))%Z by lia. constructor; [done|lia|lia].
    - cbn [length]. rewrite length_app. lia.
    - rewrite Hdrop, Hd1, Hd2. cbn [app]. by rewrite <- app_assoc. }
  destruct (Z.leb_spec b 0x7f).
  { intros [= <- <- <-]. exists [b]. by split_and!; [constructor|..]. }
  destruct (Z.leb_spec b 0xb7); [apply (Hshort 0x80%Z); [by left|lia]|].
  destruct (Z.leb_spec b 0xbf); [apply (Hlong 0x80%Z); [by left|lia]|].
  destruct (Z.leb_spec b 0xf7); [apply (Hshort 0xc0%Z); [by right|lia]|].
  apply (Hlong 0xc0%Z); [by right|lia].
Qed.

Definition rlp_item (enc payload : list Z) : Prop := exists is_list, rlp_reads enc is_list payload.

Lemma rlp_item_nonempty enc payload : rlp_item enc payload -> 0 < length enc.
Proof. intros [il H]. destruct H; cbn [length]; lia. Qed.

Lemma rlp_reads_header enc is_list payload :
  rlp_reads enc is_list payload -> exists header, enc = header ++ payload.
Proof.
  intros [b _|short il p _ _|short il lb p _ _ _]; [by exists []|by eexists [_]|].
  by eexists (_ :: lb).
Qed.

Lemma rlp_items_complete fuel buf pre encs items :
  (Z.of_nat (length buf) < u64_mod)%Z -> bytes_ok buf -> Forall2 rlp_item encs items ->
  buf = pre ++ concat encs -> length encs < fuel ->
  rlp_items fuel buf (length pre) = Ret items.
Proof.
  intros Hl Hok Hits. revert fuel pre. induction Hits as [|enc item encs items He Hits IH];
    intros fuel pre Hb Hf; (destruct fuel as [|fuel]; [cbn [length] in Hf; lia|]);
    cbn [rlp_items concat] in *.
  - rewrite app_nil_r in Hb. subst buf. by rewrite Nat.ltb_irrefl.
  - pose proof (rlp_item_nonempty _ _ He) as Hne. destruct He as [il He].
    assert (bytes_ok enc) as Henc.
    { rewrite Hb in Hok. apply bytes_ok_app in Hok as [_ Hok]. by apply bytes_ok_app in Hok as [? _]. }
    replace (length pre <? length buf) with true
      by (symmetry; apply Nat.ltb_lt; rewrite Hb, !length_app; lia).
    rewrite (rlp_read_complete buf pre enc il item (concat encs) Hl Henc He Hb). mred.
    rewrite <- length_app, (IH fuel (pre ++ enc)); [done|by rewrite <- app_assoc|].
    cbn [length] in Hf. lia.
Qed.

Lemma rlp_items_sound fuel buf ipos items :
  bytes_ok buf -> rlp_items fuel buf ipos = Ret items ->
  exists encs, drop ipos buf = concat encs /\ Forall2 rlp_item encs items.
Proof.
  intros Hok. revert ipos items. induction fuel as [|fuel IH]; intros ipos items; [done|].
  cbn [rlp_items]. destruct (Nat.ltb_spec ipos (length buf)) as [Hlt|Hge].
  - destruct (rlp_read buf ipos) as [[[il item]|e| | |] pos'] eqn:Hr; try done.
    apply rlp_read_sound in Hr as (enc & He & _ & Hd); [|done]. mred.
    destruct (rlp_items fuel buf pos') as [items'|e| | |] eqn:Hi; try done.
    intros [= <-]. apply IH in Hi as (encs & Hd' & Hits).
    exists (enc :: encs). split; [by rewrite Hd, Hd'|]. constructor; [by exists il|done].
  - intros [= <-]. exists []. split; [by apply drop_ge|constructor].
Qed.

Lemma length_concat_items encs items :
  Forall2 rlp_item encs items -> length encs <= length (concat encs).
Proof.
  induction 1 as [|enc item encs items He _ IH]; [done|]. cbn [concat length].
  rewrite length_app. apply rlp_item_nonempty in He. lia.
Qed.

Lemma rlp_decode_list_reads buf items :
  bytes_ok buf -> (Z.of_nat (length buf) < u64_mod)%Z ->
  rlp_decode_list buf = Ret items <->
  exists enc trailing encs, buf = enc ++ trailing /\ rlp_reads enc true (concat encs) /\
    Forall2 rlp_item encs items.
Proof.
  intros Hok Hl. unfold rlp_decode_list. split.
  - destruct (rlp_read buf 0) as [[[il payload]|e| | |] pos'] eqn:Hr; try done.
    pose proof (rlp_read_safe buf 0 Hok) as Hs. rewrite Hr in Hs. destruct Hs as (_ & _ & Hp).
    apply rlp_read_sound in Hr as (enc & He & _ & Hd); [|done]. mred.
    destruct il; [|done]. cbn [negb]. intros Hi.
    apply rlp_items_sound in Hi as (encs & Hd' & Hits); [|done]. rewrite drop_0 in Hd, Hd'.
    rewrite Hd' in He. eauto 6.
  - intros (enc & trailing & encs & -> & He & Hits). apply bytes_ok_app in Hok as [Henc _].
    pose proof (rlp_read_complete _ [] enc true (concat encs) trailing Hl Henc He eq_refl) as Hr.
    change (length []) with 0 in Hr. rewrite Hr. mred. cbn [negb].
    apply rlp_reads_header in He as [header ->].
    rewrite !length_app in Hl. apply bytes_ok_app in Henc as [_ Hp].
    apply (rlp_items_complete _ _ [] encs items); [lia|done|done|done|].
    apply length_concat_items in Hits. lia.
Qed.

Lemma rlp_encode_nonempty it : rlp_encode it <> [].
Proof.
  destruct it as [d|l]; cbn; unfold rlp_list, rlp_bytes, rlp_str_prefix, rlp_header.
  - destruct d as [|b [|b' d]]; [done| |].
    + destruct (b <? 0x80)%Z; [done|]. by destruct (1 <? 56).
    + by destruct (_ <? 56).
  - by destruct (_ <? 56).
Qed.

Lemma rlp_items_encoded fuel pre its :
  let payload := pre ++ concat (rlp_encode <$> its) in
  (Z.of_nat (length payload) < u64_mod)%Z -> Forall (fun it => bytes_ok (rlp_content it)) its ->
  length its < fuel ->
  rlp_items fuel payload (length pre) = Ret (rlp_content <$> its).
Proof.
  intros payload Hl Hok. revert fuel pre payload Hl.
  induction Hok as [|it its Hit Hits IH]; intros fuel pre payload Hl Hf;
    (destruct fuel as [|fuel]; [cbn [length] in Hf; lia|]); cbn [rlp_items].
  - replace (length pre <? length payload) with false; [done|].
    symmetry. apply Nat.ltb_ge. unfold payload. rewrite length_app. simpl. lia.
  - replace (length pre <? length payload) with true.
    2: { symmetry. apply Nat.ltb_lt. unfold payload. rewrite fmap_cons. cbn [concat].
         rewrite !length_app. pose proof (rlp_encode_nonempty it).
         destruct (rlp_encode it); [done|]. cbn [length]. lia. }
    rewrite (rlp_read_encoded payload Hl pre it
      (concat (fmap (M := list) rlp_encode its)) Hit eq_refl).
    mred. assert (payload = (pre ++ rlp_encode it) ++ concat (rlp_encode <$> its)) as Hp
      by (unfold payload; by rewrite fmap_cons, <- app_assoc).
    rewrite <- length_app, Hp, IH; [done|by rewrite <- Hp|cbn [length] in Hf; lia].
Qed.

Lemma length_concat_encoded its :
  length its <= length (concat (rlp_encode <$> its)).
Proof.
  induction its as [|it its IH]; [done|]. rewrite fmap_cons. cbn [concat length].
  rewrite length_app. pose proof (rlp_encode_nonempty it).
  destruct (rlp_encode it); [done|]. cbn [length]. lia.
Qed.

Lemma rlp_decode_encoded its junk :
  let enc := rlp_list (rlp_encode <$> its) in
  (Z.of_nat (length (enc ++ junk)) < u64_mod)%Z ->
  Forall (fun it => bytes_ok (rlp_content it)) its -> bytes_ok (concat (rlp_encode <$> its)) ->
  rlp_decode_list (enc ++ junk) = Ret (rlp_content <$> its).
Proof.
  intros enc Hl Hits Hok. unfold rlp_decode_list.
  pose proof (rlp_read_encoded (enc ++ junk) Hl []
    (RlpList (fmap (M := list) rlp_encode its)) junk Hok eq_refl) as Hr.
  change (length []) with 0 in Hr. rewrite Hr.
  mred. cbn [rlp_is_list rlp_content negb].
  apply (rlp_items_encoded _ []); [|done|].
  - unfold enc, rlp_list in Hl. rewrite !length_app in Hl. cbn [app]. lia.
  - pose proof (length_concat_encoded its). lia.
Qed.

(** ** The envelope *)
Definition envelope_items (chain : list Z) (tx : Eip1559Tx) (access : list (list Z))
    : list RlpItem :=
  [RlpBytes chain; RlpBytes (tx_nonce tx); RlpBytes (tx_max_priority_fee tx);
   RlpBytes (tx_max_fee tx); RlpBytes (tx_gas_limit tx); RlpBytes (tx_to tx);
   RlpBytes (tx_value tx); RlpBytes (tx_data tx); RlpList access].

(** [0x02 || rlp([chainId, nonce, .., data, accessList])], with the chain id as
    raw bytes. *)
Definition encode_envelope (chain : list Z) (tx : Eip1559Tx) (access : list (list Z)) : list Z :=
  0x02%Z :: rlp_list (rlp_encode <$> envelope_items chain tx access).

Definition fields_ok (chain : list Z) (tx : Eip1559Tx) (access : list (list Z)) : Prop :=
  Forall bytes_ok [chain; tx_nonce tx; tx_max_priority_fee tx; tx_max_fee tx; tx_gas_limit tx;
                   tx_to tx; tx_value tx; tx_data tx; concat access].

Lemma rlp_header_ok short n :
  short = 0x80%Z \/ short = 0xc0%Z -> (Z.of_nat n < u64_mod)%Z ->
  bytes_ok (rlp_header short (short + 55) n).
Proof.
  intros Hs Hn. unfold rlp_header. destruct (Nat.ltb_spec n 56).
  - apply Forall_singleton. unfold is_byte. lia.
  - destruct (minimal_be_spec (Z.of_nat n)) as (_ & Hok & Hl & _); [lia|].
    constructor; [|done]. unfold is_byte. lia.
Qed.

Lemma rlp_encode_ok it :
  bytes_ok (rlp_content it) -> (Z.of_nat (length (rlp_content it)) < u64_mod)%Z ->
  bytes_ok (rlp_encode it).
Proof.
  intros Hok Hl. destruct it as [d|l]; cbn [rlp_encode rlp_content] in *.
  - assert (bytes_ok (rlp_str_prefix (length d) ++ d)) as H.
    { apply bytes_ok_app. split; [|done]. apply (rlp_header_ok 0x80); [by left|done]. }
    unfold rlp_bytes. destruct d as [|b [|b' d]]; try done. by destruct (b <? 0x80)%Z.
  - unfold rlp_list. apply bytes_ok_app. split; [|done].
    apply (rlp_header_ok 0xc0); [by right|done].
Qed.

Lemma length_rlp_content it : length (rlp_content it) <= length (rlp_encode it).
Proof.
  destruct it as [d|l]; cbn; unfold rlp_bytes, rlp_list; [|rewrite length_app; lia].
  destruct d as [|b [|b' d]]; rewrite ?length_app; cbn [length]; try lia.
  destruct (b <? 0x80)%Z; rewrite ?length_app; cbn [length]; lia.
Qed.

Lemma concat_encoded_ok its :
  Forall (fun it => bytes_ok (rlp_content it)) its ->
  (Z.of_nat (length (concat (rlp_encode <$> its))) < u64_mod)%Z ->
  bytes_ok (concat (rlp_encode <$> its)).
Proof.
  induction 1 as [|it its Hit _ IH]; intros Hl; [constructor|].
  rewrite fmap_cons in *. cbn [concat] in *. rewrite length_app in Hl.
  pose proof (length_rlp_content it).
  apply bytes_ok_app. split; [apply rlp_encode_ok; [done|lia]|apply IH; lia].
Qed.

Lemma decode_envelope chain tx access junk :
  fields_ok chain tx access ->
  (Z.of_nat (length (encode_envelope chain tx access ++ junk)) < u64_mod)%Z ->
  decode_eip1559_envelope (encode_envelope chain tx access ++ junk)
  = Ret {| tx_chain_id := (from_be chain mod u64_mod)%Z; tx_nonce := tx_nonce tx;
           tx_max_priority_fee := tx_max_priority_fee tx; tx_max_fee := tx_max_fee tx;
           tx_gas_limit := tx_gas_limit tx; tx_to := tx_to tx; tx_value := tx_value tx;
           tx_data := tx_data tx |}.
Proof.
  intros Hok Hl. unfold fields_ok in Hok. rewrite !Forall_cons in Hok.
  assert (Forall (fun it => bytes_ok (rlp_content it)) (envelope_items chain tx access)) as Hits.
  { unfold envelope_items. rewrite !Forall_cons. cbn [rlp_content].
    pose proof (Forall_nil_2 (fun it => bytes_ok (rlp_content it))). tauto. }
  unfold decode_eip1559_envelope. unfold encode_envelope in *. cbn [app head length] in *.
  rewrite bool_decide_false by auto. unfold slice_from.
  rewrite slice_ret by (cbn [length]; lia). cbn [length drop]. rewrite Nat.sub_succ, Nat.sub_0_r.
  rewrite drop_0, take_ge by lia. mred.
  rewrite rlp_decode_encoded; [|lia|done|].
  2: { apply concat_encoded_ok; [done|]. unfold rlp_list in Hl. rewrite !length_app in Hl. lia. }
  cbn. rewrite be_to_u64_eq by tauto. done.
Qed.

Lemma decode_encoded_tx tx access junk :
  fields_ok (minimal_be (tx_chain_id tx)) tx access -> (0 <= tx_chain_id tx < u64_mod)%Z ->
  (Z.of_nat (length (encode_envelope (minimal_be (tx_chain_id tx)) tx access ++ junk))
   < u64_mod)%Z ->
  decode_eip1559_envelope (encode_envelope (minimal_be (tx_chain_id tx)) tx access ++ junk)
  = Ret tx.
Proof.
  intros Hok Hc Hl. rewrite decode_envelope by done.
  destruct (minimal_be_spec (tx_chain_id tx) Hc) as (Hv & _). rewrite Hv, Z.mod_small by done.
  by destruct tx.
Qed.

(** C20: Decoding inverts the host's encoder: every transaction with a 64-bit
    chain id, encoded with any access list, decodes to exactly its fields,
    whatever bytes follow the list. *)
Theorem eip1559_roundtrip tx access junk :
  fields_ok (minimal_be (tx_chain_id tx)) tx access -> (0 <= tx_chain_id tx < u64_mod)%Z ->
  (Z.of_nat (length (encode_envelope (minimal_be (tx_chain_id tx)) tx access ++ junk))
   < u64_mod)%Z ->
  decode_eip1559_envelope (encode_envelope (minimal_be (tx_chain_id tx)) tx access ++ junk)
  = Ret tx.
Proof. apply decode_encoded_tx. Qed.

(** C39: A chain id longer than eight bytes is not rejected: it is truncated to its
    low 64 bits, which become the chain id of the decoded transaction. *)
Theorem chain_id_truncated chain tx access :
  fields_ok chain tx access ->
  (Z.of_nat (length (encode_envelope chain tx access)) < u64_mod)%Z ->
  exists tx', decode_eip1559_envelope (encode_envelope chain tx access) = Ret tx' /\
    tx_chain_id tx' = (from_be chain mod u64_mod)%Z.
Proof.
  intros Hok Hl. rewrite <- (app_nil_r (encode_envelope chain tx access)) in Hl |- *.
  rewrite decode_envelope by done. eexists. split; [done|]. done.
Qed.

(** ** The envelopes the decoder accepts *)
(** The type byte, one RLP list of at least eight items, then anything: the items are the
    fields in the order of the EIP, of any kind, and the chain id is read modulo 2^64. *)
Inductive envelope_of : list Z -> Eip1559Tx -> Prop :=
  | Envelope_of enc trailing encs chain more tx :
      rlp_reads enc true (concat encs) ->
      Forall2 rlp_item encs
        (chain :: tx_nonce tx :: tx_max_priority_fee tx :: tx_max_fee tx :: tx_gas_limit tx
         :: tx_to tx :: tx_value tx :: tx_data tx :: more) ->
      tx_chain_id tx = (from_be chain mod u64_mod)%Z ->
      envelope_of (0x02%Z :: enc ++ trailing) tx.

Lemma Forall2_rlp_item_ok encs items :
  bytes_ok (concat encs) -> Forall2 rlp_item encs items -> Forall bytes_ok items.
Proof.
  intros Hok Hits. induction Hits as [|enc item encs items [il He] _ IH]; [constructor|].
  cbn [concat] in Hok. apply bytes_ok_app in Hok as [Henc Hok].
  apply rlp_reads_header in He as [header ->]. apply bytes_ok_app in Henc as [_ Hitem].
  constructor; [done|by apply IH].
Qed.

Lemma decode_typed_body body :
  decode_eip1559_envelope (0x02%Z :: body)
  = (items ← rlp_decode_list body;
     if length items <? 8 then
       Fail (thp (str "EIP-1559 payload has " ++ dec (Z.of_nat (length items))
                  ++ str " items, expected at least 8"))
     else
       i0 ← idx items 0; i1 ← idx items 1; i2 ← idx items 2; i3 ← idx items 3;
       i4 ← idx items 4; i5 ← idx items 5; i6 ← idx items 6; i7 ← idx items 7;
       mret {| tx_chain_id := be_to_u64 i0; tx_nonce := i1; tx_max_priority_fee := i2;
               tx_max_fee := i3; tx_gas_limit := i4; tx_to := i5; tx_value := i6;
               tx_data := i7 |}).
Proof.
  unfold decode_eip1559_envelope. cbn [head]. rewrite bool_decide_false by auto.
  unfold slice_from. rewrite slice_ret by (cbn [length]; lia). cbn [length drop].
  rewrite Nat.sub_succ, Nat.sub_0_r, drop_0, take_ge by lia. done.
Qed.

Lemma decode_eip1559_envelope_accepts envelope tx :
  bytes_ok envelope -> (Z.of_nat (length envelope) < u64_mod)%Z ->
  decode_eip1559_envelope envelope = Ret tx <-> envelope_of envelope tx.
Proof.
  intros Hok Hl. split.
  - intros H. destruct envelope as [|b body]; [done|].
    destruct (decide (b = 0x02%Z)) as [->|Hb].
    2: { unfold decode_eip1559_envelope in H. cbn [head] in H.
         rewrite bool_decide_true in H by congruence. done. }
    rewrite decode_typed_body in H. apply Forall_cons in Hok as [_ Hok].
    destruct (rlp_decode_list body) as [items|e| | |] eqn:Hd; try done.
    apply rlp_decode_list_reads in Hd as (enc & trailing & encs & -> & He & Hits);
      [|done|cbn [length] in Hl; lia].
    revert H. mred. destruct (Nat.ltb_spec (length items) 8) as [|H8]; [done|].
    destruct items as [|i0 [|i1 [|i2 [|i3 [|i4 [|i5 [|i6 [|i7 more]]]]]]]];
      try (cbn [length] in H8; lia).
    intros [= <-]. apply (Envelope_of _ _ encs i0 more); [done|exact Hits|].
    apply bytes_ok_app in Hok as [Henc _]. apply rlp_reads_header in He as [header ->].
    apply bytes_ok_app in Henc as [_ Hp]. apply Forall2_rlp_item_ok in Hits; [|done].
    apply Forall_cons in Hits as [Hi0 _]. cbn [tx_chain_id]. by apply be_to_u64_eq.
  - intros H. revert Hok Hl. destruct H as [enc trailing encs chain more t He Hits Hc].
    intros Hok Hl. rewrite decode_typed_body.
    apply Forall_cons in Hok as [_ Hok].
    rewrite (proj2 (rlp_decode_list_reads _ _ Hok ltac:(cbn [length] in Hl; lia)))
      by (exists enc, trailing, encs; split_and!; [done|exact He|exact Hits]).
    mred. cbn [length Nat.ltb Nat.leb idx lookup list_lookup].
    apply bytes_ok_app in Hok as [Henc _]. apply rlp_reads_header in He as [header ->].
    apply bytes_ok_app in Henc as [_ Hp]. apply Forall2_rlp_item_ok in Hits; [|done].
    apply Forall_cons in Hits as [Hi0 _]. rewrite be_to_u64_eq, <- Hc by done. by destruct t.
Qed.

(** C35: The decoder accepts exactly the envelopes, and only reads them one way: any bytes
    at all either decode to the transaction whose fields are the first eight items of
    the RLP list behind the 0x02 type byte (the chain id modulo 2^64), or are reported
    by a protocol error, never by a panic or an endless loop; bytes that do not start
    with the type byte are refused with the error that says so. The reader is lenient: it
    accepts a length written in more bytes than it needs, an item of either RLP kind, and
    anything after the list. *)
Theorem eip1559_decode_total envelope :
  bytes_ok envelope -> (Z.of_nat (length envelope) < u64_mod)%Z ->
  (forall tx, decode_eip1559_envelope envelope = Ret tx <-> envelope_of envelope tx) /\
  match decode_eip1559_envelope envelope with
  | Ret _ => True
  | Fail e => thp_error e
  | _ => False
  end /\
  (head envelope <> Some 0x02%Z ->
   decode_eip1559_envelope envelope
   = Fail (thp (str "not an EIP-1559 (0x02-typed) envelope"))).
Proof.
  intros Hok Hl. split_and!.
  - intros tx. by apply decode_eip1559_envelope_accepts.
  - pose proof (decode_eip1559_envelope_settles envelope Hok) as H.
    by destruct (decode_eip1559_envelope envelope).
  - intros Hh. unfold decode_eip1559_envelope. by rewrite bool_decide_true.
Qed.

(** ** Signing *)
Definition eip1559_message (path : list Z) (tx : Eip1559Tx) : EthereumSignTxEip1559 := {|
  est_address_n := path; est_nonce := tx_nonce tx; est_max_gas_fee := tx_max_fee tx;
  est_max_priority_fee := tx_max_priority_fee tx; est_gas_limit := tx_gas_limit tx;
  est_to := Some (if bool_decide (tx_to tx = []) then [] else str "0x" ++ hex_lower (tx_to tx));
  est_value := tx_value tx; est_data_initial_chunk := Some (tx_data tx);
  est_data_length := (Z.of_nat (length (tx_data tx)) mod u32_mod)%Z;
  est_chain_id := tx_chain_id tx; est_access_list := [] |}.

Section Signing.
Context {EP : EthereumProto} {EL : EthereumProtoLaws}.

(** The answer to the one request an encoded transaction makes. *)
Lemma sign_encoded session_id path tx access req rest host :
  fields_ok (minimal_be (tx_chain_id tx)) tx access -> (0 <= tx_chain_id tx < u64_mod)%Z ->
  (Z.of_nat (length (encode_envelope (minimal_be (tx_chain_id tx)) tx access)) < u64_mod)%Z ->
  an_replies host = inr (ETH_TX_REQUEST, encode_to_vec req) :: rest ->
  sign_eip1559 session_id path (encode_envelope (minimal_be (tx_chain_id tx)) tx access) host
  = (match etr_signature_r req, etr_signature_s req with
     | Some r, Some s =>
       Ret {| sig_v := (if 27 <=? default 0 (etr_signature_v req)
                        then (default 0 (etr_signature_v req) - 27) mod u8_mod
                        else default 0 (etr_signature_v req) mod u8_mod)%Z;
              sig_r := r; sig_s := s |}
     | _, _ => Fail (thp (str
         "EthereumTxRequest carried no signature (device asked for more data?)"))
     end,
     asked (Some session_id) ETH_SIGN_TX_EIP1559 (encode_to_vec (eip1559_message path tx))
       rest host).
Proof.
  intros Hok Hc Hl Hr. unfold sign_eip1559. mred.
  assert (decode_eip1559_envelope (encode_envelope (minimal_be (tx_chain_id tx)) tx access)
          = Ret tx) as ->.
  { rewrite <- (app_nil_r (encode_envelope _ _ _)).
    apply decode_encoded_tx; [done..|by rewrite app_nil_r]. }
  cbn [h_transceive_on scripted_host].
  fold (eip1559_message path tx). rewrite (answer_reply _ _ _ _ _ _ Hr).
  rewrite Z.eqb_refl. cbn [negb]. rewrite decode_encode. cbn [map_err].
  by destruct (etr_signature_r req), (etr_signature_s req).
Qed.

(** C22: Signing an encoded transaction sends the device one request, on the given session
    and path, with every field of the transaction but its access list: the nonce, the
    fees, the gas limit, the recipient in hex, the value, the chain id, and the whole of
    the data as the first chunk, whatever its length. An answer with both R and S is the
    result, with the parity bit (27 and 28 count as 0 and 1); one that lacks either is an
    error. The access list is dropped: whichever one the envelope holds, the request has an
    empty one, and the call is the same. An envelope of another type is refused without
    reaching the device. *)
Theorem sign_eip1559_faithful session_id path tx access req rest host other :
  fields_ok (minimal_be (tx_chain_id tx)) tx access -> (0 <= tx_chain_id tx < u64_mod)%Z ->
  let envelope_with := encode_envelope (minimal_be (tx_chain_id tx)) tx in
  (Z.of_nat (length (envelope_with access)) < u64_mod)%Z ->
  an_replies host = inr (ETH_TX_REQUEST, encode_to_vec req) :: rest ->
  head other <> Some 0x02%Z ->
  let host' := asked (Some session_id) ETH_SIGN_TX_EIP1559
                 (encode_to_vec (eip1559_message path tx)) rest host in
  (forall r s, etr_signature_r req = Some r -> etr_signature_s req = Some s ->
   exists v, sign_eip1559 session_id path (envelope_with access) host
             = (Ret {| sig_v := v; sig_r := r; sig_s := s |}, host') /\
     (forall parity, (parity = 0 \/ parity = 1)%Z ->
      etr_signature_v req = Some parity \/ etr_signature_v req = Some (27 + parity)%Z ->
      v = parity)) /\
  (etr_signature_r req = None \/ etr_signature_s req = None ->
   sign_eip1559 session_id path (envelope_with access) host
   = (Fail (thp (str
       "EthereumTxRequest carried no signature (device asked for more data?)")), host')) /\
  est_access_list (eip1559_message path tx) = [] /\
  (forall access', fields_ok (minimal_be (tx_chain_id tx)) tx access' ->
   (Z.of_nat (length (envelope_with access')) < u64_mod)%Z ->
   sign_eip1559 session_id path (envelope_with access') host
   = sign_eip1559 session_id path (envelope_with access) host) /\
  sign_eip1559 session_id path other host
  = (Fail (thp (str "not an EIP-1559 (0x02-typed) envelope")), host).
Proof.
  intros Hok Hc envelope_with Hl Hr Hother host'.
  split_and!; [|..|done| |unfold sign_eip1559, decode_eip1559_envelope;
                          by rewrite bool_decide_true];
    unfold envelope_with.
  - intros r s Hrr Hss. rewrite (sign_encoded _ _ _ _ req rest) by done.
    rewrite Hrr, Hss. eexists. split; [done|].
    intros parity Hp [-> | ->]; cbn; destruct Hp as [-> | ->]; done.
  - intros Hrs. rewrite (sign_encoded _ _ _ _ req rest) by done.
    destruct Hrs as [-> | ->]; [|destruct (etr_signature_r req)]; reflexivity.
  - intros access' Hok' Hl'.
    pose proof (sign_encoded session_id path tx access' req rest host Hok' Hc Hl' Hr) as ->.
    symmetry. exact (sign_encoded session_id path tx access req rest host Hok Hc Hl Hr).
Qed.
End Signing.

(** ** Witnesses *)

(** The native transfer of the tests, on Sepolia. *)
Definition sample_tx : Eip1559Tx := {|
  tx_chain_id := 11155111; tx_nonce := [5]%Z;
  tx_max_priority_fee := [0x3b; 0x9a; 0xca; 0x00]%Z;
  tx_max_fee := [0x06; 0xfc; 0x23; 0xac; 0x00]%Z; tx_gas_limit := [0x52; 0x08]%Z;
  tx_to := replicate 20 0x11%Z; tx_value := [1]%Z; tx_data := [] |}.

Lemma sample_fields_ok chain : bytes_ok chain -> fields_ok chain sample_tx [].
Proof.
  intros H. unfold fields_ok. rewrite !Forall_cons. split_and!; try done;
    by apply bytes_okb_true.
Qed.

Lemma eip1559_roundtrip_witness :
  decode_eip1559_envelope
    (encode_envelope (minimal_be 11155111) sample_tx [] ++ [1; 2; 3]%Z) = Ret sample_tx.
Proof.
  apply (eip1559_roundtrip sample_tx [] [1; 2; 3]%Z).
  - apply sample_fields_ok. by apply bytes_okb_true.
  - unfold u64_mod. cbn. lia.
  - vm_compute. done.
Defined.

(** The nine-byte id of 2^64 + 1 is taken for chain 1. *)
Lemma chain_id_truncated_witness :
  exists tx', decode_eip1559_envelope
      (encode_envelope [1; 0; 0; 0; 0; 0; 0; 0; 1]%Z sample_tx []) = Ret tx' /\
    tx_chain_id tx' = 1%Z.
Proof.
  apply (chain_id_truncated [1; 0; 0; 0; 0; 0; 0; 0; 1]%Z sample_tx []).
  - apply sample_fields_ok. by apply bytes_okb_true.
  - vm_compute. done.
Defined.

Definition answers_of (replies : list (TrezorError + Z * list Z)) : Answers :=
  {| an_replies := replies; an_entropy := []; an_codes := []; an_log := [] |}.

(** An access list of one item (an empty list) is signed as no list. *)
Lemma sign_eip1559_faithful_witness :
  let EP := toy_ethereum_proto in
  let req := {| etr_data_length := None; etr_signature_v := Some 28%Z;
                etr_signature_r := Some [1]%Z; etr_signature_s := Some [2]%Z |} in
  let host := answers_of [inr (ETH_TX_REQUEST, encode_to_vec req)] in
  let envelope_with := encode_envelope (minimal_be 11155111) sample_tx in
  (exists v, sign_eip1559 1 [0]%Z (envelope_with [[0xc0%Z]]) host
             = (Ret {| sig_v := v; sig_r := [1]%Z; sig_s := [2]%Z |},
                asked (Some 1%Z) ETH_SIGN_TX_EIP1559
                  (encode_to_vec (eip1559_message [0]%Z sample_tx)) [] host) /\
     (forall parity, (parity = 0 \/ parity = 1)%Z ->
      etr_signature_v req = Some parity \/ etr_signature_v req = Some (27 + parity)%Z ->
      v = parity)) /\
  sign_eip1559 1 [0]%Z (envelope_with []) host
  = sign_eip1559 1 [0]%Z (envelope_with [[0xc0%Z]]) host.
Proof.
  intros EP req host envelope_with.
  assert (Hok : fields_ok (minimal_be 11155111) sample_tx [[0xc0%Z]]).
  { unfold fields_ok. rewrite !Forall_cons. split_and!; try done; by apply bytes_okb_true. }
  destruct (sign_eip1559_faithful (EP := toy_ethereum_proto) (EL := toy_ethereum_proto_laws)
           1 [0]%Z sample_tx [[0xc0%Z]] req [] host []) as (Hsigned & _ & _ & Hsame & _).
  - exact Hok.
  - unfold u64_mod. cbn. lia.
  - vm_compute. done.
  - reflexivity.
  - discriminate.
  - split; [by apply Hsigned|]. apply Hsame.
    + apply sample_fields_ok. by apply bytes_okb_true.
    + reflexivity.
Defined.

(** A list header with a needless length byte, and a byte after the list, are accepted; a
    length that exceeds the buffer is not. *)
Lemma eip1559_decode_total_witness :
  envelope_of [0x02; 0xf8; 8; 1; 2; 3; 4; 5; 6; 7; 8; 9]%Z
    {| tx_chain_id := 1; tx_nonce := [2]%Z; tx_max_priority_fee := [3]%Z;
       tx_max_fee := [4]%Z; tx_gas_limit := [5]%Z; tx_to := [6]%Z; tx_value := [7]%Z;
       tx_data := [8]%Z |} /\
  (forall tx, ~ envelope_of (0x02 :: replicate 9 0xff)%Z tx) /\
  decode_eip1559_envelope [] = Fail (thp (str "not an EIP-1559 (0x02-typed) envelope")).
Proof.
  split_and!.
  - destruct (eip1559_decode_total [0x02; 0xf8; 8; 1; 2; 3; 4; 5; 6; 7; 8; 9]%Z) as [H _];
      [by apply bytes_okb_true|reflexivity|].
    apply H. reflexivity.
  - intros tx Htx. destruct (eip1559_decode_total (0x02 :: replicate 9 0xff)%Z) as [H _];
      [by apply bytes_okb_true|reflexivity|].
    apply H in Htx. vm_compute in Htx. discriminate.
  - destruct (eip1559_decode_total []) as (_ & _ & H); [constructor|reflexivity|].
    apply H. discriminate.
Defined.
