(* ===== verification/Solana.v ===== *)
(** * Solana (chains/solana.rs) *)

From S2P Require Import Prelude Types Proto ChainProto Host.

Definition SOL_GET_ADDRESS : Z := 902.
Definition SOL_ADDRESS : Z := 903.
Definition SOL_SIGN_TX : Z := 904.
Definition SOL_TX_SIGNATURE : Z := 905.
Definition SOL_SIGN_MESSAGE : Z := 906.
Definition SOL_MESSAGE_SIGNATURE : Z := 907.

(** m/44'/501'/account'/0' *)
Definition account_path (account : Z) : list Z :=
  [Z.lor 0x80000000 44; Z.lor 0x80000000 501; Z.lor 0x80000000 account; 0x80000000]%Z.

Definition sig_length_error (what : string) (n : nat) : TrezorError :=
  thp (str what ++ str " was " ++ dec (Z.of_nat n) ++ str " bytes, expected 64").

Section Requests.
Context {SP : SolanaProto} {S : Type} `{!Host S}.

Definition get_address (session_id : Z) (path : list Z) : ST S TrezorError rstring :=
  r ← h_transceive_on session_id SOL_GET_ADDRESS
        (encode_to_vec {| sga_address_n := path; sga_show_display := Some false |});
  let '(rt, rp) := r in
  if negb (rt =? SOL_ADDRESS)%Z then throw (wrong_type "SolanaAddress" SOL_ADDRESS rt)
  else
    m ← lift (map_err (decode_failed "SolanaAddress") (decode rp));
    let addr := sa_address m in
    if bool_decide (addr = []) then throw (thp (str "SolanaAddress carried an empty address"))
    else mret addr.

Definition sign_tx (session_id : Z) (path serialized_tx : list Z)
    : ST S TrezorError (list Z) :=
  r ← h_transceive_on session_id SOL_SIGN_TX
        (encode_to_vec {| sst_address_n := path; sst_serialized_tx := serialized_tx |});
  let '(rt, rp) := r in
  if negb (rt =? SOL_TX_SIGNATURE)%Z
  then throw (wrong_type "SolanaTxSignature" SOL_TX_SIGNATURE rt)
  else
    m ← lift (map_err (decode_failed "SolanaTxSignature") (decode rp));
    let sig := sts_signature m in
    if negb (length sig =? 64) then throw (sig_length_error "Solana signature" (length sig))
    else mret sig.

Definition sign_message (session_id : Z) (path message : list Z)
    : ST S TrezorError (list Z) :=
  r ← h_transceive_on session_id SOL_SIGN_MESSAGE
        (encode_to_vec {| ssm_address_n := path; ssm_message := message |});
  let '(rt, rp) := r in
  if negb (rt =? SOL_MESSAGE_SIGNATURE)%Z
  then throw (wrong_type "SolanaMessageSignature" SOL_MESSAGE_SIGNATURE rt)
  else
    m ← lift (map_err (decode_failed "SolanaMessageSignature") (decode rp));
    let sig := sms_signature m in
    if negb (length sig =? 64)
    then throw (sig_length_error "Solana message signature" (length sig))
    else mret sig.
End Requests.

(** ** What a signing request does on every answer *)
Section Properties.
Context {SP : SolanaProto} {SL : SolanaProtoLaws}.

(** C40: Signing a Solana transaction sends the serialized bytes verbatim, in one
    request on the given session and path, and returns what the device signed
    only if it is 64 bytes long; an answer of another type, another length or an
    undecodable one, and a failure of the exchange, are each reported, with no
    further request. *)
Theorem solana_sign_tx_outcomes session_id path tx rest host :
  let host' := asked (Some session_id) SOL_SIGN_TX
    (encode_to_vec {| sst_address_n := path; sst_serialized_tx := tx |}) rest host in
  let run := sign_tx session_id path tx host in
  (forall sig, an_replies host = inr (SOL_TX_SIGNATURE,
       encode_to_vec {| sts_signature := sig |}) :: rest ->
     run = (if length sig =? 64 then Ret sig
            else Fail (sig_length_error "Solana signature" (length sig)), host')) /\
  (forall rt rp, an_replies host = inr (rt, rp) :: rest -> rt <> SOL_TX_SIGNATURE ->
     run = (Fail (wrong_type "SolanaTxSignature" SOL_TX_SIGNATURE rt), host')) /\
  (forall rp err, an_replies host = inr (SOL_TX_SIGNATURE, rp) :: rest ->
     decode (T := SolanaTxSignature) rp = inl err ->
     run = (Fail (decode_failed "SolanaTxSignature" err), host')) /\
  (forall e, an_replies host = inl e :: rest -> run = (Fail e, host')).
Proof.
  intros host' run. unfold run, sign_tx. mred. cbn [h_transceive_on scripted_host].
  split_and!.
  - intros sig Hr. rewrite (answer_reply _ _ _ _ _ _ Hr), Z.eqb_refl. cbn [negb].
    rewrite decode_encode. cbn [map_err sts_signature]. by destruct (length sig =? 64).
  - intros rt rp Hr Hne. rewrite (answer_reply _ _ _ _ _ _ Hr). apply Z.eqb_neq in Hne.
    by rewrite Hne.
  - intros rp err Hr Hd. rewrite (answer_reply _ _ _ _ _ _ Hr), Z.eqb_refl. cbn [negb].
    by rewrite Hd.
  - intros e Hr. by rewrite (answer_error _ _ _ _ _ _ Hr).
Qed.
End Properties.

Lemma solana_sign_tx_outcomes_witness :
  let SP := toy_solana_proto in
  let host := {| an_replies := [inr (SOL_TX_SIGNATURE,
                   encode_to_vec {| sts_signature := replicate 64 7%Z |})];
                 an_entropy := []; an_codes := []; an_log := [] |} in
  sign_tx 1 [0]%Z [1; 2]%Z host
  = (Ret (replicate 64 7%Z),
     asked (Some 1%Z) SOL_SIGN_TX
       (encode_to_vec {| sst_address_n := [0]%Z; sst_serialized_tx := [1; 2]%Z |}) [] host).
Proof.
  intros SP host.
  destruct (solana_sign_tx_outcomes (SP := toy_solana_proto) (SL := toy_solana_proto_laws)
              1 [0]%Z [1; 2]%Z [] host) as [H _].
  exact (H (replicate 64 7%Z) eq_refl).
Defined.
