(* ===== verification/Tron.v ===== *)
(** * Tron (chains/tron.rs) *)

From S2P Require Import Prelude Types Proto ChainProto Host.

Definition TRON_GET_ADDRESS : Z := 2200.
Definition TRON_ADDRESS : Z := 2201.
Definition TRON_SIGN_TX : Z := 2202.
Definition TRON_SIGNATURE : Z := 2203.
Definition TRON_CONTRACT_REQUEST : Z := 2204.
Definition TRON_TRANSFER_CONTRACT : Z := 2205.
Definition TRON_TRIGGER_SMART_CONTRACT : Z := 2206.

(** [TronRawContractType] of messages-tron.proto: the two values the code
    matches on. *)
Definition TransferContract : Z := 1.
Definition TriggerSmartContract : Z := 31.

(** m/44'/195'/account'/0/0 *)
Definition account_path (account : Z) : list Z :=
  [Z.lor 0x80000000 44; Z.lor 0x80000000 195; Z.lor 0x80000000 account; 0; 0]%Z.

Section Requests.
Context {TP : TronProto} {S : Type} `{!Host S}.

(** [{other:?}] of the generated enumeration's [try_from] result. *)
Context (debug_contract_type : Z -> rstring).

Definition get_address (session_id : Z) (path : list Z) : ST S TrezorError rstring :=
  r ← h_transceive_on session_id TRON_GET_ADDRESS
        (encode_to_vec {| tga_address_n := path; tga_show_display := Some false |});
  let '(rt, rp) := r in
  if negb (rt =? TRON_ADDRESS)%Z then throw (wrong_type "TronAddress" TRON_ADDRESS rt)
  else
    m ← lift (map_err (decode_failed "TronAddress") (decode rp));
    let addr := ta_address m in
    if bool_decide (addr = []) then throw (thp (str "TronAddress carried an empty address"))
    else mret addr.

Definition unsupported_contract (t : Z) : TrezorError :=
  thp (str "unsupported Tron contract " ++ debug_contract_type t
       ++ str "; only TRX transfer and TRC-20 (TriggerSmartContract) are supported").

(** The [match TronRawContractType::try_from(contract.type)]: the message that
    answers the device's contract request. *)
Definition contract_message (contract : TronRawContract) : outcome TrezorError (Z * list Z) :=
  let value := trc_value contract in
  if (trc_type contract =? TransferContract)%Z then
    c ← map_err (decode_failed "TronTransferContract") (decode (T := TronTransferContract) value);
    mret (TRON_TRANSFER_CONTRACT, encode_to_vec c)
  else if (trc_type contract =? TriggerSmartContract)%Z then
    c ← map_err (decode_failed "TronTriggerSmartContract")
          (decode (T := TronTriggerSmartContract) value);
    mret (TRON_TRIGGER_SMART_CONTRACT, encode_to_vec c)
  else Fail (unsupported_contract (trc_type contract)).

Definition header_message (path : list Z) (raw : TronRawTransaction) : TronSignTx :=
  {| tst_address_n := path; tst_ref_block_bytes := trt_ref_block_bytes raw;
     tst_ref_block_hash := trt_ref_block_hash raw; tst_expiration := trt_expiration raw;
     tst_data := trt_data raw; tst_timestamp := trt_timestamp raw;
     tst_fee_limit := trt_fee_limit raw |}.

Definition sign_tx (session_id : Z) (path raw_tx_proto : list Z)
    : ST S TrezorError Secp256k1Signature :=
  raw ← lift (map_err (fun e => thp (str "Tron raw_data decode: " ++ e))
                (decode (T := TronRawTransaction) raw_tx_proto));
  contract ← lift (ok_or (thp (str "Tron transaction has no contract")) (head (trt_contract raw)));
  m ← lift (contract_message contract);
  let '(contract_type, contract_body) := m in
  r ← h_transceive_on session_id TRON_SIGN_TX (encode_to_vec (header_message path raw));
  let '(rt, _) := r in
  if negb (rt =? TRON_CONTRACT_REQUEST)%Z
  then throw (wrong_type "TronContractRequest" TRON_CONTRACT_REQUEST rt)
  else
    r2 ← h_transceive contract_type contract_body;
    let '(rt2, rp2) := r2 in
    if negb (rt2 =? TRON_SIGNATURE)%Z
    then throw (wrong_type "TronSignature" TRON_SIGNATURE rt2)
    else
      m ← lift (map_err (decode_failed "TronSignature") (decode rp2));
      let sig := ts_signature m in
      if negb (length sig =? 65) then
        throw (thp (str "Tron signature was " ++ dec (Z.of_nat (length sig))
                    ++ str " bytes, expected 65 (r||s||v)"))
      else
        v ← lift (idx sig 64);
        r ← lift (slice sig 0 32);
        s ← lift (slice sig 32 64);
        mret {| sig_v := v; sig_r := r; sig_s := s |}.
End Requests.

(** ** The structured exchange *)
Section Properties.
Context {TP : TronProto} {TL : TronProtoLaws} (debug_contract_type : Z -> rstring).

(** The raw data of a transaction with one supported contract. *)
Definition transfer_of (c : TronTransferContract) : TronRawContract :=
  {| trc_type := TransferContract; trc_type_url := []; trc_value := encode_to_vec c |}.

(** C38: Signing a TRX transfer makes exactly two requests: the header of the raw
    transaction, unchanged, on the given session and path, then the transfer
    contract, unchanged; and it splits the device's 65-byte signature into r, s
    and v so that [r ++ s ++ v] is that signature. A contract of another type
    is refused before any request. *)
Theorem tron_sign_tx_exchange session_id path raw c more sig rp rest host :
  trt_contract raw = transfer_of c :: more -> length sig = 65 ->
  an_replies host = inr (TRON_CONTRACT_REQUEST, rp)
    :: inr (TRON_SIGNATURE, encode_to_vec {| ts_signature := sig |}) :: rest ->
  (exists s, sign_tx debug_contract_type session_id path (encode_to_vec raw) host
     = (Ret s, {| an_replies := rest; an_entropy := an_entropy host; an_codes := an_codes host;
                  an_log := an_log host ++
                    [(Some session_id, TRON_SIGN_TX, encode_to_vec (header_message path raw));
                     (None, TRON_TRANSFER_CONTRACT, encode_to_vec c)] |}) /\
     sig_r s ++ sig_s s ++ [sig_v s] = sig /\ length (sig_r s) = 32 /\ length (sig_s s) = 32) /\
  (forall bad other, trt_contract other = bad :: more ->
     trc_type bad <> TransferContract -> trc_type bad <> TriggerSmartContract ->
     sign_tx debug_contract_type session_id path (encode_to_vec other) host
     = (Fail (unsupported_contract debug_contract_type (trc_type bad)), host)).
Proof.
  intros Hc Hlen Hr. split.
  - assert (drop 64 sig = [default 0%Z (sig !! 64)]) as Hv.
    { destruct (sig !! 64) as [v|] eqn:Hv; [|apply lookup_ge_None in Hv; lia].
      rewrite (drop_S _ v) by done. by rewrite drop_ge by lia. }
    eexists. split.
    + unfold sign_tx. mred. rewrite decode_encode. cbn [map_err]. rewrite Hc.
      cbn [head ok_or]. unfold contract_message at 1. cbn [transfer_of trc_type trc_value].
      rewrite Z.eqb_refl, decode_encode. mred. cbn [map_err h_transceive_on h_transceive
        scripted_host]. rewrite (answer_reply _ _ _ _ _ _ Hr), Z.eqb_refl. cbn [negb].
      rewrite (answer_reply None _ _ (asked _ _ _ _ _) _ _ eq_refl), Z.eqb_refl. cbn [negb].
      rewrite decode_encode. cbn [map_err ts_signature]. rewrite Hlen. cbn [Nat.eqb negb].
      rewrite (idx_ret _ _ (default 0%Z (sig !! 64))).
      2: { destruct (sig !! 64) as [v|] eqn:E; [done|apply lookup_ge_None in E; lia]. }
      rewrite !slice_ret by lia. unfold asked. cbn. by rewrite <- app_assoc.
    + cbn [sig_r sig_s sig_v]. rewrite <- Hv. rewrite drop_0.
      rewrite length_take, length_take, length_drop, Hlen. split_and!; [|lia..].
      rewrite app_assoc. rewrite take_drop_add. cbn [Nat.add]. apply take_drop.
  - intros bad other Ho H1 H2. unfold sign_tx. mred. rewrite decode_encode. cbn [map_err].
    rewrite Ho. cbn [head ok_or]. unfold contract_message. apply Z.eqb_neq in H1, H2.
    by rewrite H1, H2.
Qed.
End Properties.

Lemma tron_sign_tx_exchange_witness :
  let TP := toy_tron_proto in
  let c := {| ttc_owner_address := [0x41]%Z; ttc_to_address := [0x41]%Z; ttc_amount := 1000000 |} in
  let raw := {| trt_ref_block_bytes := [0x12; 0x34]%Z; trt_ref_block_hash := [0xaa]%Z;
                trt_expiration := 111; trt_data := None; trt_contract := [transfer_of c];
                trt_timestamp := 222; trt_fee_limit := None |} in
  let host := {| an_replies := [inr (TRON_CONTRACT_REQUEST, []); inr (TRON_SIGNATURE,
                   encode_to_vec {| ts_signature := replicate 65 7%Z |})];
                 an_entropy := []; an_codes := []; an_log := [] |} in
  exists s, sign_tx (fun _ => []) 1 [0]%Z (encode_to_vec raw) host
     = (Ret s, {| an_replies := []; an_entropy := []; an_codes := [];
                  an_log := [(Some 1%Z, TRON_SIGN_TX, encode_to_vec (header_message [0]%Z raw));
                             (None, TRON_TRANSFER_CONTRACT, encode_to_vec c)] |}) /\
     sig_r s ++ sig_s s ++ [sig_v s] = replicate 65 7%Z /\
     length (sig_r s) = 32 /\ length (sig_s s) = 32.
Proof.
  intros TP c raw host.
  apply (tron_sign_tx_exchange (TP := toy_tron_proto) (TL := toy_tron_proto_laws)
           (fun _ => []) 1 [0]%Z raw c [] (replicate 65 7%Z) [] [] host).
  - reflexivity.
  - reflexivity.
  - reflexivity.
Defined.
