(* ===== verification/Primality.v ===== *)
(** * Primality certificates

    The prime of the field of thp/elligator2.rs, [2^255 - 19], by a chain of
    Pocklington certificates: each prime of the chain divides the next one minus
    one, and the first is small enough for trial division. *)

From Stdlib Require Import Zpow_facts ZmodInv.
From S2P Require Import Prelude.

#[local] Open Scope Z_scope.

Lemma no_divisor_prime n :
  1 < n -> (forall r, Z.prime r -> (r | n) -> r * r <= n -> False) -> Z.prime n.
Proof.
  intros Hn Hr.
  assert (Hleast : forall d, 1 < d -> (d | n) -> d < n -> False).
  { intros d. induction d as [d IH] using (well_founded_induction (Z.lt_wf 0)).
    intros Hd Hdn Hlt. destruct (Z_le_gt_dec (d * d) n) as [Hsq|Hsq].
    - apply (Hr d); [|done|done]. split; [done|]. intros e He Hed.
      apply (IH e); [lia|lia| |lia]. by transitivity d.
    - destruct Hdn as [e ->]. assert (1 < e) by nia. assert (e < d) by nia.
      apply (IH e); [lia|done|by exists d; lia|nia]. }
  split; [done|]. intros d [Hd Hlt] Hdn. by apply (Hleast d).
Qed.

(** ** Trial division *)
Definition no_factor (n : Z) (b : nat) : bool :=
  forallb (fun d => negb (n mod Z.of_nat d =? 0)) (seq 2 (b - 1)).

Lemma trial_division n b :
  1 < n -> n < (Z.of_nat b + 1) ^ 2 -> no_factor n b = true -> Z.prime n.
Proof.
  intros Hn Hb Hf. apply no_divisor_prime; [done|]. intros r Hr Hrn Hsq.
  pose proof (Z.prime_ge_2 r Hr).
  assert (Hin : In (Z.to_nat r) (seq 2 (b - 1))) by (apply in_seq; nia).
  pose proof (proj1 (List.forallb_forall _ _) Hf _ Hin) as Hnot. cbv beta in Hnot.
  rewrite Z2Nat.id in Hnot by lia. apply Z.mod_divide in Hrn; [|lia].
  by rewrite Hrn in Hnot.
Qed.

(** ** Pocklington's criterion with one large prime factor *)
Lemma pow_one_mul x r i k :
  1 < r -> 0 <= i -> 0 <= k -> x ^ i mod r = 1 -> x ^ (i * k) mod r = 1.
Proof.
  intros Hr Hi Hk H. rewrite Z.pow_mul_r, <- Z.mod_pow_l, H, Z.pow_1_l by lia.
  apply Z.mod_small. lia.
Qed.

Lemma pow_one_coprime x r i j :
  1 < r -> 0 <= i -> 1 <= j -> Z.coprime i j ->
  x ^ i mod r = 1 -> x ^ j mod r = 1 -> x mod r = 1.
Proof.
  intros Hr Hi Hj Hg Hxi Hxj.
  destruct (Z.eq_dec j 1) as [-> |Hj1]; [by rewrite Z.pow_1_r in Hxj|].
  apply Z.Bezout_coprime_iff in Hg as (u & v & Huv).
  pose proof (Z.div_mod u j ltac:(lia)) as Hu. pose proof (Z.mod_pos_bound u j ltac:(lia)).
  set (u' := u mod j) in *.
  assert (E : i * u' = 1 + j * (- v - i * (u / j))) by nia.
  set (w := - v - i * (u / j)) in *. assert (Hw : 0 <= w) by nia.
  pose proof (pow_one_mul x r i u' Hr Hi ltac:(lia) Hxi) as H1.
  rewrite E, Z.pow_add_r, Z.pow_1_r, <- Z.mul_mod_idemp_r,
    (pow_one_mul x r j w Hr ltac:(lia) Hw Hxj), Z.mul_1_r in H1 by nia. done.
Qed.

(** [q] divides [r - 1] for every prime divisor [r] of [n], and [n] has no such divisor
    up to its square root. *)
Definition no_step_factor (n q : Z) (k : nat) : bool :=
  forallb (fun i => negb (n mod (Z.of_nat i * q + 1) =? 0)) (seq 1 k)
  && (n <? (Z.of_nat (S k) * q + 1) ^ 2).

Lemma pocklington n q m k :
  Z.prime q -> 0 < m -> n = m * q + 1 -> 2 ^ (m * q) mod n = 1 ->
  Z.gcd (2 ^ m mod n - 1) n = 1 -> no_step_factor n q k = true -> Z.prime n.
Proof.
  intros Hq Hm Hn Hx Hg [Hk Hs%Z.ltb_lt]%andb_prop. pose proof (Z.prime_ge_2 q Hq).
  assert (Hn1 : 1 < n) by nia.
  rewrite Z.pow_mul_r, <- Z.mod_pow_l in Hx by lia. set (x := 2 ^ m mod n) in *.
  apply no_divisor_prime; [done|]. intros r Hr Hrn Hsq. pose proof (Z.prime_ge_2 r Hr).
  assert (Hxr : x ^ q mod r = 1).
  { rewrite <- (Z.mod_mod_divide _ n r), Hx by done. apply Z.mod_small. lia. }
  assert (Hxnz : x mod r <> 0).
  { intros Hz. rewrite <- Z.mod_pow_l, Hz, Z.pow_0_l, Z.mod_0_l in Hxr by lia. done. }
  pose proof (Z.fermat_nz r x Hr Hxnz) as Hfermat.
  destruct (Z.coprime_prime_l_iff q (r - 1) Hq) as [_ Hcop].
  assert (Hdec : (q | r - 1) \/ ~ (q | r - 1))
    by (rewrite <- Z.mod_divide by lia; destruct (Z.eq_dec ((r - 1) mod q) 0); tauto).
  destruct Hdec as [[i Hi]|Hnd].
  - assert (Hik : 1 <= i) by nia.
    destruct (Z_le_gt_dec i (Z.of_nat k)) as [Hle|Hgt].
    2: { assert (Hbig : Z.of_nat (S k) * q + 1 <= r).
         { assert (Z.of_nat (S k) * q <= i * q) by (apply Z.mul_le_mono_nonneg_r; lia). lia. }
         rewrite Z.pow_2_r in Hs.
         pose proof (Z.mul_le_mono_nonneg _ _ _ _ ltac:(nia) Hbig ltac:(nia) Hbig). lia. }
    assert (Hin : In (Z.to_nat i) (seq 1 k)) by (apply in_seq; lia).
    pose proof (proj1 (List.forallb_forall _ _) Hk _ Hin) as Hnot. cbv beta in Hnot.
    rewrite Z2Nat.id, <- Hi in Hnot by lia. replace (r - 1 + 1) with r in Hnot by lia.
    apply Z.mod_divide in Hrn; [|lia]. by rewrite Hrn in Hnot.
  - pose proof (pow_one_coprime x r q (r - 1) ltac:(lia) ltac:(lia) ltac:(lia) (Hcop Hnd) Hxr
      Hfermat) as H1.
    assert (Hd : (r | Z.gcd (x - 1) n)).
    { apply Z.gcd_greatest; [|done]. apply Z.mod_divide; [lia|].
      rewrite Zminus_mod, H1, (Z.mod_small 1 r) by lia. done. }
    rewrite Hg in Hd. apply Z.divide_1_r_nonneg in Hd; lia.
Qed.

(** ** The chain *)
Lemma prime_8574133 : Z.prime 8574133.
Proof. apply (trial_division _ 2928); [lia|by vm_compute|by vm_compute]. Qed.

(** The powers of 2, by repeated squaring. *)
Definition certificate (n q m : Z) (k : nat) : bool :=
  let x := Zpow_mod 2 m n in
  (0 <? m) && (n =? m * q + 1) && (Zpow_mod x q n =? 1) && (Z.gcd (x - 1) n =? 1)
  && no_step_factor n q k.

Lemma certified n q m k : Z.prime q -> certificate n q m k = true -> Z.prime n.
Proof.
  intros Hq Hc. pose proof (Z.prime_ge_2 q Hq). unfold certificate in Hc.
  rewrite !andb_true_iff in Hc. destruct Hc as [[[[Hm Hn] Hx] Hg] Hk].
  apply Z.ltb_lt in Hm. apply Z.eqb_eq in Hn, Hx, Hg.
  assert (n <> 0) by nia. rewrite !Zpow_mod_correct in Hx by done.
  rewrite Zpow_mod_correct in Hg by done.
  apply (pocklington n q m k); try done. by rewrite Z.pow_mul_r, <- Z.mod_pow_l by lia.
Qed.

Lemma prime_1919519569386763 : Z.prime 1919519569386763.
Proof.
  apply (certified _ 8574133 223873314 5); [apply prime_8574133|vm_compute; reflexivity].
Qed.

Lemma prime_chain_116 : Z.prime 75445702479781427272750846543864801.
Proof.
  apply (certified _ 1919519569386763 39304471641247389600 143);
    [apply prime_1919519569386763|vm_compute; reflexivity].
Qed.

Definition chain_236 : Z :=
  74058212732561358302231226437062788676166966415465897661863160754340907.

Lemma prime_chain_236 : Z.prime chain_236.
Proof.
  apply (certified _ 75445702479781427272750846543864801
    981609426360740691344999861639072106 3); [apply prime_chain_116|vm_compute; reflexivity].
Qed.

(** Modulo [2^255 - 19], [2^255] is [19]: squaring needs no division. *)
Definition p255 : Z := 2 ^ 255 - 19.
Definition fold255 (x : Z) : Z := Z.land x (Z.ones 255) + 19 * Z.shiftr x 255.

Lemma fold255_mod x : fold255 x mod p255 = x mod p255.
Proof.
  unfold fold255. rewrite Z.land_ones, Z.shiftr_div_pow2 by lia.
  pose proof (Z.div_mod x (2 ^ 255) ltac:(lia)) as Hx.
  set (hi := x / 2 ^ 255) in *. set (lo := x mod 2 ^ 255) in *.
  replace x with (lo + 19 * hi + hi * p255) by (unfold p255; lia).
  by rewrite Z.mod_add by done.
Qed.

Fixpoint pow2_255 (e : positive) : Z :=
  match e with
  | xH => 2
  | xO e => let y := pow2_255 e in fold255 (fold255 (y * y))
  | xI e => let y := pow2_255 e in fold255 (fold255 (2 * (y * y)))
  end.

Lemma pow2_255_mod e : pow2_255 e mod p255 = 2 ^ Z.pos e mod p255.
Proof.
  assert (Hsq : forall y z, y mod p255 = z mod p255 -> (y * y) mod p255 = (z ^ 2) mod p255).
  { intros y z H. by rewrite Z.pow_2_r, (Z.mul_mod y y), H, <- Z.mul_mod by done. }
  induction e as [e IH|e IH|]; cbn [pow2_255]; [| |done]; cbv zeta; rewrite !fold255_mod.
  - rewrite <- Z.mul_mod_idemp_r, (Hsq _ _ IH), Z.mul_mod_idemp_r by done.
    rewrite Pos2Z.inj_xI, Z.pow_add_r, Z.pow_1_r, (Z.mul_comm 2 (Z.pos e)) by lia.
    rewrite Z.pow_mul_r by lia. by rewrite (Z.mul_comm _ 2).
  - rewrite (Hsq _ _ IH), (Pos2Z.inj_xO e), (Z.mul_comm 2 (Z.pos e)).
    rewrite (Z.pow_mul_r 2 (Z.pos e) 2) by lia. reflexivity.
Qed.

Lemma prime_25519 : Z.prime p255.
Proof.
  apply (pocklington _ chain_236 781764 0); [apply prime_chain_236|done|reflexivity| | |].
  - change (781764 * chain_236) with (Z.pos (Z.to_pos (781764 * chain_236))).
    rewrite <- pow2_255_mod. vm_compute. reflexivity.
  - rewrite <- Zpow_mod_correct by done. vm_compute. reflexivity.
  - vm_compute. reflexivity.
Qed.
