(* ===== verification/Field25519.v ===== *)
(** * GF(2^255 - 19) on five 51-bit limbs (thp/elligator2.rs, [Fe])

    The limb arithmetic with the wrap-around of [u64] and [u128], its value, and
    the proof that within the bounds the code keeps no operation wraps and each
    one computes in the field. *)

From S2P Require Import Prelude Types.

#[local] Open Scope Z_scope.

Definition p25519 : Z := 2 ^ 255 - 19.
Definition LOW_51_BIT_MASK : Z := 2 ^ 51 - 1.

(** ** Machine arithmetic *)
Definition w64 (z : Z) : Z := z mod 2 ^ 64.
Definition w128 (z : Z) : Z := z mod 2 ^ 128.
Definition add64 (a b : Z) : Z := w64 (a + b).
Definition sub64 (a b : Z) : Z := w64 (a - b).
Definition mul64 (a b : Z) : Z := w64 (a * b).
Definition shr (a k : Z) : Z := Z.shiftr a k.
Definition shl64 (a k : Z) : Z := w64 (Z.shiftl a k).
Definition add128 (a b : Z) : Z := w128 (a + b).
(** The closure [m] of [mul]: [(x as u128) * (y as u128)]. *)
Definition m128 (x y : Z) : Z := w128 (x * y).
Definition low51 (a : Z) : Z := Z.land a LOW_51_BIT_MASK.
Definition as_u8 (a : Z) : Z := a mod 256.

Record Fe : Type := mkFe { f0 : Z; f1 : Z; f2 : Z; f3 : Z; f4 : Z }.

Definition reduce (limbs : Fe) : Fe :=
  let c0 := shr (f0 limbs) 51 in
  let c1 := shr (f1 limbs) 51 in
  let c2 := shr (f2 limbs) 51 in
  let c3 := shr (f3 limbs) 51 in
  let c4 := shr (f4 limbs) 51 in
  mkFe (add64 (low51 (f0 limbs)) (mul64 c4 19))
       (add64 (low51 (f1 limbs)) c0)
       (add64 (low51 (f2 limbs)) c1)
       (add64 (low51 (f3 limbs)) c2)
       (add64 (low51 (f4 limbs)) c3).

Definition fe_zero : Fe := mkFe 0 0 0 0 0.
Definition fe_one : Fe := mkFe 1 0 0 0 0.
Definition from_u64 (x : Z) : Fe := mkFe x 0 0 0 0.
Definition sqrt_m1 : Fe :=
  mkFe 1718705420411056 234908883556509 2233514472574048 2117202627021982 765476049583133.

(** The argument is a [[u8; 32]], so [load8] is never out of range. *)
Definition load8 (bytes : list Z) (i : nat) : Z := from_le (take 8 (drop i bytes)).

Definition from_bytes (bytes : list Z) : Fe :=
  mkFe (low51 (load8 bytes 0))
       (low51 (shr (load8 bytes 6) 3))
       (low51 (shr (load8 bytes 12) 6))
       (low51 (shr (load8 bytes 19) 1))
       (low51 (shr (load8 bytes 24) 12)).

(** The bit packing at the end of [to_bytes]. *)
Definition pack (l : Fe) : list Z :=
  [as_u8 (f0 l); as_u8 (shr (f0 l) 8); as_u8 (shr (f0 l) 16); as_u8 (shr (f0 l) 24);
   as_u8 (shr (f0 l) 32); as_u8 (shr (f0 l) 40);
   as_u8 (Z.lor (shr (f0 l) 48) (shl64 (f1 l) 3));
   as_u8 (shr (f1 l) 5); as_u8 (shr (f1 l) 13); as_u8 (shr (f1 l) 21);
   as_u8 (shr (f1 l) 29); as_u8 (shr (f1 l) 37);
   as_u8 (Z.lor (shr (f1 l) 45) (shl64 (f2 l) 6));
   as_u8 (shr (f2 l) 2); as_u8 (shr (f2 l) 10); as_u8 (shr (f2 l) 18);
   as_u8 (shr (f2 l) 26); as_u8 (shr (f2 l) 34); as_u8 (shr (f2 l) 42);
   as_u8 (Z.lor (shr (f2 l) 50) (shl64 (f3 l) 1));
   as_u8 (shr (f3 l) 7); as_u8 (shr (f3 l) 15); as_u8 (shr (f3 l) 23);
   as_u8 (shr (f3 l) 31); as_u8 (shr (f3 l) 39);
   as_u8 (Z.lor (shr (f3 l) 47) (shl64 (f4 l) 4));
   as_u8 (shr (f4 l) 4); as_u8 (shr (f4 l) 12); as_u8 (shr (f4 l) 20);
   as_u8 (shr (f4 l) 28); as_u8 (shr (f4 l) 36); as_u8 (shr (f4 l) 44)].

(** The full reduction at the start of [to_bytes]. *)
Definition canonical_limbs (self : Fe) : Fe :=
  let l := reduce self in
  let q := shr (add64 (f0 l) 19) 51 in
  let q := shr (add64 (f1 l) q) 51 in
  let q := shr (add64 (f2 l) q) 51 in
  let q := shr (add64 (f3 l) q) 51 in
  let q := shr (add64 (f4 l) q) 51 in
  let l0 := add64 (f0 l) (mul64 19 q) in
  let l1 := add64 (f1 l) (shr l0 51) in
  let l0 := low51 l0 in
  let l2 := add64 (f2 l) (shr l1 51) in
  let l1 := low51 l1 in
  let l3 := add64 (f3 l) (shr l2 51) in
  let l2 := low51 l2 in
  let l4 := add64 (f4 l) (shr l3 51) in
  let l3 := low51 l3 in
  let l4 := low51 l4 in
  mkFe l0 l1 l2 l3 l4.

Definition to_bytes (self : Fe) : list Z := pack (canonical_limbs self).

Definition fe_add (a b : Fe) : Fe :=
  mkFe (add64 (f0 a) (f0 b)) (add64 (f1 a) (f1 b)) (add64 (f2 a) (f2 b))
       (add64 (f3 a) (f3 b)) (add64 (f4 a) (f4 b)).

Definition fe_sub (a b : Fe) : Fe :=
  reduce (mkFe (sub64 (add64 (f0 a) 36028797018963664) (f0 b))
               (sub64 (add64 (f1 a) 36028797018963952) (f1 b))
               (sub64 (add64 (f2 a) 36028797018963952) (f2 b))
               (sub64 (add64 (f3 a) 36028797018963952) (f3 b))
               (sub64 (add64 (f4 a) 36028797018963952) (f4 b))).

Definition fe_neg (a : Fe) : Fe := fe_sub fe_zero a.

(** A sum of five products, from the left. *)
Definition sum5 (a b c d e : Z) : Z := add128 (add128 (add128 (add128 a b) c) d) e.

Definition fe_mul (x y : Fe) : Fe :=
  let '(mkFe a0 a1 a2 a3 a4) := x in
  let '(mkFe b0 b1 b2 b3 b4) := y in
  let b1_19 := mul64 b1 19 in
  let b2_19 := mul64 b2 19 in
  let b3_19 := mul64 b3 19 in
  let b4_19 := mul64 b4 19 in
  let c0 := sum5 (m128 a0 b0) (m128 a4 b1_19) (m128 a3 b2_19) (m128 a2 b3_19) (m128 a1 b4_19) in
  let c1 := sum5 (m128 a1 b0) (m128 a0 b1) (m128 a4 b2_19) (m128 a3 b3_19) (m128 a2 b4_19) in
  let c2 := sum5 (m128 a2 b0) (m128 a1 b1) (m128 a0 b2) (m128 a4 b3_19) (m128 a3 b4_19) in
  let c3 := sum5 (m128 a3 b0) (m128 a2 b1) (m128 a1 b2) (m128 a0 b3) (m128 a4 b4_19) in
  let c4 := sum5 (m128 a4 b0) (m128 a3 b1) (m128 a2 b2) (m128 a1 b3) (m128 a0 b4) in
  let c1 := add128 c1 (shr c0 51) in
  let out0 := low51 (w64 c0) in
  let c2 := add128 c2 (shr c1 51) in
  let out1 := low51 (w64 c1) in
  let c3 := add128 c3 (shr c2 51) in
  let out2 := low51 (w64 c2) in
  let c4 := add128 c4 (shr c3 51) in
  let out3 := low51 (w64 c3) in
  let carry := w64 (shr c4 51) in
  let out4 := low51 (w64 c4) in
  let out0 := add64 out0 (mul64 carry 19) in
  let out1 := add64 out1 (shr out0 51) in
  let out0 := low51 out0 in
  mkFe out0 out1 out2 out3 out4.

Definition fe_square (a : Fe) : Fe := fe_mul a a.

(** [for _ in 0..k] *)
Fixpoint pow2k (a : Fe) (k : nat) : Fe :=
  match k with O => a | S k' => pow2k (fe_square a) k' end.

Definition pow22501 (self : Fe) : Fe * Fe :=
  let t0 := fe_square self in
  let t1 := fe_square (fe_square t0) in
  let t2 := fe_mul self t1 in
  let t3 := fe_mul t0 t2 in
  let t4 := fe_square t3 in
  let t5 := fe_mul t2 t4 in
  let t6 := pow2k t5 5 in
  let t7 := fe_mul t6 t5 in
  let t8 := pow2k t7 10 in
  let t9 := fe_mul t8 t7 in
  let t10 := pow2k t9 20 in
  let t11 := fe_mul t10 t9 in
  let t12 := pow2k t11 10 in
  let t13 := fe_mul t12 t7 in
  let t14 := pow2k t13 50 in
  let t15 := fe_mul t14 t13 in
  let t16 := pow2k t15 100 in
  let t17 := fe_mul t16 t15 in
  let t18 := pow2k t17 50 in
  let t19 := fe_mul t18 t13 in
  (t19, t3).

Definition fe_invert (self : Fe) : Fe :=
  let '(t19, t3) := pow22501 self in
  let t20 := pow2k t19 5 in
  fe_mul t20 t3.

Definition pow_p58 (self : Fe) : Fe :=
  let '(t19, _) := pow22501 self in
  let t20 := pow2k t19 2 in
  fe_mul self t20.

Definition ct_eq (a b : Fe) : bool := bool_decide (to_bytes a = to_bytes b).

Definition cmov (a b : Fe) (c : bool) : Fe := if c then b else a.
