(* ===== verification/FieldSpec.v ===== *)
(** * The field element code computes in GF(2^255 - 19)

    The value of five limbs, the two bounds the code relies on ([tight] after a
    carry, [loose] before one), and for each operation of [Fe] that no machine
    addition, subtraction or product wraps and what the result is modulo p. *)

From S2P Require Import Prelude Types Field25519.
From Stdlib Require Import Setoid Morphisms.

#[local] Open Scope Z_scope.

(** ** Values and bounds *)
Definition value (f : Fe) : Z :=
  f0 f + 2 ^ 51 * f1 f + 2 ^ 102 * f2 f + 2 ^ 153 * f3 f + 2 ^ 204 * f4 f.

Definition below (n : Z) (f : Fe) : Prop :=
  0 <= f0 f < n /\ 0 <= f1 f < n /\ 0 <= f2 f < n /\ 0 <= f3 f < n /\ 0 <= f4 f < n.

Definition tight : Fe -> Prop := below (2 ^ 51 + 2 ^ 18).
Definition loose : Fe -> Prop := below (2 ^ 53).

(** Congruence modulo p. *)
Definition eqp (a b : Z) : Prop := (p25519 | a - b).
#[global] Infix "≡p" := eqp (at level 70, no associativity) : Z_scope.

Lemma eqp_multiple a b k : a = b + k * p25519 -> a ≡p b.
Proof. intros ->. exists k. lia. Qed.

#[export] Instance eqp_equivalence : Equivalence eqp.
Proof.
  split; [intros x; exists 0|intros x y [k H]; exists (- k)|
    intros x y z [k H] [l H']; exists (k + l)]; lia.
Qed.
#[export] Instance eqp_add : Proper (eqp ==> eqp ==> eqp) Z.add.
Proof. intros a a' [k Ha] b b' [l Hb]. exists (k + l). lia. Qed.
#[export] Instance eqp_sub : Proper (eqp ==> eqp ==> eqp) Z.sub.
Proof. intros a a' [k Ha] b b' [l Hb]. exists (k - l). lia. Qed.
#[export] Instance eqp_mul : Proper (eqp ==> eqp ==> eqp) Z.mul.
Proof.
  intros a a' [k Ha] b b' [l Hb]. exists (k * b + a' * l).
  replace (a * b - a' * b') with ((a - a') * b + a' * (b - b')) by ring.
  rewrite Ha, Hb. ring.
Qed.

Lemma eqp_mod_iff a b : a ≡p b <-> a mod p25519 = b mod p25519.
Proof.
  split.
  - intros [k H]. replace a with (b + k * p25519) by lia. by rewrite Z.mod_add.
  - intros H. apply (eqp_multiple a b (a / p25519 - b / p25519)).
    pose proof (Z.div_mod a p25519 ltac:(done)). pose proof (Z.div_mod b p25519 ltac:(done)).
    rewrite H in *. lia.
Qed.

Lemma eqp_mod a : a mod p25519 ≡p a.
Proof. apply eqp_mod_iff, Z.mod_mod. done. Qed.

Lemma eqp_pow a b n : a ≡p b -> a ^ n ≡p b ^ n.
Proof.
  intros H. destruct (Z.lt_ge_cases n 0) as [Hn|Hn].
  { by rewrite !Z.pow_neg_r. }
  revert n Hn. apply natlike_ind; [done|]. intros n Hn IH.
  rewrite !Z.pow_succ_r by done. by apply eqp_mul.
Qed.

(** ** Machine operations that do not wrap *)
Lemma low51_mod a : low51 a = a mod 2 ^ 51.
Proof. unfold low51, LOW_51_BIT_MASK. apply (Z.land_ones a 51). lia. Qed.
Lemma shr_div a k : 0 <= k -> shr a k = a / 2 ^ k.
Proof. apply Z.shiftr_div_pow2. Qed.
Lemma low51_w64 a : low51 (w64 a) = a mod 2 ^ 51.
Proof.
  rewrite low51_mod. unfold w64. change (2 ^ 64) with (2 ^ 51 * 2 ^ 13).
  rewrite Z.rem_mul_r by done. rewrite Z.mul_comm, Z.mod_add, Z.mod_mod; done.
Qed.
Lemma add64_small a b : 0 <= a + b < 2 ^ 64 -> add64 a b = a + b.
Proof. apply Z.mod_small. Qed.
Lemma sub64_small a b : 0 <= a - b < 2 ^ 64 -> sub64 a b = a - b.
Proof. apply Z.mod_small. Qed.
Lemma mul64_small a b : 0 <= a * b < 2 ^ 64 -> mul64 a b = a * b.
Proof. apply Z.mod_small. Qed.
Lemma add128_small a b : 0 <= a + b < 2 ^ 128 -> add128 a b = a + b.
Proof. apply Z.mod_small. Qed.

Lemma carry51 a : a = 2 ^ 51 * (a / 2 ^ 51) + a mod 2 ^ 51 /\ 0 <= a mod 2 ^ 51 < 2 ^ 51.
Proof. split; [by apply Z.div_mod|by apply Z.mod_pos_bound]. Qed.

Lemma mul_bound a b m n : 0 <= a < m -> 0 <= b < n -> 0 <= a * b < m * n.
Proof. nia. Qed.

(** Name quotient and remainder of a carry of [a]. *)
Ltac carry a q r :=
  let H := fresh "H" in
  pose proof (carry51 a) as H;
  set (q := a / 2 ^ 51) in *; set (r := a mod 2 ^ 51) in *;
  clearbody q r; destruct H as [? ?].

Lemma tight_loose f : tight f -> loose f.
Proof. unfold tight, loose, below. lia. Qed.

Lemma reduce_spec f :
  below (2 ^ 64) f ->
  tight (reduce f) /\ value (reduce f) = value f - f4 f / 2 ^ 51 * p25519.
Proof.
  destruct f as [x0 x1 x2 x3 x4]. unfold below, reduce, tight, value. cbn [f0 f1 f2 f3 f4].
  rewrite !low51_mod, !shr_div by done. intros Hb.
  carry x0 q0 r0. carry x1 q1 r1. carry x2 q2 r2. carry x3 q3 r3. carry x4 q4 r4.
  rewrite !mul64_small by lia. rewrite !add64_small by lia.
  unfold below, p25519. cbn [f0 f1 f2 f3 f4]. lia.
Qed.

Lemma fe_add_spec a b n m :
  below n a -> below m b -> n + m <= 2 ^ 64 ->
  below (n + m) (fe_add a b) /\ value (fe_add a b) = value a + value b.
Proof.
  destruct a as [a0 a1 a2 a3 a4], b as [b0 b1 b2 b3 b4]. unfold below, fe_add, value. cbn [f0 f1 f2 f3 f4]. intros Ha Hb Hnm.
  rewrite !add64_small by lia. lia.
Qed.

Lemma fe_sub_spec a b :
  loose a -> loose b -> tight (fe_sub a b) /\ value (fe_sub a b) ≡p value a - value b.
Proof.
  destruct a as [a0 a1 a2 a3 a4], b as [b0 b1 b2 b3 b4]. unfold loose, below, fe_sub.
  cbn [f0 f1 f2 f3 f4]. intros Ha Hb.
  rewrite !add64_small by lia. rewrite !sub64_small by lia.
  match goal with |- context [reduce ?f] => destruct (reduce_spec f) as [Ht Hv] end.
  { unfold below. cbn [f0 f1 f2 f3 f4]. lia. }
  split; [exact Ht|]. rewrite Hv. cbn [f4].
  match goal with |- context [?x / 2 ^ 51] => apply (eqp_multiple _ _ (16 - x / 2 ^ 51)) end.
  unfold value, p25519. cbn [f0 f1 f2 f3 f4]. lia.
Qed.

(** ** Multiplication *)
Lemma sum5_small a b c d e n :
  0 <= a < n -> 0 <= b < n -> 0 <= c < n -> 0 <= d < n -> 0 <= e < n -> 5 * n <= 2 ^ 128 ->
  sum5 a b c d e = a + b + c + d + e /\ 0 <= a + b + c + d + e < 5 * n.
Proof. intros. unfold sum5.
  rewrite (add128_small a b), (add128_small (a + b) c), (add128_small (a + b + c) d),
    add128_small by lia. lia. Qed.

Lemma m128_small a b m n :
  0 <= a < m -> 0 <= b < n -> m * n <= 2 ^ 128 -> m128 a b = a * b /\ 0 <= a * b < m * n.
Proof.
  intros Ha Hb Hmn. pose proof (mul_bound a b m n Ha Hb). split; [|done].
  apply Z.mod_small. lia.
Qed.

(** A column sum, without wrap-around. *)
Lemma column n a0 b0 a1 b1 a2 b2 a3 b3 a4 b4 :
  0 <= a0 < 2 ^ 53 -> 0 <= a1 < 2 ^ 53 -> 0 <= a2 < 2 ^ 53 -> 0 <= a3 < 2 ^ 53 ->
  0 <= a4 < 2 ^ 53 ->
  0 <= b0 < n -> 0 <= b1 < n -> 0 <= b2 < n -> 0 <= b3 < n -> 0 <= b4 < n ->
  n <= 2 ^ 64 ->
  sum5 (m128 a0 b0) (m128 a1 b1) (m128 a2 b2) (m128 a3 b3) (m128 a4 b4)
  = a0 * b0 + a1 * b1 + a2 * b2 + a3 * b3 + a4 * b4
  /\ 0 <= a0 * b0 + a1 * b1 + a2 * b2 + a3 * b3 + a4 * b4 < 5 * (2 ^ 53 * n).
Proof.
  intros A0 A1 A2 A3 A4 B0 B1 B2 B3 B4 Hn.
  destruct (m128_small a0 b0 _ _ A0 B0) as [-> R0]; [lia|].
  destruct (m128_small a1 b1 _ _ A1 B1) as [-> R1]; [lia|].
  destruct (m128_small a2 b2 _ _ A2 B2) as [-> R2]; [lia|].
  destruct (m128_small a3 b3 _ _ A3 B3) as [-> R3]; [lia|].
  destruct (m128_small a4 b4 _ _ A4 B4) as [-> R4]; [lia|].
  apply (sum5_small _ _ _ _ _ _ R0 R1 R2 R3 R4). lia.
Qed.

(** The carry chain that ends [mul], on the exact column sums. *)
Lemma mul_carry c0 c1 c2 c3 c4 f :
  0 <= c0 < 5 * (2 ^ 53 * 2 ^ 58) -> 0 <= c1 < 5 * (2 ^ 53 * 2 ^ 58) ->
  0 <= c2 < 5 * (2 ^ 53 * 2 ^ 58) -> 0 <= c3 < 5 * (2 ^ 53 * 2 ^ 58) ->
  0 <= c4 < 5 * (2 ^ 53 * 2 ^ 53) ->
  f = (let c1 := add128 c1 (shr c0 51) in
       let c2 := add128 c2 (shr c1 51) in
       let c3 := add128 c3 (shr c2 51) in
       let c4 := add128 c4 (shr c3 51) in
       let carry := w64 (shr c4 51) in
       let out0 := add64 (low51 (w64 c0)) (mul64 carry 19) in
       mkFe (low51 out0) (add64 (low51 (w64 c1)) (shr out0 51)) (low51 (w64 c2))
            (low51 (w64 c3)) (low51 (w64 c4))) ->
  tight f
  /\ value f ≡p c0 + 2 ^ 51 * c1 + 2 ^ 102 * c2 + 2 ^ 153 * c3 + 2 ^ 204 * c4.
Proof.
  intros H0 H1 H2 H3 H4 ->. cbv zeta.
  rewrite !low51_w64, !low51_mod, !shr_div by done.
  carry c0 q0 r0. rewrite (add128_small c1) by lia.
  carry (c1 + q0) q1 r1. rewrite (add128_small c2) by lia.
  carry (c2 + q1) q2 r2. rewrite (add128_small c3) by lia.
  carry (c3 + q2) q3 r3. rewrite (add128_small c4) by lia.
  carry (c4 + q3) q4 r4. unfold w64. rewrite (Z.mod_small q4) by lia.
  rewrite mul64_small by lia. rewrite (add64_small r0) by lia.
  carry (r0 + q4 * 19) q5 r5. rewrite add64_small by lia.
  unfold tight, below, value. cbn [f0 f1 f2 f3 f4]. split; [lia|].
  apply (eqp_multiple _ _ (- q4)). unfold p25519. lia.
Qed.

Lemma fe_mul_spec x y :
  loose x -> loose y -> tight (fe_mul x y) /\ value (fe_mul x y) ≡p value x * value y.
Proof.
  destruct x as [a0 a1 a2 a3 a4], y as [b0 b1 b2 b3 b4]. unfold loose, below.
  cbn [f0 f1 f2 f3 f4]. intros Ha Hb. unfold fe_mul.
  rewrite !mul64_small by lia.
  destruct (column (2 ^ 58) a0 b0 a4 (b1 * 19) a3 (b2 * 19) a2 (b3 * 19) a1 (b4 * 19))
    as [-> C0]; [lia..|].
  destruct (column (2 ^ 58) a1 b0 a0 b1 a4 (b2 * 19) a3 (b3 * 19) a2 (b4 * 19))
    as [-> C1]; [lia..|].
  destruct (column (2 ^ 58) a2 b0 a1 b1 a0 b2 a4 (b3 * 19) a3 (b4 * 19)) as [-> C2]; [lia..|].
  destruct (column (2 ^ 58) a3 b0 a2 b1 a1 b2 a0 b3 a4 (b4 * 19)) as [-> C3]; [lia..|].
  destruct (column (2 ^ 53) a4 b0 a3 b1 a2 b2 a1 b3 a0 b4) as [-> C4]; [lia..|].
  destruct (mul_carry _ _ _ _ _ _ C0 C1 C2 C3 C4 eq_refl) as [Ht Hv].
  split; [exact Ht|]. etrans; [exact Hv|]. unfold value. cbn [f0 f1 f2 f3 f4].
  apply (eqp_multiple _ _ (- (a1 * b4 + a2 * b3 + a3 * b2 + a4 * b1
    + 2 ^ 51 * (a2 * b4 + a3 * b3 + a4 * b2) + 2 ^ 102 * (a3 * b4 + a4 * b3)
    + 2 ^ 153 * (a4 * b4)))).
  unfold p25519. ring.
Qed.

(** ** Serialisation *)
(** What is left of a limb string after [s] bits of its first limb [x]. *)
Definition rest_of (x s hi : Z) : Z := x / 2 ^ s + 2 ^ (51 - s) * hi.

Lemma byte_in_limb n x s hi :
  0 <= s -> s + 8 <= 51 ->
  le_bytes (S n) (rest_of x s hi) = as_u8 (shr x s) :: le_bytes n (rest_of x (s + 8) hi).
Proof.
  intros Hs H8. cbn [le_bytes]. rewrite shr_div by done. unfold as_u8, rest_of.
  replace (2 ^ (51 - s) * hi) with (2 ^ (51 - (s + 8)) * hi * 256); cycle 1.
  { replace (51 - s) with (51 - (s + 8) + 8) by lia. rewrite (Z.pow_add_r 2 _ 8) by lia. lia. }
  rewrite Z.mod_add, Z.div_add, Z.div_div by lia. rewrite Z.pow_add_r by lia. done.
Qed.

Lemma byte_across n x s y hi :
  43 < s -> s <= 51 -> 0 <= x < 2 ^ 51 -> 0 <= y < 2 ^ 51 ->
  le_bytes (S n) (rest_of x s (y + 2 ^ 51 * hi))
  = as_u8 (Z.lor (shr x s) (shl64 y (51 - s))) :: le_bytes n (rest_of y (s - 43) hi).
Proof.
  intros Hs Hs' Hx Hy. cbn [le_bytes]. rewrite shr_div by lia. unfold as_u8, rest_of.
  set (k := 51 - s). assert (Hk : 0 <= k < 8) by lia.
  assert (Hlo : 0 <= x / 2 ^ s < 2 ^ k).
  { split; [apply Z.div_pos; lia|]. apply Z.div_lt_upper_bound; [lia|].
    rewrite <- Z.pow_add_r by lia. replace (s + k) with 51 by lia. lia. }
  unfold shl64, w64. rewrite Z.shiftl_mul_pow2 by lia.
  rewrite (Z.mod_small (y * 2 ^ k)); cycle 1.
  { split; [lia|]. apply Z.lt_le_trans with (2 ^ 51 * 2 ^ k); [apply Zmult_lt_compat_r; lia|].
    rewrite <- Z.pow_add_r by lia. apply Z.pow_le_mono_r; lia. }
  rewrite Z.lor_comm, lor_shift_add by lia.
  assert (H256 : 256 = 2 ^ k * 2 ^ (8 - k)) by (rewrite <- Z.pow_add_r by lia; by replace (k + (8 - k)) with 8 by lia).
  f_equal.
  - replace (x / 2 ^ s + 2 ^ k * (y + 2 ^ 51 * hi))
      with (y * 2 ^ k + x / 2 ^ s + 2 ^ k * 2 ^ 43 * hi * 256) by lia.
    by rewrite Z.mod_add by lia.
  - f_equal. rewrite H256, <- Z.div_div by lia.
    rewrite (Z.mul_comm (2 ^ k)), Z.div_add by lia. rewrite (Z.div_small (x / 2 ^ s)), Z.add_0_l by lia.
    replace (8 - k) with (s - 43) by lia.
    replace (2 ^ 51 * hi) with (2 ^ (51 - (s - 43)) * hi * 2 ^ (s - 43)); cycle 1.
    { replace (2 ^ 51) with (2 ^ (51 - (s - 43)) * 2 ^ (s - 43)); [lia|].
      rewrite <- Z.pow_add_r by lia. f_equal. lia. }
    by rewrite Z.div_add by lia.
Qed.

Lemma pack_spec l : below (2 ^ 51) l -> pack l = le_bytes 32 (value l).
Proof.
  destruct l as [x0 x1 x2 x3 x4]. unfold below. cbn [f0 f1 f2 f3 f4]. intros Hb.
  replace (value (mkFe x0 x1 x2 x3 x4))
    with (rest_of x0 0 (x1 + 2 ^ 51 * (x2 + 2 ^ 51 * (x3 + 2 ^ 51 * (x4 + 2 ^ 51 * 0))))).
  2: { unfold rest_of, value. cbn [f0 f1 f2 f3 f4]. rewrite Z.pow_0_r, Z.div_1_r.
       change (51 - 0) with 51. lia. }
  symmetry. unfold pack. cbn [f0 f1 f2 f3 f4].
  assert (E0 : as_u8 x0 = as_u8 (shr x0 0)) by (by rewrite shr_div, Z.pow_0_r, Z.div_1_r).
  rewrite E0.
  do 6 (rewrite byte_in_limb by lia; apply f_equal). rewrite byte_across by lia. apply f_equal.
  do 5 (rewrite byte_in_limb by lia; apply f_equal). rewrite byte_across by lia. apply f_equal.
  do 6 (rewrite byte_in_limb by lia; apply f_equal). rewrite byte_across by lia. apply f_equal.
  do 5 (rewrite byte_in_limb by lia; apply f_equal). rewrite byte_across by lia. apply f_equal.
  do 5 (rewrite byte_in_limb by lia; apply f_equal).
  cbn [le_bytes]. unfold rest_of. by rewrite Z.mul_0_r, Z.add_0_r, shr_div.
Qed.

Lemma canonical_spec f :
  below (2 ^ 64) f ->
  below (2 ^ 51) (canonical_limbs f) /\ value (canonical_limbs f) = value f mod p25519.
Proof.
  intros Hf. destruct (reduce_spec f Hf) as [Ht Hv].
  unfold canonical_limbs. set (l := reduce f) in *. clearbody l.
  destruct l as [x0 x1 x2 x3 x4]. unfold tight, below in Ht. cbn [f0 f1 f2 f3 f4] in *.
  rewrite !low51_mod, !shr_div by done.
  rewrite (add64_small x0 19) by lia. carry (x0 + 19) q0 r0.
  rewrite (add64_small x1) by lia. carry (x1 + q0) q1 r1.
  rewrite (add64_small x2 q1) by lia. carry (x2 + q1) q2 r2.
  rewrite (add64_small x3 q2) by lia. carry (x3 + q2) q3 r3.
  rewrite (add64_small x4 q3) by lia. carry (x4 + q3) q r4.
  assert (Hq : 0 <= q <= 1) by lia.
  rewrite mul64_small by lia. rewrite (add64_small x0) by lia. carry (x0 + 19 * q) d0 l0.
  rewrite (add64_small x1) by lia. carry (x1 + d0) d1 l1.
  rewrite (add64_small x2) by lia. carry (x2 + d1) d2 l2.
  rewrite (add64_small x3) by lia. carry (x3 + d2) d3 l3.
  rewrite (add64_small x4) by lia. carry (x4 + d3) d4 l4.
  unfold value at 2 in Hv. unfold value at 1 in Hv. cbn [f0 f1 f2 f3 f4] in Hv.
  unfold below, value at 1. cbn [f0 f1 f2 f3 f4]. split; [lia|].
  apply (Z.mod_unique _ _ (f4 f / 2 ^ 51 + q)); unfold p25519 in *; unfold value in *; lia.
Qed.

Lemma to_bytes_spec f :
  below (2 ^ 64) f -> to_bytes f = le_bytes 32 (value f mod p25519).
Proof.
  intros Hf. unfold to_bytes. destruct (canonical_spec f Hf) as [Hb <-]. by apply pack_spec.
Qed.

Lemma below_mono m n f : m <= n -> below m f -> below n f.
Proof. unfold below. lia. Qed.

Lemma loose_u64 f : loose f -> below (2 ^ 64) f.
Proof. by apply below_mono. Qed.

Lemma le_bytes_inj n x y :
  0 <= x < 256 ^ Z.of_nat n -> 0 <= y < 256 ^ Z.of_nat n ->
  le_bytes n x = le_bytes n y -> x = y.
Proof.
  intros Hx Hy H. rewrite <- (Z.mod_small x (256 ^ Z.of_nat n)), <- from_le_le_bytes by done.
  rewrite H, from_le_le_bytes. by apply Z.mod_small.
Qed.

Lemma residue_bytes z : 0 <= z mod p25519 < 256 ^ Z.of_nat 32.
Proof.
  pose proof (Z.mod_pos_bound z p25519 ltac:(done)). change (256 ^ Z.of_nat 32) with (2 ^ 256).
  unfold p25519 in *. lia.
Qed.

Lemma ct_eq_spec a b :
  loose a -> loose b -> ct_eq a b = bool_decide (value a mod p25519 = value b mod p25519).
Proof.
  intros Ha Hb. unfold ct_eq. rewrite !to_bytes_spec by by apply loose_u64.
  apply bool_decide_ext. split; [|congruence].
  apply le_bytes_inj; apply residue_bytes.
Qed.

(** ** Parsing *)
Lemma from_le_app l1 l2 :
  from_le (l1 ++ l2) = from_le l1 + 256 ^ Z.of_nat (length l1) * from_le l2.
Proof.
  induction l1 as [|b l1 IH]; [rewrite Z.pow_0_r; simpl app; simpl (from_le []); lia|].
  cbn [app length from_le foldr]. fold (from_le (l1 ++ l2)) (from_le l1). rewrite IH.
  rewrite Nat2Z.inj_succ, Z.pow_succ_r by lia. lia.
Qed.

Lemma from_le_drop l i :
  bytes_ok l -> (i <= length l)%nat ->
  from_le (drop i l) = from_le l / 256 ^ Z.of_nat i.
Proof.
  intros Hl Hi. rewrite <- (take_drop i l) at 2. rewrite from_le_app.
  rewrite length_take_le by done. rewrite (Z.mul_comm (256 ^ _)), Z.div_add by lia.
  rewrite Z.div_small; [done|]. pose proof (from_le_bounds (take i l) ltac:(auto with trezor)) as B.
  by rewrite length_take_le in B.
Qed.

Lemma from_le_take l n :
  bytes_ok l -> (n <= length l)%nat ->
  from_le (take n l) = from_le l mod 256 ^ Z.of_nat n.
Proof.
  intros Hl Hn. rewrite <- (take_drop n l) at 2. rewrite from_le_app.
  rewrite length_take_le by done. rewrite (Z.mul_comm (256 ^ _)), Z.mod_add by lia.
  rewrite Z.mod_small; [done|]. pose proof (from_le_bounds (take n l) ltac:(auto with trezor)) as B.
  by rewrite length_take_le in B.
Qed.

(** 51 bits of [N] from bit [8 * i + s], taken out of the eight bytes at [i]. *)
Lemma limb_of_bytes l i s :
  bytes_ok l -> length l = 32%nat -> (i + 8 <= 32)%nat -> 0 <= s -> s + 51 <= 64 ->
  low51 (shr (load8 l i) s) = (from_le l / 2 ^ (8 * Z.of_nat i + s)) mod 2 ^ 51.
Proof.
  intros Hl Hlen Hi Hs Hs'. unfold load8.
  rewrite from_le_take by (auto with trezor; rewrite length_drop; lia).
  rewrite from_le_drop by (done || lia). rewrite low51_mod, shr_div by done.
  change (256 ^ Z.of_nat 8) with (2 ^ 64). replace (256 ^ Z.of_nat i) with (2 ^ (8 * Z.of_nat i)).
  2: { change 256 with (2 ^ 8). rewrite <- Z.pow_mul_r by lia. done. }
  set (N := from_le l). set (a := 8 * Z.of_nat i). assert (0 <= a) by lia.
  apply Z.bits_inj'. intros j Hj. destruct (Z.lt_ge_cases j 51) as [Hlt|Hge].
  - rewrite !Z.mod_pow2_bits_low by done.
    rewrite !Z.div_pow2_bits by lia. rewrite Z.mod_pow2_bits_low by lia.
    rewrite Z.div_pow2_bits by lia. f_equal. lia.
  - by rewrite !Z.mod_pow2_bits_high.
Qed.

Lemma split_51 N : N = N mod 2 ^ 51 + 2 ^ 51 * (N / 2 ^ 51).
Proof. rewrite Z.add_comm. by apply Z.div_mod. Qed.

Lemma from_bytes_spec l :
  bytes_ok l -> length l = 32%nat ->
  tight (from_bytes l) /\ value (from_bytes l) = from_le l mod 2 ^ 255.
Proof.
  intros Hl Hlen. unfold from_bytes.
  assert (E0 : low51 (load8 l 0) = low51 (shr (load8 l 0) 0))
    by (by rewrite shr_div, Z.pow_0_r, Z.div_1_r).
  rewrite E0, !limb_of_bytes by (done || lia).
  change (8 * Z.of_nat 0 + 0) with 0. change (8 * Z.of_nat 6 + 3) with 51.
  change (8 * Z.of_nat 12 + 6) with 102. change (8 * Z.of_nat 19 + 1) with 153.
  change (8 * Z.of_nat 24 + 12) with 204. rewrite Z.pow_0_r, Z.div_1_r.
  set (N := from_le l). unfold tight, below, value. cbn [f0 f1 f2 f3 f4].
  split.
  - assert (B : forall x, 0 <= x mod 2 ^ 51 < 2 ^ 51 + 2 ^ 18).
    { intros x. pose proof (Z.mod_pos_bound x (2 ^ 51) ltac:(done)). lia. }
    repeat split; apply B.
  - change (2 ^ 255) with (2 ^ 51 * (2 ^ 51 * (2 ^ 51 * (2 ^ 51 * 2 ^ 51)))).
    rewrite !Z.rem_mul_r by done. rewrite !Z.div_div by done.
    change (2 ^ 51 * 2 ^ 51) with (2 ^ 102). change (2 ^ 102 * 2 ^ 51) with (2 ^ 153).
    change (2 ^ 153 * 2 ^ 51) with (2 ^ 204). lia.
Qed.

(** ** Exponentiation *)
(** [x] holds the [e]-th power of [z]. *)
Definition holds (z : Z) (x : Fe) (e : Z) : Prop :=
  loose x /\ 0 <= e /\ value x ≡p z ^ e.

Section Powers.
Context (z : Z).

Lemma holds_mul x y a b : holds z x a -> holds z y b -> holds z (fe_mul x y) (a + b).
Proof.
  intros (Tx & Ha & Vx) (Ty & Hb & Vy).
  destruct (fe_mul_spec x y Tx Ty) as [T V].
  split; [by apply tight_loose|]. split; [lia|]. rewrite V, Vx, Vy, Z.pow_add_r by done. done.
Qed.

Lemma holds_square x a : holds z x a -> holds z (fe_square x) (2 * a).
Proof. intros H. replace (2 * a) with (a + a) by lia. by apply holds_mul. Qed.

Lemma holds_pow2k k x a : holds z x a -> holds z (pow2k x k) (a * 2 ^ Z.of_nat k).
Proof.
  revert x a. induction k as [|k IH]; intros x a H.
  - cbn [pow2k]. by rewrite Z.mul_1_r.
  - cbn [pow2k]. rewrite Nat2Z.inj_succ, Z.pow_succ_r by lia.
    replace (a * (2 * 2 ^ Z.of_nat k)) with (2 * a * 2 ^ Z.of_nat k) by lia.
    by apply IH, holds_square.
Qed.

Lemma holds_exp x a b : a = b -> holds z x a -> holds z x b.
Proof. by intros ->. Qed.

(** Name the result [t] of one step of an addition chain and forget how it was computed. *)
Ltac chain t H :=
  let X := fresh "P" in
  pose proof H as X;
  match type of X with holds _ ?e _ => set (t := e) in *; clearbody t end.

Lemma pow22501_spec x :
  holds z x 1 -> holds z (pow22501 x).1 (2 ^ 250 - 1) /\ holds z (pow22501 x).2 11.
Proof.
  intros H. unfold pow22501. cbv zeta. cbn [fst snd].
  chain t0 (holds_square _ _ H). chain t1 (holds_square _ _ (holds_square _ _ P)).
  chain t2 (holds_mul _ _ _ _ H P0). chain t3 (holds_mul _ _ _ _ P P1).
  chain t4 (holds_square _ _ P2). chain t5 (holds_mul _ _ _ _ P1 P3).
  chain t6 (holds_pow2k 5 _ _ P4). chain t7 (holds_mul _ _ _ _ P5 P4).
  chain t8 (holds_pow2k 10 _ _ P6). chain t9 (holds_mul _ _ _ _ P7 P6).
  chain t10 (holds_pow2k 20 _ _ P8). chain t11 (holds_mul _ _ _ _ P9 P8).
  chain t12 (holds_pow2k 10 _ _ P10). chain t13 (holds_mul _ _ _ _ P11 P6).
  chain t14 (holds_pow2k 50 _ _ P12). chain t15 (holds_mul _ _ _ _ P13 P12).
  chain t16 (holds_pow2k 100 _ _ P14). chain t17 (holds_mul _ _ _ _ P15 P14).
  chain t18 (holds_pow2k 50 _ _ P16). chain t19 (holds_mul _ _ _ _ P17 P12).
  split; [apply (holds_exp _ _ _ ltac:(vm_compute; reflexivity) P18)|exact P2].
Qed.

Lemma invert_spec x :
  holds z x 1 -> tight (fe_invert x) /\ value (fe_invert x) ≡p z ^ (p25519 - 2).
Proof.
  intros H. destruct (pow22501_spec x H) as [Ha Hb]. unfold fe_invert.
  destruct (pow22501 x) as [t19 t3]. cbn [fst snd] in *.
  assert (H5 := holds_pow2k 5 _ _ Ha).
  split; [apply fe_mul_spec; [apply H5|apply Hb]|].
  refine (proj2 (proj2 (holds_exp _ _ _ _ (holds_mul _ _ _ _ H5 Hb)))).
  vm_compute. reflexivity.
Qed.

Lemma pow_p58_spec x :
  holds z x 1 -> tight (pow_p58 x) /\ value (pow_p58 x) ≡p z ^ (2 ^ 252 - 3).
Proof.
  intros H. destruct (pow22501_spec x H) as [Ha _]. unfold pow_p58.
  destruct (pow22501 x) as [t19 t3]. cbn [fst snd] in *.
  assert (H2 := holds_pow2k 2 _ _ Ha).
  split; [apply fe_mul_spec; [apply H|apply H2]|].
  refine (proj2 (proj2 (holds_exp _ _ _ _ (holds_mul _ _ _ _ H H2)))).
  vm_compute. reflexivity.
Qed.
End Powers.

Lemma holds_self x : loose x -> holds (value x) x 1.
Proof. intros H. split; [done|]. split; [lia|]. by rewrite Z.pow_1_r. Qed.

(** ** Elements with a known residue *)
Definition elem (f : Fe) (v : Z) : Prop := tight f /\ value f ≡p v.
Definition loose_elem (f : Fe) (v : Z) : Prop := loose f /\ value f ≡p v.

Section Elements.
Implicit Types (f g : Fe) (v w : Z).

Lemma elem_loose f v : elem f v -> loose_elem f v.
Proof. intros [T V]. split; [by apply tight_loose|done]. Qed.

Lemma elem_mul f g v w : loose_elem f v -> loose_elem g w -> elem (fe_mul f g) (v * w).
Proof.
  intros [Lf Vf] [Lg Vg]. destruct (fe_mul_spec f g Lf Lg) as [T V].
  split; [done|]. by rewrite V, Vf, Vg.
Qed.

Lemma elem_square f v : loose_elem f v -> elem (fe_square f) (v * v).
Proof. intros H. by apply elem_mul. Qed.

Lemma elem_neg f v : loose_elem f v -> elem (fe_neg f) (- v).
Proof.
  intros [L V]. destruct (fe_sub_spec fe_zero f) as [T W]; [|done|].
  { unfold loose, below, fe_zero. cbn [f0 f1 f2 f3 f4]. lia. }
  split; [done|]. unfold fe_neg. rewrite W, V. done.
Qed.

Lemma elem_add f g v w : elem f v -> elem g w -> loose_elem (fe_add f g) (v + w).
Proof.
  intros [Tf Vf] [Tg Vg]. destruct (fe_add_spec f g _ _ Tf Tg) as [B E]; [lia|].
  split; [|by rewrite E, Vf, Vg]. revert B. by apply below_mono.
Qed.

(** [2a + 1] stays within the bound of a factor. *)
Lemma elem_double_one f v :
  elem f v -> loose_elem (fe_add (fe_add f f) fe_one) (v + v + 1).
Proof.
  intros [T V]. destruct (fe_add_spec f f _ _ T T) as [B E]; [lia|].
  destruct (fe_add_spec (fe_add f f) fe_one _ 2 B) as [B1 E1].
  { unfold below, fe_one. cbn [f0 f1 f2 f3 f4]. lia. }
  { lia. }
  split; [revert B1; by apply below_mono|].
  rewrite E1, E, V. done.
Qed.

Lemma elem_small x : 0 <= x < 2 ^ 51 -> elem (from_u64 x) x.
Proof.
  intros Hx. split.
  - unfold tight, below, from_u64. cbn [f0 f1 f2 f3 f4]. lia.
  - unfold value, from_u64. cbn [f0 f1 f2 f3 f4]. apply (eqp_multiple _ _ 0). lia.
Qed.

Lemma elem_invert f v : loose_elem f v -> elem (fe_invert f) (v ^ (p25519 - 2)).
Proof.
  intros [T V]. destruct (invert_spec (value f) f (holds_self f T)) as [T' V'].
  split; [done|]. rewrite V'. by apply eqp_pow.
Qed.

Lemma elem_pow_p58 f v : loose_elem f v -> elem (pow_p58 f) (v ^ (2 ^ 252 - 3)).
Proof.
  intros [T V]. destruct (pow_p58_spec (value f) f (holds_self f T)) as [T' V'].
  split; [done|]. rewrite V'. by apply eqp_pow.
Qed.

Lemma elem_ct_eq f g v w :
  loose_elem f v -> loose_elem g w ->
  ct_eq f g = bool_decide (v mod p25519 = w mod p25519).
Proof.
  intros [Lf Vf] [Lg Vg]. rewrite ct_eq_spec by done.
  apply eqp_mod_iff in Vf, Vg. by rewrite Vf, Vg.
Qed.

Lemma elem_cmov (c : bool) f g v w :
  elem f v -> elem g w -> elem (cmov f g c) (if c then w else v).
Proof. by destruct c. Qed.

Lemma elem_to_bytes f v : elem f v -> to_bytes f = le_bytes 32 (v mod p25519).
Proof.
  intros [T V]. rewrite to_bytes_spec by by apply loose_u64, tight_loose.
  apply eqp_mod_iff in V. by rewrite V.
Qed.
End Elements.
