(* ===== verification/Elligator2.v ===== *)
(** * Elligator2 (thp/elligator2.rs, [map_to_curve25519])

    The straight-line program on limbs, and the same map on residues modulo p
    (RFC 9380, section 6.7.1 on Curve25519, without the y coordinate). *)

From S2P Require Import Prelude Types Field25519 FieldSpec.

#[local] Open Scope Z_scope.

Definition map_to_curve25519 (input : list Z) : list Z :=
  let u := from_bytes input in
  let c3 := sqrt_m1 in
  let j := from_u64 486662 in
  let one := fe_one in
  let tv1 := fe_square u in
  let tv1 := fe_add tv1 tv1 in
  let xd := fe_add tv1 one in
  let x1n := fe_neg j in
  let tv2 := fe_square xd in
  let gxd := fe_mul tv2 xd in
  let gx1 := fe_mul j tv1 in
  let gx1 := fe_mul gx1 x1n in
  let gx1 := fe_add gx1 tv2 in
  let gx1 := fe_mul gx1 x1n in
  let tv3 := fe_square gxd in
  let tv2b := fe_square tv3 in
  let tv3 := fe_mul tv3 gxd in
  let tv3 := fe_mul tv3 gx1 in
  let tv2b := fe_mul tv2b tv3 in
  let y11 := pow_p58 tv2b in
  let y11 := fe_mul y11 tv3 in
  let y12 := fe_mul y11 c3 in
  let tv2c := fe_square y11 in
  let tv2c := fe_mul tv2c gxd in
  let e1 := ct_eq tv2c gx1 in
  let y1 := cmov y12 y11 e1 in
  let x2n := fe_mul x1n tv1 in
  let tv2d := fe_square y1 in
  let tv2d := fe_mul tv2d gxd in
  let e3 := ct_eq tv2d gx1 in
  let xn := cmov x2n x1n e3 in
  let x := fe_mul xn (fe_invert xd) in
  to_bytes x.

(** ** The map on residues *)
(** The coefficient of [v^2 = u^3 + J u^2 + u]. *)
Definition J25519 : Z := 486662.
Definition root_m1 : Z := value sqrt_m1.

(** The first candidate is the fraction [-J / xd]; [gx1 / xd^3] is the value of
    the curve polynomial there. *)
Definition denominator (u : Z) : Z := 2 * u ^ 2 + 1.
Definition numerator (u : Z) : Z :=
  - J25519 * (denominator u ^ 2 - J25519 ^ 2 * (2 * u ^ 2)).

(** A candidate for the square root of [gx1 / xd^3]. *)
Definition root_candidate (u : Z) : Z :=
  let gxd := denominator u ^ 3 in
  (gxd ^ 7 * numerator u) ^ (2 ^ 252 - 3) * (gxd ^ 3 * numerator u).

Definition is_root (u y : Z) : bool :=
  bool_decide ((y ^ 2 * denominator u ^ 3) mod p25519 = numerator u mod p25519).

Definition elligator2 (u : Z) : Z :=
  let y := root_candidate u in
  let square := is_root u y || is_root u (y * root_m1) in
  let xn := if square then - J25519 else - J25519 * (2 * u ^ 2) in
  (xn * denominator u ^ (p25519 - 2)) mod p25519.

(** ** The limb program computes the map *)
Lemma root_m1_elem : elem sqrt_m1 root_m1.
Proof. split; [|done]. unfold tight, below. cbn [f0 f1 f2 f3 f4 sqrt_m1]. lia. Qed.

Lemma root_m1_squared : (root_m1 ^ 2 + 1) mod p25519 = 0.
Proof. vm_compute. reflexivity. Qed.

Lemma elem_eq f v w : v = w -> elem f v -> elem f w.
Proof. by intros ->. Qed.
Lemma loose_eq f v w : v = w -> loose_elem f v -> loose_elem f w.
Proof. by intros ->. Qed.

Lemma is_root_elem f g h y u :
  loose_elem f y -> loose_elem g (denominator u ^ 3) -> loose_elem h (numerator u) ->
  ct_eq (fe_mul (fe_square f) g) h = is_root u y.
Proof.
  intros Hf Hg Hh.
  rewrite (elem_ct_eq _ _ (y ^ 2 * denominator u ^ 3) (numerator u)); [done| |exact Hh].
  apply elem_loose, (elem_eq _ (y * y * denominator u ^ 3)); [ring|].
  apply elem_mul; [by apply elem_loose, elem_square|exact Hg].
Qed.

Lemma is_root_choice u y y' :
  is_root u (if is_root u y then y else y') = is_root u y || is_root u y'.
Proof. destruct (is_root u y) eqn:Hy; [exact Hy|reflexivity]. Qed.

(** Name a limb value, recall the residue [v] it holds and forget the limbs. *)
Ltac named t v H :=
  let X := fresh "E" in
  pose proof H as X;
  first [apply (elem_eq _ _ v) in X; [|unfold numerator, denominator; ring]
        |apply (loose_eq _ _ v) in X; [|unfold numerator, denominator; ring]];
  match type of X with _ ?e _ => set (t := e) in *; clearbody t end.

(** The second half of the program: the candidate root, its two checks and the
    choice of the numerator. *)
Lemma map_tail z xd tv1 x1n gxd gx1 :
  loose_elem xd (denominator z) -> loose_elem tv1 (2 * z ^ 2) -> elem x1n (- J25519) ->
  loose_elem gxd (denominator z ^ 3) -> loose_elem gx1 (numerator z) ->
  (let tv3 := fe_square gxd in
   let tv2b := fe_square tv3 in
   let tv3 := fe_mul tv3 gxd in
   let tv3 := fe_mul tv3 gx1 in
   let tv2b := fe_mul tv2b tv3 in
   let y11 := pow_p58 tv2b in
   let y11 := fe_mul y11 tv3 in
   let y12 := fe_mul y11 sqrt_m1 in
   let e1 := ct_eq (fe_mul (fe_square y11) gxd) gx1 in
   let y1 := cmov y12 y11 e1 in
   let x2n := fe_mul x1n tv1 in
   let e3 := ct_eq (fe_mul (fe_square y1) gxd) gx1 in
   let xn := cmov x2n x1n e3 in
   to_bytes (fe_mul xn (fe_invert xd)))
  = le_bytes 32 (elligator2 z).
Proof.
  intros Hxd Htv1 Hx1n Hg Hn. cbv zeta. set (den := denominator z) in *.
  pose proof root_m1_elem as Hc. set (c3 := sqrt_m1) in *. clearbody c3.
  named a2 (den ^ 6) (elem_square _ _ Hg).
  named a4 (den ^ 12) (elem_square _ _ (elem_loose _ _ E)).
  named a3 (den ^ 9) (elem_mul _ _ _ _ (elem_loose _ _ E) Hg).
  named tv3 ((den ^ 3) ^ 3 * numerator z) (elem_mul _ _ _ _ (elem_loose _ _ E1) Hn).
  named w ((den ^ 3) ^ 7 * numerator z)
    (elem_mul _ _ _ _ (elem_loose _ _ E0) (elem_loose _ _ E2)).
  pose proof (elem_pow_p58 _ _ (elem_loose _ _ E3)) as E4.
  set (r := pow_p58 w) in *. clearbody r.
  assert (E5 : elem (fe_mul r tv3) (root_candidate z))
    by exact (elem_mul _ _ _ _ (elem_loose _ _ E4) (elem_loose _ _ E2)).
  set (y11 := fe_mul r tv3) in *. clearbody y11.
  assert (E6 : elem (fe_mul y11 c3) (root_candidate z * root_m1))
    by exact (elem_mul _ _ _ _ (elem_loose _ _ E5) (elem_loose _ _ Hc)).
  set (y12 := fe_mul y11 c3) in *. clearbody y12.
  rewrite !(is_root_elem _ _ _ _ z (elem_loose _ _ E5) Hg Hn).
  rewrite (is_root_elem _ _ _ _ z (elem_loose _ _ (elem_cmov _ _ _ _ _ E6 E5)) Hg Hn).
  named x2n (- J25519 * (2 * z ^ 2)) (elem_mul _ _ _ _ (elem_loose _ _ Hx1n) Htv1).
  unfold elligator2. set (y := root_candidate z) in *.
  rewrite (elem_to_bytes _ _
    (elem_mul _ _ _ _ (elem_loose _ _ (elem_cmov _ _ _ _ _ E7 Hx1n))
       (elem_loose _ _ (elem_invert _ _ Hxd)))).
  rewrite is_root_choice. cbv zeta. reflexivity.
Qed.

Lemma map_to_curve25519_eq input :
  bytes_ok input -> length input = 32%nat ->
  map_to_curve25519 input = le_bytes 32 (elligator2 (from_le input mod 2 ^ 255)).
Proof.
  intros Hi Hlen. destruct (from_bytes_spec input Hi Hlen) as [Tu Vu].
  set (z := from_le input mod 2 ^ 255) in *.
  assert (Hu : elem (from_bytes input) z) by (split; [done|by rewrite Vu]).
  unfold map_to_curve25519. set (u := from_bytes input) in *. clearbody u z. clear Tu Vu.
  assert (Hj : elem (from_u64 486662) J25519) by (apply (elem_small 486662); lia).
  set (j := from_u64 486662) in *. clearbody j. cbv zeta.
  named s (z ^ 2) (elem_square _ _ (elem_loose _ _ Hu)).
  named xd (denominator z) (elem_double_one _ _ E).
  named tv1 (2 * z ^ 2) (elem_add _ _ _ _ E E).
  named x1n (- J25519) (elem_neg _ _ (elem_loose _ _ Hj)).
  named tv2 (denominator z ^ 2) (elem_square _ _ E0).
  named gxd (denominator z ^ 3) (elem_mul _ _ _ _ (elem_loose _ _ E3) E0).
  named g1 (J25519 * (2 * z ^ 2)) (elem_mul _ _ _ _ (elem_loose _ _ Hj) E1).
  named g2 (J25519 * (2 * z ^ 2) * - J25519)
    (elem_mul _ _ _ _ (elem_loose _ _ E5) (elem_loose _ _ E2)).
  named g3 (J25519 * (2 * z ^ 2) * - J25519 + denominator z ^ 2) (elem_add _ _ _ _ E6 E3).
  named gx1 (numerator z) (elem_mul _ _ _ _ E7 (elem_loose _ _ E2)).
  exact (map_tail z xd tv1 x1n gxd gx1 E0 E1 E2 (elem_loose _ _ E4) (elem_loose _ _ E8)).
Qed.

(** C15: for every 32-byte input, [map_to_curve25519], in its wrapping machine arithmetic,
    returns the 32 little-endian bytes of the Elligator2 map of the input read as a field
    element with its top bit masked. The output is a canonical encoding, and inputs that
    differ only in the top bit have the same image. *)
Theorem map_to_curve25519_spec input input' :
  bytes_ok input -> length input = 32%nat -> bytes_ok input' -> length input' = 32%nat ->
  from_le input' mod 2 ^ 255 = from_le input mod 2 ^ 255 ->
  let image := elligator2 (from_le input mod 2 ^ 255) in
  map_to_curve25519 input = le_bytes 32 image
  /\ map_to_curve25519 input' = map_to_curve25519 input
  /\ 0 <= image < p25519 /\ from_le (map_to_curve25519 input) = image.
Proof.
  intros Hi Hl Hi' Hl' Heq image. rewrite !map_to_curve25519_eq, Heq by done.
  assert (Hb : 0 <= image < p25519) by (apply Z.mod_pos_bound; done).
  split_and!; [done|done|apply Hb|apply Hb|].
  fold image. rewrite from_le_le_bytes. apply Z.mod_small.
  change (256 ^ Z.of_nat 32) with (2 ^ 256). unfold p25519 in Hb. lia.
Qed.

(** The third test vector's input. *)
Definition vector_3 : list Z :=
  be_bytes 32 0x673a505e107189ee54ca93310ac42e4545e9e59050aaac6f8b5f64295c8ec02f.

Lemma map_to_curve25519_spec_witness :
  let flipped := take 31 vector_3 ++ [0x2f + 128] in
  let image := elligator2 (from_le vector_3 mod 2 ^ 255) in
  map_to_curve25519 vector_3 = le_bytes 32 image
  /\ map_to_curve25519 flipped = map_to_curve25519 vector_3
  /\ 0 <= image < p25519 /\ from_le (map_to_curve25519 vector_3) = image.
Proof.
  intros flipped image.
  refine (map_to_curve25519_spec vector_3 flipped _ _ _ _ _).
  - apply be_bytes_ok.
  - reflexivity.
  - apply bytes_okb_true. vm_compute. reflexivity.
  - reflexivity.
  - vm_compute. reflexivity.
Defined.
