(* ===== verification/Curve25519.v ===== *)
(** * Inversion and Elligator2 on Curve25519 (thp/elligator2.rs)

    With the primality of [2^255 - 19]: [fe_invert] computes the inverse, the candidate
    root of the map is a root exactly when there is one, and every output of
    [map_to_curve25519] is the coordinate of a point of [v^2 = u^3 + 486662 u^2 + u]. *)

From Stdlib Require Import ZmodInv Setoid Morphisms.
From S2P Require Import Prelude Types Primality Field25519 FieldSpec Elligator2.

#[local] Open Scope Z_scope.

(** ** The field *)
Lemma eqp_zero_mod a : a ≡p 0 <-> a mod p25519 = 0.
Proof. rewrite eqp_mod_iff. by rewrite Z.mod_0_l. Qed.

Lemma eqp_integral a b : a * b ≡p 0 -> a ≡p 0 \/ b ≡p 0.
Proof.
  unfold eqp. rewrite !Z.sub_0_r. intros H.
  by apply (Z.divide_prime_mul a b p25519 prime_25519).
Qed.

Lemma eqp_sub_zero a b : a ≡p b <-> a - b ≡p 0.
Proof. unfold eqp. by rewrite Z.sub_0_r. Qed.

Lemma eqp_cancel a b c : ~ c ≡p 0 -> a * c ≡p b * c -> a ≡p b.
Proof.
  intros Hc H. apply eqp_sub_zero in H. rewrite <- Z.mul_sub_distr_r in H.
  apply eqp_sub_zero. by destruct (eqp_integral _ _ H).
Qed.

Lemma eqp_square_one a : a * a ≡p 1 -> a ≡p 1 \/ a ≡p -1.
Proof.
  intros H. apply eqp_sub_zero in H. replace (a * a - 1) with ((a - 1) * (a + 1)) in H by ring.
  destruct (eqp_integral _ _ H) as [H'|H']; [left|right]; apply eqp_sub_zero; [done|].
  by replace (a - -1) with (a + 1) by ring.
Qed.

Lemma eqp_dec a b : {a ≡p b} + {~ a ≡p b}.
Proof.
  destruct (Z.eq_dec (a mod p25519) (b mod p25519)) as [H|H]; [left|right];
    by rewrite eqp_mod_iff.
Qed.

Lemma one_nonzero : ~ 1 ≡p 0.
Proof. rewrite eqp_zero_mod. vm_compute. discriminate. Qed.

Lemma eqp_pow_zero a n : 0 <= n -> a ^ n ≡p 0 -> a ≡p 0.
Proof.
  intros Hn. revert n Hn. apply (natlike_ind (fun n => a ^ n ≡p 0 -> a ≡p 0)).
  - intros H. by destruct one_nonzero.
  - intros n Hn IH. rewrite Z.pow_succ_r by done. intros [H|H]%eqp_integral; auto.
Qed.

Lemma root_m1_eqp : root_m1 * root_m1 ≡p -1.
Proof.
  apply eqp_sub_zero, eqp_zero_mod.
  replace (root_m1 * root_m1 - -1) with (root_m1 ^ 2 + 1) by ring. apply root_m1_squared.
Qed.

(** ** Squares, with [p = 8 Q + 5] *)
Section Squares.
Context (Q : Z) (HQ : 0 <= Q) (Hp : p25519 = 8 * Q + 5).

Lemma fermat_p a : ~ a ≡p 0 -> a ^ (8 * Q + 4) ≡p 1.
Proof.
  intros Ha. rewrite eqp_zero_mod in Ha. apply eqp_mod_iff.
  replace (8 * Q + 4) with (p25519 - 1) by lia.
  rewrite (Z.fermat_nz p25519 a prime_25519 Ha). symmetry. by apply Z.mod_small.
Qed.

Lemma euler_p a : ~ a ≡p 0 -> a ^ (4 * Q + 2) ≡p 1 \/ a ^ (4 * Q + 2) ≡p -1.
Proof.
  intros Ha. apply eqp_square_one. rewrite <- Z.pow_add_r by lia.
  replace (4 * Q + 2 + (4 * Q + 2)) with (8 * Q + 4) by lia. by apply fermat_p.
Qed.

Lemma square_euler a : ~ a ≡p 0 -> (a * a) ^ (4 * Q + 2) ≡p 1.
Proof.
  intros Ha. rewrite Z.pow_mul_l, <- Z.pow_add_r by lia.
  replace (4 * Q + 2 + (4 * Q + 2)) with (8 * Q + 4) by lia. by apply fermat_p.
Qed.

Lemma minus_one_odd : (-1) ^ (2 * Q + 1) = -1.
Proof. rewrite Z.pow_add_r, Z.pow_mul_r by lia. change ((-1) ^ 2) with 1. by rewrite Z.pow_1_l. Qed.

(** Euler's criterion gives a root, one of the two candidates. *)
Lemma root_exists b : b ^ (4 * Q + 2) ≡p 1 -> exists r, r * r ≡p b.
Proof.
  intros Hb. set (w := b ^ (2 * Q + 1)).
  assert (Hw : w * w ≡p 1).
  { unfold w. rewrite <- Z.pow_add_r by lia.
    by replace (2 * Q + 1 + (2 * Q + 1)) with (4 * Q + 2) by lia. }
  assert (Hr : b ^ (Q + 1) * b ^ (Q + 1) = w * b).
  { transitivity (w * b ^ 1); [|by rewrite Z.pow_1_r].
    unfold w. rewrite <- !Z.pow_add_r by lia. f_equal. lia. }
  destruct (eqp_square_one w Hw) as [H|H].
  - exists (b ^ (Q + 1)). by rewrite Hr, H, Z.mul_1_l.
  - exists (b ^ (Q + 1) * root_m1).
    replace (b ^ (Q + 1) * root_m1 * (b ^ (Q + 1) * root_m1))
      with (b ^ (Q + 1) * b ^ (Q + 1) * (root_m1 * root_m1)) by ring.
    rewrite Hr, H, root_m1_eqp. by replace (-1 * b * -1) with b by ring.
Qed.

Lemma one_plus_root_nonzero : ~ 1 + root_m1 ≡p 0.
Proof.
  intros H. apply one_nonzero.
  assert (H2 : (1 + root_m1) * (1 - root_m1) ≡p 0) by by rewrite H, Z.mul_0_l.
  replace ((1 + root_m1) * (1 - root_m1)) with (1 - root_m1 * root_m1) in H2 by ring.
  rewrite root_m1_eqp in H2. change (1 - -1) with 2 in H2.
  apply eqp_zero_mod in H2. by vm_compute in H2.
Qed.

Lemma two_nonresidue : 2 ^ (4 * Q + 2) ≡p -1.
Proof.
  pose proof (square_euler _ one_plus_root_nonzero) as H1.
  assert (E : (1 + root_m1) * (1 + root_m1) ≡p 2 * root_m1).
  { replace ((1 + root_m1) * (1 + root_m1)) with (1 + root_m1 * root_m1 + 2 * root_m1) by ring.
    rewrite root_m1_eqp. by replace (1 + -1 + 2 * root_m1) with (2 * root_m1) by ring. }
  rewrite (eqp_pow _ _ _ E), Z.pow_mul_l in H1.
  assert (Hi : root_m1 ^ (4 * Q + 2) ≡p -1).
  { replace (4 * Q + 2) with (2 * (2 * Q + 1)) by lia.
    rewrite Z.pow_mul_r, Z.pow_2_r by lia. rewrite (eqp_pow _ _ _ root_m1_eqp).
    by rewrite minus_one_odd. }
  rewrite Hi in H1. replace (2 ^ (4 * Q + 2)) with (-1 * (2 ^ (4 * Q + 2) * -1)) by ring.
  by rewrite H1.
Qed.

(** ** The curve *)
Definition curve (x : Z) : Z := x ^ 3 + J25519 * x ^ 2 + x.
Definition on_curve (x : Z) : Prop := exists v, v * v ≡p curve x.

Lemma denominator_nonzero u : ~ denominator u ≡p 0.
Proof.
  intros H. unfold denominator in H.
  assert (H2 : (2 * u) * (2 * u) ≡p -2).
  { apply eqp_sub_zero. replace (2 * u * (2 * u) - -2) with (2 * (2 * u ^ 2 + 1)) by ring.
    by rewrite H. }
  assert (Hu : ~ 2 * u ≡p 0).
  { intros Hz. rewrite Hz in H2. apply eqp_sub_zero, eqp_zero_mod in H2. by vm_compute in H2. }
  pose proof (square_euler _ Hu) as H3. rewrite (eqp_pow _ _ _ H2) in H3.
  change (-2) with (-1 * 2) in H3. rewrite Z.pow_mul_l in H3.
  replace (4 * Q + 2) with (2 * (2 * Q + 1)) in H3 at 1 by lia.
  rewrite Z.pow_mul_r in H3 by lia. change ((-1) ^ 2) with 1 in H3.
  rewrite Z.pow_1_l, Z.mul_1_l, two_nonresidue in H3 by lia.
  apply eqp_sub_zero, eqp_zero_mod in H3. by vm_compute in H3.
Qed.

Lemma denominator_cube_nonzero u : ~ denominator u ^ 3 ≡p 0.
Proof. intros H%eqp_pow_zero; [|lia]. by apply (denominator_nonzero u). Qed.

Lemma fermat_inverse d : ~ d ≡p 0 -> d * d ^ (p25519 - 2) ≡p 1.
Proof.
  intros Hd. rewrite <- Z.pow_succ_r by lia.
  replace (Z.succ (p25519 - 2)) with (8 * Q + 4) by lia. by apply fermat_p.
Qed.

(** ** The square root test of the map *)
Definition has_root (u : Z) : bool :=
  is_root u (root_candidate u) || is_root u (root_candidate u * root_m1).

Lemma is_root_spec u y : is_root u y = true <-> y * y * denominator u ^ 3 ≡p numerator u.
Proof. unfold is_root. by rewrite bool_decide_eq_true, eqp_mod_iff, Z.pow_2_r. Qed.

Lemma has_root_exists u : has_root u = true -> exists y, y * y * denominator u ^ 3 ≡p numerator u.
Proof.
  unfold has_root. generalize (root_candidate u). intros y.
  rewrite orb_true_iff, !is_root_spec. intros [H|H]; eauto.
Qed.

Lemma candidate_square u (HQe : Q = 2 ^ 252 - 3) :
  let s := (denominator u ^ 3) ^ 7 * numerator u in
  root_candidate u * root_candidate u * denominator u ^ 3 = s ^ (2 * Q + 1) * numerator u.
Proof.
  intros s. replace (s ^ (2 * Q + 1)) with (s ^ Q * s ^ Q * s)
    by (rewrite <- (Z.pow_1_r s) at 3; rewrite <- !Z.pow_add_r by lia; f_equal; lia).
  unfold root_candidate. rewrite <- HQe. subst s.
  generalize (((denominator u ^ 3) ^ 7 * numerator u) ^ Q), (denominator u ^ 3), (numerator u).
  intros e g n. ring.
Qed.

Lemma has_root_complete u (HQe : Q = 2 ^ 252 - 3) :
  ((denominator u ^ 3) ^ 7 * numerator u) ^ (4 * Q + 2) ≡p -1 \/ has_root u = true.
Proof.
  set (s := (denominator u ^ 3) ^ 7 * numerator u).
  pose proof (candidate_square u HQe) as Hc. cbv zeta in Hc. fold s in Hc.
  destruct (eqp_dec s 0) as [Hz|Hnz].
  { right. unfold has_root. apply orb_true_iff. left. apply is_root_spec. rewrite Hc.
    assert (Hn : numerator u ≡p 0).
    { destruct (eqp_integral _ _ Hz) as [H|H]; [|done].
      apply eqp_pow_zero in H; [|lia]. by destruct (denominator_cube_nonzero u). }
    by rewrite Hn, Z.mul_0_r. }
  destruct (euler_p s Hnz) as [H1|H1]; [right|by left].
  assert (Hw : s ^ (2 * Q + 1) * s ^ (2 * Q + 1) ≡p 1).
  { rewrite <- Z.pow_add_r by lia.
    by replace (2 * Q + 1 + (2 * Q + 1)) with (4 * Q + 2) by lia. }
  unfold has_root. revert Hc. generalize (root_candidate u). intros y Hc. apply orb_true_iff.
  destruct (eqp_square_one _ Hw) as [H|H]; [left|right]; apply is_root_spec.
  - by rewrite Hc, H, Z.mul_1_l.
  - generalize root_m1_eqp. generalize root_m1. intros i Hi.
    replace (y * i * (y * i) * denominator u ^ 3)
      with (y * y * denominator u ^ 3 * (i * i)) by ring.
    rewrite Hc, H, Hi. by replace (-1 * numerator u * -1) with (numerator u) by ring.
Qed.

(** Without a root, the numerator times twice the denominator cubed is a square. *)
Lemma twisted_root u (HQe : Q = 2 ^ 252 - 3) :
  has_root u = false -> exists r, r * r ≡p 2 * numerator u * denominator u ^ 3.
Proof.
  intros Hroot. destruct (has_root_complete u HQe) as [H|H]; [|by rewrite H in Hroot].
  apply root_exists.
  assert (E : (denominator u ^ 3) ^ 7 * numerator u
    = numerator u * denominator u ^ 3
      * ((denominator u ^ 3) ^ 3 * (denominator u ^ 3) ^ 3)) by ring.
  assert (Hg3 : ~ (denominator u ^ 3) ^ 3 ≡p 0).
  { intros Hz%eqp_pow_zero; [|lia]. by apply (denominator_cube_nonzero u). }
  rewrite E, Z.pow_mul_l, (square_euler _ Hg3), Z.mul_1_r in H.
  replace (2 * numerator u * denominator u ^ 3) with (2 * (numerator u * denominator u ^ 3))
    by ring.
  by rewrite Z.pow_mul_l, two_nonresidue, H.
Qed.

(** The test decides: a certificate for either answer determines it. *)
Lemma minus_one_not_one : ~ -1 ≡p 1.
Proof. rewrite eqp_mod_iff. vm_compute. discriminate. Qed.

Lemma square_not_minus_one r b : r * r ≡p b -> ~ b ^ (4 * Q + 2) ≡p -1.
Proof.
  intros Hr H. destruct (eqp_dec r 0) as [Hz|Hnz].
  - rewrite <- (eqp_pow _ _ _ Hr) in H.
    assert (Hz2 : r * r ≡p 0) by by rewrite Hz.
    rewrite (eqp_pow _ _ _ Hz2), Z.pow_0_l in H by lia.
    apply eqp_mod_iff in H. by vm_compute in H.
  - apply minus_one_not_one. by rewrite <- H, <- (eqp_pow _ _ _ Hr), square_euler.
Qed.

Lemma has_root_true u r (HQe : Q = 2 ^ 252 - 3) :
  r * r * denominator u ^ 3 ≡p numerator u -> has_root u = true.
Proof.
  intros Hr. destruct (has_root_complete u HQe) as [H|H]; [|done]. exfalso. revert H.
  apply (square_not_minus_one ((denominator u ^ 3) ^ 4 * r)). rewrite <- Hr.
  by replace ((denominator u ^ 3) ^ 4 * r * ((denominator u ^ 3) ^ 4 * r))
    with ((denominator u ^ 3) ^ 7 * (r * r * denominator u ^ 3)) by ring.
Qed.

Lemma has_root_false u r :
  r * r ≡p 2 * numerator u * denominator u ^ 3 -> ~ numerator u ≡p 0 -> has_root u = false.
Proof.
  intros Hr Hn. apply not_true_iff_false. intros (y & Hy)%has_root_exists.
  apply (square_not_minus_one r _ Hr).
  set (g := denominator u ^ 3) in *.
  assert (E : 2 * numerator u * g ≡p 2 * ((y * g) * (y * g))).
  { rewrite <- Hy. by replace (2 * (y * y * g) * g) with (2 * ((y * g) * (y * g))) by ring. }
  assert (Hyg : ~ y * g ≡p 0).
  { intros Hz. apply Hn. rewrite <- Hy. replace (y * y * g) with (y * (y * g)) by ring.
    by rewrite Hz, Z.mul_0_r. }
  rewrite (eqp_pow _ _ _ E), Z.pow_mul_l, (square_euler _ Hyg), Z.mul_1_r.
  apply two_nonresidue.
Qed.

(** ** The two candidates for the coordinate *)
Lemma curve_first u w :
  denominator u * w ≡p 1 ->
  curve (- J25519 * w) * denominator u ^ 3 ≡p numerator u.
Proof.
  intros Hw. unfold curve, numerator.
  set (d := denominator u) in *. set (J := J25519).
  assert (Hd : 2 * u ^ 2 = d - 1) by (unfold d, denominator; ring). rewrite Hd.
  replace (((- J * w) ^ 3 + J * (- J * w) ^ 2 + - J * w) * d ^ 3)
    with (- J ^ 3 * (d * w) ^ 3 + J ^ 3 * (d * w) ^ 2 * d - J * (d * w) * d ^ 2) by ring.
  rewrite !(eqp_pow _ _ _ Hw), Hw.
  by replace (- J ^ 3 * 1 ^ 3 + J ^ 3 * 1 ^ 2 * d - J * 1 * d ^ 2)
    with (- J * (d ^ 2 - J ^ 2 * (d - 1))) by ring.
Qed.

Lemma curve_second u w :
  denominator u * w ≡p 1 ->
  curve (- J25519 * (2 * u ^ 2) * w) ≡p 2 * u ^ 2 * curve (- J25519 * w).
Proof.
  intros Hw. set (x1 := - J25519 * w). set (x2 := - J25519 * (2 * u ^ 2) * w).
  assert (E : x2 = 2 * u ^ 2 * x1) by (unfold x1, x2; ring).
  assert (Hsum : x2 ≡p - x1 - J25519).
  { apply eqp_sub_zero. replace (x2 - (- x1 - J25519)) with (J25519 * (1 - denominator u * w))
      by (unfold x1, x2, denominator; ring).
    rewrite Hw. by replace (J25519 * (1 - 1)) with 0 by ring. }
  unfold curve.
  replace (x2 ^ 3 + J25519 * x2 ^ 2 + x2) with (x2 * (x2 * (x2 + J25519) + 1)) by ring.
  replace (2 * u ^ 2 * (x1 ^ 3 + J25519 * x1 ^ 2 + x1))
    with (2 * u ^ 2 * x1 * (x1 ^ 2 + J25519 * x1 + 1)) by ring.
  rewrite <- E. apply eqp_mul; [done|]. rewrite Hsum.
  by replace ((- x1 - J25519) * (- x1 - J25519 + J25519) + 1)
    with (x1 ^ 2 + J25519 * x1 + 1) by ring.
Qed.

Lemma on_curve_eqp x y : x ≡p y -> on_curve y -> on_curve x.
Proof.
  intros Hxy [v Hv]. exists v. rewrite Hv. unfold curve.
  by rewrite (eqp_pow _ _ 3 Hxy), (eqp_pow _ _ 2 Hxy), Hxy.
Qed.

(** The numerator the map chooses over the denominator is on the curve. *)
Lemma chosen_on_curve u w (HQe : Q = 2 ^ 252 - 3) :
  denominator u * w ≡p 1 ->
  on_curve ((if has_root u then - J25519 else - J25519 * (2 * u ^ 2)) * w).
Proof.
  intros Hw. pose proof (curve_first u w Hw) as H1.
  pose proof (denominator_cube_nonzero u) as Hg. set (g := denominator u ^ 3) in *.
  destruct (has_root u) eqn:Hroot.
  - destruct (has_root_exists u Hroot) as [y Hy]. fold g in Hy. exists y. apply (eqp_cancel _ _ g Hg).
    by rewrite Hy, H1.
  - destruct (twisted_root u HQe Hroot) as [r Hr]. fold g in Hr.
    exists (u * r * w ^ 3). rewrite (curve_second u w Hw).
    assert (Hgw : g * w ^ 3 ≡p 1).
    { unfold g. rewrite <- Z.pow_mul_l. by rewrite (eqp_pow _ _ _ Hw). }
    apply (eqp_cancel _ _ g Hg).
    replace (2 * u ^ 2 * curve (- J25519 * w) * g)
      with (2 * u ^ 2 * (curve (- J25519 * w) * g)) by ring. rewrite H1.
    replace (u * r * w ^ 3 * (u * r * w ^ 3) * g)
      with (u ^ 2 * (g * w ^ 3) * w ^ 3 * (r * r)) by ring.
    rewrite Hr, Hgw.
    replace (u ^ 2 * 1 * w ^ 3 * (2 * numerator u * g))
      with (2 * u ^ 2 * numerator u * (g * w ^ 3)) by ring.
    by rewrite Hgw, Z.mul_1_r.
Qed.
End Squares.

Lemma elligator2_eq u :
  elligator2 u
  = ((if has_root u then - J25519 else - J25519 * (2 * u ^ 2))
     * denominator u ^ (p25519 - 2)) mod p25519.
Proof. unfold elligator2, has_root. cbv zeta. reflexivity. Qed.

(** [p = 8 Q + 5] with the exponent of [pow_p58] as [Q]. *)
Lemma p25519_mod_8 : p25519 = 8 * (2 ^ 252 - 3) + 5.
Proof. reflexivity. Qed.
Lemma exponent_nonneg : 0 <= 2 ^ 252 - 3.
Proof. vm_compute. discriminate. Qed.

Lemma inverse_p d : ~ d ≡p 0 -> d * d ^ (p25519 - 2) ≡p 1.
Proof. apply (fermat_inverse _ exponent_nonneg p25519_mod_8). Qed.

Lemma elligator2_on_curve u : on_curve (elligator2 u).
Proof.
  pose proof (inverse_p _ (denominator_nonzero _ exponent_nonneg p25519_mod_8 u)) as Hw.
  rewrite elligator2_eq. revert Hw. generalize (denominator u ^ (p25519 - 2)). intros w Hw.
  eapply on_curve_eqp; [apply eqp_mod|].
  exact (chosen_on_curve _ exponent_nonneg p25519_mod_8 u w eq_refl Hw).
Qed.

(** A certificate: the inverse of the denominator, and a root of one of the two
    numerators. *)
Definition certified_image (u : Z) (first : bool) (w r : Z) : bool :=
  let g := denominator u ^ 3 in
  ((denominator u * w) mod p25519 =? 1)
  && if first then ((r * r * g) mod p25519 =? numerator u mod p25519)
     else ((r * r) mod p25519 =? (2 * numerator u * g) mod p25519)
          && negb (numerator u mod p25519 =? 0).

Lemma elligator2_certified u first w r :
  certified_image u first w r = true ->
  elligator2 u = ((if first then - J25519 else - J25519 * (2 * u ^ 2)) * w) mod p25519.
Proof.
  intros [Hw%Z.eqb_eq Hr]%andb_prop. apply (eqp_mod_iff _ 1) in Hw.
  assert (Hroot : has_root u = first).
  { destruct first.
    - apply Z.eqb_eq in Hr. apply (eqp_mod_iff (r * r * denominator u ^ 3)) in Hr.
      exact (has_root_true _ exponent_nonneg p25519_mod_8 u r eq_refl Hr).
    - apply andb_prop in Hr as [Hr%Z.eqb_eq Hn%negb_true_iff%Z.eqb_neq].
      apply (has_root_false _ exponent_nonneg p25519_mod_8 u r); [by apply eqp_mod_iff|].
      by rewrite eqp_zero_mod. }
  pose proof (denominator_nonzero _ exponent_nonneg p25519_mod_8 u) as Hd.
  pose proof (inverse_p _ Hd) as Hinv. rewrite elligator2_eq, Hroot. revert Hinv.
  generalize (denominator u ^ (p25519 - 2)). intros w' Hinv. apply eqp_mod_iff, eqp_mul; [done|].
  apply (eqp_cancel _ _ _ Hd). by rewrite !(Z.mul_comm _ (denominator u)), Hw.
Qed.

(** A certified image, encoded: what the limb program returns. *)
Definition certified_bytes (input : list Z) (first : bool) (w : Z) : list Z :=
  let u := from_le input mod 2 ^ 255 in
  le_bytes 32 (((if first then - J25519 else - J25519 * (2 * u ^ 2)) * w) mod p25519).

Lemma map_to_curve25519_certified input first w r :
  bytes_ok input -> length input = 32%nat ->
  certified_image (from_le input mod 2 ^ 255) first w r = true ->
  map_to_curve25519 input = certified_bytes input first w.
Proof.
  intros Hi Hl Hc%elligator2_certified. rewrite (map_to_curve25519_eq _ Hi Hl).
  unfold certified_bytes. cbv zeta. rewrite Hc. reflexivity.
Qed.

(** ** The program *)
(** C16: Whatever 32 bytes it is given, [map_to_curve25519] returns the canonical
    encoding of the coordinate [x < p] of a point of Curve25519: [x^3 + 486662 x^2 + x]
    is a square modulo the prime [2^255 - 19]. *)
Theorem map_to_curve25519_on_curve input :
  bytes_ok input -> length input = 32%nat ->
  let x := from_le (map_to_curve25519 input) in
  0 <= x < p25519 /\ Z.prime p25519
  /\ exists v, (v * v) mod p25519 = (x ^ 3 + 486662 * x ^ 2 + x) mod p25519.
Proof.
  intros Hi Hl x. unfold x. rewrite map_to_curve25519_eq by done.
  set (u := from_le input mod 2 ^ 255). pose proof (elligator2_on_curve u) as [v Hv].
  assert (Hb : 0 <= elligator2 u < p25519)
    by (rewrite elligator2_eq; apply Z.mod_pos_bound; done).
  revert Hb Hv. generalize (elligator2 u). intros y Hb Hv.
  rewrite from_le_le_bytes, Z.mod_small.
  - split; [exact Hb|]. split; [exact prime_25519|]. exists v. by apply eqp_mod_iff.
  - change (256 ^ Z.of_nat 32) with (2 ^ 256). unfold p25519 in Hb. lia.
Qed.

(** C33: [fe_invert] inverts: for every 32-byte input, read with its top bit masked and
    not a multiple of p, the encoded result times the input is 1 modulo p; for a
    multiple of p it is 0. *)
Theorem fe_invert_inverts input :
  bytes_ok input -> length input = 32%nat ->
  let z := from_le input mod 2 ^ 255 in
  let inverse := from_le (to_bytes (fe_invert (from_bytes input))) in
  0 <= inverse < p25519
  /\ (inverse * z) mod p25519 = if bool_decide (z mod p25519 = 0) then 0 else 1.
Proof.
  intros Hi Hl z inverse. destruct (from_bytes_spec input Hi Hl) as [Tu Vu].
  assert (Hu : loose_elem (from_bytes input) z)
    by (split; [by apply tight_loose|by rewrite Vu]).
  unfold inverse. rewrite (elem_to_bytes _ _ (elem_invert _ _ Hu)).
  pose proof (inverse_p z) as Hinv. revert Hinv.
  assert (Hzero : z ≡p 0 -> z ^ (p25519 - 2) ≡p 0).
  { intros Hz. rewrite (eqp_pow _ _ _ Hz). by rewrite Z.pow_0_l. }
  revert Hzero. generalize (z ^ (p25519 - 2)). intros w Hzero Hinv.
  pose proof (Z.mod_pos_bound w p25519 ltac:(done)) as Hb.
  rewrite from_le_le_bytes, (Z.mod_small (w mod p25519)).
  2: { change (256 ^ Z.of_nat 32) with (2 ^ 256).
       assert (p25519 < 2 ^ 256) by reflexivity. lia. }
  split; [exact Hb|]. rewrite Z.mul_mod_idemp_l by done. case_bool_decide as Hz.
  - apply eqp_zero_mod. apply eqp_zero_mod in Hz. by rewrite Hz, Z.mul_0_r.
  - rewrite <- eqp_zero_mod in Hz. rewrite Z.mul_comm. apply (eqp_mod_iff _ 1), Hinv, Hz.
Qed.

Lemma vector_3_bytes : bytes_ok vector_3 /\ length vector_3 = 32%nat.
Proof. split; [apply be_bytes_ok|reflexivity]. Qed.

Lemma map_to_curve25519_on_curve_witness :
  let x := from_le (map_to_curve25519 vector_3) in
  0 <= x < p25519 /\ Z.prime p25519
  /\ exists v, (v * v) mod p25519 = (x ^ 3 + 486662 * x ^ 2 + x) mod p25519.
Proof.
  intros x. destruct vector_3_bytes as [Hb Hl].
  exact (map_to_curve25519_on_curve vector_3 Hb Hl).
Defined.

Lemma fe_invert_inverts_witness :
  let z := from_le vector_3 mod 2 ^ 255 in
  let inverse := from_le (to_bytes (fe_invert (from_bytes vector_3))) in
  0 <= inverse < p25519
  /\ (inverse * z) mod p25519 = if bool_decide (z mod p25519 = 0) then 0 else 1.
Proof.
  intros z inverse. destruct vector_3_bytes as [Hb Hl]. exact (fe_invert_inverts vector_3 Hb Hl).
Defined.
