(* ===== verification/Cpace.v ===== *)
(** * CPace for CodeEntry pairing (thp/cpace.rs)

    The generator derived from the pairing code, the host's public key and tag,
    and the agreement with the device's side of the exchange. *)

From S2P Require Import Prelude Types Text Crypto Field25519 FieldSpec Elligator2.

Definition DSI_PREFIX : list Z :=
  [0x08; 0x43; 0x50; 0x61; 0x63; 0x65; 0x32; 0x35; 0x35; 0x06]%Z.
Definition PADDING_LEN : nat := 113.
Definition SID : list Z := [0x00]%Z.
Definition CODE_LEN : nat := 6.

(** [[0u8; PADDING_LEN]] with its first and last elements assigned. *)
Definition padding : list Z :=
  <[PADDING_LEN - 1 := 0x20%Z]> (<[0 := 0x6f%Z]> (replicate PADDING_LEN 0%Z)).

(** [format!("{:06}", n)]: zeros on the left up to width 6. *)
Definition show_padded (width : nat) (n : Z) : rstring :=
  let s := show_u32 n in replicate (width - length s) 48%Z ++ s.

(** [copy_from_slice] panics unless the lengths agree. *)
Definition format_code (code : Z) : outcome TrezorError (list Z) :=
  let s := show_padded 6 (code mod 1000000)%Z in
  if length s =? CODE_LEN then Ret s else Panic.

Record HostCpace : Type := { host_public : list Z; tag : list Z }.

Section Cpace.
Context {CR : Crypto}.

Definition generator (code handshake_hash : list Z) : list Z :=
  let pregenerator := sha512 (DSI_PREFIX ++ code ++ padding ++ handshake_hash ++ SID) in
  map_to_curve25519 (take 32 pregenerator).

Definition x25519 (scalar point : list Z) : list Z := x25519_dh scalar point.

Definition host_cpace (code handshake_hash trezor_public host_private : list Z)
    : HostCpace :=
  let g := generator code handshake_hash in
  let host_public := x25519 host_private g in
  let shared := x25519 host_private trezor_public in
  {| host_public := host_public; tag := sha256 shared |}.

(** The device's side: its public key for a private scalar, and the tag it
    computes from the host's public key (the test's loopback device). *)
Definition trezor_public_key (code handshake_hash trezor_private : list Z) : list Z :=
  x25519 trezor_private (generator code handshake_hash).
Definition trezor_tag (trezor_private host_public : list Z) : list Z :=
  sha256 (x25519 trezor_private host_public).
End Cpace.

(** ** The text of a code *)
(** Exactly [k] little-endian decimal digits. *)
Fixpoint fixed_digits (k : nat) (n : Z) : rstring :=
  match k with
  | O => []
  | S k' => (48 + n mod 10)%Z :: fixed_digits k' (n / 10)%Z
  end.

Definition digits_value (s : rstring) : Z :=
  foldr (fun c acc => (c - 48) + 10 * acc)%Z 0%Z s.

Lemma fixed_digits_zero k : fixed_digits k 0 = replicate k 48%Z.
Proof. induction k as [|k IH]; [done|]. cbn [fixed_digits]. by rewrite Z.div_0_l, IH. Qed.

Lemma le_digits_fixed fuel k n :
  0 < k <= fuel -> (0 <= n < 10 ^ Z.of_nat k)%Z ->
  le_digits fuel n ++ replicate (k - length (le_digits fuel n)) 48%Z = fixed_digits k n
  /\ length (le_digits fuel n) <= k.
Proof.
  revert k n. induction fuel as [|fuel IH]; intros k n Hk Hn; [lia|].
  destruct k as [|k]; [lia|]. cbn [le_digits fixed_digits].
  rewrite Nat2Z.inj_succ, Z.pow_succ_r in Hn by lia.
  destruct (Z.eqb_spec (n / 10) 0) as [H0|H0].
  - rewrite H0, fixed_digits_zero. cbn [length app]. rewrite Nat.sub_succ, Nat.sub_0_r.
    split; [done|lia].
  - assert (k <> 0).
    { intros ->. apply H0. apply Z.div_small. cbn in Hn. lia. }
    destruct (IH k (n / 10)%Z) as [He Hl]; [lia| |].
    { split; [apply Z.div_pos; lia|]. apply Z.div_lt_upper_bound; lia. }
    cbn [length app]. rewrite Nat.sub_succ, He. split; [done|lia].
Qed.

Lemma fixed_digits_value s :
  Forall (fun c => is_digit c = true) s ->
  fixed_digits (length s) (digits_value s) = s
  /\ (0 <= digits_value s < 10 ^ Z.of_nat (length s))%Z.
Proof.
  induction 1 as [|c s Hc _ [IH Hb]]; [done|]. cbn [length fixed_digits digits_value foldr].
  fold (digits_value s). unfold is_digit in Hc. rewrite Nat2Z.inj_succ, Z.pow_succ_r by lia.
  split; [|lia]. f_equal.
  - rewrite (Z.mul_comm 10), Z.mod_add, Z.mod_small by lia. lia.
  - by rewrite (Z.mul_comm 10), Z.div_add, Z.div_small, Z.add_0_l by lia.
Qed.

Lemma fixed_digits_length k n : length (fixed_digits k n) = k.
Proof. revert n. induction k as [|k IH]; intros n; cbn [fixed_digits length]; auto. Qed.

Lemma show_padded_fixed k n :
  0 < k <= 10 -> (0 <= n < 10 ^ Z.of_nat k)%Z ->
  show_padded k n = reverse (fixed_digits k n).
Proof.
  intros Hk Hn. destruct (le_digits_fixed 10 k n Hk Hn) as [<- _].
  unfold show_padded, show_u32. by rewrite reverse_app, reverse_replicate, length_reverse.
Qed.

Lemma format_code_fixed n :
  format_code n = Ret (reverse (fixed_digits 6 (n mod 1000000))).
Proof.
  unfold format_code. rewrite show_padded_fixed; [|lia|].
  - by rewrite length_reverse, fixed_digits_length.
  - change (10 ^ Z.of_nat 6)%Z with 1000000%Z. by apply Z.mod_pos_bound.
Qed.

Lemma trim_start_blanks before s :
  Forall (fun c => is_whitespace c = true) before -> trim_start (before ++ s) = trim_start s.
Proof. induction 1 as [|c before Hc _ IH]; [done|]. cbn [app trim_start]. by rewrite Hc. Qed.

Lemma digit_not_blank c : is_digit c = true -> is_whitespace c = false.
Proof. unfold is_digit, is_whitespace. lia. Qed.

Lemma trim_start_digits s rest :
  s <> [] -> Forall (fun c => is_digit c = true) s -> trim_start (s ++ rest) = s ++ rest.
Proof.
  intros Hne Hs. apply trim_start_no_space. destruct Hs as [|c s Hc _]; [done|].
  by apply digit_not_blank.
Qed.

Lemma trim_digits before s after :
  s <> [] -> Forall (fun c => is_digit c = true) s ->
  Forall (fun c => is_whitespace c = true) before ->
  Forall (fun c => is_whitespace c = true) after ->
  trim (before ++ s ++ after) = s.
Proof.
  intros Hne Hs Hb Ha. unfold trim, trim_end.
  rewrite trim_start_blanks, trim_start_digits by done.
  rewrite reverse_app, trim_start_blanks by by apply Forall_reverse.
  rewrite <- (app_nil_r (reverse s)), trim_start_digits.
  - by rewrite app_nil_r, reverse_involutive.
  - intros E. apply Hne. by rewrite <- (reverse_involutive s), E.
  - by apply Forall_reverse.
Qed.

Lemma parse_u32_digits s :
  s <> [] -> length s <= 9 -> Forall (fun c => is_digit c = true) s ->
  parse_u32 s = Some (digits_value (reverse s)).
Proof.
  intros Hne Hl Hs.
  assert (Hv : foldl (fun a c => a * 10 + (c - 48))%Z 0%Z s = digits_value (reverse s)).
  { rewrite <- (reverse_involutive s) at 1. apply foldl_digits_reverse. }
  assert (Hb : (digits_value (reverse s) < u32_mod)%Z).
  { destruct (fixed_digits_value (reverse s)) as [_ Hb]; [by apply Forall_reverse|].
    rewrite length_reverse in Hb. eapply Z.lt_le_trans; [apply Hb|].
    etrans; [apply (Z.pow_le_mono_r 10 _ 9); lia|]. done. }
  unfold parse_u32. destruct Hs as [|c s Hc Hs]; [done|].
  replace (c =? 43)%Z with false by (unfold is_digit in Hc; lia).
  rewrite parse_digits_fold; [by rewrite Hv|by constructor|lia|by rewrite Hv].
Qed.

(** C32: The six digits the device shows reach the CPace input unchanged: typed
    with any surrounding blanks they parse as a [u32], and formatting that number
    gives the same six digits back, leading zeros included. A longer number is
    cut to its last six digits, and formatting never panics. *)
Theorem pairing_code_roundtrip digits before after :
  length digits = CODE_LEN -> Forall (fun c => is_digit c = true) digits ->
  Forall (fun c => is_whitespace c = true) before ->
  Forall (fun c => is_whitespace c = true) after ->
  exists n, parse_u32 (trim (before ++ digits ++ after)) = Some n
    /\ format_code n = Ret digits
    /\ forall more, format_code (n + more * 1000000) = Ret digits.
Proof.
  intros Hl Hd Hb Ha. unfold CODE_LEN in Hl.
  assert (Hne : digits <> []) by (intros ->; discriminate).
  exists (digits_value (reverse digits)).
  destruct (fixed_digits_value (reverse digits)) as [Hf Hv]; [by apply Forall_reverse|].
  rewrite length_reverse, Hl in Hf, Hv. change (10 ^ Z.of_nat 6)%Z with 1000000%Z in Hv.
  split; [by rewrite trim_digits, parse_u32_digits by (done || lia)|].
  assert (Hm : forall more,
    format_code (digits_value (reverse digits) + more * 1000000) = Ret digits).
  { intros more. rewrite format_code_fixed, Z.mod_add, Z.mod_small, Hf by lia.
    by rewrite reverse_involutive. }
  split; [|exact Hm]. specialize (Hm 0%Z). by rewrite Z.add_0_r in Hm.
Qed.

Lemma pairing_code_roundtrip_witness :
  exists n, parse_u32 (trim (str " " ++ str "000042" ++ str " ")) = Some n
    /\ format_code n = Ret (str "000042")
    /\ forall more, format_code (n + more * 1000000) = Ret (str "000042").
Proof.
  apply (pairing_code_roundtrip (str "000042") (str " ") (str " ")).
  - reflexivity.
  - vm_compute. repeat constructor.
  - vm_compute. repeat constructor.
  - vm_compute. repeat constructor.
Defined.

(** ** Agreement *)
Section Agreement.
Context {CR : Crypto} {CL : CryptoLaws}.

(** Whatever the pairing code, the handshake hash and the two private scalars,
    a device that derives its public key from the same code and transcript
    computes from the host's public key exactly the tag the host sends, and the
    generator both use is the 32-byte encoding of a field element. *)
Lemma cpace_agreement code handshake_hash trezor_private host_private :
  let trezor_public := trezor_public_key code handshake_hash trezor_private in
  let host := host_cpace code handshake_hash trezor_public host_private in
  trezor_tag trezor_private (host_public host) = tag host
  /\ length (host_public host) = 32
  /\ bytes_ok (host_public host)
  /\ exists e, (0 <= e < p25519)%Z /\ generator code handshake_hash = le_bytes 32 e.
Proof.
  cbn [host_cpace host_public tag]. unfold trezor_tag, trezor_public_key, x25519.
  split; [by rewrite dh_comm|]. split; [apply dh_length|]. split; [apply dh_ok|].
  unfold generator. eexists. split; cycle 1.
  - apply map_to_curve25519_eq; [apply bytes_ok_take, sha512_ok|].
    by rewrite length_take, sha512_length.
  - by apply Z.mod_pos_bound.
Qed.
End Agreement.

Lemma cpace_agreement_witness :
  let CR := toy_crypto in
  let code := str "314159" in
  let trezor_public := trezor_public_key code (replicate 32 0x5a%Z) (replicate 32 0x33%Z) in
  let host := host_cpace code (replicate 32 0x5a%Z) trezor_public (replicate 32 0x44%Z) in
  trezor_tag (replicate 32 0x33%Z) (host_public host) = tag host.
Proof.
  exact (proj1 (cpace_agreement (CR := toy_crypto) (CL := toy_crypto_laws) (str "314159")
    (replicate 32 0x5a%Z) (replicate 32 0x33%Z) (replicate 32 0x44%Z))).
Defined.
