(* ===== verification/Pairing.v ===== *)
(** * CodeEntry pairing (thp/pairing.rs)

    The host state machine HP0..HP5 with the credential phase, the end of the
    pairing phase and the feature query, over the interface of Host.v. *)

From S2P Require Import Prelude Types Text Crypto Proto Host Cpace.

Definition T_PAIRING_REQUEST : Z := 1008.
Definition T_PAIRING_REQUEST_APPROVED : Z := 1009.
Definition T_SELECT_METHOD : Z := 1010.
Definition T_CREDENTIAL_REQUEST : Z := 1016.
Definition T_CREDENTIAL_RESPONSE : Z := 1017.
Definition T_END_REQUEST : Z := 1018.
Definition T_END_RESPONSE : Z := 1019.
Definition T_CODE_ENTRY_COMMITMENT : Z := 1024.
Definition T_CODE_ENTRY_CHALLENGE : Z := 1025.
Definition T_CODE_ENTRY_CPACE_TREZOR : Z := 1026.
Definition T_CODE_ENTRY_CPACE_HOST_TAG : Z := 1027.
Definition T_CODE_ENTRY_SECRET : Z := 1028.
Definition MGMT_GET_FEATURES : Z := 55.
Definition MGMT_FEATURES : Z := 17.

Definition PAIRING_METHOD_CODE_ENTRY : Z := 2.

Definition as32 (v : list Z) : outcome TrezorError (list Z) :=
  if length v =? 32 then Ret v
  else Fail (thp (str "expected a 32-byte field from device")).

Definition expect_type (actual expected : Z) (what : string) : outcome TrezorError unit :=
  if (actual =? expected)%Z then Ret tt else Fail (wrong_type what expected actual).

Definition no_code : TrezorError := Pairing (str "no valid pairing code was entered").
Definition bad_commitment : TrezorError :=
  Pairing (str "device secret does not match its commitment").

Section Pairing.
Context {CR : Crypto} {PM : ThpProto} {S : Type} `{!Host S}.

Definition random32 : ST S TrezorError (list Z) := h_random 32.
Definition random16 : ST S TrezorError (list Z) := h_random 16.

Definition run_codeentry_pairing (handshake_hash host_static_pubkey : list Z)
    (host_name app_name : rstring) : ST S TrezorError (list Z) :=
  r ← h_transceive T_PAIRING_REQUEST
        (encode_to_vec {| pr_host_name := host_name; pr_app_name := app_name |});
  lift (expect_type r.1 T_PAIRING_REQUEST_APPROVED "ThpPairingRequestApproved");;
  r ← h_transceive T_SELECT_METHOD
        (encode_to_vec {| selected_pairing_method := PAIRING_METHOD_CODE_ENTRY |});
  lift (expect_type r.1 T_CODE_ENTRY_COMMITMENT "ThpCodeEntryCommitment");;
  m ← lift (map_err (decode_failed "commitment") (decode r.2));
  let commitment := commitment m in
  challenge ← random16;
  r ← h_transceive T_CODE_ENTRY_CHALLENGE (encode_to_vec {| challenge := challenge |});
  lift (expect_type r.1 T_CODE_ENTRY_CPACE_TREZOR "ThpCodeEntryCpaceTrezor");;
  m ← lift (map_err (decode_failed "cpace-trezor") (decode r.2));
  cpace_trezor_pub ← lift (as32 (cpace_trezor_public_key m));
  code_str ← h_code;
  code_num ← lift (ok_or no_code (parse_u32 (trim code_str)));
  code ← lift (format_code code_num);
  host_priv ← random32;
  let host := host_cpace code handshake_hash cpace_trezor_pub host_priv in
  r ← h_transceive T_CODE_ENTRY_CPACE_HOST_TAG
        (encode_to_vec {| cpace_host_public_key := host_public host; host_tag := tag host |});
  lift (expect_type r.1 T_CODE_ENTRY_SECRET "ThpCodeEntrySecret");;
  m ← lift (map_err (decode_failed "secret") (decode r.2));
  if negb (bool_decide (sha256 (secret m) = commitment)) then throw bad_commitment
  else
    r ← h_transceive T_CREDENTIAL_REQUEST
          (encode_to_vec {| host_static_public_key := host_static_pubkey;
                            cr_autoconnect := None; cr_credential := None |});
    lift (expect_type r.1 T_CREDENTIAL_RESPONSE "ThpCredentialResponse");;
    m ← lift (map_err (decode_failed "credential") (decode r.2));
    mret (issued_credential m).

Definition end_request : ST S TrezorError unit :=
  r ← h_transceive T_END_REQUEST [];
  lift (expect_type r.1 T_END_RESPONSE "ThpEndResponse").

Definition get_features : ST S TrezorError Features :=
  r ← h_transceive_on 0 MGMT_GET_FEATURES (encode_to_vec mkGetFeatures);
  lift (expect_type r.1 MGMT_FEATURES "Features");;
  lift (map_err (decode_failed "features") (decode r.2)).
End Pairing.

(** ** What pairing guarantees against any device

    The device is an arbitrary list of answers. *)
Section Soundness.
Context {CR : Crypto} {PM : ThpProto}.

(** The requests of a run that reaches the credential, given what it drew and the
    device's CPace key. *)
Definition pairing_requests (host_name app_name : rstring) (nonce code hash trezor_pub
    host_priv host_static : list Z) : list (option Z * Z * list Z) :=
  let host := host_cpace code hash trezor_pub host_priv in
  [(None, T_PAIRING_REQUEST,
      encode_to_vec {| pr_host_name := host_name; pr_app_name := app_name |});
   (None, T_SELECT_METHOD,
      encode_to_vec {| selected_pairing_method := PAIRING_METHOD_CODE_ENTRY |});
   (None, T_CODE_ENTRY_CHALLENGE, encode_to_vec {| challenge := nonce |});
   (None, T_CODE_ENTRY_CPACE_HOST_TAG,
      encode_to_vec {| cpace_host_public_key := host_public host; host_tag := tag host |});
   (None, T_CREDENTIAL_REQUEST,
      encode_to_vec {| host_static_public_key := host_static; cr_autoconnect := None;
                       cr_credential := None |})].

(** One exchange of the run, taken apart. *)
Lemma answer_inv sid mt body (s s' : Answers) r :
  answer sid mt body s = (Ret r, s') ->
  exists rest, an_replies s = inr r :: rest /\ s' = asked sid mt body rest s.
Proof.
  unfold answer, asked. destruct (an_replies s) as [|[e|m] rest]; try discriminate.
  intros [= <- <-]. eauto.
Qed.

Lemma expect_type_inv actual expected what :
  expect_type actual expected what = Ret tt -> actual = expected.
Proof. unfold expect_type. by destruct (Z.eqb_spec actual expected). Qed.

Lemma map_err_inv {E E' A} (f : E' -> E) (r : E' + A) a : map_err f r = Ret a -> r = inr a.
Proof. destruct r; [discriminate|]. by intros [= ->]. Qed.

Lemma lift_inv {St E A} (o : outcome E A) (s s' : St) a :
  lift o s = (Ret a, s') -> o = Ret a /\ s' = s.
Proof. by intros [= -> ->]. Qed.

Lemma ok_or_inv {E A} (e : E) (o : option A) a : ok_or e o = Ret a -> o = Some a.
Proof. destruct o; [|discriminate]. by intros [= ->]. Qed.

Lemma random_inv n (s s' : Answers) b :
  h_random n s = (Ret b, s') ->
  exists rest, an_entropy s = b ++ rest /\ length b = n /\
    s' = {| an_replies := an_replies s; an_entropy := rest; an_codes := an_codes s;
            an_log := an_log s |}.
Proof.
  cbn [h_random scripted_host]. unfold answer_random.
  destruct (Nat.leb_spec n (length (an_entropy s))) as [Hn|]; [|discriminate].
  intros [= <- <-]. exists (drop n (an_entropy s)).
  rewrite take_drop, length_take, Nat.min_l by done. done.
Qed.

Lemma random_draw n b rest replies codes log :
  length b = n ->
  answer_random n {| an_replies := replies; an_entropy := b ++ rest; an_codes := codes;
                     an_log := log |}
  = (Ret b, {| an_replies := replies; an_entropy := rest; an_codes := codes; an_log := log |}).
Proof.
  intros <-. unfold answer_random. cbn [an_replies an_entropy an_codes an_log].
  rewrite length_app, (proj2 (Nat.leb_le _ _)) by lia. by rewrite take_app_length, drop_app_length.
Qed.

Lemma as32_inv v w : as32 v = Ret w -> w = v /\ length v = 32.
Proof. unfold as32. destruct (Nat.eqb_spec (length v) 32); [|discriminate]. by intros [= ->]. Qed.

Lemma code_inv (s s' : Answers) c :
  h_code s = (Ret c, s') ->
  c = default [] (head (an_codes s)) /\
  s' = {| an_replies := an_replies s; an_entropy := an_entropy s;
          an_codes := tail (an_codes s); an_log := an_log s |}.
Proof.
  cbn [h_code scripted_host]. unfold answer_code.
  destruct s as [r e [|x l] g]; by intros [= <- <-].
Qed.

(** Take the first step of a successful run apart, by the kind of step it is. *)
Ltac run_step H :=
  let a := fresh "a" in let s := fresh "s" in let H1 := fresh "Hs" in
  apply st_bind_inv in H as (a & s & H1 & H);
  lazymatch type of H1 with
  | h_transceive _ _ _ = _ =>
    let rt := fresh "rt" in let rp := fresh "rp" in
    destruct a as [rt rp]; apply answer_inv in H1 as (? & H1 & ->)
  | lift (expect_type _ _ _) _ = _ =>
    destruct a; apply lift_inv in H1 as [H1 ->]; apply expect_type_inv in H1;
    cbn [fst] in H1; subst
  | lift (map_err _ _) _ = _ => apply lift_inv in H1 as [H1%map_err_inv ->]
  | lift (ok_or _ _) _ = _ => apply lift_inv in H1 as [H1%ok_or_inv ->]
  | lift (as32 _) _ = _ => apply lift_inv in H1 as [[-> H1]%as32_inv ->]
  | lift _ _ = _ => apply lift_inv in H1 as [H1 ->]
  | random16 _ = _ => unfold random16 in H1; apply random_inv in H1 as (? & H1 & ? & ->)
  | random32 _ = _ => unfold random32 in H1; apply random_inv in H1 as (? & H1 & ? & ->)
  | h_code _ = _ => apply code_inv in H1 as [-> ->]
  end.

(** C13: Against any device, whatever it answers, pairing returns a credential only
    if the device gave exactly the five expected answers in order, its CPace key
    has 32 bytes, the code the user typed is a number, and the revealed secret
    hashes to the commitment sent before the challenge; the credential is the
    one in the last answer. The host then made exactly the five requests of the
    protocol, with its CPace key and tag computed from the typed code, the
    handshake transcript and the device's key. *)
Theorem pairing_sound hash host_static host_name app_name s cred s' :
  run_codeentry_pairing hash host_static host_name app_name s = (Ret cred, s') ->
  exists p1 p2 p3 p4 p5 rest com key sec rsp nonce priv entropy n code,
    an_replies s = inr (T_PAIRING_REQUEST_APPROVED, p1) :: inr (T_CODE_ENTRY_COMMITMENT, p2)
      :: inr (T_CODE_ENTRY_CPACE_TREZOR, p3) :: inr (T_CODE_ENTRY_SECRET, p4)
      :: inr (T_CREDENTIAL_RESPONSE, p5) :: rest
    /\ decode p2 = inr com /\ decode p3 = inr key /\ decode p4 = inr sec
    /\ decode p5 = inr rsp
    /\ length (cpace_trezor_public_key key) = 32
    /\ sha256 (secret sec) = commitment com
    /\ issued_credential rsp = cred
    /\ an_entropy s = nonce ++ priv ++ entropy /\ length nonce = 16 /\ length priv = 32
    /\ parse_u32 (trim (default [] (head (an_codes s)))) = Some n /\ format_code n = Ret code
    /\ s' = {| an_replies := rest; an_entropy := entropy; an_codes := tail (an_codes s);
               an_log := an_log s ++ pairing_requests host_name app_name nonce code hash
                           (cpace_trezor_public_key key) priv host_static |}.
Proof.
  intros H. unfold run_codeentry_pairing in H.
  do 17 run_step H.
  case_bool_decide as Hsec; [|discriminate]. cbn [negb] in H. do 3 run_step H.
  injection H as <- <-. cbn [asked an_replies an_entropy an_codes an_log fst snd] in *.
  simplify_eq. do 15 eexists.
  split_and!; try eassumption; try reflexivity.
  unfold asked, pairing_requests. cbn [an_log an_entropy an_codes an_replies].
  by rewrite <- !app_assoc.
Qed.

(** The device's answers up to its CPace key, and what the host draws. *)
Definition pairing_device (p1 key com nonce priv : list Z) (entropy : list Z)
    (text : rstring) (replies : list (TrezorError + Z * list Z))
    (log : list (option Z * Z * list Z)) : Answers :=
  {| an_replies := inr (T_PAIRING_REQUEST_APPROVED, p1)
       :: inr (T_CODE_ENTRY_COMMITMENT, encode_to_vec {| commitment := com |})
       :: inr (T_CODE_ENTRY_CPACE_TREZOR,
               encode_to_vec {| cpace_trezor_public_key := key |}) :: replies;
     an_entropy := nonce ++ priv ++ entropy; an_codes := [text]; an_log := log |}.

(** One step of a run on known answers. *)
Ltac host_step :=
  progress (cbn [h_transceive scripted_host answer an_replies an_entropy an_codes an_log fst
    snd random16 random32 h_random h_code answer_code negb map_err ok_or commitment
    cpace_trezor_public_key secret])
  || (rewrite random_draw by done) || rewrite Z.eqb_refl || rewrite decode_encode.

Lemma pairing_success_run {PL : ThpProtoLaws} hash host_static host_name app_name p1 key
    nonce priv entropy text n code sec cred static rest log :
  length key = 32 -> length nonce = 16 -> length priv = 32 ->
  parse_u32 (trim text) = Some n -> format_code n = Ret code ->
  run_codeentry_pairing hash host_static host_name app_name
    (pairing_device p1 key (sha256 sec) nonce priv entropy text
       (inr (T_CODE_ENTRY_SECRET, encode_to_vec {| secret := sec |})
        :: inr (T_CREDENTIAL_RESPONSE, encode_to_vec {| trezor_static_public_key := static;
                  issued_credential := cred |}) :: rest) log)
  = (Ret cred, {| an_replies := rest; an_entropy := entropy; an_codes := [];
       an_log := log ++ pairing_requests host_name app_name nonce code hash key priv
                          host_static |}).
Proof.
  intros Hlen Hnl Hpl Hn Hc. unfold run_codeentry_pairing, pairing_device.
  assert (Has : as32 key = Ret key) by (unfold as32; by rewrite Hlen).
  mred. unfold expect_type. repeat host_step.
  rewrite Has. repeat host_step. rewrite Hn. repeat host_step. rewrite Hc. repeat host_step.
  rewrite bool_decide_true by done. repeat host_step.
  cbn [issued_credential pairing_requests]. by rewrite <- !app_assoc.
Qed.

(** C27: With a device that follows the protocol and the code it shows typed by the
    user, pairing returns the issued credential, after the five requests, and
    the tag the host sends is the one the device computes. When the text typed is
    not a number, pairing stops before any CPace value is sent; when the revealed
    secret does not match the commitment, it stops before asking for a
    credential. In both cases the error is [Pairing], and nothing else was sent. *)
Theorem pairing_outcomes {CL : CryptoLaws} {PL : ThpProtoLaws} hash host_static host_name
    app_name p1 key com nonce priv entropy text replies log :
  length key = 32 -> length nonce = 16 -> length priv = 32 ->
  let s := pairing_device p1 key com nonce priv entropy text replies log in
  let run := run_codeentry_pairing hash host_static host_name app_name s in
  let after used replies' entropy' codes := {| an_replies := replies'; an_entropy := entropy';
        an_codes := codes; an_log := log ++ used |} in
  (parse_u32 (trim text) = None ->
     run = (Fail no_code, after (take 3 (pairing_requests host_name app_name nonce [] hash
                                   key priv host_static)) replies (priv ++ entropy) []))
  /\ forall n code sec rest,
     parse_u32 (trim text) = Some n -> format_code n = Ret code ->
     replies = inr (T_CODE_ENTRY_SECRET, encode_to_vec {| secret := sec |}) :: rest ->
     let requests := pairing_requests host_name app_name nonce code hash key priv host_static in
     (sha256 sec <> com -> run = (Fail bad_commitment, after (take 4 requests) rest entropy []))
     /\ forall trezor_priv cred static rest',
        sha256 sec = com -> key = trezor_public_key code hash trezor_priv ->
        rest = inr (T_CREDENTIAL_RESPONSE, encode_to_vec {| trezor_static_public_key := static;
                 issued_credential := cred |}) :: rest' ->
        run = (Ret cred, after requests rest' entropy [])
        /\ let host := host_cpace code hash key priv in
           trezor_tag trezor_priv (host_public host) = tag host.
Proof.
  intros Hlen Hnl Hpl s run after. split; [|intros n code sec rest Hn Hc Hreplies requests; split].
  3: { intros trezor_priv cred static rest' Hs Hk Hrest. split.
       - unfold run, s. subst replies rest. rewrite <- Hs.
         by rewrite (pairing_success_run _ _ _ _ _ _ _ _ _ _ n code).
       - rewrite Hk. cbn [host_cpace host_public tag].
         unfold trezor_tag, trezor_public_key, x25519. by rewrite dh_comm. }
  all: assert (Has : as32 key = Ret key) by (unfold as32; by rewrite Hlen).
  all: unfold run, s, pairing_device, run_codeentry_pairing; mred.
  all: unfold expect_type; repeat host_step; rewrite Has; repeat host_step.
  - intros ->. repeat host_step. unfold after. cbn [take pairing_requests].
    by rewrite <- !app_assoc.
  - intros Hne. rewrite Hn, Hreplies. repeat host_step. rewrite Hc. repeat host_step.
    rewrite bool_decide_false by done. repeat host_step. unfold after, requests.
    cbn [take pairing_requests]. by rewrite <- !app_assoc.
Qed.
End Soundness.

Section Witness.
#[local] Existing Instance toy_crypto.
#[local] Existing Instance toy_thp_proto.

Definition device_key : list Z :=
  trezor_public_key (str "000042") (replicate 32 0x5a%Z) (replicate 32 0x33%Z).

Definition honest_host : Answers :=
  pairing_device [] device_key (sha256 [1; 2; 3]%Z) (replicate 16 0%Z) (replicate 32 0x44%Z)
    [] (str "42")
    [inr (T_CODE_ENTRY_SECRET, encode_to_vec {| secret := [1; 2; 3]%Z |});
     inr (T_CREDENTIAL_RESPONSE, encode_to_vec {| trezor_static_public_key := [];
            issued_credential := [9]%Z |})] [].
End Witness.

Lemma pairing_outcomes_witness :
  let CR := toy_crypto in
  let PM := toy_thp_proto in
  run_codeentry_pairing (replicate 32 0x5a%Z) (replicate 32 7%Z) (str "host") (str "app")
    honest_host
  = (Ret [9]%Z, {| an_replies := []; an_entropy := []; an_codes := [];
       an_log := pairing_requests (str "host") (str "app") (replicate 16 0%Z) (str "000042")
         (replicate 32 0x5a%Z) device_key (replicate 32 0x44%Z) (replicate 32 7%Z) |}).
Proof.
  intros CR PM.
  refine (proj1 (proj2 (proj2 (pairing_outcomes (CR := toy_crypto) (CL := toy_crypto_laws)
    (PM := toy_thp_proto) (PL := toy_thp_proto_laws) (replicate 32 0x5a%Z) (replicate 32 7%Z)
    (str "host") (str "app") [] device_key (sha256 [1; 2; 3]%Z) (replicate 16 0%Z)
    (replicate 32 0x44%Z) [] (str "42") _ [] _ eq_refl eq_refl) 42%Z (str "000042") [1; 2; 3]%Z _ _ _ eq_refl)
    (replicate 32 0x33%Z) [9]%Z [] [] eq_refl eq_refl eq_refl)).
  - apply toy_dh_length.
  - vm_compute. reflexivity.
  - vm_compute. reflexivity.
Defined.

Lemma pairing_sound_witness :
  let CR := toy_crypto in
  let PM := toy_thp_proto in
  exists p2 p4 com sec,
    an_replies honest_host !! 1 = Some (inr (T_CODE_ENTRY_COMMITMENT, p2))
    /\ an_replies honest_host !! 3 = Some (inr (T_CODE_ENTRY_SECRET, p4))
    /\ decode p2 = inr com /\ decode p4 = inr sec /\ sha256 (secret sec) = commitment com.
Proof.
  intros CR PM.
  edestruct (pairing_sound (CR := toy_crypto) (PM := toy_thp_proto) (replicate 32 0x5a%Z)
    (replicate 32 7%Z) (str "host") (str "app") honest_host [9]%Z)
    as (p1 & p2 & p3 & p4 & p5 & rest & com & key & sec & rsp & nonce & priv & entropy
        & n & code & Hr & H2 & _ & H4 & _ & _ & Hs & _).
  { apply (pairing_success_run (CR := toy_crypto) (PM := toy_thp_proto)
      (PL := toy_thp_proto_laws) _ _ _ _ _ _ _ _ _ _ 42%Z (str "000042")).
    - apply toy_dh_length.
    - reflexivity.
    - reflexivity.
    - vm_compute. reflexivity.
    - vm_compute. reflexivity. }
  exists p2, p4, com, sec.
  refine (conj _ (conj _ (conj H2 (conj H4 Hs)))); rewrite Hr; reflexivity.
Defined.
