(* ===== verification/Bitcoin.v ===== *)
(** * Bitcoin (chains/bitcoin.rs)

    Message signing, the watch-only queries, and [sign_psbt]: the streaming
    [SignTx] exchange in which the device asks for the parts of the transaction
    one by one. The PSBT type, its parser and printer, transaction ids, address
    rendering and DER parsing belong to the bitcoin crate: they are the operations
    of [RustBitcoin], and the records give the fields the code reads. *)

From stdpp Require Import gmap.
From S2P Require Import Prelude Types Proto ChainProto Host.

Definition BTC_GET_PUBLIC_KEY : Z := 11.
Definition BTC_PUBLIC_KEY : Z := 12.
Definition BTC_SIGN_TX : Z := 15.
Definition BTC_TX_REQUEST : Z := 21.
Definition BTC_TX_ACK : Z := 22.
Definition BTC_SIGN_MESSAGE : Z := 38.
Definition BTC_MESSAGE_SIGNATURE : Z := 40.

(** The enumerations of messages-bitcoin.proto the code names, at their wire
    values. *)
Module InputScriptType.
Definition Spendaddress : Z := 0.
Definition Spendwitness : Z := 3.
Definition Spendp2shwitness : Z := 4.
End InputScriptType.

Module OutputScriptType.
Definition Paytoaddress : Z := 0.
Definition Paytowitness : Z := 4.
Definition Paytop2shwitness : Z := 5.
End OutputScriptType.

Module RequestType.
Definition Txinput : Z := 0.
Definition Txoutput : Z := 1.
Definition Txmeta : Z := 2.
Definition Txfinished : Z := 3.
End RequestType.

(** m/84'/coin_type'/account' *)
Definition account_path (account coin_type : Z) : list Z :=
  [Z.lor 0x80000000 84; Z.lor 0x80000000 coin_type; Z.lor 0x80000000 account]%Z.

Definition coin_name (coin_type : Z) : rstring :=
  if (coin_type =? 1)%Z then str "Testnet" else str "Bitcoin".

(** [p & !0x8000_0000] on a [u32] *)
Definition purpose_of (p : Z) : Z := Z.land p 0x7fffffff.

Definition script_type_for_path (address_n : list Z) : Z :=
  match purpose_of <$> head address_n with
  | Some p =>
    if (p =? 44)%Z then InputScriptType.Spendaddress
    else if (p =? 49)%Z then InputScriptType.Spendp2shwitness
    else InputScriptType.Spendwitness
  | None => InputScriptType.Spendwitness
  end.

Record BitcoinMessageSignature : Type := { bms_address : rstring; bms_signature : list Z }.

(** ** The bitcoin crate *)
Inductive Network : Type := NetBitcoin | NetTestnet.

Record OutPoint : Type := { op_txid : list Z; op_vout : Z }.
Record TxIn : Type := {
  ti_previous_output : OutPoint;
  ti_script_sig : list Z;
  ti_sequence : Z;
  ti_witness : list (list Z);
}.
Record TxOut : Type := { to_value : Z; to_script_pubkey : list Z }.
Record Transaction : Type := {
  tx_version : Z;
  tx_lock_time : Z;
  tx_input : list TxIn;
  tx_output : list TxOut;
}.

(** A [BTreeMap] from public keys to key origins, as its entries in key order. *)
Abbreviation Derivations := (list (list Z * (list Z * list Z))).

(** [R] stands for the fields of a PSBT map the code neither reads nor writes; a
    partial signature is the signature with its sighash type. *)
Record PsbtInput (R : Type) : Type := {
  pi_witness_utxo : option TxOut;
  pi_non_witness_utxo : option Transaction;
  pi_bip32_derivation : Derivations;
  pi_partial_sigs : gmap (list Z) (list Z * Z);
  pi_rest : R;
}.
Arguments pi_witness_utxo {R}.
Arguments pi_non_witness_utxo {R}.
Arguments pi_bip32_derivation {R}.
Arguments pi_partial_sigs {R}.
Arguments pi_rest {R}.
Arguments Build_PsbtInput {R}.

Record PsbtOutput (R : Type) : Type := { po_bip32_derivation : Derivations; po_rest : R }.
Arguments po_bip32_derivation {R}.
Arguments po_rest {R}.

Record Psbt (R : Type) : Type := {
  unsigned_tx : Transaction;
  psbt_inputs : list (PsbtInput R);
  psbt_outputs : list (PsbtOutput R);
  psbt_rest : R;
}.
Arguments unsigned_tx {R}.
Arguments psbt_inputs {R}.
Arguments psbt_outputs {R}.
Arguments psbt_rest {R}.
Arguments Build_Psbt {R}.

Class RustBitcoin (R : Type) : Type := {
  (** [Psbt::from_str], [Psbt::to_string] *)
  psbt_from_str : rstring -> rstring + Psbt R;
  psbt_to_string : Psbt R -> rstring;
  (** [compute_txid().to_raw_hash().to_byte_array()] *)
  compute_txid : Transaction -> list Z;
  (** [Address::from_script(..)] then [to_string] *)
  address_from_script : list Z -> Network -> rstring + rstring;
  (** [SecpSignature::from_der] *)
  signature_from_der : list Z -> rstring + list Z;
  (** [{other:?}] of [RequestType::try_from] *)
  debug_request_type : Z -> rstring;
}.

(** [EcdsaSighashType::All] *)
Definition SIGHASH_ALL : Z := 1.

(** ** The [BTreeMap<u32, Vec<u8>>] of signatures, as its entries in key order *)
Fixpoint btree_insert {V} (k : Z) (v : V) (m : list (Z * V)) : list (Z * V) :=
  match m with
  | [] => [(k, v)]
  | (k', v') :: rest =>
    if (k <? k')%Z then (k, v) :: m
    else if (k =? k')%Z then (k, v) :: rest
    else (k', v') :: btree_insert k v rest
  end.

(** ** The parts of the transaction, as acknowledgements *)
Section Acks.
Context {R : Type} {RB : RustBitcoin R}.

(** A [DerivationPath] is the list of its child numbers as [u32]. *)
Definition path_to_vec (path : list Z) : list Z := path.

Definition missing_prev_tx : TrezorError :=
  thp (str "Trezor asked for a previous transaction the PSBT doesn't carry; re-sync the wallet (it must include full previous transactions)").

(** [txid.to_raw_hash().to_byte_array()] then [reverse] *)
Definition display_hash (tx : Transaction) : list Z := reverse (compute_txid tx).

Fixpoint find_prev_tx_in (inputs : list (PsbtInput R)) (tx_hash : list Z)
    : outcome TrezorError Transaction :=
  match inputs with
  | [] => Fail missing_prev_tx
  | pin :: rest =>
    match pi_non_witness_utxo pin with
    | Some prev =>
      if bool_decide (display_hash prev = tx_hash) then Ret prev
      else find_prev_tx_in rest tx_hash
    | None => find_prev_tx_in rest tx_hash
    end
  end.

Definition find_prev_tx (psbt : Psbt R) (tx_hash : list Z) : outcome TrezorError Transaction :=
  find_prev_tx_in (psbt_inputs psbt) tx_hash.

Definition shown (i : nat) : rstring := dec (Z.of_nat i).

Definition input_amount (pin : PsbtInput R) (txin : TxIn) (i : nat)
    : outcome TrezorError Z :=
  match pi_witness_utxo pin with
  | Some utxo => Ret (to_value utxo)
  | None =>
    match pi_non_witness_utxo pin with
    | Some prev =>
      out ← ok_or (thp (str "PSBT input " ++ shown i ++ str " prev output out of range"))
              (tx_output prev !! Z.to_nat (op_vout (ti_previous_output txin)));
      mret (to_value out)
    | None => Fail (thp (str "PSBT input " ++ shown i
                         ++ str " has neither witness_utxo nor non_witness_utxo"))
    end
  end.

Definition build_input_ack (psbt : Psbt R) (i : nat) : outcome TrezorError TxAckInput :=
  txin ← ok_or (thp (str "TxRequest input index " ++ shown i ++ str " out of range"))
           (tx_input (unsigned_tx psbt) !! i);
  pin ← ok_or (thp (str "PSBT input " ++ shown i ++ str " missing")) (psbt_inputs psbt !! i);
  amount ← input_amount pin txin i;
  d ← ok_or (thp (str "PSBT input " ++ shown i ++ str " missing bip32_derivation"))
        (head (pi_bip32_derivation pin));
  let address_n := path_to_vec d.2.2 in
  let prev_hash := reverse (op_txid (ti_previous_output txin)) in
  mret {| tai_address_n := address_n; tai_prev_hash := prev_hash;
          tai_prev_index := op_vout (ti_previous_output txin);
          tai_sequence := Some (ti_sequence txin);
          tai_script_type := Some (script_type_for_path address_n);
          tai_amount := amount |}.

Definition change_script_type (address_n : list Z) : Z :=
  let t := script_type_for_path address_n in
  if (t =? InputScriptType.Spendp2shwitness)%Z then OutputScriptType.Paytop2shwitness
  else if (t =? InputScriptType.Spendaddress)%Z then OutputScriptType.Paytoaddress
  else OutputScriptType.Paytowitness.

Definition build_output_ack (psbt : Psbt R) (i : nat) (network : Network)
    : outcome TrezorError TxAckOutput :=
  txout ← ok_or (thp (str "TxRequest output index " ++ shown i ++ str " out of range"))
            (tx_output (unsigned_tx psbt) !! i);
  let amount := to_value txout in
  let change :=
    match psbt_outputs psbt !! i with
    | Some po => head (po_bip32_derivation po)
    | None => None
    end in
  match change with
  | Some d =>
    let address_n := path_to_vec d.2.2 in
    mret {| tao_address := None; tao_address_n := address_n; tao_amount := amount;
            tao_script_type := Some (change_script_type address_n) |}
  | None =>
    addr ← map_err (fun e => thp (str "output " ++ shown i ++ str " address from script: " ++ e))
             (address_from_script (to_script_pubkey txout) network);
    mret {| tao_address := Some addr; tao_address_n := []; tao_amount := amount;
            tao_script_type := Some OutputScriptType.Paytoaddress |}
  end.

(** [x as u32] of a length or of an [i32] *)
Definition as_u32 (x : Z) : Z := (x mod u32_mod)%Z.
Definition len_u32 {A} (l : list A) : Z := as_u32 (Z.of_nat (length l)).

Definition build_prev_meta_ack (psbt : Psbt R) (tx_hash : list Z)
    : outcome TrezorError TxAckPrevMeta :=
  prev ← find_prev_tx psbt tx_hash;
  mret {| tapm_version := as_u32 (tx_version prev); tapm_lock_time := tx_lock_time prev;
          tapm_inputs_count := len_u32 (tx_input prev);
          tapm_outputs_count := len_u32 (tx_output prev) |}.

Definition build_prev_input_ack (psbt : Psbt R) (tx_hash : list Z) (i : nat)
    : outcome TrezorError TxAckPrevInput :=
  prev ← find_prev_tx psbt tx_hash;
  txin ← ok_or (thp (str "prev tx input index " ++ shown i ++ str " out of range"))
           (tx_input prev !! i);
  mret {| tapi_prev_hash := reverse (op_txid (ti_previous_output txin));
          tapi_prev_index := op_vout (ti_previous_output txin);
          tapi_script_sig := ti_script_sig txin; tapi_sequence := ti_sequence txin |}.

Definition build_prev_output_ack (psbt : Psbt R) (tx_hash : list Z) (i : nat)
    : outcome TrezorError TxAckPrevOutput :=
  prev ← find_prev_tx psbt tx_hash;
  txout ← ok_or (thp (str "prev tx output index " ++ shown i ++ str " out of range"))
            (tx_output prev !! i);
  mret {| tapo_amount := to_value txout; tapo_script_pubkey := to_script_pubkey txout |}.
End Acks.

(** ** Requests *)
Section Requests.
Context {BP : BitcoinProto} {S : Type} `{!Host S}.

Definition sign_message (session_id : Z) (address_n message : list Z) (coin_type : Z)
    : ST S TrezorError BitcoinMessageSignature :=
  r ← h_transceive_on session_id BTC_SIGN_MESSAGE
        (encode_to_vec {| sm_address_n := address_n; sm_message := message;
                          sm_coin_name := Some (coin_name coin_type);
                          sm_script_type := Some (script_type_for_path address_n) |});
  let '(rt, rp) := r in
  if negb (rt =? BTC_MESSAGE_SIGNATURE)%Z
  then throw (wrong_type "MessageSignature" BTC_MESSAGE_SIGNATURE rt)
  else
    ms ← lift (map_err (decode_failed "MessageSignature") (decode rp));
    mret {| bms_address := mss_address ms; bms_signature := mss_signature ms |}.

Definition get_account_xpub (session_id : Z) (address_n : list Z) (coin_type : Z)
    : ST S TrezorError rstring :=
  let msg := {| gpk_address_n := address_n; gpk_show_display := Some false;
                gpk_coin_name := Some (coin_name coin_type);
                gpk_script_type := Some (script_type_for_path address_n);
                gpk_ignore_xpub_magic := Some true |} in
  r ← h_transceive_on session_id BTC_GET_PUBLIC_KEY (encode_to_vec msg);
  let '(rt, rp) := r in
  if negb (rt =? BTC_PUBLIC_KEY)%Z then throw (wrong_type "PublicKey" BTC_PUBLIC_KEY rt)
  else
    pk ← lift (map_err (decode_failed "PublicKey") (decode rp));
    if bool_decide (pk_xpub pk = []) then throw (thp (str "PublicKey carried an empty xpub"))
    else mret (pk_xpub pk).

Definition get_master_fingerprint (session_id : Z) : ST S TrezorError (list Z) :=
  let msg := {| gpk_address_n := account_path 0 0; gpk_show_display := Some false;
                gpk_coin_name := Some (str "Bitcoin");
                gpk_script_type := Some InputScriptType.Spendwitness;
                gpk_ignore_xpub_magic := Some true |} in
  r ← h_transceive_on session_id BTC_GET_PUBLIC_KEY (encode_to_vec msg);
  let '(rt, rp) := r in
  if negb (rt =? BTC_PUBLIC_KEY)%Z then throw (wrong_type "PublicKey" BTC_PUBLIC_KEY rt)
  else
    pk ← lift (map_err (decode_failed "PublicKey") (decode rp));
    fp ← lift (ok_or (thp (str "PublicKey missing root_fingerprint")) (pk_root_fingerprint pk));
    mret (be_bytes 4 fp).
End Requests.

(** ** The streaming exchange *)
Section SignPsbt.
Context {BP : BitcoinProto} {R : Type} {RB : RustBitcoin R} {S : Type} `{!Host S}.

Definition network_of (coin_type : Z) : Network :=
  if (coin_type =? 1)%Z then NetTestnet else NetBitcoin.

Definition sign_tx_message (psbt : Psbt R) (coin_type : Z) : SignTx :=
  {| stx_outputs_count := len_u32 (tx_output (unsigned_tx psbt));
     stx_inputs_count := len_u32 (tx_input (unsigned_tx psbt));
     stx_coin_name := Some (coin_name coin_type);
     stx_version := Some (as_u32 (tx_version (unsigned_tx psbt)));
     stx_lock_time := Some (tx_lock_time (unsigned_tx psbt));
     stx_serialize := Some true |}.

(** The signature a request carries, if any. *)
Definition collect (req : TxRequest) (sigs : list (Z * list Z)) : list (Z * list Z) :=
  match txr_serialized req with
  | Some ser =>
    match trs_signature_index ser, trs_signature ser with
    | Some idx, Some sig => btree_insert idx sig sigs
    | _, _ => sigs
    end
  | None => sigs
  end.

Definition request_index (req : TxRequest) : nat :=
  Z.to_nat (default 0%Z (txr_details req ≫= trd_request_index)).
Definition tx_hash_of (req : TxRequest) : option (list Z) := txr_details req ≫= trd_tx_hash.

Definition unsupported_item (rtype : Z) : TrezorError :=
  thp (str "Trezor requested unsupported tx item " ++ debug_request_type rtype
       ++ str " (request_type " ++ dec rtype
       ++ str "); RBF-origin / extra-data streaming is not supported").

(** The [match RequestType::try_from(rtype)]: [None] to leave the loop, or the
    acknowledgement. *)
Definition answer_request (psbt : Psbt R) (network : Network) (req : TxRequest)
    : outcome TrezorError (option (list Z)) :=
  let i := request_index req in
  let tx_hash := tx_hash_of req in
  let rtype := default RequestType.Txfinished (txr_request_type req) in
  if (rtype =? RequestType.Txfinished)%Z then Ret None
  else if (rtype =? RequestType.Txinput)%Z then
    match tx_hash with
    | Some h => a ← build_prev_input_ack psbt h i; mret (Some (encode_to_vec a))
    | None => a ← build_input_ack psbt i; mret (Some (encode_to_vec a))
    end
  else if (rtype =? RequestType.Txoutput)%Z then
    match tx_hash with
    | Some h => a ← build_prev_output_ack psbt h i; mret (Some (encode_to_vec a))
    | None => a ← build_output_ack psbt i network; mret (Some (encode_to_vec a))
    end
  else if (rtype =? RequestType.Txmeta)%Z then
    h ← ok_or (thp (str "TXMETA request without a tx_hash")) tx_hash;
    a ← build_prev_meta_ack psbt h;
    mret (Some (encode_to_vec a))
  else Fail (unsupported_item rtype).

(** The [loop]; it ends when the device says so. *)
Fixpoint request_loop (fuel : nat) (psbt : Psbt R) (network : Network)
    (sigs : list (Z * list Z)) (r : Z * list Z) : ST S TrezorError (list (Z * list Z)) :=
  match fuel with
  | O => lift NoFuel
  | Datatypes.S fuel' =>
    let '(rt, rp) := r in
    if negb (rt =? BTC_TX_REQUEST)%Z then throw (wrong_type "TxRequest" BTC_TX_REQUEST rt)
    else
      req ← lift (map_err (decode_failed "TxRequest") (decode rp));
      let sigs := collect req sigs in
      ack ← lift (answer_request psbt network req);
      match ack with
      | None => mret sigs
      | Some body =>
        next ← h_transceive BTC_TX_ACK body;
        request_loop fuel' psbt network sigs next
      end
  end.

(** One signature merged into its input. *)
Definition merge_signature (psbt : Psbt R) (idx : Z) (der : list Z)
    : outcome TrezorError (Psbt R) :=
  input ← ok_or (thp (str "signature for unknown input " ++ dec idx))
            (psbt_inputs psbt !! Z.to_nat idx);
  d ← ok_or (thp (str "input " ++ dec idx ++ str " missing bip32_derivation"))
        (head (pi_bip32_derivation input));
  sig ← map_err (fun e => thp (str "device signature parse: " ++ e)) (signature_from_der der);
  let input' := {| pi_witness_utxo := pi_witness_utxo input;
                   pi_non_witness_utxo := pi_non_witness_utxo input;
                   pi_bip32_derivation := pi_bip32_derivation input;
                   pi_partial_sigs := <[d.1 := (sig, SIGHASH_ALL)]> (pi_partial_sigs input);
                   pi_rest := pi_rest input |} in
  mret {| unsigned_tx := unsigned_tx psbt;
          psbt_inputs := <[Z.to_nat idx := input']> (psbt_inputs psbt);
          psbt_outputs := psbt_outputs psbt; psbt_rest := psbt_rest psbt |}.

Fixpoint merge_signatures (psbt : Psbt R) (sigs : list (Z * list Z))
    : outcome TrezorError (Psbt R) :=
  match sigs with
  | [] => mret psbt
  | (idx, der) :: rest =>
    psbt' ← merge_signature psbt idx der;
    merge_signatures psbt' rest
  end.

Definition sign_psbt (fuel : nat) (session_id : Z) (psbt_base64 : rstring) (coin_type : Z)
    : ST S TrezorError rstring :=
  psbt ← lift (map_err (fun e => thp (str "PSBT parse: " ++ e)) (psbt_from_str psbt_base64));
  let network := network_of coin_type in
  first ← h_transceive_on session_id BTC_SIGN_TX (encode_to_vec (sign_tx_message psbt coin_type));
  sigs ← request_loop fuel psbt network [] first;
  psbt' ← lift (merge_signatures psbt sigs);
  mret (psbt_to_string psbt').
End SignPsbt.

(** ** Lemmas *)
Section Facts.
Context {BP : BitcoinProto} {R : Type} {RB : RustBitcoin R}.
Implicit Types (psbt : Psbt R) (req : TxRequest).

(** The transaction handed out carries the requested hash and comes from the PSBT. *)
Lemma find_prev_tx_in_sound (inputs : list (PsbtInput R)) h tx :
  find_prev_tx_in inputs h = Ret tx ->
  display_hash tx = h /\ exists pin, pin ∈ inputs /\ pi_non_witness_utxo pin = Some tx.
Proof.
  induction inputs as [|pin inputs IH]; [discriminate|]. cbn [find_prev_tx_in].
  destruct (pi_non_witness_utxo pin) as [prev|] eqn:Hp; [case_bool_decide as Hd|].
  - intros [= <-]. split; [done|]. exists pin. split; [by left|done].
  - intros H. destruct (IH H) as (? & p & ? & ?). split; [done|]. exists p. by split; [right|].
  - intros H. destruct (IH H) as (? & p & ? & ?). split; [done|]. exists p. by split; [right|].
Qed.

Lemma find_prev_tx_in_complete (inputs : list (PsbtInput R)) pin tx :
  pin ∈ inputs -> pi_non_witness_utxo pin = Some tx ->
  exists tx', find_prev_tx_in inputs (display_hash tx) = Ret tx'
    /\ display_hash tx' = display_hash tx.
Proof.
  intros Hin Hp. induction Hin as [pin inputs|pin pin' inputs Hin IH]; [|specialize (IH Hp)].
  - cbn [find_prev_tx_in]. rewrite Hp, bool_decide_true by done. eauto.
  - cbn [find_prev_tx_in]. destruct (pi_non_witness_utxo pin') as [prev|]; [|exact IH].
    destruct (decide (display_hash prev = display_hash tx)) as [Hd|Hd].
    + rewrite bool_decide_true by done. eauto.
    + rewrite bool_decide_false by done. exact IH.
Qed.

(** The answers of a device that asks for [reqs]. *)
Definition tx_requests (reqs : list TxRequest) : list (TrezorError + Z * list Z) :=
  (fun r => inr (BTC_TX_REQUEST, encode_to_vec r)) <$> reqs.
Definition tx_acks (acks : list (list Z)) : list (option Z * Z * list Z) :=
  (fun a => (None, BTC_TX_ACK, a)) <$> acks.

(** The signatures found in a run of requests, in order. *)
Definition collected (reqs : list TxRequest) (sigs : list (Z * list Z)) : list (Z * list Z) :=
  foldl (fun s r => collect r s) sigs reqs.

Definition with_log (s : Answers) (replies : list (TrezorError + Z * list Z))
    (log : list (option Z * Z * list Z)) : Answers :=
  {| an_replies := replies; an_entropy := an_entropy s; an_codes := an_codes s; an_log := log |}.

Lemma request_loop_serves {BL : BitcoinProtoLaws} psbt network fin rest s :
  answer_request psbt network fin = Ret None ->
  forall reqs acks, Forall2 (fun r a => answer_request psbt network r = Ret (Some a)) reqs acks ->
  forall fuel sigs log first others, length reqs < fuel -> reqs ++ [fin] = first :: others ->
  request_loop fuel psbt network sigs (BTC_TX_REQUEST, encode_to_vec first)
    (with_log s (tx_requests others ++ rest) log)
  = (Ret (collected (reqs ++ [fin]) sigs), with_log s rest (log ++ tx_acks acks)).
Proof.
  intros Hfin reqs acks Hserve. induction Hserve as [|r a reqs acks Hr _ IH];
    intros [|fuel] sigs log first others Hfuel Hcons; try (cbn in Hfuel; lia);
    injection Hcons as <- <-; cbn [request_loop]; rewrite Z.eqb_refl; cbn [negb]; mred;
    rewrite decode_encode; cbn [map_err].
  - rewrite Hfin. cbn [tx_acks tx_requests fmap list_fmap app]. by rewrite app_nil_r.
  - rewrite Hr. destruct (reqs ++ [fin]) as [|next more] eqn:E; [by destruct reqs|].
    cbn [h_transceive scripted_host].
    rewrite (answer_reply _ _ _ _ (BTC_TX_REQUEST, encode_to_vec next) (tx_requests more ++ rest))
      by reflexivity.
    unfold asked. cbn [an_entropy an_codes an_log with_log].
    specialize (IH fuel (collect r sigs) (log ++ [(None, BTC_TX_ACK, a)]) next more).
    unfold with_log at 1 in IH. rewrite IH; [|cbn in Hfuel; lia|done].
    change ((r :: reqs) ++ [fin]) with (r :: (reqs ++ [fin])). rewrite E.
    unfold tx_acks. rewrite fmap_cons, <- app_assoc. done.
Qed.

(** Two PSBT inputs that differ at most in their partial signatures, and there only
    under the first key of the input's derivations, by a parsed signature with
    SIGHASH_ALL. *)
Definition input_signed (i i' : PsbtInput R) : Prop :=
  pi_witness_utxo i' = pi_witness_utxo i
  /\ pi_non_witness_utxo i' = pi_non_witness_utxo i
  /\ pi_bip32_derivation i' = pi_bip32_derivation i
  /\ pi_rest i' = pi_rest i
  /\ (pi_partial_sigs i' = pi_partial_sigs i
      \/ exists d der sig, head (pi_bip32_derivation i) = Some d
           /\ signature_from_der der = inr sig
           /\ pi_partial_sigs i' = <[d.1 := (sig, SIGHASH_ALL)]> (pi_partial_sigs i)).

Definition psbt_signed (psbt psbt' : Psbt R) : Prop :=
  unsigned_tx psbt' = unsigned_tx psbt /\ psbt_outputs psbt' = psbt_outputs psbt
  /\ psbt_rest psbt' = psbt_rest psbt
  /\ Forall2 input_signed (psbt_inputs psbt) (psbt_inputs psbt').

Lemma input_signed_refl i : input_signed i i.
Proof. by repeat split; left. Qed.

Lemma input_signed_trans i1 i2 i3 :
  input_signed i1 i2 -> input_signed i2 i3 -> input_signed i1 i3.
Proof.
  intros (A1 & B1 & C1 & D1 & S1) (A2 & B2 & C2 & D2 & S2). unfold input_signed.
  rewrite A2, B2, C2, D2. repeat split; [done..|].
  destruct S2 as [S2|(d & der & sig & Hd & Hs & S2)]; [rewrite S2; exact S1|].
  right. rewrite C1 in Hd. exists d, der, sig. split; [done|]. split; [done|]. rewrite S2.
  destruct S1 as [S1|(d' & der' & sig' & Hd' & Hs' & S1)]; rewrite S1; [done|].
  simplify_eq. apply insert_insert_eq.
Qed.

Lemma psbt_signed_refl psbt : psbt_signed psbt psbt.
Proof. repeat split. apply Forall2_same_length_lookup_2; [done|]. intros i x y Hx Hy.
  simplify_eq. apply input_signed_refl. Qed.

Lemma psbt_signed_trans p1 p2 p3 :
  psbt_signed p1 p2 -> psbt_signed p2 p3 -> psbt_signed p1 p3.
Proof.
  intros (A1 & B1 & C1 & D1) (A2 & B2 & C2 & D2). unfold psbt_signed.
  rewrite A2, B2, C2. repeat split; [done..|].
  revert D2. generalize (psbt_inputs p3). induction D1 as [|x y l k Hxy _ IH]; intros m Hm;
    inversion_clear Hm; constructor; [by eapply input_signed_trans|by apply IH].
Qed.

Lemma merge_signature_signed psbt idx der psbt' :
  merge_signature psbt idx der = Ret psbt' -> psbt_signed psbt psbt'.
Proof.
  unfold merge_signature. intros H.
  apply outcome_bind_inv in H as (input & Hi & H). apply outcome_bind_inv in H as (d & Hd & H).
  apply outcome_bind_inv in H as (sig & Hs & H). injection H as <-.
  destruct (psbt_inputs psbt !! Z.to_nat idx) as [inp|] eqn:Hl; [|discriminate].
  injection Hi as ->. destruct (head (pi_bip32_derivation input)) as [d'|] eqn:Hh; [|discriminate].
  injection Hd as ->. destruct (signature_from_der der) as [e|sig'] eqn:Hder; [discriminate|].
  injection Hs as ->. repeat split. cbn [psbt_inputs].
  apply Forall2_same_length_lookup_2; [by rewrite length_insert|]. intros i x y Hx Hy.
  apply list_lookup_insert_Some in Hy as [(<- & <- & _)|[_ Hy]]; simplify_eq.
  - repeat split. right. by exists d, der, sig.
  - apply input_signed_refl.
Qed.

Lemma merge_signatures_signed sigs psbt psbt' :
  merge_signatures psbt sigs = Ret psbt' -> psbt_signed psbt psbt'.
Proof.
  revert psbt. induction sigs as [|[idx der] sigs IH]; intros psbt; cbn [merge_signatures].
  - intros [= <-]. apply psbt_signed_refl.
  - intros (p & Hp & H)%outcome_bind_inv.
    eapply psbt_signed_trans; [by eapply merge_signature_signed|by apply IH].
Qed.
End Facts.

(** ** Results without panics *)
(** [Ret] or [Fail]. *)
Definition plain {A} (o : outcome TrezorError A) : Prop :=
  match o with Ret _ | Fail _ => True | _ => False end.

Lemma plain_bind {A B} (o : outcome TrezorError A) (f : A -> outcome TrezorError B) :
  plain o -> (forall a, plain (f a)) -> plain (o ≫= f).
Proof. destruct o; cbn; auto. Qed.
Lemma plain_ok_or {A} e (o : option A) : plain (ok_or e o).
Proof. by destruct o. Qed.
Lemma plain_map_err {E A} (f : E -> TrezorError) (r : E + A) : plain (map_err f r).
Proof. by destruct r. Qed.

Create HintDb plain discriminated.
#[export] Hint Resolve plain_bind plain_ok_or plain_map_err : plain.

Section Plain.
Context {BP : BitcoinProto} {R : Type} {RB : RustBitcoin R}.
Implicit Types psbt : Psbt R.

Ltac plain := repeat first [done | progress intros | apply plain_bind | apply plain_ok_or
  | apply plain_map_err | case_match].

Lemma plain_find_prev_tx psbt h : plain (find_prev_tx psbt h).
Proof.
  unfold find_prev_tx. induction (psbt_inputs psbt) as [|pin inputs IH]; [done|].
  cbn [find_prev_tx_in]. destruct (pi_non_witness_utxo pin); [|done]. by case_bool_decide.
Qed.
Hint Resolve plain_find_prev_tx : plain.

Lemma plain_answer_request psbt network req : plain (answer_request psbt network req).
Proof.
  unfold answer_request, build_prev_input_ack, build_prev_output_ack, build_prev_meta_ack,
    build_input_ack, build_output_ack, input_amount.
  plain; auto using plain_find_prev_tx.
Qed.

Lemma plain_merge_signatures psbt sigs : plain (merge_signatures psbt sigs).
Proof.
  revert psbt. induction sigs as [|[idx der] sigs IH]; intros psbt; [done|].
  cbn [merge_signatures]. apply plain_bind; [|intros; apply IH]. unfold merge_signature. plain.
Qed.

(** Bodies that describe part of the transaction being signed. *)
Definition served psbt network (body : list Z) : Prop :=
  exists req, answer_request psbt network req = Ret (Some body).

Definition settled {A} (o : outcome TrezorError A) : Prop :=
  match o with Ret _ | Fail _ | Pending => True | _ => False end.

Lemma request_loop_any psbt network : forall fuel sigs r s,
  length (an_replies s) < fuel ->
  exists o acks rest, request_loop fuel psbt network sigs r s
    = (o, with_log s rest (an_log s ++ tx_acks acks))
    /\ settled o /\ Forall (served psbt network) acks.
Proof.
  induction fuel as [|fuel IH]; intros sigs [rt rp] s Hfuel; [lia|]. cbn [request_loop].
  assert (Hstop : forall o : outcome TrezorError (list (Z * list Z)), settled o ->
    exists o' acks rest, (o, s) = (o', with_log s rest (an_log s ++ tx_acks acks))
      /\ settled o' /\ Forall (served psbt network) acks).
  { intros o Ho. exists o, [], (an_replies s). split; [|done]. cbn. rewrite app_nil_r.
    by destruct s. }
  destruct (negb (rt =? BTC_TX_REQUEST)%Z); [by apply Hstop|]. mred.
  destruct (decode (T := TxRequest) rp) as [e|req]; cbn [map_err]; [by apply Hstop|].
  pose proof (plain_answer_request psbt network req) as Hp.
  destruct (answer_request psbt network req) as [[body|]|e| | |] eqn:Hreq; try done;
    try (by apply Hstop).
  cbn [h_transceive scripted_host].
  destruct (an_replies s) as [|[e|next] rest] eqn:Hr.
  - exists Pending, [body], []. unfold answer. rewrite Hr. split; [done|]. split; [done|].
    constructor; [by exists req|done].
  - rewrite (answer_error _ _ _ _ _ _ Hr). exists (Fail e), [body], rest. split; [done|].
    split; [done|]. constructor; [by exists req|done].
  - rewrite (answer_reply _ _ _ _ _ _ Hr).
    destruct (IH (collect req sigs) next (asked None BTC_TX_ACK body rest s))
      as (o & acks & rest' & Hrun & Ho & Hacks); [cbn in *; lia|].
    exists o, (body :: acks), rest'. rewrite Hrun. cbn [asked an_log]. split.
    + unfold with_log, tx_acks. rewrite fmap_cons, <- app_assoc. done.
    + split; [done|]. constructor; [by exists req|done].
Qed.
End Plain.

(** ** The signatures of a stream *)
Section Signatures.
Context {R : Type} {RB : RustBitcoin R}.
Implicit Types psbt : Psbt R.

Fixpoint entry {V} (k : Z) (m : list (Z * V)) : option V :=
  match m with
  | [] => None
  | (k', v) :: rest => if (k =? k')%Z then Some v else entry k rest
  end.

Definition above (k : Z) {V} (m : list (Z * V)) : Prop := Forall (fun e => k < e.1)%Z m.
Fixpoint ascending {V} (m : list (Z * V)) : Prop :=
  match m with [] => True | (k, _) :: rest => above k rest /\ ascending rest end.

Lemma entry_insert {V} k k' (v : V) m :
  entry k (btree_insert k' v m) = if (k =? k')%Z then Some v else entry k m.
Proof.
  induction m as [|[j w] m IH]; [done|]. cbn [btree_insert].
  destruct (Z.ltb_spec k' j); [done|]. destruct (Z.eqb_spec k' j) as [->|].
  - cbn [entry]. by destruct (Z.eqb_spec k j).
  - cbn [entry]. rewrite IH. destruct (Z.eqb_spec k j) as [->|]; [|done].
    by destruct (Z.eqb_spec j k').
Qed.

Lemma above_insert {V} j k (v : V) m : (j < k)%Z -> above j m -> above j (btree_insert k v m).
Proof.
  intros Hj. induction 1 as [|[i w] m Hi Hm IH]; cbn [btree_insert]; [by repeat constructor|].
  destruct (k <? i)%Z; [by repeat constructor|].
  destruct (k =? i)%Z; by repeat constructor.
Qed.

Lemma ascending_insert {V} k (v : V) m : ascending m -> ascending (btree_insert k v m).
Proof.
  induction m as [|[i w] m IH]; intros Hm; [by repeat constructor|].
  cbn [btree_insert ascending] in *. destruct Hm as [Ha Hm].
  destruct (Z.ltb_spec k i); [|destruct (Z.eqb_spec k i) as [->|]].
  - cbn [ascending]. split; [|done]. constructor; [done|].
    eapply Forall_impl; [exact Ha|]. cbn. lia.
  - done.
  - cbn [ascending]. split; [apply above_insert; [lia|done]|by apply IH].
Qed.

(** The signature a request carries for input [idx]. *)
Definition signature_for (idx : Z) (req : TxRequest) : option (list Z) :=
  ser ← txr_serialized req;
  i ← trs_signature_index ser;
  sig ← trs_signature ser;
  if (idx =? i)%Z then Some sig else None.
Definition last_signature (idx : Z) (reqs : list TxRequest) : option (list Z) :=
  last (omap (signature_for idx) reqs).

Lemma entry_collect idx req sigs :
  entry idx (collect req sigs)
  = match signature_for idx req with Some sig => Some sig | None => entry idx sigs end.
Proof.
  unfold collect, signature_for. destruct (txr_serialized req) as [ser|]; [|done].
  cbn. destruct (trs_signature_index ser) as [i|]; [|done]. cbn.
  destruct (trs_signature ser) as [sig|]; [|done]. cbn. rewrite entry_insert.
  by destruct (idx =? i)%Z.
Qed.

Lemma collect_ascending req sigs : ascending sigs -> ascending (collect req sigs).
Proof.
  unfold collect. destruct (txr_serialized req) as [ser|]; [|done].
  destruct (trs_signature_index ser), (trs_signature ser); try done. apply ascending_insert.
Qed.

Lemma collected_ascending reqs sigs : ascending sigs -> ascending (collected reqs sigs).
Proof.
  revert sigs. induction reqs as [|r reqs IH]; intros sigs H; [done|].
  by apply IH, collect_ascending.
Qed.

Lemma entry_collected idx reqs sigs :
  entry idx (collected reqs sigs)
  = match last_signature idx reqs with Some sig => Some sig | None => entry idx sigs end.
Proof.
  unfold collected, last_signature.
  induction reqs as [|r reqs IH] using rev_ind; [done|].
  rewrite foldl_app. cbn [foldl]. rewrite entry_collect, IH, omap_app. cbn [omap list_omap].
  destruct (signature_for idx r) as [sig|]; [by rewrite last_snoc|by rewrite app_nil_r].
Qed.

Definition signed_with (input input' : PsbtInput R) (der : list Z) : Prop :=
  exists d sig, head (pi_bip32_derivation input) = Some d /\ signature_from_der der = inr sig
    /\ pi_partial_sigs input' = <[d.1 := (sig, SIGHASH_ALL)]> (pi_partial_sigs input).

Lemma merge_signature_inputs psbt idx der psbt' :
  merge_signature psbt idx der = Ret psbt' ->
  exists input input', psbt_inputs psbt !! Z.to_nat idx = Some input
    /\ psbt_inputs psbt' = <[Z.to_nat idx := input']> (psbt_inputs psbt)
    /\ signed_with input input' der.
Proof.
  unfold merge_signature. intros H.
  apply outcome_bind_inv in H as (input & Hi & H). apply outcome_bind_inv in H as (d & Hd & H).
  apply outcome_bind_inv in H as (sig & Hs & H). injection H as <-.
  destruct (psbt_inputs psbt !! Z.to_nat idx) as [inp|] eqn:Hl; [|discriminate].
  injection Hi as ->. destruct (head (pi_bip32_derivation input)) as [d'|] eqn:Hh; [|discriminate].
  injection Hd as ->. destruct (signature_from_der der) as [e|sig'] eqn:Hder; [discriminate|].
  injection Hs as ->. do 2 eexists. split; [done|]. split; [done|]. by exists d, sig.
Qed.

Lemma merge_signatures_inputs sigs : forall psbt psbt',
  ascending sigs -> Forall (fun e => 0 <= e.1)%Z sigs ->
  merge_signatures psbt sigs = Ret psbt' -> forall idx, (0 <= idx)%Z ->
  match entry idx sigs with
  | Some der => exists input input', psbt_inputs psbt !! Z.to_nat idx = Some input
      /\ psbt_inputs psbt' !! Z.to_nat idx = Some input' /\ signed_with input input' der
  | None => psbt_inputs psbt' !! Z.to_nat idx = psbt_inputs psbt !! Z.to_nat idx
  end.
Proof.
  induction sigs as [|[k der] sigs IH]; intros psbt psbt' Hasc Hpos Hm idx Hidx.
  { injection Hm as <-. done. }
  destruct Hasc as [Ha Hasc]. apply Forall_cons in Hpos as [Hk Hpos]. cbn [fst] in Hk.
  cbn [merge_signatures] in Hm. apply outcome_bind_inv in Hm as (p & Hp & Hm).
  specialize (IH p psbt' Hasc Hpos Hm idx Hidx).
  apply merge_signature_inputs in Hp as (input & input' & Hin & Hp & Hsig).
  cbn [entry]. destruct (Z.eqb_spec idx k) as [->|Hne].
  - assert (entry k sigs = None) as Hnone.
    { clear -Ha. induction Ha as [|[j v] sigs Hj _ IH]; [done|]. cbn [entry].
      cbn [fst] in Hj. replace (k =? j)%Z with false by lia. exact IH. }
    rewrite Hnone in IH. rewrite IH, Hp, list_lookup_insert_eq.
    + by exists input, input'.
    + by eapply lookup_lt_Some.
  - rewrite Hp in IH. rewrite list_lookup_insert_ne in IH by lia. exact IH.
Qed.

(** A [signature_index] decoded from a message is a [u32]. *)
Definition index_u32 (req : TxRequest) : Prop :=
  match txr_serialized req ≫= trs_signature_index with
  | Some i => (0 <= i < u32_mod)%Z
  | None => True
  end.

Lemma collected_nonneg reqs sigs :
  Forall index_u32 reqs -> Forall (fun e : Z * list Z => 0 <= e.1)%Z sigs ->
  Forall (fun e => 0 <= e.1)%Z (collected reqs sigs).
Proof.
  intros Hreqs. revert sigs. induction Hreqs as [|r reqs Hr _ IH]; intros sigs Hs; [done|].
  apply IH. unfold collect, index_u32 in *. destruct (txr_serialized r) as [ser|]; [|done].
  cbn in Hr. destruct (trs_signature_index ser) as [i|], (trs_signature ser); try done.
  induction Hs as [|[j v] sigs Hj Hs IHs]; cbn [btree_insert]; [repeat constructor; cbn; lia|].
  destruct (i <? j)%Z; [by repeat constructor; cbn; try lia|].
  destruct (i =? j)%Z; repeat constructor; cbn; try lia; done.
Qed.
End Signatures.

(** ** Properties *)
Section Properties.
Context {BP : BitcoinProto} {BL : BitcoinProtoLaws} {R : Type} {RB : RustBitcoin R}.
Implicit Types psbt : Psbt R.

(** C23: For a device that asks for any sequence of items the PSBT can answer and then
    finishes, [sign_psbt] sends the [SignTx] header of the PSBT's transaction on
    the given session, answers every request once, in order, and returns the
    PSBT with all the signatures the device streamed merged in (the last one
    for an index counts). The device's stream may end anywhere: fuel beyond
    the number of requests is not used. *)
Theorem sign_psbt_streams fuel session_id text coin_type psbt reqs acks fin rest s :
  psbt_from_str text = inr psbt ->
  Forall2 (fun r a => answer_request psbt (network_of coin_type) r = Ret (Some a)) reqs acks ->
  answer_request psbt (network_of coin_type) fin = Ret None ->
  length reqs < fuel ->
  an_replies s = tx_requests (reqs ++ [fin]) ++ rest ->
  sign_psbt fuel session_id text coin_type s
  = (psbt_to_string <$> merge_signatures psbt (collected (reqs ++ [fin]) []),
     with_log s rest (an_log s ++
       (Some session_id, BTC_SIGN_TX, encode_to_vec (sign_tx_message psbt coin_type))
       :: tx_acks acks)).
Proof.
  intros Hparse Hserve Hfin Hfuel Hr. unfold sign_psbt. mred. rewrite Hparse. cbn [map_err].
  destruct (reqs ++ [fin]) as [|first others] eqn:E; [by destruct reqs|].
  cbn [h_transceive_on scripted_host].
  rewrite (answer_reply _ _ _ _ (BTC_TX_REQUEST, encode_to_vec first)
             (tx_requests others ++ rest)) by exact Hr.
  set (log := an_log s ++ [(Some session_id, BTC_SIGN_TX,
    encode_to_vec (sign_tx_message psbt coin_type))]).
  change (asked _ _ _ _ _) with (with_log s (tx_requests others ++ rest) log).
  rewrite (request_loop_serves psbt (network_of coin_type) fin rest s Hfin reqs acks Hserve
             fuel [] log first others Hfuel E).
  rewrite E. unfold log. rewrite <- app_assoc.
  by destruct (merge_signatures psbt (collected (first :: others) [])).
Qed.

(** C21: Against any device, for any sequence of answers: [sign_psbt] neither panics
    nor runs past the device's answers; everything sent after the header is the
    answer to some request about this PSBT; and when a string is returned it is
    the given PSBT with the same unsigned transaction, outputs and other fields,
    in which inputs differ at most by a partial signature of type SIGHASH_ALL
    stored under the first key of that input's own derivations. *)
Theorem sign_psbt_any_device fuel session_id text coin_type psbt s :
  psbt_from_str text = inr psbt -> length (an_replies s) <= fuel ->
  exists o s' acks,
    sign_psbt fuel session_id text coin_type s = (o, s')
    /\ settled o
    /\ an_log s' = an_log s ++
         (Some session_id, BTC_SIGN_TX, encode_to_vec (sign_tx_message psbt coin_type)) :: tx_acks acks
    /\ Forall (served psbt (network_of coin_type)) acks
    /\ forall out, o = Ret out ->
         exists psbt', out = psbt_to_string psbt' /\ psbt_signed psbt psbt'.
Proof.
  intros Hparse Hfuel. unfold sign_psbt. mred. rewrite Hparse. cbn [map_err].
  cbn [h_transceive_on scripted_host].
  destruct (an_replies s) as [|[e|first] rest] eqn:Hr.
  - unfold answer. rewrite Hr. do 2 eexists. exists []. by repeat split.
  - rewrite (answer_error _ _ _ _ _ _ Hr). do 2 eexists. exists []. by repeat split.
  - rewrite (answer_reply _ _ _ _ _ _ Hr).
    destruct (request_loop_any psbt (network_of coin_type) fuel [] first
      (asked (Some session_id) BTC_SIGN_TX (encode_to_vec (sign_tx_message psbt coin_type)) rest s))
      as (o & acks & rest' & Hrun & Ho & Hacks); [cbn in *; lia|].
    rewrite Hrun. cbn [asked an_log]. rewrite <- app_assoc.
    destruct o as [sigs|e| | |]; try done; cycle 1.
    + do 2 eexists. exists acks. by repeat split.
    + do 2 eexists. exists acks. by repeat split.
    + pose proof (plain_merge_signatures psbt sigs) as Hp.
      destruct (merge_signatures psbt sigs) as [psbt'|e| | |] eqn:Hm; try done.
      * do 2 eexists. exists acks. repeat split; [done..|].
        intros out [= <-]. exists psbt'. split; [done|]. by eapply merge_signatures_signed.
      * do 2 eexists. exists acks. by repeat split.
Qed.

(** C28: What the device learns about a previous transaction (its header, an input or
    an output) is read from a transaction the PSBT carries whose id is the one
    the device named, so amounts are never checked against another transaction;
    and whenever some input of the PSBT carries the named transaction the header
    is answered. *)
Theorem previous_transactions_authentic psbt h i :
  (forall a, build_prev_meta_ack psbt h = Ret a ->
     exists pin tx, pin ∈ psbt_inputs psbt /\ pi_non_witness_utxo pin = Some tx
       /\ display_hash tx = h
       /\ a = {| tapm_version := as_u32 (tx_version tx); tapm_lock_time := tx_lock_time tx;
                 tapm_inputs_count := len_u32 (tx_input tx);
                 tapm_outputs_count := len_u32 (tx_output tx) |})
  /\ (forall a, build_prev_output_ack psbt h i = Ret a ->
     exists pin tx out, pin ∈ psbt_inputs psbt /\ pi_non_witness_utxo pin = Some tx
       /\ display_hash tx = h /\ tx_output tx !! i = Some out
       /\ a = {| tapo_amount := to_value out; tapo_script_pubkey := to_script_pubkey out |})
  /\ (forall a, build_prev_input_ack psbt h i = Ret a ->
     exists pin tx inp, pin ∈ psbt_inputs psbt /\ pi_non_witness_utxo pin = Some tx
       /\ display_hash tx = h /\ tx_input tx !! i = Some inp
       /\ reverse (tapi_prev_hash a) = op_txid (ti_previous_output inp)
       /\ tapi_prev_index a = op_vout (ti_previous_output inp)
       /\ tapi_script_sig a = ti_script_sig inp /\ tapi_sequence a = ti_sequence inp)
  /\ (forall pin tx, pin ∈ psbt_inputs psbt -> pi_non_witness_utxo pin = Some tx ->
     display_hash tx = h -> exists a, build_prev_meta_ack psbt h = Ret a).
Proof.
  unfold build_prev_meta_ack, build_prev_output_ack, build_prev_input_ack.
  split_and!; intros a; [intros (tx & Hf & H)%outcome_bind_inv..|].
  4: { intros tx Hin Hp Hh. destruct (find_prev_tx_in_complete _ _ _ Hin Hp) as (tx' & Hf & _).
       rewrite Hh in Hf. unfold find_prev_tx. rewrite Hf. eexists. reflexivity. }
  all: apply find_prev_tx_in_sound in Hf as (Hd & pin & Hin & Hp).
  - injection H as <-. by exists pin, tx.
  - destruct (tx_output tx !! i) as [out|] eqn:Ho; [|discriminate]. injection H as <-.
    by exists pin, tx, out.
  - destruct (tx_input tx !! i) as [inp|] eqn:Hi; [|discriminate]. injection H as <-.
    exists pin, tx, inp. cbn [tapi_prev_hash tapi_prev_index tapi_script_sig tapi_sequence].
    by rewrite reverse_involutive.
Qed.

(** C25: Of all the signatures a device streams while the transaction is sent, exactly
    the last one for each input ends up in the signed PSBT: it is parsed and
    stored with SIGHASH_ALL under the input's first derivation key; an input the
    device gave no signature for is returned as it was. *)
Theorem streamed_signatures_merged reqs psbt psbt' :
  Forall index_u32 reqs -> merge_signatures psbt (collected reqs []) = Ret psbt' ->
  forall idx, (0 <= idx)%Z ->
  match last_signature idx reqs with
  | Some der => exists input input', psbt_inputs psbt !! Z.to_nat idx = Some input
      /\ psbt_inputs psbt' !! Z.to_nat idx = Some input' /\ signed_with input input' der
  | None => psbt_inputs psbt' !! Z.to_nat idx = psbt_inputs psbt !! Z.to_nat idx
  end.
Proof.
  intros Hreqs Hm idx Hidx.
  pose proof (merge_signatures_inputs (collected reqs []) psbt psbt'
    ltac:(by apply collected_ascending) (collected_nonneg reqs [] Hreqs (Forall_nil_2 _))
    Hm idx Hidx) as H.
  rewrite entry_collected in H. by destruct (last_signature idx reqs).
Qed.
End Properties.

(** ** Witnesses

    One wallet input spending output 7 of a carried transaction, one external and
    one change output, as in the test of the module. *)
Section Sample.
#[local] Existing Instance toy_bitcoin_proto.

Definition toy_rust_bitcoin (psbt : Psbt unit) : RustBitcoin unit := {|
  psbt_from_str _ := inr psbt;
  psbt_to_string p := concat ((fun i => concat (snd <$> map_to_list (fst <$> pi_partial_sigs i)))
                                <$> psbt_inputs p);
  compute_txid tx := be_bytes 32 (tx_lock_time tx);
  address_from_script script _ := inr script;
  signature_from_der der := inr der;
  debug_request_type _ := [];
|}.

Definition prev_sample : Transaction :=
  {| tx_version := 2; tx_lock_time := 0x0102; tx_input := [];
     tx_output := [{| to_value := 60000; to_script_pubkey := [0; 20]%Z |}] |}.
Definition input_path : list Z := [0x80000054; 0x80000001; 0x80000000; 0; 0]%Z.
Definition sample_psbt : Psbt unit := {|
  unsigned_tx := {| tx_version := 2; tx_lock_time := 0;
    tx_input := [{| ti_previous_output := {| op_txid := be_bytes 32 0x0102; op_vout := 0 |};
                    ti_script_sig := []; ti_sequence := 0xfffffffd; ti_witness := [] |}];
    tx_output := [{| to_value := 50000; to_script_pubkey := [0; 20; 1]%Z |}] |};
  psbt_inputs := [{| pi_witness_utxo := None; pi_non_witness_utxo := Some prev_sample;
    pi_bip32_derivation := [([2; 2]%Z, ([0; 0; 0; 0]%Z, input_path))];
    pi_partial_sigs := ∅; pi_rest := tt |}];
  psbt_outputs := []; psbt_rest := tt |}.

Definition item_request (ty : Z) (i : Z) (hash : option (list Z)) : TxRequest :=
  {| txr_request_type := Some ty;
     txr_details := Some {| trd_request_index := Some i; trd_tx_hash := hash |};
     txr_serialized := None |}.
Definition finish_request : TxRequest :=
  {| txr_request_type := Some RequestType.Txfinished; txr_details := None;
     txr_serialized := Some {| trs_signature_index := Some 0%Z;
                               trs_signature := Some [0x30; 7]%Z |} |}.
Definition sample_requests : list TxRequest :=
  [item_request RequestType.Txinput 0 None;
   item_request RequestType.Txmeta 0 (Some (display_hash
     (RB := toy_rust_bitcoin sample_psbt) prev_sample));
   item_request RequestType.Txoutput 0 None].
Definition sample_acks : list (list Z) :=
  [encode_to_vec {| tai_address_n := input_path; tai_prev_hash := reverse (be_bytes 32 0x0102);
     tai_prev_index := 0; tai_sequence := Some 0xfffffffd%Z; tai_script_type := Some 3%Z;
     tai_amount := 60000 |};
   encode_to_vec {| tapm_version := 2; tapm_lock_time := 0x0102; tapm_inputs_count := 0;
     tapm_outputs_count := 1 |};
   encode_to_vec {| tao_address := Some [0; 20; 1]%Z; tao_address_n := []; tao_amount := 50000;
     tao_script_type := Some 0%Z |}].
Definition sample_device : Answers :=
  {| an_replies := tx_requests (sample_requests ++ [finish_request]);
     an_entropy := []; an_codes := []; an_log := [] |}.
End Sample.

Lemma sign_psbt_streams_witness :
  let BP := toy_bitcoin_proto in
  let RB := toy_rust_bitcoin sample_psbt in
  sign_psbt 4 1 (str "cHNidA==") 1 sample_device
  = (Ret [0x30; 7]%Z, with_log sample_device []
       ((Some 1%Z, BTC_SIGN_TX, encode_to_vec (sign_tx_message sample_psbt 1))
        :: tx_acks sample_acks)).
Proof.
  intros BP RB.
  refine (eq_trans (sign_psbt_streams (BP := toy_bitcoin_proto) (BL := toy_bitcoin_proto_laws)
    (RB := toy_rust_bitcoin sample_psbt) 4 1 (str "cHNidA==") 1 sample_psbt sample_requests
    sample_acks finish_request [] sample_device _ _ _ _ _) _).
  - reflexivity.
  - unfold sample_requests, sample_acks.
    repeat (apply Forall2_cons; split; [reflexivity|]). constructor.
  - reflexivity.
  - cbn. lia.
  - cbn [sample_device an_replies]. by rewrite app_nil_r.
  - apply (f_equal2 pair); [vm_compute; reflexivity|reflexivity].
Defined.

Lemma sign_psbt_any_device_witness :
  let BP := toy_bitcoin_proto in
  let RB := toy_rust_bitcoin sample_psbt in
  exists o s' acks,
    sign_psbt 9 1 (str "cHNidA==") 1 sample_device = (o, s') /\ settled o
    /\ an_log s' = (Some 1%Z, BTC_SIGN_TX, encode_to_vec (sign_tx_message sample_psbt 1))
         :: tx_acks acks.
Proof.
  intros BP RB.
  destruct (sign_psbt_any_device (BP := toy_bitcoin_proto) (RB := toy_rust_bitcoin sample_psbt)
    9 1 (str "cHNidA==") 1 sample_psbt sample_device) as (o & s' & acks & H1 & H2 & H3 & _).
  - reflexivity.
  - cbn. lia.
  - exists o, s', acks. exact (conj H1 (conj H2 H3)).
Defined.

Lemma streamed_signatures_merged_witness :
  let RB := toy_rust_bitcoin sample_psbt in
  exists psbt' input input',
    merge_signatures sample_psbt (collected (sample_requests ++ [finish_request]) []) = Ret psbt'
    /\ psbt_inputs sample_psbt !! 0 = Some input /\ psbt_inputs psbt' !! 0 = Some input'
    /\ signed_with input input' [0x30; 7]%Z.
Proof.
  intros RB.
  pose proof (streamed_signatures_merged (RB := toy_rust_bitcoin sample_psbt)
    (sample_requests ++ [finish_request]) sample_psbt) as H.
  destruct (merge_signatures (RB := toy_rust_bitcoin sample_psbt) sample_psbt
    (collected (sample_requests ++ [finish_request]) [])) as [psbt'| | | |] eqn:E;
    [|exfalso; revert E; vm_compute; discriminate..].
  destruct (H psbt') with (idx := 0%Z) as (input & input' & H1 & H2 & H3).
  - repeat constructor; vm_compute; discriminate.
  - reflexivity.
  - lia.
  - exists psbt', input, input'. exact (conj E (conj H1 (conj H2 H3))).
Defined.

Lemma previous_transactions_authentic_witness :
  let RB := toy_rust_bitcoin sample_psbt in
  exists a, build_prev_meta_ack sample_psbt (reverse (be_bytes 32 0x0102)) = Ret a
    /\ exists pin tx, pin ∈ psbt_inputs sample_psbt /\ pi_non_witness_utxo pin = Some tx
       /\ display_hash tx = reverse (be_bytes 32 0x0102).
Proof.
  intros RB.
  destruct (previous_transactions_authentic (RB := toy_rust_bitcoin sample_psbt) sample_psbt
    (reverse (be_bytes 32 0x0102)) 0) as (H1 & _ & _ & H4).
  destruct (H4 (List.hd (Build_PsbtInput None None [] ∅ tt) (psbt_inputs sample_psbt))
    prev_sample) as [a Ha].
  - by left.
  - reflexivity.
  - reflexivity.
  - exists a. destruct (H1 a Ha) as (pin & tx & Hin & Hp & Hd & _).
    exact (conj Ha (ex_intro _ pin (ex_intro _ tx (conj Hin (conj Hp Hd))))).
Defined.
