(* ===== verification/OverPackets.v ===== *)
(** * The pairing and chain operations over packets

    The operations of pairing.rs and of the chain modules, as programs over any
    [Host]: run by the connection driver against a device that serves a list of
    answers in sealed frames, each has the outcome it has on the answers
    themselves, and exactly the requests of its log are on the wire. So the
    theorems of Pairing.v, Ethereum.v, Solana.v, Tron.v and Bitcoin.v hold of the
    bytes exchanged with a device. *)

From S2P Require Import Prelude Types.
From S2P Require Import Ethereum Solana Tron Bitcoin.
From S2P Require Import Env Crypto Proto ChainProto Framing Channel Session Noise Connection.
From S2P Require Import ConnectionSafe ConnectionAbp ConnectionExchange Host HostSim Pairing.

(** ** Each operation is the same program over any host *)
Section Operations.
Context {CR : Crypto} {PM : ThpProto}.
Context {BP : BitcoinProto} {EP : EthereumProto} {SP : SolanaProto} {TP : TronProto}.
Context {B : Type} {RB : RustBitcoin B} (debug : Z -> rstring).

(** A program that uses a connection only through the interface. *)
Definition program (A : Type) : Type := forall S, Host S -> ST S TrezorError A.

Inductive operation : forall A, program A -> Prop :=
  | op_pair hash hs hn an :
      operation _ (fun S H => run_codeentry_pairing (S := S) hash hs hn an)
  | op_end_request : operation _ (fun S H => end_request (S := S))
  | op_get_features : operation _ (fun S H => get_features (S := S))
  | op_eth_get_address sid path :
      operation _ (fun S H => Ethereum.get_address (S := S) sid path)
  | op_eth_get_public_key sid path :
      operation _ (fun S H => Ethereum.get_public_key (S := S) sid path)
  | op_eth_sign_message sid path m :
      operation _ (fun S H => Ethereum.sign_message (S := S) sid path m)
  | op_eth_sign_message_full sid path m :
      operation _ (fun S H => Ethereum.sign_message_full (S := S) sid path m)
  | op_eth_sign_eip1559 sid path env :
      operation _ (fun S H => Ethereum.sign_eip1559 (S := S) sid path env)
  | op_sol_get_address sid path :
      operation _ (fun S H => Solana.get_address (S := S) sid path)
  | op_sol_sign_tx sid path tx : operation _ (fun S H => Solana.sign_tx (S := S) sid path tx)
  | op_sol_sign_message sid path m :
      operation _ (fun S H => Solana.sign_message (S := S) sid path m)
  | op_tron_get_address sid path :
      operation _ (fun S H => Tron.get_address (S := S) sid path)
  | op_tron_sign_tx sid path raw :
      operation _ (fun S H => Tron.sign_tx (S := S) debug sid path raw)
  | op_btc_get_account_xpub sid path coin :
      operation _ (fun S H => Bitcoin.get_account_xpub (S := S) sid path coin)
  | op_btc_get_master_fingerprint sid :
      operation _ (fun S H => Bitcoin.get_master_fingerprint (S := S) sid)
  | op_btc_sign_message sid path m coin :
      operation _ (fun S H => Bitcoin.sign_message (S := S) sid path m coin)
  | op_btc_sign_psbt n sid text coin :
      operation _ (fun S H => Bitcoin.sign_psbt (S := S) n sid text coin).

Section Simulated.
Context {S : Type} {HS : Host S} {R : Answers -> S -> Prop}
  {fits_ask : option Z * Z * list Z -> Prop} {Hsim : HostSim HS R fits_ask}.

Lemma sim_request_loop n (psbt : Psbt B) net : forall sigs r,
  sim R fits_ask (request_loop n psbt net sigs r) (request_loop n psbt net sigs r).
Proof.
  induction n as [|n IH]; intros sigs r; cbn [request_loop]; repeat sim_step. all: try apply IH.
Qed.

Lemma operation_sim A (p : program A) :
  operation A p -> sim R fits_ask (p _ scripted_host) (p _ HS).
Proof.
  intros Hp. destruct Hp;
    cbv beta delta [run_codeentry_pairing end_request get_features Ethereum.get_address
      Ethereum.get_public_key Ethereum.sign_message Ethereum.sign_message_full sign_eip1559
      Solana.get_address Solana.sign_tx Solana.sign_message Tron.get_address Tron.sign_tx
      get_account_xpub get_master_fingerprint Bitcoin.sign_message Bitcoin.sign_psbt
      random16 random32]; repeat sim_step.
  apply sim_request_loop.
Qed.
End Simulated.

(** C7: Every operation of the pairing and chain modules, run by the connection driver
    against a device that serves a list of answers in sealed frames (each answer
    after any number of ButtonRequests, a failure as a Failure message), has the
    outcome it has on the answers themselves, errors included, as long as its
    requests fit a transport payload; the packets written are exactly the
    requests of its log, in order, each followed by the ButtonAcks it needed,
    sealed and framed with the alternating bit from the connection's state, and
    the connection is left ready for the next operation. *)
Theorem operations_over_packets {CL : CryptoLaws} ps dcid sid fuel {A} (p : program A)
    (a : Answers) c w :
  INIT_HEADER < ps -> (0 <= dcid < u16_mod)%Z -> is_byte sid -> 0 < fuel ->
  fits (encode_to_vec mkButtonAck) -> operation A p ->
  connected ps dcid sid fuel a c w ->
  let '(o, a') := p _ scripted_host a in
  Forall ask_fits (an_log a') ->
  (p _ (driver fuel) (c, w)).1 = o
  /\ (o <> Pending -> served_run ps dcid sid fuel a a' (c, w) (p _ (driver fuel) (c, w)).2).
Proof.
  intros Hps Hdcid Hsid Hf Hack Hp Hcon.
  destruct (p _ scripted_host a) as [o a'] eqn:Ep. intros Hfit.
  apply (simulated_run ps dcid sid fuel (p _ scripted_host)); try done.
  intros. exact (operation_sim (Hsim := driver_sim ps Hps dcid sid Hdcid Hsid fuel Hf Hack
    log0 out0 c0) A p Hp).
Qed.
End Operations.

(** ** Witness: a Solana signature, after a confirmation on the device *)
Section Witness.
#[local] Existing Instance toy_crypto.
#[local] Existing Instance toy_thp_proto.
#[local] Existing Instance toy_solana_proto.

Definition fitsb (body : list Z) : bool :=
  bytes_okb body && (Z.of_nat (length body) + 23 <? u16_mod)%Z.

Lemma fitsb_true body : fitsb body = true -> fits body.
Proof. intros [H1 H2]%andb_prop. split; [by apply bytes_okb_true|lia]. Qed.

Definition signed_message : Z * list Z :=
  (SOL_TX_SIGNATURE, encode_to_vec {| sts_signature := replicate 64 7%Z |}).
Definition signing_turn : turn := ([(MSG_BUTTON_REQUEST, [])], signed_message).
Definition signing_answers : Answers :=
  {| an_replies := [inr signed_message]; an_entropy := []; an_codes := []; an_log := [] |}.
Definition signing_script : Script :=
  {| inbox := incoming 64 (device_frames 3 0 0 0 device_session
       (concat (turn_messages <$> [signing_turn])));
     outbox := []; write_errors := []; entropy := []; codes := [] |}.
Definition signing_program : program (list Z) := fun S H =>
  Solana.sign_tx (S := S) SEEDED_SESSION_ID (Solana.account_path 0) [1; 2; 3]%Z.

Lemma signing_run :
  signing_program _ scripted_host signing_answers
  = (Ret (replicate 64 7%Z),
     asked (Some SEEDED_SESSION_ID) SOL_SIGN_TX
       (encode_to_vec {| sst_address_n := Solana.account_path 0;
                         sst_serialized_tx := [1; 2; 3]%Z |}) [] signing_answers).
Proof. vm_compute. reflexivity. Qed.

Lemma signing_turn_ok : turn_ok signing_turn (inr signed_message).
Proof.
  split; [by constructor|]. split.
  { unfold turn_messages, signing_turn. cbn [fst snd app].
    repeat (apply Forall_cons; split; [apply fitsb_true; vm_compute; reflexivity|]). constructor. }
  split; [vm_compute; split; congruence|]. split; [discriminate|reflexivity].
Qed.
End Witness.

Lemma operations_over_packets_witness :
  let CR := toy_crypto in let PM := toy_thp_proto in let SP := toy_solana_proto in
  (signing_program _ (driver 60) (exchange_connection, signing_script)).1
  = Ret (replicate 64 7%Z).
Proof.
  intros CR PM SP.
  pose proof (operations_over_packets (CR := toy_crypto) (PM := toy_thp_proto)
    (BP := toy_bitcoin_proto) (EP := toy_ethereum_proto) (SP := toy_solana_proto)
    (TP := toy_tron_proto) (RB := toy_rust_bitcoin sample_psbt) (fun _ => [])
    (CL := toy_crypto_laws) 64 3 0 60 signing_program signing_answers exchange_connection
    signing_script) as H.
  rewrite signing_run in H. unfold CR, PM. apply H.
  - unfold INIT_HEADER. lia.
  - unfold u16_mod. lia.
  - unfold is_byte. lia.
  - lia.
  - apply fitsb_true. vm_compute. reflexivity.
  - apply op_sol_sign_tx.
  - exists host_session, device_session, [signing_turn]. split.
    { split; [by apply (on_channel_ready [])|]. split; [|done]. apply wf_put_session.
      apply wf_set_cid; [apply connection_new_wf|unfold u16_mod; lia]. }
    split; [constructor; [exact signing_turn_ok|constructor]|]. split; [reflexivity|].
    split; [apply Nat.leb_le; vm_compute; reflexivity|done].
  - constructor; [|constructor]. split; [apply fitsb_true; vm_compute; reflexivity|].
    vm_compute. split; congruence.
Defined.
