(* ===== verification/Client.v ===== *)
(** * The client (client.rs)

    [TrezorClient]: one pinned connection shared by the operations, its reuse and
    replacement, pairing, and the method per chain operation. The mutex makes
    the operations atomic with respect to each other, so a call is a function
    of the pinned slot and the host environment. *)

From S2P Require Import Prelude Types.
From S2P Require Import Ethereum Solana Tron Bitcoin.
From S2P Require Import Env Bip32 Crypto Proto ChainProto Framing Channel Session.
From S2P Require Import Noise Connection Host Pairing.

Definition to_array32 (v : list Z) : outcome TrezorError (list Z) :=
  if length v =? 32 then Ret v
  else Fail (thp (str "expected a 32-byte host static key")).

Definition resolve_path (path : option rstring) (fallback : list Z)
    : outcome TrezorError (list Z) :=
  match path with
  | Some p => parse_path p
  | None => Ret fallback
  end.

(** [(passphrase, on_device)] *)
Definition wallet_key (passphrase : PassphraseSpec) : option rstring * bool :=
  match passphrase with
  | Standard => (None, false)
  | OnDevice => (None, true)
  | Types.Host p => (Some p, false)
  end.

Definition credential_rejected : TrezorError :=
  Pairing (str "stored credential was rejected; re-pair the Trezor").

(** The pinned slot and the environment. *)
Abbreviation Cli W := (ST (option Connection * W) TrezorError).

(** [TrezorClient::new] over the transport [w]. *)
Definition client_new {W : Type} (w : W) : option Connection * W := (None, w).

Section Client.
Context {CR : Crypto} {PM : ThpProto} {W : Type} `{!Env W}.
(** Bound on the packets one blocking read of the driver may take. *)
Context (fuel : nat).

#[local] Instance driver_host : Host (Connection * W) := driver fuel.

(** [Connection::new] followed by calls on the new connection, which is dropped
    when one of them fails. *)
Definition on_new_connection {A} (m : Conn W A) : ST W TrezorError (A * Connection) := fun w =>
  match m (connection_new BLE_PACKET_SIZE, w) with
  | (Ret a, (conn, w')) => (Ret (a, conn), w')
  | (Fail e, (_, w')) => (Fail e, w')
  | (Panic, (_, w')) => (Panic, w')
  | (Pending, (_, w')) => (Pending, w')
  | (NoFuel, (_, w')) => (NoFuel, w')
  end.

(** [keys.trezor_state.first() == Some(0x00)] *)
Definition reports_unpaired (keys : SessionKeys) : bool :=
  bool_decide (head (trezor_state keys) = Some 0%Z).

Definition install_session (keys : SessionKeys) : Conn W unit :=
  conn_modify (set_session (from_handshake keys)).

Definition open_paired_connection (host_static_priv credential : list Z) : Conn W unit :=
  allocation ← allocate fuel;
  keys ← handshake fuel (device_properties_raw allocation) host_static_priv (Some credential);
  if reports_unpaired keys then throw credential_rejected
  else
    install_session keys;;
    end_request.

(** What [ensure_conn] does to an empty slot. *)
Definition open_into_slot (host_static_priv credential : list Z)
    (key : option rstring * bool) : Cli W unit := fun '(slot, w) =>
  match to_array32 host_static_priv with
  | Ret hsp =>
    match on_new_connection (open_paired_connection hsp credential;;
                             create_seeded_session fuel key.1 key.2) w with
    | (Ret (_, conn), w') => (Ret tt, (Some conn, w'))
    | (Fail e, w') => (Fail e, (slot, w'))
    | (Panic, w') => (Panic, (slot, w'))
    | (Pending, w') => (Pending, (slot, w'))
    | (NoFuel, w') => (NoFuel, (slot, w'))
    end
  | Fail e => (Fail e, (slot, w))
  | Panic => (Panic, (slot, w))
  | Pending => (Pending, (slot, w))
  | NoFuel => (NoFuel, (slot, w))
  end.

#[local] Instance key_eq_dec : EqDecision (option rstring * bool) := _.

Definition ensure_conn (host_static_priv credential : list Z) (passphrase : PassphraseSpec)
    : Cli W unit := fun '(slot, w) =>
  let key := wallet_key passphrase in
  let wallet_changed :=
    match slot with
    | Some conn => negb (bool_decide (seeded_key conn = Some key))
    | None => false
    end in
  let slot := if wallet_changed then None else slot in
  match slot with
  | Some conn => (Ret tt, (Some conn, w))
  | None => open_into_slot host_static_priv credential key (None, w)
  end.

(** [*guard = None] on an error, and the result is passed on. *)
Definition clearing {A} (m : Cli W A) : Cli W A := fun s =>
  match m s with
  | (Fail e, (_, w)) => (Fail e, (None, w))
  | r => r
  end.

(** A call on the connection in the slot. *)
Definition on_pinned {A} (m : Conn W A) : Cli W A := fun '(slot, w) =>
  match slot with
  | Some conn => let '(o, (conn', w')) := m (conn, w) in (o, (Some conn', w'))
  | None => (Panic, (None, w))
  end.

(** The shape of every pinned method: the connection or an error that clears the
    slot, then the operation, whose error clears the slot too. *)
Definition with_conn {A} (host_static_priv credential : list Z) (passphrase : PassphraseSpec)
    (op : Conn W A) : Cli W A :=
  clearing (ensure_conn host_static_priv credential passphrase);;
  clearing (on_pinned op).

(** ** Bring-up *)
(** [getrandom(..).map_err(..)?] *)
Definition random_or_error (n : nat) : ST W TrezorError (list Z) := fun w =>
  match getrandom n w with
  | (inr b, w') => (Ret b, w')
  | (inl e, w') => (Fail (thp (str "RNG failure: " ++ e)), w')
  end.

Definition thp_probe_on : Conn W ThpProbeResult :=
  allocation ← allocate fuel;
  host_static ← on_env (random_or_error 32);
  keys ← handshake fuel (device_properties_raw allocation) host_static None;
  let props := device_properties allocation in
  mret {| probe_internal_model := internal_model props;
          probe_protocol_version_major := protocol_version_major props;
          probe_protocol_version_minor := protocol_version_minor props;
          probe_pairing_methods := pairing_methods props;
          probe_trezor_state := trezor_state keys |}.

Definition thp_probe : ST W TrezorError ThpProbeResult :=
  r ← on_new_connection thp_probe_on; mret r.1.

Definition version_string (f : Features) : rstring :=
  dec (feat_major_version f) ++ str "." ++ dec (feat_minor_version f) ++ str "."
    ++ dec (feat_patch_version f).

Definition establish_on (host_static : list Z) (host_name app_name : rstring)
    (stored_credential : option (list Z)) : Conn W PairedSession :=
  allocation ← allocate fuel;
  keys ← handshake fuel (device_properties_raw allocation) host_static stored_credential;
  let already_paired := bool_decide (is_Some stored_credential) && negb (reports_unpaired keys) in
  install_session keys;;
  credential ← (if already_paired then mret (default [] stored_credential)
                else run_codeentry_pairing (handshake_hash keys) (host_static_pubkey keys)
                       host_name app_name);
  end_request;;
  features ← get_features;
  mret {| ps_device_id := default [] (feat_device_id features);
          ps_model := default [] (feat_model features);
          ps_firmware_version := version_string features;
          ps_initialized := default false (feat_initialized features);
          ps_credential := credential |}.

Definition establish_paired_session (host_static_priv : list Z) (host_name app_name : rstring)
    (stored_credential : option (list Z)) : ST W TrezorError PairedSession :=
  host_static ← lift (to_array32 host_static_priv);
  r ← on_new_connection (establish_on host_static host_name app_name stored_credential);
  mret r.1.

Context {BP : BitcoinProto} {EP : EthereumProto} {SP : SolanaProto} {TP : TronProto}.
Context {R : Type} {RB : Bitcoin.RustBitcoin R} (debug_contract_type : Z -> rstring).

(** ** Identity *)
(** The last [match]: an error of [get_features] clears the slot, a missing
    [device_id] does not. *)
Definition identify_paired (host_static_priv credential : list Z) : Cli W rstring :=
  clearing (ensure_conn host_static_priv credential Standard);;
  features ← clearing (on_pinned get_features);
  lift (ok_or (thp (str "device returned no device_id")) (feat_device_id features)).

Definition get_attestor_pubkey (host_static_priv credential : list Z) : Cli W (list Z) :=
  with_conn host_static_priv credential Standard
    (Ethereum.get_public_key SEEDED_SESSION_ID (Ethereum.account_path 0)).

Definition sign_message_eth (host_static_priv credential message : list Z) : Cli W (list Z) :=
  with_conn host_static_priv credential Standard
    (Ethereum.sign_message SEEDED_SESSION_ID (Ethereum.account_path 0) message).

Definition identify : Cli W TrezorFeatures :=
  throw (not_implemented (str "identify (THP handshake)")).
Definition pair : Cli W (list Z) :=
  throw (not_implemented (str "pair (secp256k1 attestor pubkey)")).
Definition sign_message (message : list Z) : Cli W (list Z) :=
  throw (not_implemented (str "sign_message (secp256k1 R||S)")).

(** ** Chain operations *)
Definition get_bitcoin_account_xpub (host_static_priv credential : list Z) (passphrase : PassphraseSpec)
    (account network_coin_type : Z) (path : option rstring) : Cli W rstring :=
  address_n ← lift (resolve_path path (Bitcoin.account_path account network_coin_type));
  with_conn host_static_priv credential passphrase
    (Bitcoin.get_account_xpub SEEDED_SESSION_ID address_n network_coin_type).

Definition get_bitcoin_master_fingerprint (host_static_priv credential : list Z) (passphrase : PassphraseSpec) : Cli W (list Z) :=
  with_conn host_static_priv credential passphrase
    (Bitcoin.get_master_fingerprint SEEDED_SESSION_ID).

(** The fingerprint, xpub, account and path arguments are ignored. *)
Definition sign_psbt (host_static_priv credential : list Z) (passphrase : PassphraseSpec)
    (psbt_base64 fingerprint_hex account_xpub : rstring) (account coin_type : Z)
    (path : option rstring) : Cli W rstring :=
  with_conn host_static_priv credential passphrase
    (Bitcoin.sign_psbt fuel SEEDED_SESSION_ID psbt_base64 coin_type).

Definition sign_bitcoin_message (host_static_priv credential : list Z) (passphrase : PassphraseSpec)
    (address_n message : list Z) (coin_type : Z) : Cli W Bitcoin.BitcoinMessageSignature :=
  with_conn host_static_priv credential passphrase
    (Bitcoin.sign_message SEEDED_SESSION_ID address_n message coin_type).

Definition get_ethereum_address (host_static_priv credential : list Z) (passphrase : PassphraseSpec)
    (account : Z) (path : option rstring) : Cli W rstring :=
  address_n ← lift (resolve_path path (Ethereum.account_path account));
  with_conn host_static_priv credential passphrase
    (Ethereum.get_address SEEDED_SESSION_ID address_n).

Definition sign_ethereum_tx (host_static_priv credential : list Z) (passphrase : PassphraseSpec)
    (envelope : list Z) (account : Z) (path : option rstring) : Cli W Secp256k1Signature :=
  address_n ← lift (resolve_path path (Ethereum.account_path account));
  with_conn host_static_priv credential passphrase
    (Ethereum.sign_eip1559 SEEDED_SESSION_ID address_n envelope).

Definition sign_ethereum_message (host_static_priv credential : list Z) (passphrase : PassphraseSpec)
    (account : Z) (message : list Z) (path : option rstring) : Cli W (list Z) :=
  address_n ← lift (resolve_path path (Ethereum.account_path account));
  with_conn host_static_priv credential passphrase
    (Ethereum.sign_message_full SEEDED_SESSION_ID address_n message).

Definition get_solana_address (host_static_priv credential : list Z) (passphrase : PassphraseSpec)
    (account : Z) (path : option rstring) : Cli W rstring :=
  address_n ← lift (resolve_path path (Solana.account_path account));
  with_conn host_static_priv credential passphrase
    (Solana.get_address SEEDED_SESSION_ID address_n).

Definition sign_solana_tx (host_static_priv credential : list Z) (passphrase : PassphraseSpec)
    (unsigned_tx : list Z) (account : Z) (path : option rstring) : Cli W (list Z) :=
  address_n ← lift (resolve_path path (Solana.account_path account));
  with_conn host_static_priv credential passphrase
    (Solana.sign_tx SEEDED_SESSION_ID address_n unsigned_tx).

Definition sign_solana_message (host_static_priv credential : list Z) (passphrase : PassphraseSpec)
    (envelope : list Z) (account : Z) (path : option rstring) : Cli W (list Z) :=
  address_n ← lift (resolve_path path (Solana.account_path account));
  with_conn host_static_priv credential passphrase
    (Solana.sign_message SEEDED_SESSION_ID address_n envelope).

Definition get_tron_address (host_static_priv credential : list Z) (passphrase : PassphraseSpec)
    (account : Z) (path : option rstring) : Cli W rstring :=
  address_n ← lift (resolve_path path (Tron.account_path account));
  with_conn host_static_priv credential passphrase
    (Tron.get_address SEEDED_SESSION_ID address_n).

Definition get_tron_pubkey (account : Z) : Cli W (list Z) :=
  throw (not_implemented (str "get_tron_pubkey (Trezor Tron has no public-key message)")).

Definition sign_tron_tx (host_static_priv credential : list Z) (passphrase : PassphraseSpec)
    (raw_tx_proto : list Z) (account : Z) (path : option rstring) : Cli W Secp256k1Signature :=
  address_n ← lift (resolve_path path (Tron.account_path account));
  with_conn host_static_priv credential passphrase
    (Tron.sign_tx debug_contract_type SEEDED_SESSION_ID address_n raw_tx_proto).
End Client.
