(* ===== verification/ClientPinned.v ===== *)
(** * The pinned connection (client.rs)

    Wallet isolation, reuse and error recovery of the pinned slot: no operation on a
    connection changes the wallet it was seeded with, so a slot never serves a
    caller that asked for another wallet; an error empties the slot; and every
    method preserves the invariant of the slot. *)

From S2P Require Import Prelude Types.
From S2P Require Import Ethereum Solana Tron Bitcoin.
From S2P Require Import Env Bip32 Crypto Proto ChainProto Framing Channel Session.
From S2P Require Import Noise Connection ConnectionAbp ConnectionExchange Host Pairing Client.

(** ** Operations that keep the wallet of a connection *)
Section Stable.
Context {W : Type}.

(** The seeded wallet is unchanged and an installed session stays installed,
    whatever the outcome. *)
Definition stable {A} (m : Conn W A) : Prop := forall s,
  seeded_with (m s).2.1 = seeded_with s.1
  /\ (is_Some (session s.1) -> is_Some (session (m s).2.1)).

Lemma stable_bind {A B} (m : Conn W A) (f : A -> Conn W B) :
  stable m -> (forall a, stable (f a)) -> stable (m ≫= f).
Proof.
  intros Hm Hf s. destruct (Hm s) as [Hw Hs]. unfold mbind, st_bind.
  destruct (m s) as [[a|e| | |] s']; try done.
  destruct (Hf a s') as [Hw' Hs']. cbn [snd] in *. split; [by rewrite Hw'|auto].
Qed.

Lemma stable_lift {A} (o : outcome TrezorError A) : stable (lift o).
Proof. by intros s. Qed.
Lemma stable_ret {A} (a : A) : stable (mret a).
Proof. by intros s. Qed.
Lemma stable_throw {A} (e : TrezorError) : stable (A := A) (throw e).
Proof. by intros s. Qed.
Lemma stable_get : stable conn_get.
Proof. by intros s. Qed.
Lemma stable_on_env {A} (m : ST W TrezorError A) : stable (on_env m).
Proof. intros [c w]. unfold on_env. cbn [fst snd]. by destruct (m w). Qed.
Lemma stable_modify f :
  (forall c, seeded_with (f c) = seeded_with c) ->
  (forall c, is_Some (session c) -> is_Some (session (f c))) -> stable (conn_modify f).
Proof. intros H1 H2 s. cbn. auto. Qed.
End Stable.

Create HintDb stable discriminated.
#[export] Hint Resolve stable_lift stable_ret stable_throw stable_get stable_on_env : stable.

(** Follow the structure of a program. *)
Ltac stable :=
  repeat first
    [ solve [eauto with stable nocore]
    | apply stable_bind; [|intros ?]
    | apply stable_modify; [done|by intros ? [? ?]]
    | case_match ].

Section Driver.
Context {CR : Crypto} {PM : ThpProto} {W : Type} `{!Env W} (fuel : nat).

Lemma stable_write_packets packets : stable (write_packets packets).
Proof. induction packets; cbn [write_packets]; stable. Qed.
Hint Resolve stable_write_packets : stable.

Lemma stable_write_framed ctrl payload : stable (write_framed ctrl payload).
Proof. unfold write_framed. stable. Qed.
Hint Resolve stable_write_framed : stable.

Lemma stable_read_loop n reasm ctrl : stable (read_loop n reasm ctrl).
Proof. revert reasm ctrl. induction n; intros; cbn [read_loop]; stable. Qed.
Hint Resolve stable_read_loop : stable.

Lemma stable_read_framed n : stable (read_framed n).
Proof. unfold read_framed. stable. Qed.
Hint Resolve stable_read_framed : stable.

Lemma stable_send_ack seq : stable (send_ack seq).
Proof. unfold send_ack. stable. Qed.
Hint Resolve stable_send_ack : stable.

Lemma stable_await_ack n : stable (await_ack fuel n).
Proof. induction n; cbn [await_ack]; stable. Qed.
Hint Resolve stable_await_ack : stable.

Lemma stable_send_data ctrl payload : stable (send_data fuel ctrl payload).
Proof. unfold send_data. stable. Qed.
Hint Resolve stable_send_data : stable.

Lemma stable_await_data n : stable (await_data fuel n).
Proof. induction n; cbn [await_data]; stable. Qed.
Hint Resolve stable_await_data : stable.

Lemma stable_recv_data : stable (recv_data fuel).
Proof. unfold recv_data. stable. Qed.
Hint Resolve stable_recv_data : stable.

Lemma stable_allocate_loop n nonce : stable (allocate_loop fuel n nonce).
Proof. induction n; cbn [allocate_loop]; stable. Qed.
Hint Resolve stable_allocate_loop : stable.

Lemma stable_allocate : stable (allocate fuel).
Proof. unfold allocate. stable. Qed.

Lemma stable_handshake props priv cred : stable (handshake fuel props priv cred).
Proof. unfold handshake. stable. Qed.

Lemma stable_put_session s : stable (W := W) (conn_modify (put_session (Some s))).
Proof. by apply stable_modify. Qed.
Hint Resolve stable_put_session : stable.

Lemma stable_send_app mt body : stable (send_app fuel mt body).
Proof. unfold send_app. stable. Qed.
Hint Resolve stable_send_app : stable.

Lemma stable_recv_app : stable (recv_app fuel).
Proof. unfold recv_app. stable. Qed.
Hint Resolve stable_recv_app : stable.

Lemma stable_transceive_loop n : stable (transceive_loop fuel n).
Proof. induction n; cbn [transceive_loop]; stable. Qed.
Hint Resolve stable_transceive_loop : stable.

Lemma stable_transceive mt body : stable (transceive fuel mt body).
Proof. unfold transceive. stable. Qed.
Hint Resolve stable_transceive : stable.

Lemma stable_transceive_on sid mt body : stable (transceive_on fuel sid mt body).
Proof. unfold transceive_on. stable. Qed.
Hint Resolve stable_transceive_on : stable.
End Driver.

(** ** Every operation of the chain and pairing modules *)
Section Operations.
Context {CR : Crypto} {PM : ThpProto} {W : Type} {H : Host (Connection * W)}.
Context {BP : BitcoinProto} {EP : EthereumProto} {SP : SolanaProto} {TP : TronProto}.
Context {R : Type} {RB : Bitcoin.RustBitcoin R} (debug : Z -> rstring).
(** The interface only issues stable calls. *)
Context (H1 : forall mt body, stable (h_transceive mt body))
        (H2 : forall sid mt body, stable (h_transceive_on sid mt body)).

Hint Resolve H1 H2 : stable.

Lemma stable_end_request : stable end_request.
Proof. unfold end_request. stable. Qed.
Lemma stable_get_features : stable get_features.
Proof. unfold get_features. stable. Qed.

Lemma stable_eth_get_address sid path : stable (Ethereum.get_address sid path).
Proof. unfold Ethereum.get_address. stable. Qed.
Lemma stable_eth_get_public_key sid path : stable (Ethereum.get_public_key sid path).
Proof. unfold Ethereum.get_public_key. stable. Qed.
Lemma stable_eth_sign_message sid path m : stable (Ethereum.sign_message sid path m).
Proof. unfold Ethereum.sign_message. stable. Qed.
Lemma stable_eth_sign_message_full sid path m : stable (Ethereum.sign_message_full sid path m).
Proof. unfold Ethereum.sign_message_full. stable. Qed.
Lemma stable_eth_sign_eip1559 sid path env : stable (Ethereum.sign_eip1559 sid path env).
Proof. unfold Ethereum.sign_eip1559. stable. Qed.

Lemma stable_sol_get_address sid path : stable (Solana.get_address sid path).
Proof. unfold Solana.get_address. stable. Qed.
Lemma stable_sol_sign_tx sid path tx : stable (Solana.sign_tx sid path tx).
Proof. unfold Solana.sign_tx. stable. Qed.
Lemma stable_sol_sign_message sid path m : stable (Solana.sign_message sid path m).
Proof. unfold Solana.sign_message. stable. Qed.

Lemma stable_tron_get_address sid path : stable (Tron.get_address sid path).
Proof. unfold Tron.get_address. stable. Qed.
Lemma stable_tron_sign_tx sid path tx : stable (Tron.sign_tx debug sid path tx).
Proof. unfold Tron.sign_tx. stable. Qed.

Lemma stable_btc_get_account_xpub sid path coin : stable (Bitcoin.get_account_xpub sid path coin).
Proof. unfold Bitcoin.get_account_xpub. stable. Qed.
Lemma stable_btc_get_master_fingerprint sid : stable (Bitcoin.get_master_fingerprint sid).
Proof. unfold Bitcoin.get_master_fingerprint. stable. Qed.
Lemma stable_btc_sign_message sid path m coin : stable (Bitcoin.sign_message sid path m coin).
Proof. unfold Bitcoin.sign_message. stable. Qed.
Lemma stable_btc_request_loop n (psbt : Bitcoin.Psbt R) net sigs r :
  stable (Bitcoin.request_loop n psbt net sigs r).
Proof. revert sigs r. induction n; intros; cbn [Bitcoin.request_loop]; stable. Qed.
Hint Resolve stable_btc_request_loop : stable.
Lemma stable_btc_sign_psbt n sid text coin : stable (Bitcoin.sign_psbt n sid text coin).
Proof. unfold Bitcoin.sign_psbt. stable. Qed.
End Operations.

#[export] Hint Resolve stable_transceive stable_transceive_on stable_end_request
  stable_get_features stable_eth_get_address stable_eth_get_public_key stable_eth_sign_message
  stable_eth_sign_message_full stable_eth_sign_eip1559 stable_sol_get_address
  stable_sol_sign_tx stable_sol_sign_message stable_tron_get_address stable_tron_sign_tx
  stable_btc_get_account_xpub stable_btc_get_master_fingerprint stable_btc_sign_message
  stable_btc_sign_psbt : stable.

(** ** The methods on the pinned connection *)
Section Methods.
Context {CR : Crypto} {PM : ThpProto} {W : Type} `{!Env W} (fuel : nat).
Context {BP : BitcoinProto} {EP : EthereumProto} {SP : SolanaProto} {TP : TronProto}.
Context {R : Type} {RB : Bitcoin.RustBitcoin R} (debug : Z -> rstring).

#[local] Instance the_host : Host (Connection * W) := driver_host fuel.

(** The methods that use the pinned connection: which operation each performs, for
    which wallet, once a custom path has been parsed. *)
Inductive pinned_call : forall A, PassphraseSpec -> Conn W A -> Cli W A -> Prop :=
  | call_get_attestor_pubkey hsp cred :
      pinned_call _ Standard (Ethereum.get_public_key SEEDED_SESSION_ID (Ethereum.account_path 0))
        (get_attestor_pubkey fuel hsp cred)
  | call_sign_message_eth hsp cred msg :
      pinned_call _ Standard (Ethereum.sign_message SEEDED_SESSION_ID (Ethereum.account_path 0) msg)
        (sign_message_eth fuel hsp cred msg)
  | call_get_bitcoin_account_xpub hsp cred p account coin path n :
      resolve_path path (Bitcoin.account_path account coin) = Ret n ->
      pinned_call _ p (Bitcoin.get_account_xpub SEEDED_SESSION_ID n coin)
        (get_bitcoin_account_xpub fuel hsp cred p account coin path)
  | call_get_bitcoin_master_fingerprint hsp cred p :
      pinned_call _ p (Bitcoin.get_master_fingerprint SEEDED_SESSION_ID)
        (get_bitcoin_master_fingerprint fuel hsp cred p)
  | call_sign_psbt hsp cred p text fp xpub account coin path :
      pinned_call _ p (Bitcoin.sign_psbt fuel SEEDED_SESSION_ID text coin)
        (sign_psbt fuel hsp cred p text fp xpub account coin path)
  | call_sign_bitcoin_message hsp cred p n msg coin :
      pinned_call _ p (Bitcoin.sign_message SEEDED_SESSION_ID n msg coin)
        (sign_bitcoin_message fuel hsp cred p n msg coin)
  | call_get_ethereum_address hsp cred p account path n :
      resolve_path path (Ethereum.account_path account) = Ret n ->
      pinned_call _ p (Ethereum.get_address SEEDED_SESSION_ID n)
        (get_ethereum_address fuel hsp cred p account path)
  | call_sign_ethereum_tx hsp cred p env account path n :
      bytes_ok env -> resolve_path path (Ethereum.account_path account) = Ret n ->
      pinned_call _ p (Ethereum.sign_eip1559 SEEDED_SESSION_ID n env)
        (sign_ethereum_tx fuel hsp cred p env account path)
  | call_sign_ethereum_message hsp cred p account msg path n :
      resolve_path path (Ethereum.account_path account) = Ret n ->
      pinned_call _ p (Ethereum.sign_message_full SEEDED_SESSION_ID n msg)
        (sign_ethereum_message fuel hsp cred p account msg path)
  | call_get_solana_address hsp cred p account path n :
      resolve_path path (Solana.account_path account) = Ret n ->
      pinned_call _ p (Solana.get_address SEEDED_SESSION_ID n)
        (get_solana_address fuel hsp cred p account path)
  | call_sign_solana_tx hsp cred p tx account path n :
      resolve_path path (Solana.account_path account) = Ret n ->
      pinned_call _ p (Solana.sign_tx SEEDED_SESSION_ID n tx)
        (sign_solana_tx fuel hsp cred p tx account path)
  | call_sign_solana_message hsp cred p env account path n :
      resolve_path path (Solana.account_path account) = Ret n ->
      pinned_call _ p (Solana.sign_message SEEDED_SESSION_ID n env)
        (sign_solana_message fuel hsp cred p env account path)
  | call_get_tron_address hsp cred p account path n :
      resolve_path path (Tron.account_path account) = Ret n ->
      pinned_call _ p (Tron.get_address SEEDED_SESSION_ID n)
        (get_tron_address fuel hsp cred p account path)
  | call_sign_tron_tx hsp cred p raw account path n :
      resolve_path path (Tron.account_path account) = Ret n ->
      pinned_call _ p (Tron.sign_tx debug SEEDED_SESSION_ID n raw)
        (sign_tron_tx fuel debug hsp cred p raw account path).

(** Every such method is [with_conn] around its operation. *)
Lemma pinned_call_shape {A} p (op : Conn W A) m :
  pinned_call A p op m -> exists hsp cred, forall s, m s = with_conn fuel hsp cred p op s.
Proof.
  intros H. destruct H; try match goal with H : resolve_path _ _ = Ret _ |- _ =>
    exists hsp, cred; intros s; cbv beta delta [get_bitcoin_account_xpub get_ethereum_address
      sign_ethereum_tx sign_ethereum_message get_solana_address sign_solana_tx
      sign_solana_message get_tron_address sign_tron_tx]; rewrite H; reflexivity end.
  all: exists hsp, cred; reflexivity.
Qed.

(** The methods that fail before they take the mutex: those that are not implemented, and
    those given a custom path that does not parse. *)
Inductive refused_call : forall A, TrezorError -> Cli W A -> Prop :=
  | refused_identify :
      refused_call _ (not_implemented (str "identify (THP handshake)")) identify
  | refused_pair :
      refused_call _ (not_implemented (str "pair (secp256k1 attestor pubkey)")) pair
  | refused_sign_message msg :
      refused_call _ (not_implemented (str "sign_message (secp256k1 R||S)")) (sign_message msg)
  | refused_tron_pubkey account :
      refused_call _
        (not_implemented (str "get_tron_pubkey (Trezor Tron has no public-key message)"))
        (get_tron_pubkey account)
  | refused_bitcoin_account_xpub hsp cred p account coin path e :
      resolve_path path (Bitcoin.account_path account coin) = Fail e ->
      refused_call _ e (get_bitcoin_account_xpub fuel hsp cred p account coin path)
  | refused_ethereum_address hsp cred p account path e :
      resolve_path path (Ethereum.account_path account) = Fail e ->
      refused_call _ e (get_ethereum_address fuel hsp cred p account path)
  | refused_ethereum_tx hsp cred p env account path e :
      resolve_path path (Ethereum.account_path account) = Fail e ->
      refused_call _ e (sign_ethereum_tx fuel hsp cred p env account path)
  | refused_ethereum_message hsp cred p account msg path e :
      resolve_path path (Ethereum.account_path account) = Fail e ->
      refused_call _ e (sign_ethereum_message fuel hsp cred p account msg path)
  | refused_solana_address hsp cred p account path e :
      resolve_path path (Solana.account_path account) = Fail e ->
      refused_call _ e (get_solana_address fuel hsp cred p account path)
  | refused_solana_tx hsp cred p tx account path e :
      resolve_path path (Solana.account_path account) = Fail e ->
      refused_call _ e (sign_solana_tx fuel hsp cred p tx account path)
  | refused_solana_message hsp cred p env account path e :
      resolve_path path (Solana.account_path account) = Fail e ->
      refused_call _ e (sign_solana_message fuel hsp cred p env account path)
  | refused_tron_address hsp cred p account path e :
      resolve_path path (Tron.account_path account) = Fail e ->
      refused_call _ e (get_tron_address fuel hsp cred p account path)
  | refused_tron_tx hsp cred p raw account path e :
      resolve_path path (Tron.account_path account) = Fail e ->
      refused_call _ e (sign_tron_tx fuel debug hsp cred p raw account path).

(** They touch neither the slot nor the device. *)
Lemma refused_call_fails {A} e (m : Cli W A) s : refused_call A e m -> m s = (Fail e, s).
Proof.
  intros H. destruct H; try match goal with H : resolve_path _ _ = Fail _ |- _ =>
    cbv beta delta [get_bitcoin_account_xpub get_ethereum_address sign_ethereum_tx
      sign_ethereum_message get_solana_address sign_solana_tx sign_solana_message
      get_tron_address sign_tron_tx]; rewrite H; reflexivity end.
  all: reflexivity.
Qed.

Lemma the_host_transceive mt body : stable (h_transceive (Host := the_host) mt body).
Proof. apply stable_transceive. Qed.
Lemma the_host_transceive_on sid mt body : stable (h_transceive_on (Host := the_host) sid mt body).
Proof. apply stable_transceive_on. Qed.
#[local] Hint Resolve the_host_transceive the_host_transceive_on : stable.

Lemma pinned_call_stable {A} p (op : Conn W A) m : pinned_call A p op m -> stable op.
Proof. intros H. destruct H; eauto with stable nocore. Qed.

(** ** A connection opened for a wallet *)
Definition serves (key : option rstring * bool) (c : Connection) : Prop :=
  seeded_key c = Some key /\ is_Some (session c).

Definition opens (key : option rstring * bool) (w : W) (c : Connection) (w' : W) : Prop :=
  exists hsp cred, on_new_connection (open_paired_connection fuel hsp cred;;
    create_seeded_session fuel key.1 key.2) w = (Ret (tt, c), w').

Lemma create_seeded_serves pp od s s' :
  is_Some (session s.1) -> create_seeded_session fuel pp od s = (Ret tt, s') ->
  serves (pp, od) s'.1.
Proof.
  intros Hs H. unfold create_seeded_session in H.
  apply st_bind_inv in H as (? & s1 & Hm & H). injection Hm as <- <-.
  apply st_bind_inv in H as ([rt rp] & s2 & Ht & H).
  destruct (negb (rt =? MSG_SUCCESS)%Z); [discriminate|]. injection H as <-.
  split; [done|]. cbn [conn_modify fst set_seeded_with session].
  match type of Ht with transceive _ _ _ ?s1 = _ =>
    destruct (stable_transceive fuel MSG_CREATE_NEW_SESSION
      (encode_to_vec {| cns_passphrase := pp; cns_on_device := Some od;
                        cns_derive_cardano := Some false |}) s1) as [_ Hk] end.
  rewrite Ht in Hk. by apply Hk.
Qed.

Lemma open_paired_session hsp cred s s' :
  open_paired_connection fuel hsp cred s = (Ret tt, s') -> is_Some (session s'.1).
Proof.
  intros H. unfold open_paired_connection in H.
  apply st_bind_inv in H as (al & s1 & _ & H). apply st_bind_inv in H as (keys & s2 & _ & H).
  destruct (reports_unpaired keys); [discriminate|].
  apply st_bind_inv in H as (? & s3 & Hi & H). injection Hi as _ <-.
  match type of H with end_request ?s3 = _ =>
    destruct (stable_end_request (H := driver_host fuel) the_host_transceive s3) as [_ Hk] end.
  rewrite H in Hk. apply Hk. by eexists.
Qed.

Lemma opens_serves key w c w' : opens key w c w' -> serves key c.
Proof.
  intros (hsp & cred & H). unfold on_new_connection in H.
  match type of H with context [match ?m ?s with _ => _ end] =>
    destruct (m s) as [[[]|e| | |] [c' w1]] eqn:Hm; try discriminate end.
  injection H as -> ->. apply st_bind_inv in Hm as ([] & s1 & Ho & Hm).
  destruct key as [pp od]. apply (create_seeded_serves pp od s1 (c, w')); [|done].
  by apply open_paired_session in Ho.
Qed.

(** ** The slot *)
(** What [ensure_conn] leaves: the slot's connection when it serves the wallet, else
    a newly opened one. *)
Definition ensured (key : option rstring * bool) (slot : option Connection) (w : W)
    (c : Connection) (w' : W) : Prop :=
  (slot = Some c /\ seeded_key c = Some key /\ w' = w)
  \/ ((forall old, slot = Some old -> seeded_key old <> Some key) /\ opens key w c w').

Lemma ensure_conn_ret hsp cred p slot w s' :
  ensure_conn fuel hsp cred p (slot, w) = (Ret tt, s') ->
  exists c w', s' = (Some c, w') /\ ensured (wallet_key p) slot w c w'.
Proof.
  unfold ensure_conn. intros H.
  destruct (match slot with Some c => negb (bool_decide (seeded_key c = Some (wallet_key p)))
            | None => false end) eqn:Hch.
  - destruct slot as [old|]; [|discriminate]. apply negb_true_iff, bool_decide_eq_false in Hch.
    unfold open_into_slot in H. destruct (to_array32 hsp) as [h|e| | |]; try discriminate.
    destruct (on_new_connection _ w) as [[[[] c]|e| | |] w'] eqn:Ho; try discriminate.
    injection H as <-. exists c, w'. split; [done|]. right. split; [|by exists h, cred].
    by intros ? [= <-].
  - destruct slot as [old|].
    + apply negb_false_iff, bool_decide_eq_true in Hch. injection H as <-.
      exists old, w. split; [done|]. by left.
    + unfold open_into_slot in H. destruct (to_array32 hsp) as [h|e| | |]; try discriminate.
      destruct (on_new_connection _ w) as [[[[] c]|e| | |] w'] eqn:Ho; try discriminate.
      injection H as <-. exists c, w'. split; [done|]. right. split; [done|by exists h, cred].
Qed.

Lemma clearing_fail {A} (m : Cli W A) s e s' : clearing m s = (Fail e, s') -> s'.1 = None.
Proof. unfold clearing. destruct (m s) as [[a|e'| | |] [sl w]]; try discriminate. by intros [= _ <-]. Qed.

Lemma clearing_ret {A} (m : Cli W A) s a s' : clearing m s = (Ret a, s') -> m s = (Ret a, s').
Proof. unfold clearing. by destruct (m s) as [[a'|e'| | |] [sl w]]. Qed.

Lemma on_pinned_eq {A} (op : Conn W A) c w :
  on_pinned op (Some c, w) = ((op (c, w)).1, (Some (op (c, w)).2.1, (op (c, w)).2.2)).
Proof. unfold on_pinned. by destruct (op (c, w)) as [o [c' w']]. Qed.

(** C9: Wallet isolation. Whenever a method on the pinned connection returns a
    result for a wallet, that result was computed by its operation on a
    connection whose encrypted session was seeded for exactly that wallet (same
    passphrase, same on-device flag): the pinned connection itself if it was
    seeded for it, and otherwise one newly opened and seeded during the call.
    The connection left in the slot is that one, still seeded for the wallet. *)
Theorem wallet_isolation {A} p (op : Conn W A) m slot w a s' :
  pinned_call A p op m -> m (slot, w) = (Ret a, s') ->
  exists c w1 c' w', s' = (Some c', w') /\ op (c, w1) = (Ret a, (c', w'))
    /\ ensured (wallet_key p) slot w c w1
    /\ seeded_key c = Some (wallet_key p) /\ seeded_key c' = Some (wallet_key p).
Proof.
  intros Hm H. destruct (pinned_call_shape p op m Hm) as (hsp & cred & Hshape).
  rewrite Hshape in H. unfold with_conn in H.
  apply st_bind_inv in H as ([] & s1 & He & H). apply clearing_ret in He, H.
  apply ensure_conn_ret in He as (c & w1 & -> & He). rewrite on_pinned_eq in H.
  destruct (pinned_call_stable p op m Hm (c, w1)) as [Hk _].
  destruct (op (c, w1)) as [o [c' w']] eqn:Hop. cbn [fst snd] in *. injection H as -> <-.
  assert (Hs : seeded_key c = Some (wallet_key p)).
  { destruct He as [(_ & Hs & _)|[_ Ho]]; [done|]. by apply opens_serves in Ho as [Hs _]. }
  exists c, w1, c', w'. repeat split; [done..|]. unfold seeded_key in *. by rewrite Hk.
Qed.

Lemma with_conn_fail {A} hsp cred p (op : Conn W A) s e s' :
  with_conn fuel hsp cred p op s = (Fail e, s') -> s'.1 = None.
Proof.
  unfold with_conn, mbind, st_bind. intros H.
  destruct (clearing (ensure_conn fuel hsp cred p) s) as [[[]|e'| | |] s1] eqn:He;
    try discriminate.
  - by apply clearing_fail in H.
  - injection H as _ <-. by apply clearing_fail in He.
Qed.

Definition no_device_id : TrezorError := thp (str "device returned no device_id").

(** C36: What each method leaves in the slot when it fails. A method that runs an operation
    on the pinned connection leaves the slot empty, whether the connection could not be
    opened or the operation failed on it, so the next call opens a new one. A method that is
    not implemented, or whose custom path does not parse, fails before it looks at the slot
    and leaves slot and device as they were. [identify_paired] empties the slot too, with
    one exception: when the device answered it with features that carry no [device_id], it
    fails and keeps the connection it asked. *)
Theorem errors_empty_the_slot s :
  (forall A p (op : Conn W A) m e s',
     pinned_call A p op m -> m s = (Fail e, s') -> s'.1 = None)
  /\ (forall A e (m : Cli W A), refused_call A e m -> m s = (Fail e, s))
  /\ (forall hsp cred e s', identify_paired fuel hsp cred s = (Fail e, s') ->
       s'.1 = None \/
       exists c w f c' w', ensure_conn fuel hsp cred Standard s = (Ret tt, (Some c, w))
         /\ get_features (c, w) = (Ret f, (c', w')) /\ feat_device_id f = None
         /\ e = no_device_id /\ s' = (Some c', w')).
Proof.
  split_and!.
  - intros A p op m e s' Hm H. destruct (pinned_call_shape p op m Hm) as (hsp & cred & Hshape).
    rewrite Hshape in H. by apply with_conn_fail in H.
  - intros A e m Hm. by apply refused_call_fails.
  - intros hsp cred e s' H. unfold identify_paired, mbind, st_bind in H.
    destruct (clearing (ensure_conn fuel hsp cred Standard) s) as [[[]|e'| | |] s1] eqn:He;
      try discriminate.
    2: { left. injection H as _ <-. by apply clearing_fail in He. }
    apply clearing_ret in He. destruct s as [slot w0].
    destruct (ensure_conn_ret _ _ _ _ _ _ He) as (c & w & -> & _).
    destruct (clearing (on_pinned get_features) (Some c, w)) as [[f|e'| | |] s2] eqn:Hf;
      try discriminate.
    2: { left. injection H as _ <-. by apply clearing_fail in Hf. }
    right. apply clearing_ret in Hf. rewrite on_pinned_eq in Hf.
    destruct (get_features (c, w)) as [o [c' w']] eqn:Hg. cbn [fst snd] in Hf.
    injection Hf as -> <-. unfold lift in H. injection H as Hid <-.
    exists c, w, f, c', w'. destruct (feat_device_id f) eqn:Hd; [discriminate|].
    by injection Hid as <-.
Qed.

(** After a method has succeeded for a wallet, the next method for the same
    wallet runs its operation directly on the connection the first one left: no
    channel allocation, no handshake and no new session, for any two of the
    methods. *)
Lemma pinned_connection_reused {A B} p (op1 : Conn W A) m1 (op2 : Conn W B) m2 s a s' :
  pinned_call A p op1 m1 -> pinned_call B p op2 m2 -> m1 s = (Ret a, s') ->
  exists c w, s' = (Some c, w) /\
    m2 s' = clearing (on_pinned op2) (Some c, w).
Proof.
  intros H1 H2 H. destruct s as [slot w0].
  destruct (pinned_call_shape p op1 m1 H1) as (hsp & cred & Hshape).
  rewrite Hshape in H. unfold with_conn in H.
  apply st_bind_inv in H as ([] & s1 & He & H). apply clearing_ret in He, H.
  apply ensure_conn_ret in He as (c & w1 & -> & He). rewrite on_pinned_eq in H.
  destruct (pinned_call_stable p op1 m1 H1 (c, w1)) as [Hk _].
  destruct (op1 (c, w1)) as [o [c' w']] eqn:Hop. cbn [fst snd] in *. injection H as -> <-.
  assert (Hs : seeded_key c = Some (wallet_key p)).
  { destruct He as [(_ & Hs & _)|[_ Ho]]; [done|]. by apply opens_serves in Ho as [Hs _]. }
  exists c', w'. split; [done|].
  destruct (pinned_call_shape p op2 m2 H2) as (hsp2 & cred2 & Hshape2). rewrite Hshape2.
  assert (Hs' : seeded_key c' = Some (wallet_key p)) by (unfold seeded_key in *; by rewrite Hk).
  unfold with_conn, mbind, st_bind. unfold clearing at 1. unfold ensure_conn.
  by rewrite bool_decide_true by exact Hs'.
Qed.

(** [identify_paired] is the exception to the rule above: when the features carry
    no [device_id] it returns an error and keeps the connection in the slot. *)
Lemma identify_error_keeps_slot hsp cred slot w c w1 f c' w' :
  ensure_conn fuel hsp cred Standard (slot, w) = (Ret tt, (Some c, w1)) ->
  get_features (c, w1) = (Ret f, (c', w')) -> feat_device_id f = None ->
  identify_paired fuel hsp cred (slot, w)
  = (Fail no_device_id, (Some c', w')).
Proof.
  intros He Hf Hid. unfold identify_paired.
  rewrite (st_bind_ret _ _ _ tt (Some c, w1)) by (unfold clearing; by rewrite He).
  rewrite (st_bind_ret _ _ _ f (Some c', w')).
  - by rewrite Hid.
  - unfold clearing. rewrite on_pinned_eq. unfold the_host in Hf. by rewrite Hf.
Qed.

(** ** Histories of a client *)
Inductive client_call : forall A, Cli W A -> Prop :=
  | client_pinned A p (op : Conn W A) m : pinned_call A p op m -> client_call A m
  | client_identify_paired hsp cred : client_call _ (identify_paired fuel hsp cred)
  | client_refused A e (m : Cli W A) : refused_call A e m -> client_call A m.

(** Whether the custom path parses or not. *)
Lemma path_resolves path fallback :
  (exists n, resolve_path path fallback = Ret n) \/ exists e, resolve_path path fallback = Fail e.
Proof.
  destruct path as [text|]; [|left; by eexists]. cbn [resolve_path].
  apply parse_path_total.
Qed.

Lemma path_call {A} path fallback (m : Cli W A) :
  (forall n, resolve_path path fallback = Ret n -> exists p op, pinned_call A p op m) ->
  (forall e, resolve_path path fallback = Fail e -> refused_call A e m) -> client_call A m.
Proof.
  intros Hr Hf. destruct (path_resolves path fallback) as [[n H]|[e H]].
  - destruct (Hr n H) as (p & op & Hm). by eapply client_pinned.
  - by eapply client_refused, Hf.
Qed.

(** So every method with a path is a call, for any path. *)
Lemma path_methods_are_calls hsp cred p account coin path bytes :
  bytes_ok bytes ->
  client_call _ (get_bitcoin_account_xpub fuel hsp cred p account coin path)
  /\ client_call _ (get_ethereum_address fuel hsp cred p account path)
  /\ client_call _ (sign_ethereum_tx fuel hsp cred p bytes account path)
  /\ client_call _ (sign_ethereum_message fuel hsp cred p account bytes path)
  /\ client_call _ (get_solana_address fuel hsp cred p account path)
  /\ client_call _ (sign_solana_tx fuel hsp cred p bytes account path)
  /\ client_call _ (sign_solana_message fuel hsp cred p bytes account path)
  /\ client_call _ (get_tron_address fuel hsp cred p account path)
  /\ client_call _ (sign_tron_tx fuel debug hsp cred p bytes account path).
Proof.
  intros Hb. split_and!.
  - apply (path_call path (Bitcoin.account_path account coin)).
    + intros n Hn. do 2 eexists. exact (call_get_bitcoin_account_xpub hsp cred p account coin path n Hn).
    + exact (refused_bitcoin_account_xpub hsp cred p account coin path).
  - apply (path_call path (Ethereum.account_path account)).
    + intros n Hn. do 2 eexists. exact (call_get_ethereum_address hsp cred p account path n Hn).
    + exact (refused_ethereum_address hsp cred p account path).
  - apply (path_call path (Ethereum.account_path account)).
    + intros n Hn. do 2 eexists. exact (call_sign_ethereum_tx hsp cred p bytes account path n Hb Hn).
    + exact (refused_ethereum_tx hsp cred p bytes account path).
  - apply (path_call path (Ethereum.account_path account)).
    + intros n Hn. do 2 eexists. exact (call_sign_ethereum_message hsp cred p account bytes path n Hn).
    + exact (refused_ethereum_message hsp cred p account bytes path).
  - apply (path_call path (Solana.account_path account)).
    + intros n Hn. do 2 eexists. exact (call_get_solana_address hsp cred p account path n Hn).
    + exact (refused_solana_address hsp cred p account path).
  - apply (path_call path (Solana.account_path account)).
    + intros n Hn. do 2 eexists. exact (call_sign_solana_tx hsp cred p bytes account path n Hn).
    + exact (refused_solana_tx hsp cred p bytes account path).
  - apply (path_call path (Solana.account_path account)).
    + intros n Hn. do 2 eexists. exact (call_sign_solana_message hsp cred p bytes account path n Hn).
    + exact (refused_solana_message hsp cred p bytes account path).
  - apply (path_call path (Tron.account_path account)).
    + intros n Hn. do 2 eexists. exact (call_get_tron_address hsp cred p account path n Hn).
    + exact (refused_tron_address hsp cred p account path).
  - apply (path_call path (Tron.account_path account)).
    + intros n Hn. do 2 eexists. exact (call_sign_tron_tx hsp cred p bytes account path n Hn).
    + exact (refused_tron_tx hsp cred p bytes account path).
Qed.

(** A new client, then any calls with any outcome, an await that never completes
    included; between the calls the environment does what it likes, probes and
    pairings of this client included, which do not touch the slot. *)
Inductive history : option Connection * W -> Prop :=
  | history_new w : history (client_new w)
  | history_call A (m : Cli W A) s : history s -> client_call A m -> history (m s).2
  | history_world slot w w' : history (slot, w) -> history (slot, w').

Definition slot_ok (slot : option Connection) : Prop :=
  match slot with
  | Some c => is_Some (seeded_key c) /\ is_Some (session c)
  | None => True
  end.

Lemma ensured_ok key slot w c w' : slot_ok slot -> ensured key slot w c w' -> slot_ok (Some c).
Proof.
  intros Hok [(-> & _ & _)|[_ Ho]]; [done|]. apply opens_serves in Ho as [Hk Hs].
  split; [by eexists|done].
Qed.

Lemma stable_slot_ok {A} (op : Conn W A) c w :
  stable op -> slot_ok (Some c) -> slot_ok (on_pinned op (Some c, w)).2.1.
Proof.
  intros Hst [Hk Hs]. rewrite on_pinned_eq. destruct (Hst (c, w)) as [Hw Hses].
  unfold slot_ok, seeded_key in *. cbn [fst snd] in *. rewrite Hw. auto.
Qed.

Lemma clearing_ok {A} (m : Cli W A) s : slot_ok (m s).2.1 -> slot_ok (clearing m s).2.1.
Proof. unfold clearing. by destruct (m s) as [[a|e| | |] [sl w]]. Qed.

Lemma ensure_conn_ok hsp cred p s :
  slot_ok s.1 -> slot_ok (clearing (ensure_conn fuel hsp cred p) s).2.1.
Proof.
  intros Hok. apply clearing_ok. destruct s as [slot w].
  destruct (ensure_conn fuel hsp cred p (slot, w)) as [[[]|e| | |] [sl w']] eqn:He.
  1: { apply ensure_conn_ret in He as (c & w1 & [= -> ->] & He). by eapply ensured_ok. }
  all: revert He; unfold ensure_conn; destruct slot as [c|]; cbn [fst] in Hok;
    try destruct (negb _); try discriminate; unfold open_into_slot;
    destruct (to_array32 hsp); try (by intros [= <- <-]);
    try (destruct (on_new_connection _ w) as [[[[] ?]|?| | |] ?]; by intros [= <- <-]);
    try (destruct (on_new_connection _ w) as [[[[] ?]|?| | |] ?]; intros H; simplify_eq; done);
    intros H; simplify_eq; done.
Qed.

Lemma then_pinned_ok {A B} hsp cred p (op : Conn W A) (k : A -> Cli W B) s :
  stable op -> slot_ok s.1 -> (forall a s', (k a s').2 = s') ->
  slot_ok ((clearing (ensure_conn fuel hsp cred p);; a ← clearing (on_pinned op); k a) s).2.1.
Proof.
  intros Hst Hok Hkeep. pose proof (ensure_conn_ok hsp cred p s Hok) as H1.
  unfold mbind at 1, st_bind at 1.
  destruct (clearing (ensure_conn fuel hsp cred p) s) as [[[]|e| | |] [sl w]] eqn:He; try exact H1.
  apply clearing_ret in He. destruct s as [slot0 w0].
  apply ensure_conn_ret in He as (c & w1 & [= -> ->] & _). cbn [fst snd] in H1.
  pose proof (clearing_ok (on_pinned op) (Some c, w1) (stable_slot_ok op c w1 Hst H1)) as H2.
  unfold mbind, st_bind.
  destruct (clearing (on_pinned op) (Some c, w1)) as [[a|e| | |] s2]; try exact H2.
  by rewrite Hkeep.
Qed.

(** C24: In every history of a client the slot is empty or holds a connection with an
    encrypted session installed that was seeded for some wallet. *)
Theorem client_slot_invariant s : history s -> slot_ok s.1.
Proof.
  induction 1 as [w|A m s Hs IH Hm|slot w w' _ IH]; [done| |exact IH].
  destruct Hm as [A p op m Hm|hsp cred|A e m Hm].
  - destruct (pinned_call_shape p op m Hm) as (hsp & cred & Hshape). rewrite Hshape.
    pose proof (then_pinned_ok hsp cred p op (fun a => mret a) s
      (pinned_call_stable p op m Hm) IH (fun _ _ => eq_refl)) as H.
    revert H. unfold with_conn, mbind, st_bind.
    destruct (clearing (ensure_conn fuel hsp cred p) s) as [[[]|e| | |] s1]; try done.
    by destruct (clearing (on_pinned op) s1) as [[a|e| | |] s2].
  - apply (then_pinned_ok hsp cred Standard get_features _ s); [|exact IH|done].
    apply (stable_get_features (H := driver_host fuel)); apply the_host_transceive_on.
  - by rewrite (refused_call_fails e m s Hm).
Qed.
End Methods.

(** ** Witnesses: a pinned connection seeded for the standard wallet and a device that
    answers it *)
Section Samples.
#[local] Existing Instance toy_crypto.
#[local] Existing Instance toy_thp_proto.
#[local] Existing Instance toy_solana_proto.

Definition standard_connection : Connection :=
  set_seeded_with (Some (None, false)) exchange_connection.
Definition answering (replies : list (Z * list Z)) : Script :=
  script_of (incoming 64 (device_frames 3 0 0 0 device_session replies)).
Definition address_reply : Z * list Z :=
  (Solana.SOL_ADDRESS, encode_to_vec {| sa_address := str "7S" |}).
Definition no_id : Features :=
  {| feat_major_version := 2; feat_minor_version := 9; feat_patch_version := 0;
     feat_device_id := None; feat_initialized := Some true; feat_model := None |}.
Definition no_id_reply : Z * list Z := (MGMT_FEATURES, encode_to_vec no_id).
Definition no_id_run : outcome TrezorError Features * (Connection * Script) :=
  get_features (Host0 := driver 40) (standard_connection, answering [no_id_reply]).
Definition ask_solana : Cli Script rstring := get_solana_address 40 [] [] Standard 0 None.
Definition solana_op : Conn Script rstring :=
  Solana.get_address (Host0 := driver 40) SEEDED_SESSION_ID (Solana.account_path 0).
End Samples.

Lemma ask_solana_call :
  pinned_call (CR := toy_crypto) (PM := toy_thp_proto) (BP := toy_bitcoin_proto)
    (EP := toy_ethereum_proto) (SP := toy_solana_proto) (TP := toy_tron_proto)
    (RB := Bitcoin.toy_rust_bitcoin Bitcoin.sample_psbt) 40 (fun _ => [])
    rstring Standard solana_op ask_solana.
Proof. by apply call_get_solana_address. Qed.

(** A run with the outcome [a], whatever its final state. *)
Lemma run_outcome {A B} (p : A * B) a : p.1 = a -> p = (a, p.2).
Proof. destruct p. by intros <-. Qed.

Lemma wallet_isolation_witness :
  exists c w1 c' w', solana_op (c, w1) = (Ret (str "7S"), (c', w'))
    /\ seeded_key c = Some (None, false) /\ seeded_key c' = Some (None, false).
Proof.
  destruct (wallet_isolation (CR := toy_crypto) (PM := toy_thp_proto) (BP := toy_bitcoin_proto)
    (EP := toy_ethereum_proto) (SP := toy_solana_proto) (TP := toy_tron_proto)
    (RB := Bitcoin.toy_rust_bitcoin Bitcoin.sample_psbt) 40 (fun _ => []) Standard solana_op
    ask_solana (Some standard_connection) (answering [address_reply]) (str "7S")
    (ask_solana (Some standard_connection, answering [address_reply])).2)
    as (c & w1 & c' & w' & _ & Hop & _ & H1 & H2).
  - apply ask_solana_call.
  - apply run_outcome. vm_compute. reflexivity.
  - exists c, w1, c', w'. exact (conj Hop (conj H1 H2)).
Defined.

Lemma errors_empty_the_slot_witness :
  let w := script_of [inl (Disconnected [])] in
  (ask_solana (Some standard_connection, w)).2.1 = None.
Proof.
  intros w.
  destruct (errors_empty_the_slot (CR := toy_crypto) (PM := toy_thp_proto)
    (BP := toy_bitcoin_proto) (EP := toy_ethereum_proto) (SP := toy_solana_proto)
    (TP := toy_tron_proto) (RB := Bitcoin.toy_rust_bitcoin Bitcoin.sample_psbt) 40 (fun _ => [])
    (Some standard_connection, w)) as [H _].
  apply (H _ Standard solana_op ask_solana (from_transport_error (Disconnected []))
    (ask_solana (Some standard_connection, w)).2).
  - apply ask_solana_call.
  - apply run_outcome. vm_compute. reflexivity.
Defined.

Lemma pinned_connection_reused_witness :
  let s := (Some standard_connection, answering [address_reply; address_reply]) in
  exists c w, (ask_solana s).2 = (Some c, w)
    /\ ask_solana (ask_solana s).2 = clearing (on_pinned solana_op) (Some c, w).
Proof.
  intros s.
  apply (pinned_connection_reused (CR := toy_crypto) (PM := toy_thp_proto)
    (BP := toy_bitcoin_proto) (EP := toy_ethereum_proto) (SP := toy_solana_proto)
    (TP := toy_tron_proto) (RB := Bitcoin.toy_rust_bitcoin Bitcoin.sample_psbt) 40 (fun _ => [])
    Standard solana_op ask_solana solana_op ask_solana s (str "7S") (ask_solana s).2).
  - apply ask_solana_call.
  - apply ask_solana_call.
  - apply run_outcome. vm_compute. reflexivity.
Defined.

Lemma identify_error_keeps_slot_witness :
  let CR := toy_crypto in let PM := toy_thp_proto in
  exists c w, identify_paired 40 [] [] (Some standard_connection, answering [no_id_reply])
    = (Fail (thp (str "device returned no device_id")), (Some c, w)).
Proof.
  intros CR PM. do 2 eexists.
  apply (identify_error_keeps_slot (CR := toy_crypto) (PM := toy_thp_proto) 40 [] []
    (Some standard_connection) (answering [no_id_reply]) standard_connection
    (answering [no_id_reply]) no_id no_id_run.2.1 no_id_run.2.2).
  - reflexivity.
  - vm_compute. reflexivity.
  - reflexivity.
Defined.

Lemma client_slot_invariant_witness :
  slot_ok (ask_solana (None, answering [])).2.1.
Proof.
  apply (client_slot_invariant (CR := toy_crypto) (PM := toy_thp_proto)
    (BP := toy_bitcoin_proto) (EP := toy_ethereum_proto) (SP := toy_solana_proto)
    (TP := toy_tron_proto) (RB := Bitcoin.toy_rust_bitcoin Bitcoin.sample_psbt) 40 (fun _ => [])).
  apply (history_call (CR := toy_crypto) (PM := toy_thp_proto)
    (BP := toy_bitcoin_proto) (EP := toy_ethereum_proto) (SP := toy_solana_proto)
    (TP := toy_tron_proto) (RB := Bitcoin.toy_rust_bitcoin Bitcoin.sample_psbt) 40 (fun _ => [])
    _ ask_solana (None, answering [])).
  - apply history_new.
  - eapply client_pinned, ask_solana_call.
Defined.
