(* ===== verification/AnyDevice.v ===== *)
(** * The client against any device (client.rs and everything it calls)

    A total-correctness statement about whole methods: whatever reports and transport
    errors the device's side delivers, in any phase and of any content, no operation of
    the pairing and chain modules and no method of the client panics, except where the
    platform generator fails, and each of them ends or waits for a silent device. *)

From S2P Require Import Prelude Types.
From S2P Require Import Ethereum Solana Tron Bitcoin.
From S2P Require Import Env Bip32 Crypto Proto ChainProto Framing Channel Session.
From S2P Require Import Noise Connection ConnectionSafe Host Text Cpace Pairing Client ClientPinned.

(** The generator could not fill the largest buffer the crate asks for. *)
Definition rng_failed (w : Script) : Prop := length (entropy w) < 32.

Create HintDb device discriminated.

(** ** Steps of an operation over the driver *)
Section Steps.
Context {CR : Crypto} {CL : CryptoLaws} {PM : ThpProto} {PL : ThpProtoLaws}.
Abbreviation respects := (respects_or rng_failed).

Lemma respects_ret_any {A} n (a : A) : respects n 0 anything (mret a).
Proof. by apply respects_ret. Qed.

Lemma respects_plain {A} n (o : outcome TrezorError A) :
  plain o -> respects n 0 anything (lift o).
Proof. intros H. apply respects_lift. by destruct o. Qed.

Lemma respects_random n k :
  k <= 32 -> respects n 0 (fun b => bytes_ok b /\ length b = k) (on_env (random_bytes k)).
Proof.
  intros Hk c w Hc Hw _. unfold on_env, random_bytes. cbn [fst snd getrandom script_env].
  unfold script_random. destruct (Nat.leb_spec k (length (entropy w))) as [Hl|Hl].
  - destruct Hw as [Hin He]. cbn. split_and!; auto; [|lia| |rewrite length_take; lia].
    + split; [done|]. by apply bytes_ok_drop.
    + by apply bytes_ok_take.
  - split_and!; auto. unfold rng_failed. lia.
Qed.

Lemma respects_random_any n k : k <= 32 -> respects n 0 anything (on_env (random_bytes k)).
Proof.
  intros Hk c w Hc Hw Hl. pose proof (respects_random n k Hk c w Hc Hw Hl) as H.
  destruct (on_env _ _) as [[b|e| | |] [c' w']]; tauto.
Qed.

Lemma respects_code n : respects n 0 anything (on_env (W := Script) env_code).
Proof.
  intros c w Hc Hw _. unfold on_env, env_code. cbn [fst snd request_code script_env].
  unfold script_code. destruct (codes w) as [|code rest]; cbn; split_and!; auto; lia.
Qed.

Lemma respects_transceive_on n fuel sid mt body :
  n <= fuel -> is_byte sid -> bytes_ok body ->
  respects n 1 anything (transceive_on (W := Script) fuel sid mt body).
Proof.
  intros Hn Hs Hb. eapply respects_seq; [apply respects_modify; auto with conn|intros _ _].
  by apply respects_transceive.
Qed.
End Steps.

(** ** The operations of the pairing and chain modules *)
Section Operations.
Context {CR : Crypto} {CL : CryptoLaws} {PM : ThpProto} {PL : ThpProtoLaws}.
Context {BP : BitcoinProto} {BL : BitcoinProtoLaws} {EP : EthereumProto} {EL : EthereumProtoLaws}.
Context {SP : SolanaProto} {SL : SolanaProtoLaws} {TP : TronProto} {TL : TronProtoLaws}.
Context {R : Type} {RB : Bitcoin.RustBitcoin R} (debug : Z -> rstring).
Abbreviation respects := (respects_or rng_failed).
(** Fewer than [n] reports are left, and the loops of the driver have that fuel. *)
Context (fuel n : nat) (Hn : n <= fuel).
#[local] Instance any_host : Host (Connection * Script) := driver fuel.

Lemma respects_request mt body :
  bytes_ok body -> respects n 0 anything (h_transceive (Host := any_host) mt body).
Proof.
  intros Hb. eapply respects_weaken; [by apply (respects_transceive n fuel)|lia..].
Qed.

Lemma respects_request_on sid mt body :
  is_byte sid -> bytes_ok body ->
  respects n 0 anything (h_transceive_on (Host := any_host) sid mt body).
Proof.
  intros Hs Hb. eapply respects_weaken; [by apply (respects_transceive_on n fuel)|lia..].
Qed.

Lemma respects_draw k : k <= 32 -> respects n 0 anything (h_random (Host := any_host) k).
Proof. apply respects_random_any. Qed.

Lemma respects_prompt : respects n 0 anything (h_code (Host := any_host)).
Proof. apply respects_code. Qed.

Lemma plain_expect actual expected what : plain (expect_type actual expected what).
Proof. unfold expect_type. by destruct (_ =? _)%Z. Qed.

Lemma plain_as32 v : plain (as32 v).
Proof. unfold as32. by destruct (_ =? _). Qed.

Lemma plain_format_code code : plain (format_code code).
Proof. by rewrite format_code_fixed. Qed.

Lemma plain_slice {A} (l : list A) i j : i <= j -> j <= length l -> plain (slice (E := TrezorError) l i j).
Proof. intros. by rewrite slice_ret. Qed.

Lemma plain_idx {A} (l : list A) i : i < length l -> plain (idx (E := TrezorError) l i).
Proof. intros H. unfold idx. by destruct (lookup_lt_is_Some_2 l i H) as [x ->]. Qed.

(** A pure step whose result is a message body. *)
Definition plain_body (o : outcome TrezorError (Z * list Z)) : Prop :=
  match o with Ret m => bytes_ok m.2 | Fail _ => True | _ => False end.

Lemma contract_message_body contract : plain_body (contract_message debug contract).
Proof.
  unfold contract_message. repeat case_match; try done;
    destruct (decode _); cbn [map_err mbind outcome_bind]; try done; apply encode_ok.
Qed.

Lemma plain_envelope env : bytes_ok env -> plain (decode_eip1559_envelope env).
Proof.
  intros Hb. pose proof (decode_eip1559_envelope_settles env Hb) as H.
  by destruct (decode_eip1559_envelope env).
Qed.

Lemma answer_request_body (psbt : Psbt R) network req :
  match answer_request psbt network req with
  | Ret (Some body) => bytes_ok body
  | Ret None | Fail _ => True
  | _ => False
  end.
Proof.
  pose proof (plain_answer_request psbt network req) as Hp.
  destruct (answer_request psbt network req) as [[body|]|e| | |] eqn:E; try done. clear Hp.
  revert E. unfold answer_request. repeat case_match; try discriminate; intros E;
    repeat match goal with
      | H : (_ ≫= _) = Ret _ |- _ => apply outcome_bind_inv in H as (? & ? & H)
      | H : mret _ = Ret (Some _) |- _ => injection H as <-
      end; apply encode_ok.
Qed.

#[local] Hint Resolve respects_request respects_request_on respects_draw respects_prompt
  respects_ret_any respects_throw respects_plain plain_expect plain_as32 plain_format_code
  plain_ok_or plain_map_err plain_envelope : device.
#[local] Hint Extern 1 (bytes_ok (encode_to_vec _)) => apply encode_ok : device.
#[local] Hint Extern 1 (bytes_ok []) => constructor : device.
#[local] Hint Extern 1 (is_byte _) => (unfold is_byte, SEEDED_SESSION_ID in *; lia) : device.
#[local] Hint Extern 1 (_ <= _) => lia : device.

Ltac device_step :=
  first
    [ solve [eauto with device nocore]
    | apply respects_if; intros ?
    | match goal with |- respects_or _ _ _ _ (_ ≫= _) => eapply respects_seq; [|intros ? ?] end
    | match goal with |- respects_or _ _ _ _ (match ?x with _ => _ end) => destruct x end ].

Lemma respects_pairing hash hs host_name app_name :
  respects n 0 anything (run_codeentry_pairing (S := Connection * Script) hash hs host_name app_name).
Proof. unfold run_codeentry_pairing, random16, random32. repeat device_step. Qed.

Lemma respects_end_request : respects n 0 anything (end_request (S := Connection * Script)).
Proof. unfold end_request. repeat device_step. Qed.

Lemma respects_get_features : respects n 0 anything (get_features (S := Connection * Script)).
Proof. unfold get_features. repeat device_step. Qed.

Context (sid : Z) (Hsid : is_byte sid).

Lemma respects_eth_get_address path : respects n 0 anything (Ethereum.get_address sid path).
Proof. unfold Ethereum.get_address. repeat device_step. Qed.
Lemma respects_eth_get_public_key path : respects n 0 anything (Ethereum.get_public_key sid path).
Proof. unfold Ethereum.get_public_key. repeat device_step. Qed.
Lemma respects_eth_sign_message path m : respects n 0 anything (Ethereum.sign_message sid path m).
Proof.
  unfold Ethereum.sign_message. repeat device_step.
  apply respects_plain, plain_slice; [lia|by apply Nat.ltb_ge].
Qed.
Lemma respects_eth_sign_message_full path m :
  respects n 0 anything (Ethereum.sign_message_full sid path m).
Proof.
  unfold Ethereum.sign_message_full. repeat device_step.
  apply respects_plain, plain_slice; [lia|by apply Nat.ltb_ge].
Qed.
Lemma respects_eth_sign_eip1559 path env :
  bytes_ok env -> respects n 0 anything (sign_eip1559 sid path env).
Proof. intros Henv. unfold sign_eip1559. repeat device_step. Qed.

Lemma respects_sol_get_address path : respects n 0 anything (Solana.get_address sid path).
Proof. unfold Solana.get_address. repeat device_step. Qed.
Lemma respects_sol_sign_tx path tx : respects n 0 anything (Solana.sign_tx sid path tx).
Proof. unfold Solana.sign_tx. repeat device_step. Qed.
Lemma respects_sol_sign_message path m : respects n 0 anything (Solana.sign_message sid path m).
Proof. unfold Solana.sign_message. repeat device_step. Qed.

Lemma respects_tron_get_address path : respects n 0 anything (Tron.get_address sid path).
Proof. unfold Tron.get_address. repeat device_step. Qed.
Lemma respects_contract contract :
  respects n 0 (fun m => bytes_ok m.2) (lift (contract_message debug contract)).
Proof.
  apply respects_lift. pose proof (contract_message_body contract) as H.
  by destruct (contract_message debug contract).
Qed.
#[local] Hint Resolve respects_contract : device.

Lemma respects_tron_sign_tx path raw : respects n 0 anything (Tron.sign_tx debug sid path raw).
Proof.
  unfold Tron.sign_tx. repeat device_step.
  all: match goal with H : negb (length _ =? 65) = false |- _ =>
    apply negb_false_iff, Nat.eqb_eq in H end.
  all: apply respects_plain; first [apply plain_idx|apply plain_slice]; lia.
Qed.

Lemma respects_btc_get_account_xpub path coin :
  respects n 0 anything (Bitcoin.get_account_xpub sid path coin).
Proof. unfold Bitcoin.get_account_xpub. repeat device_step. Qed.
Lemma respects_btc_get_master_fingerprint :
  respects n 0 anything (Bitcoin.get_master_fingerprint sid).
Proof. unfold Bitcoin.get_master_fingerprint. repeat device_step. Qed.
Lemma respects_btc_sign_message path m coin :
  respects n 0 anything (Bitcoin.sign_message sid path m coin).
Proof. unfold Bitcoin.sign_message. repeat device_step. Qed.
End Operations.

(** The streaming exchange: each round reads a report, so it ends. *)
Section Streaming.
Context {CR : Crypto} {CL : CryptoLaws} {PM : ThpProto} {PL : ThpProtoLaws}.
Context {BP : BitcoinProto} {BL : BitcoinProtoLaws}.
Context {R : Type} {RB : Bitcoin.RustBitcoin R}.
Abbreviation respects := (respects_or rng_failed).
Context (fuel : nat).
#[local] Instance streaming_host : Host (Connection * Script) := driver fuel.

Lemma respects_request_loop psbt network : forall k n sigs r,
  n <= fuel -> n <= k ->
  respects n 0 anything (request_loop (S := Connection * Script) k psbt network sigs r).
Proof.
  induction k as [|k IH]; intros n sigs [rt rp] Hn Hk; [intros c w _ _ Hl; lia|].
  cbn [request_loop]. apply respects_if; intros _; [apply respects_throw|].
  eapply respects_seq; [apply respects_plain, plain_map_err|intros req _].
  eapply (respects_seq _ _ (fun ack => match ack with Some body => bytes_ok body | None => True end)).
  { apply respects_lift. pose proof (answer_request_body psbt network req) as H.
    by destruct (answer_request psbt network req) as [[]| | | |]. }
  intros [body|] Hbody; [|apply respects_ret_any].
  eapply (respects_weaken n n (1 + 0) 0); [|lia..].
  eapply respects_bind; [by apply (respects_transceive n fuel)|intros next _].
  apply IH; lia.
Qed.

Lemma respects_btc_sign_psbt n sid text coin :
  n <= fuel -> is_byte sid ->
  respects n 0 anything (Bitcoin.sign_psbt (S := Connection * Script) fuel sid text coin).
Proof.
  intros Hn Hs. unfold Bitcoin.sign_psbt.
  eapply respects_seq; [apply respects_plain, plain_map_err|intros psbt _].
  eapply respects_seq; [by apply (respects_request_on fuel); [..|apply encode_ok]|intros first _].
  eapply respects_seq; [by apply respects_request_loop|intros sigs _].
  eapply respects_seq; [apply respects_plain, plain_merge_signatures|intros; apply respects_ret_any].
Qed.
End Streaming.

(** ** Bringing a connection up *)
Section BringUp.
Context {CR : Crypto} {CL : CryptoLaws} {PM : ThpProto} {PL : ThpProtoLaws}.
Abbreviation respects := (respects_or rng_failed).
Context (fuel n : nat) (Hn : n <= fuel).

Lemma respects_allocate : respects n 0 anything (allocate (W := Script) fuel).
Proof.
  unfold allocate, random_allocation_nonce. eapply respects_seq.
  - apply respects_random. unfold ALLOCATION_NONCE_LEN. lia.
  - intros nonce [Hok _]. by apply respects_allocate_with.
Qed.

Lemma respects_handshake_new raw hs cred :
  respects n 0 (fun h => bytes_ok (hs_static_pub h) /\ bytes_ok (init_request_payload h))
    (on_env (W := Script) (handshake_new raw 0 hs cred)).
Proof.
  intros c w Hc Hw Hl. pose proof (respects_random n 32 (le_n 32) c w Hc Hw Hl) as H.
  revert H. unfold on_env, handshake_new, random_scalar. cbn [fst snd].
  unfold mbind, st_bind. destruct (random_bytes 32 w) as [[he|e| | |] w']; try done.
  intros (Hc' & Hw' & Hle & Hd & _). split_and!; try done; [apply public_ok|].
  apply bytes_ok_app. split; [apply public_ok|]. apply Forall_singleton. cbn. unfold is_byte. lia.
Qed.

Lemma respects_handshake raw hs cred :
  respects n 0 anything (handshake (W := Script) fuel raw hs cred).
Proof.
  unfold handshake. eapply respects_seq; [apply respects_handshake_new|].
  intros h [Hpub Hinit]. eapply (respects_weaken n n 2 0); [|lia..].
  by apply respects_handshake_with.
Qed.

#[local] Instance bring_up_host : Host (Connection * Script) := driver fuel.

Lemma respects_open_paired_connection hs cred :
  respects n 0 anything (open_paired_connection (W := Script) fuel hs cred).
Proof.
  unfold open_paired_connection. eapply respects_seq; [apply respects_allocate|intros a _].
  eapply respects_seq; [apply respects_handshake|intros keys _].
  apply respects_if; intros _; [apply respects_throw|].
  eapply respects_seq; [apply respects_modify; auto with conn|intros _ _].
  by apply respects_end_request.
Qed.

Lemma respects_establish_on hs host_name app_name stored :
  respects n 0 anything (establish_on (W := Script) fuel hs host_name app_name stored).
Proof.
  unfold establish_on. eapply respects_seq; [apply respects_allocate|intros a _].
  eapply respects_seq; [apply respects_handshake|intros keys _]. cbv zeta.
  eapply respects_seq; [apply respects_modify; auto with conn|intros _ _].
  eapply (respects_seq _ _ anything).
  { apply respects_if; intros _; [apply respects_ret_any|by apply respects_pairing]. }
  intros cred _. eapply respects_seq; [by apply respects_end_request|intros _ _].
  eapply respects_seq; [by apply respects_get_features|intros; apply respects_ret_any].
Qed.

Lemma respects_random_or_error k :
  respects n 0 anything (on_env (W := Script) (random_or_error k)).
Proof.
  intros c w Hc Hw _. unfold on_env, random_or_error. cbn [fst snd getrandom script_env].
  unfold script_random. destruct (k <=? length (entropy w)); cbn; split_and!; auto; [|lia].
  destruct Hw as [Hin He]. split; [done|]. by apply bytes_ok_drop.
Qed.

Lemma respects_thp_probe_on : respects n 0 anything (thp_probe_on (W := Script) fuel).
Proof.
  unfold thp_probe_on. eapply respects_seq; [apply respects_allocate|intros a _].
  eapply respects_seq; [apply respects_random_or_error|intros hs _].
  eapply respects_seq; [apply respects_handshake|intros; apply respects_ret_any].
Qed.
End BringUp.

(** ** Methods of the client *)
Section Methods.
Context {CR : Crypto} {CL : CryptoLaws} {PM : ThpProto} {PL : ThpProtoLaws}.
Context {BP : BitcoinProto} {BL : BitcoinProtoLaws} {EP : EthereumProto} {EL : EthereumProtoLaws}.
Context {SP : SolanaProto} {SL : SolanaProtoLaws} {TP : TronProto} {TL : TronProtoLaws}.
Context {R : Type} {RB : Bitcoin.RustBitcoin R} (fuel : nat) (debug : Z -> rstring).

Definition wf_slot (slot : option Connection) : Prop :=
  match slot with Some c => wf_connection c | None => True end.

(** How a run may end: enough fuel, a panic only where the generator failed, a wait only
    with no report left. *)
Definition settles {A} (o : outcome TrezorError A) (w : Script) : Prop :=
  o <> NoFuel /\ (o = Panic -> rng_failed w) /\ (o = Pending -> inbox w = []).

(** From a slot satisfying [P]; a result leaves a slot satisfying [Q]. *)
Definition withstands {A} (P Q : option Connection -> Prop) (m : Cli Script A) : Prop :=
  forall slot w, P slot -> wf_slot slot -> wf_script w -> length (inbox w) < fuel ->
  let '(o, (slot', w')) := m (slot, w) in
  wf_slot slot' /\ wf_script w' /\ length (inbox w') <= length (inbox w) /\ settles o w'
  /\ match o with Ret _ => Q slot' | _ => True end.

Lemma withstands_bind {A B} (P Q T : option Connection -> Prop) (m : Cli Script A)
    (f : A -> Cli Script B) :
  withstands P Q m -> (forall a, withstands Q T (f a)) -> withstands P T (m ≫= f).
Proof.
  intros Hm Hf slot w HP Hs Hw Hl. specialize (Hm slot w HP Hs Hw Hl). unfold mbind, st_bind.
  destruct (m (slot, w)) as [[a|e| | |] [slot' w']]; try exact Hm.
  2-5: destruct Hm as (? & ? & ? & (H1 & H2 & H3) & _); unfold settles; split_and!;
    try done; intros; auto.
  destruct Hm as (Hs' & Hw' & Hle & _ & HQ).
  specialize (Hf a slot' w' HQ Hs' Hw' ltac:(lia)).
  destruct (f a (slot', w')) as [o [slot'' w'']]. destruct Hf as (? & ? & ? & ? & ?).
  split_and!; auto; try done. lia.
Qed.

Lemma withstands_weaken {A} (P Q Q' : option Connection -> Prop) (m : Cli Script A) :
  withstands P Q m -> (forall slot, Q slot -> Q' slot) -> withstands P Q' m.
Proof.
  intros Hm HQ slot w HP Hs Hw Hl. specialize (Hm slot w HP Hs Hw Hl).
  destruct (m (slot, w)) as [o [slot' w']]. destruct Hm as (? & ? & ? & ? & H).
  split_and!; try done. destruct o; auto.
Qed.

Lemma withstands_pure {A} P (o : outcome TrezorError A) : plain o -> withstands P P (lift o).
Proof.
  intros Ho slot w HP Hs Hw Hl. unfold lift, settles. destruct o; split_and!; done || by destruct Ho.
Qed.

Lemma withstands_clearing {A} P Q (m : Cli Script A) :
  withstands P Q m -> withstands P Q (clearing m).
Proof.
  intros Hm slot w HP Hs Hw Hl. specialize (Hm slot w HP Hs Hw Hl). unfold clearing.
  destruct (m (slot, w)) as [[a|e| | |] [slot' w']]; try exact Hm. by destruct Hm as (_ & Hm).
Qed.

(** An operation of the driver, on the connection in the slot or on a new one. *)
Lemma settles_driver {A} (op : Conn Script A) c w :
  respects_or rng_failed fuel 0 anything op -> wf_connection c -> wf_script w ->
  length (inbox w) < fuel ->
  wf_connection (op (c, w)).2.1 /\ wf_script (op (c, w)).2.2
  /\ length (inbox (op (c, w)).2.2) <= length (inbox w) /\ settles (op (c, w)).1 (op (c, w)).2.2.
Proof.
  intros Hop Hc Hw Hl. specialize (Hop c w Hc Hw Hl). unfold settles.
  destruct (op (c, w)) as [[a|e| | |] [c' w']]; cbn [fst snd]; split_and!; try done; intros; tauto.
Qed.

Lemma withstands_on_pinned {A} (op : Conn Script A) :
  respects_or rng_failed fuel 0 anything op -> withstands is_Some is_Some (on_pinned op).
Proof.
  intros Hop slot w [c ->] Hs Hw Hl. unfold on_pinned.
  pose proof (settles_driver op c w Hop Hs Hw Hl) as H. destruct (op (c, w)) as [o [c' w']].
  cbn [fst snd] in H. destruct H as (? & ? & ? & ?). split_and!; try done. by destruct o.
Qed.

Lemma new_connection_settles {A} (op : Conn Script A) w :
  respects_or rng_failed fuel 0 anything op -> wf_script w -> length (inbox w) < fuel ->
  let '(o, w') := on_new_connection op w in
  wf_script w' /\ length (inbox w') <= length (inbox w) /\ settles o w'
  /\ match o with Ret (_, c) => wf_connection c | _ => True end.
Proof.
  intros Hop Hw Hl. unfold on_new_connection.
  pose proof (settles_driver op _ w Hop (connection_new_wf BLE_PACKET_SIZE) Hw Hl) as H.
  destruct (op (connection_new BLE_PACKET_SIZE, w)) as [[a|e| | |] [c' w']]; cbn [fst snd] in H;
    destruct H as (? & ? & ? & (H1 & H2 & H3)); unfold settles; split_and!; try done; intros; auto.
Qed.

Lemma withstands_open_into_slot hsp cred key :
  withstands (fun _ => True) is_Some (open_into_slot fuel hsp cred key).
Proof.
  intros slot w _ Hs Hw Hl. unfold open_into_slot, to_array32. destruct (length hsp =? 32).
  2: { unfold settles. split_and!; done. }
  assert (Hop : respects_or rng_failed fuel 0 anything
    (open_paired_connection fuel hsp cred;; create_seeded_session fuel key.1 key.2)).
  { eapply respects_seq; [by apply respects_open_paired_connection|intros _ _].
    by apply respects_create_seeded. }
  pose proof (new_connection_settles _ w Hop Hw Hl) as H.
  destruct (on_new_connection _ w) as [[[[] c]|e| | |] w'];
    destruct H as (? & ? & (H1 & H2 & H3) & ?); unfold settles; split_and!; try done; intros;
    auto.
Qed.

Lemma withstands_ensure_conn hsp cred pass :
  withstands (fun _ => True) is_Some (ensure_conn fuel hsp cred pass).
Proof.
  intros slot w _ Hs Hw Hl. unfold ensure_conn. cbv zeta.
  destruct slot as [c|]; [destruct (negb _)|]; cbv beta iota.
  2: { unfold settles. split_and!; done. }
  all: by apply withstands_open_into_slot.
Qed.

Lemma withstands_with_conn {A} hsp cred pass (op : Conn Script A) :
  respects_or rng_failed fuel 0 anything op ->
  withstands (fun _ => True) is_Some (with_conn fuel hsp cred pass op).
Proof.
  intros Hop. eapply withstands_bind; [apply withstands_clearing, withstands_ensure_conn|].
  intros _. by apply withstands_clearing, withstands_on_pinned.
Qed.

(** Every operation the methods perform. *)
Lemma pinned_call_respects {A} p (op : Conn Script A) m :
  pinned_call fuel debug A p op m -> respects_or rng_failed fuel 0 anything op.
Proof.
  assert (Hsid : is_byte SEEDED_SESSION_ID) by (unfold is_byte, SEEDED_SESSION_ID; lia).
  intros H. destruct H.
  - by apply respects_eth_get_public_key.
  - by apply respects_eth_sign_message.
  - by apply respects_btc_get_account_xpub.
  - by apply respects_btc_get_master_fingerprint.
  - by apply respects_btc_sign_psbt.
  - by apply respects_btc_sign_message.
  - by apply respects_eth_get_address.
  - by apply respects_eth_sign_eip1559.
  - by apply respects_eth_sign_message_full.
  - by apply respects_sol_get_address.
  - by apply respects_sol_sign_tx.
  - by apply respects_sol_sign_message.
  - by apply respects_tron_get_address.
  - by apply respects_tron_sign_tx.
Qed.

Lemma withstands_weaken_pre {A} (P P' Q : option Connection -> Prop) (m : Cli Script A) :
  withstands P Q m -> (forall slot, P' slot -> P slot) -> withstands P' Q m.
Proof. intros Hm HP slot w H. apply Hm. auto. Qed.

Lemma client_call_withstands {A} (m : Cli Script A) :
  client_call fuel debug A m -> withstands (fun _ => True) (fun _ => True) m.
Proof.
  intros H. destruct H as [A p op m H|hsp cred|A e m H].
  - destruct (pinned_call_shape fuel debug p op m H) as (hsp & cred & Hm). intros slot w HP.
    rewrite Hm. revert slot w HP. eapply withstands_weaken; [|done].
    by apply withstands_with_conn, (pinned_call_respects p op m).
  - eapply withstands_weaken; [|done]. unfold identify_paired. eapply withstands_bind.
    { apply withstands_clearing, withstands_ensure_conn. }
    intros _. eapply withstands_bind.
    { apply withstands_clearing, withstands_on_pinned. by apply respects_get_features. }
    intros f. apply withstands_pure, plain_ok_or.
  - intros slot w HP Hs Hw Hl. rewrite (refused_call_fails fuel debug e m (slot, w) H).
    unfold settles. by split_and!.
Qed.

(** Whatever the device sends and whatever transport errors come up, in whatever
    state a call finds the pinned slot, no method of the client panics, except where
    the platform generator cannot fill a buffer; each ends after at most as many reads
    as there are reports (the fuel of one more is enough), and waits only for a device
    that has fallen silent; a connection left in the slot is well formed. *)
Lemma client_withstands_any_device {A} (m : Cli Script A) slot w :
  client_call fuel debug A m -> wf_slot slot -> wf_script w -> length (inbox w) < fuel ->
  let run := m (slot, w) in
  settles run.1 run.2.2 /\ wf_slot run.2.1 /\ wf_script run.2.2
  /\ length (inbox run.2.2) <= length (inbox w).
Proof.
  intros Hm Hs Hw Hl run. pose proof (client_call_withstands m Hm slot w I Hs Hw Hl) as H.
  unfold run. destruct (m (slot, w)) as [o [slot' w']]. cbn [fst snd]. tauto.
Qed.

(** The same of the calls that bring a device up, pairing it if need be, and of the
    probe. *)
Lemma new_connection_result {A B} (op : Conn Script A) (g : A * Connection -> B) w :
  respects_or rng_failed fuel 0 anything op -> wf_script w -> length (inbox w) < fuel ->
  let run := (r ← on_new_connection op; mret (g r)) w in settles run.1 run.2.
Proof.
  intros Hop Hw Hl. pose proof (new_connection_settles op w Hop Hw Hl) as H. mred.
  destruct (on_new_connection op w) as [[a|e| | |] w'];
    destruct H as (_ & _ & (H1 & H2 & H3) & _); unfold settles; split_and!; try done; intros; auto.
Qed.

Lemma establish_settles host_static_priv host_name app_name stored w :
  wf_script w -> length (inbox w) < fuel ->
  let run := establish_paired_session fuel host_static_priv host_name app_name stored w in
  settles run.1 run.2.
Proof.
  intros Hw Hl. unfold establish_paired_session, to_array32.
  destruct (length host_static_priv =? 32); [|by unfold settles].
  apply (new_connection_result (establish_on fuel host_static_priv host_name app_name stored) fst);
    [apply (respects_establish_on fuel fuel), le_n|done..].
Qed.

Lemma probe_settles w :
  wf_script w -> length (inbox w) < fuel ->
  settles (thp_probe fuel w).1 (thp_probe fuel w).2.
Proof.
  intros Hw Hl. apply (new_connection_result (thp_probe_on fuel) fst);
    [apply (respects_thp_probe_on fuel fuel), le_n|done..].
Qed.
End Methods.

(** ** Witnesses: a device that sends a stray report, then a transport error *)
Lemma client_withstands_any_device_witness :
  let run := ask_solana (Some standard_connection, garbage_script) in
  settles run.1 run.2.2 /\ wf_slot run.2.1 /\ wf_script run.2.2
  /\ length (inbox run.2.2) <= length (inbox garbage_script).
Proof.
  apply (client_withstands_any_device (CR := toy_crypto) (CL := toy_crypto_laws)
    (PM := toy_thp_proto) (PL := toy_thp_proto_laws) (BP := toy_bitcoin_proto)
    (BL := toy_bitcoin_proto_laws) (EP := toy_ethereum_proto) (EL := toy_ethereum_proto_laws)
    (SP := toy_solana_proto) (SL := toy_solana_proto_laws) (TP := toy_tron_proto)
    (TL := toy_tron_proto_laws) (RB := Bitcoin.toy_rust_bitcoin Bitcoin.sample_psbt) 40
    (fun _ => []) ask_solana (Some standard_connection) garbage_script).
  - eapply client_pinned, ask_solana_call.
  - change (wf_connection standard_connection).
    split_and!; try (left; reflexivity); try exact I; vm_compute; try split; congruence.
  - apply garbage_script_wf.
  - simpl. lia.
Defined.
