(* ===== verification/Interaction.v ===== *)
(** * The calls of the crate as interaction trees

    Every operation of the crate is polymorphic in the environment it calls back into
    (Env.v): it can only draw randomness, write a packet, read a report, ask for the code,
    and go on. So each is the run of one finite tree, the same over every environment, whose
    nodes are those calls and whose leaves are outcomes. A node at an [.await] carries the
    state of the crate at that point: what is left when the future is dropped there. Replay.v
    bounds what the leaves within reach can be, over any transport; Concurrent.v interleaves
    calls. *)

From S2P Require Import Prelude Types.
From S2P Require Import Ethereum Solana Tron Bitcoin.
From S2P Require Import Env Bip32 Crypto Proto ChainProto Framing Channel Session.
From S2P Require Import Noise Connection Host Text Cpace Pairing OverPackets Client ClientPinned.

(** ** Trees *)
Inductive Tree (X A : Type) : Type :=
  | Done (o : outcome TrezorError A) (x : X)
  | Random (n : nat) (k : rstring + list Z -> Tree X A)
  | Write (x : X) (packet : list Z) (k : option TrezorTransportError -> Tree X A)
  | Read (x : X) (k : TrezorTransportError + list Z -> Tree X A)
  | Code (x : X) (k : rstring -> Tree X A).
Arguments Done {X A}.
Arguments Random {X A}.
Arguments Write {X A}.
Arguments Read {X A}.
Arguments Code {X A}.

Fixpoint run {W} `{!Env W} {X A} (t : Tree X A) (w : W) : outcome TrezorError A * (X * W) :=
  match t with
  | Done o x => (o, (x, w))
  | Random n k => let '(b, w) := getrandom n w in run (k b) w
  | Write x packet k =>
    match write_chunk packet w with
    | (Ret _, w) => run (k None) w
    | (Fail e, w) => run (k (Some e)) w
    | (Panic, w) => (Panic, (x, w))
    | (Pending, w) => (Pending, (x, w))
    | (NoFuel, w) => (NoFuel, (x, w))
    end
  | Read x k =>
    match read_chunk w with
    | (Ret chunk, w) => run (k (inr chunk)) w
    | (Fail e, w) => run (k (inl e)) w
    | (Panic, w) => (Panic, (x, w))
    | (Pending, w) => (Pending, (x, w))
    | (NoFuel, w) => (NoFuel, (x, w))
    end
  | Code x k => let '(code, w) := request_code w in run (k code) w
  end.

(** One computation, then another on its result. *)
Fixpoint tree_bind {X A B} (t : Tree X A) (f : A -> X -> Tree X B) : Tree X B :=
  match t with
  | Done (Ret a) x => f a x
  | Done (Fail e) x => Done (Fail e) x
  | Done Panic x => Done Panic x
  | Done Pending x => Done Pending x
  | Done NoFuel x => Done NoFuel x
  | Random n k => Random n (fun b => tree_bind (k b) f)
  | Write x packet k => Write x packet (fun r => tree_bind (k r) f)
  | Read x k => Read x (fun r => tree_bind (k r) f)
  | Code x k => Code x (fun c => tree_bind (k c) f)
  end.

(** A computation on part of a larger state: [here] places its state, [ret] and [fail] its
    results. *)
Fixpoint embed {X Y A B} (here : X -> Y) (ret : A -> X -> outcome TrezorError B * Y)
    (fail : TrezorError -> X -> outcome TrezorError B * Y) (t : Tree X A) : Tree Y B :=
  match t with
  | Done (Ret a) x => let '(o, y) := ret a x in Done o y
  | Done (Fail e) x => let '(o, y) := fail e x in Done o y
  | Done Panic x => Done Panic (here x)
  | Done Pending x => Done Pending (here x)
  | Done NoFuel x => Done NoFuel (here x)
  | Random n k => Random n (fun b => embed here ret fail (k b))
  | Write x packet k => Write (here x) packet (fun r => embed here ret fail (k r))
  | Read x k => Read (here x) (fun r => embed here ret fail (k r))
  | Code x k => Code (here x) (fun c => embed here ret fail (k c))
  end.

Section Run.
Context {W : Type} `{!Env W}.

Lemma run_bind {X A B} (t : Tree X A) (f : A -> X -> Tree X B) (w : W) :
  run (tree_bind t f) w
  = match run t w with
    | (Ret a, (x, w')) => run (f a x) w'
    | (Fail e, s) => (Fail e, s)
    | (Panic, s) => (Panic, s)
    | (Pending, s) => (Pending, s)
    | (NoFuel, s) => (NoFuel, s)
    end.
Proof.
  revert w. induction t as [o x|n k IH|x p k IH|x k IH|x k IH]; intros w; cbn [tree_bind run].
  - by destruct o.
  - destruct (getrandom n w) as [b w']. apply IH.
  - destruct (write_chunk p w) as [[]]; try apply IH; done.
  - destruct (read_chunk w) as [[]]; try apply IH; done.
  - destruct (request_code w) as [c w']. apply IH.
Qed.

Lemma run_embed {X Y A B} (here : X -> Y) ret fail (t : Tree X A) (w : W) :
  run (embed (B := B) here ret fail t) w
  = match run t w with
    | (Ret a, (x, w')) => let '(o, y) := ret a x in (o, (y, w'))
    | (Fail e, (x, w')) => let '(o, y) := fail e x in (o, (y, w'))
    | (Panic, (x, w')) => (Panic, (here x, w'))
    | (Pending, (x, w')) => (Pending, (here x, w'))
    | (NoFuel, (x, w')) => (NoFuel, (here x, w'))
    end.
Proof.
  revert w. induction t as [o x|n k IH|x p k IH|x k IH|x k IH]; intros w; cbn [embed run].
  - destruct o as [a|e| | |]; try done; [by destruct (ret a x)|by destruct (fail e x)].
  - destruct (getrandom n w) as [b w']. apply IH.
  - destruct (write_chunk p w) as [[]]; try apply IH; done.
  - destruct (read_chunk w) as [[]]; try apply IH; done.
  - destruct (request_code w) as [c w']. apply IH.
Qed.
End Run.

(** A failed write ends the computation, with the error and the state it had; so does a
    failure of the generator, with an error or a panic. *)
Definition ends_at_once {E X A} (k : E -> Tree X A) : Prop :=
  exists x, (forall e, k e = Done Panic x) \/ (forall e, exists e', k e = Done (Fail e') x).

Fixpoint errors_return {X A} (t : Tree X A) : Prop :=
  match t with
  | Done _ _ => True
  | Random n k => 0 < n /\ ends_at_once (fun e => k (inl e))
                  /\ forall b, errors_return (k (inr b))
  | Write x _ k => (forall e, exists e', k (Some e) = Done (Fail e') x)
                   /\ errors_return (k None)
  | Read _ k => forall r, errors_return (k r)
  | Code _ k => forall c, errors_return (k c)
  end.

Lemma errors_bind {X A B} (t : Tree X A) (f : A -> X -> Tree X B) :
  errors_return t -> (forall a x, errors_return (f a x)) -> errors_return (tree_bind t f).
Proof.
  intros Ht Hf. induction t as [o x|n k IH|x p k IH|x k IH|x k IH]; cbn in *; eauto.
  - by destruct o.
  - destruct Ht as (Hn & (x & He) & Ht). split_and!; [done| |eauto]. exists x.
    destruct He as [He|He]; [left; intros e; by rewrite He|right; intros e].
    destruct (He e) as [e' ->]. by exists e'.
  - destruct Ht as [He Ht]. split; [|by apply IH]. intros e. destruct (He e) as [e' ->].
    by exists e'.
Qed.

Lemma errors_embed {X Y A B} (here : X -> Y)
    (ret : A -> X -> outcome TrezorError B * Y) (t : Tree X A) :
  errors_return t -> errors_return (embed here ret (fun e x => (Fail e, here x)) t).
Proof.
  intros Ht. induction t as [o x|n k IH|x p k IH|x k IH|x k IH]; cbn in *; eauto.
  - destruct o as [a|e| | |]; try done. by destruct (ret a x).
  - destruct Ht as (Hn & (x & He) & Ht). split_and!; [done| |eauto]. exists (here x).
    destruct He as [He|He]; [left; intros e; by rewrite He|right; intros e].
    destruct (He e) as [e' ->]. by exists e'.
  - destruct Ht as [He Ht]. split; [|by apply IH]. intros e. destruct (He e) as [e' ->].
    by exists e'.
Qed.

(** ** Computations that are trees *)
(** A computation over every environment: on a state of the crate beside the world, or on
    the world alone. *)
Definition Generic (X A : Type) : Type := forall W, Env W -> ST (X * W) TrezorError A.
Definition Foreign (A : Type) : Type := forall W, Env W -> ST W TrezorError A.

(** It runs one tree. *)
Record uniform {X A} (m : Generic X A) : Type := {
  tree_of : X -> Tree X A;
  runs_tree : forall W (E : Env W) x w, m W E (x, w) = run (tree_of x) w;
}.
Arguments tree_of {X A m}.
Arguments runs_tree {X A m}.

(** And ends at its first write error or generator failure, as every call of the driver
    does. *)
Record driving {X A} (m : Generic X A) : Type := {
  driving_uniform : uniform m;
  driving_returns : forall x, errors_return (tree_of driving_uniform x);
}.
Arguments driving_uniform {X A m}.
Arguments driving_returns {X A m}.

Record foreign {A} (m : Foreign A) : Type := {
  foreign_tree : Tree unit A;
  runs_foreign : forall W (E : Env W) w,
    m W E w = let '(o, (_, w')) := run foreign_tree w in (o, w');
  foreign_returns : errors_return foreign_tree;
}.
Arguments foreign_tree {A m}.
Arguments runs_foreign {A m}.
Arguments foreign_returns {A m}.

Lemma driving_intro {X A} (m : Generic X A) (t : X -> Tree X A) :
  (forall W (E : Env W) x w, m W E (x, w) = run (t x) w) ->
  (forall x, errors_return (t x)) -> driving m.
Proof. intros Ht Hr. by exists {| tree_of := t; runs_tree := Ht |}. Defined.

Lemma uniform_bind {X A B} (m : Generic X A) (f : A -> Generic X B) :
  uniform m -> (forall a, uniform (f a)) -> uniform (fun W E => m W E ≫= (fun a => f a W E)).
Proof.
  intros Hm Hf. exists (fun x => tree_bind (tree_of Hm x) (fun a => tree_of (Hf a))).
  intros W E x w. unfold mbind, st_bind. rewrite (runs_tree Hm), run_bind.
  destruct (run (tree_of Hm x) w) as [[a|e| | |] [x' w']]; try done. apply runs_tree.
Defined.

Lemma driving_bind {X A B} (m : Generic X A) (f : A -> Generic X B) :
  driving m -> (forall a, driving (f a)) -> driving (fun W E => m W E ≫= (fun a => f a W E)).
Proof.
  intros Hm Hf.
  exists (uniform_bind m f (driving_uniform Hm) (fun a => driving_uniform (Hf a))).
  intros x. destruct Hm as [[t Ht] Hr]. cbn. apply errors_bind; [apply Hr|].
  intros a x'. apply driving_returns.
Qed.

Lemma driving_lift {X A} (o : outcome TrezorError A) : driving (fun W _ => lift o : ST (X * W) _ A).
Proof. by apply (driving_intro _ (Done o)). Defined.

Lemma driving_ret {X A} (a : A) : driving (fun W _ => mret a : ST (X * W) TrezorError A).
Proof. by apply (driving_intro _ (Done (Ret a))). Defined.

Lemma driving_throw {X A} (e : TrezorError) : driving (fun W _ => throw e : ST (X * W) _ A).
Proof. by apply (driving_intro _ (Done (Fail e))). Defined.

Lemma driving_get : driving (fun W _ => conn_get (W := W)).
Proof. by apply (driving_intro _ (fun c => Done (Ret c) c)). Defined.

Lemma driving_modify f : driving (fun W _ => conn_modify (W := W) f).
Proof. by apply (driving_intro _ (fun c => Done (Ret tt) (f c))). Defined.

Lemma driving_if {X A} (b : bool) (m1 m2 : Generic X A) :
  driving m1 -> driving m2 -> driving (fun W E => if b then m1 W E else m2 W E).
Proof. by destruct b. Defined.

Lemma driving_on_env {A} (m : Foreign A) : foreign m -> driving (fun W E => on_env (m W E)).
Proof.
  intros [t Ht Hr]. apply (driving_intro _ (fun c : Connection =>
    embed (fun _ => c) (fun a _ => (Ret a, c)) (fun e _ => (Fail e, c)) t)).
  - intros W E c w. unfold on_env. cbn [fst snd]. rewrite Ht, run_embed.
    by destruct (run t w) as [[] [? ?]].
  - intros c. by apply errors_embed.
Defined.

(** The calls on the environment. *)
Lemma foreign_write packet : foreign (fun W E => env_write (W := W) packet).
Proof.
  exists (Write tt packet (fun r => match r with
    | None => Done (Ret tt) tt
    | Some e => Done (Fail (from_transport_error e)) tt
    end)).
  - intros W E w. unfold env_write. cbn [run]. by destruct (write_chunk packet w) as [[[]| | | |]].
  - split; [|done]. intros e. by eexists.
Defined.

Lemma foreign_read : foreign (fun W E => env_read (W := W)).
Proof.
  exists (Read tt (fun r => Done (of_result (sum_map from_transport_error id r)) tt)).
  - intros W E w. unfold env_read. cbn [run]. by destruct (read_chunk w) as [[]].
  - done.
Defined.

Lemma foreign_random n : 0 < n -> foreign (fun W E => random_bytes (W := W) n).
Proof.
  intros Hn.
  exists (Random n (fun b => match b with inr b => Done (Ret b) tt | inl _ => Done Panic tt end)).
  - intros W E w. unfold random_bytes. cbn [run]. by destruct (getrandom n w) as [[]].
  - split_and!; [done| |done]. exists tt. by left.
Defined.

Lemma foreign_random_or_error n : 0 < n -> foreign (fun W E => random_or_error (W := W) n).
Proof.
  intros Hn. exists (Random n (fun b => match b with
    | inr b => Done (Ret b) tt
    | inl e => Done (Fail (thp (str "RNG failure: " ++ e))) tt
    end)).
  - intros W E w. unfold random_or_error. cbn [run]. by destruct (getrandom n w) as [[]].
  - split_and!; [done| |done]. exists tt. right. by eexists.
Defined.

Lemma foreign_code : foreign (fun W E => env_code (W := W)).
Proof.
  exists (Code tt (fun c => Done (Ret c) tt)); [|done].
  intros W E w. unfold env_code. cbn [run]. by destruct (request_code w).
Defined.

Lemma foreign_then {A B} (m : Foreign A) (g : A -> B) :
  foreign m -> foreign (fun W E => a ← m W E; mret (g a)).
Proof.
  intros [t Ht Hr]. exists (embed id (fun a x => (Ret (g a), x)) (fun e x => (Fail e, x)) t).
  - intros W E w. unfold mbind, st_bind. rewrite Ht, run_embed.
    by destruct (run t w) as [[] [? ?]].
  - by apply (errors_embed id).
Defined.

Create HintDb tree discriminated.
#[export] Hint Resolve driving_lift driving_ret driving_throw driving_get driving_modify
  driving_on_env foreign_write foreign_read foreign_random foreign_random_or_error
  foreign_code : tree.
#[export] Hint Extern 1 (0 < _) => (unfold ALLOCATION_NONCE_LEN; lia) : tree.

(** The same code over every environment. *)
Ltac tree_step :=
  first
    [ solve [eauto with tree nocore]
    | match goal with |- driving (fun W E => _ ≫= _) => apply driving_bind; [|intros ?] end
    | apply driving_if
    | progress cbv zeta
    | match goal with |- driving (fun W E => match ?x with _ => _ end) => destruct x end ].

(** ** The driver *)
Section Driver.
Context {CR : Crypto} {PM : ThpProto}.

Lemma tree_write_packets packets : driving (fun W E => write_packets (W := W) packets).
Proof. induction packets; cbn [write_packets]; repeat tree_step. Qed.
#[local] Hint Resolve tree_write_packets : tree.

Lemma tree_write_framed ctrl payload : driving (fun W E => write_framed (W := W) ctrl payload).
Proof. unfold write_framed. repeat tree_step. Qed.
#[local] Hint Resolve tree_write_framed : tree.

Lemma tree_read_loop fuel : forall r ctrl, driving (fun W E => read_loop (W := W) fuel r ctrl).
Proof. induction fuel as [|fuel IH]; intros r ctrl; cbn [read_loop]; repeat tree_step. Qed.

Lemma tree_read_framed fuel : driving (fun W E => read_framed (W := W) fuel).
Proof. apply tree_read_loop. Qed.
#[local] Hint Resolve tree_read_framed : tree.

Lemma tree_await_ack fuel n : driving (fun W E => await_ack (W := W) fuel n).
Proof. induction n; cbn [await_ack]; unfold send_ack; repeat tree_step. Qed.
#[local] Hint Resolve tree_await_ack : tree.

Lemma tree_send_data fuel base payload : driving (fun W E => send_data (W := W) fuel base payload).
Proof. unfold send_data. repeat tree_step. Qed.
#[local] Hint Resolve tree_send_data : tree.

Lemma tree_await_data fuel n : driving (fun W E => await_data (W := W) fuel n).
Proof. induction n; cbn [await_data]; unfold send_ack; repeat tree_step. Qed.
#[local] Hint Resolve tree_await_data : tree.

Lemma tree_recv_data fuel : driving (fun W E => recv_data (W := W) fuel).
Proof. unfold recv_data. repeat tree_step. Qed.
#[local] Hint Resolve tree_recv_data : tree.

Lemma tree_allocate_loop fuel n nonce : driving (fun W E => allocate_loop (W := W) fuel n nonce).
Proof. induction n; cbn [allocate_loop]; repeat tree_step. Qed.
#[local] Hint Resolve tree_allocate_loop : tree.

Lemma tree_allocate fuel : driving (fun W E => allocate (W := W) fuel).
Proof. unfold allocate, random_allocation_nonce. repeat tree_step. Qed.

Lemma tree_handshake fuel raw hs cred :
  driving (fun W E => handshake (W := W) fuel raw hs cred).
Proof.
  unfold handshake. apply driving_bind.
  { apply driving_on_env, (foreign_then (fun W E => random_bytes (W := W) 32)), foreign_random. lia. }
  intros h. repeat tree_step.
Qed.

Lemma tree_send_app fuel mt body : driving (fun W E => send_app (W := W) fuel mt body).
Proof. unfold send_app, session_seal. repeat tree_step. Qed.
#[local] Hint Resolve tree_send_app : tree.

Lemma tree_recv_app fuel : driving (fun W E => recv_app (W := W) fuel).
Proof. unfold recv_app. repeat tree_step. Qed.
#[local] Hint Resolve tree_recv_app : tree.

Lemma tree_transceive_loop fuel n : driving (fun W E => transceive_loop (W := W) fuel n).
Proof. induction n; cbn [transceive_loop]; repeat tree_step. Qed.
#[local] Hint Resolve tree_transceive_loop : tree.

Lemma tree_transceive fuel mt body : driving (fun W E => transceive (W := W) fuel mt body).
Proof. unfold transceive. repeat tree_step. Qed.
#[local] Hint Resolve tree_transceive : tree.

Lemma tree_transceive_on fuel sid mt body :
  driving (fun W E => transceive_on (W := W) fuel sid mt body).
Proof. unfold transceive_on. repeat tree_step. Qed.

Lemma tree_create_seeded fuel passphrase on_device :
  driving (fun W E => create_seeded_session (W := W) fuel passphrase on_device).
Proof. unfold create_seeded_session. repeat tree_step. Qed.
End Driver.

(** ** The operations of pairing and of the chains *)
Section Operations.
Context {CR : Crypto} {PM : ThpProto} {BP : BitcoinProto} {EP : EthereumProto}.
Context {SP : SolanaProto} {TP : TronProto} {R : Type} {RB : RustBitcoin R}.
Context (debug : Z -> rstring) (fuel : nat).

Lemma tree_request mt body :
  driving (fun W E => h_transceive (Host := driver (W := W) fuel) mt body).
Proof. apply tree_transceive. Qed.

Lemma tree_request_on sid mt body :
  driving (fun W E => h_transceive_on (Host := driver (W := W) fuel) sid mt body).
Proof. apply tree_transceive_on. Qed.

Lemma tree_draw n : 0 < n -> driving (fun W E => h_random (Host := driver (W := W) fuel) n).
Proof. intros Hn. by apply driving_on_env, foreign_random. Qed.

Lemma tree_prompt : driving (fun W E => h_code (Host := driver (W := W) fuel)).
Proof. apply driving_on_env, foreign_code. Qed.

#[local] Hint Resolve tree_request tree_request_on tree_draw tree_prompt : tree.

Lemma tree_request_loop n (psbt : Psbt R) net : forall sigs r,
  driving (fun W E => request_loop (Host0 := driver (W := W) fuel) n psbt net sigs r).
Proof. induction n as [|n IH]; intros sigs r; cbn [request_loop]; repeat tree_step. Qed.
#[local] Hint Resolve tree_request_loop : tree.

Lemma operation_tree {A} (p : program A) :
  operation debug A p -> inhabited (driving (fun W E => p _ (driver (W := W) fuel))).
Proof.
  intros Hp. destruct Hp; constructor;
    cbv beta delta [run_codeentry_pairing end_request get_features Ethereum.get_address
      Ethereum.get_public_key Ethereum.sign_message Ethereum.sign_message_full sign_eip1559
      Solana.get_address Solana.sign_tx Solana.sign_message Tron.get_address Tron.sign_tx
      get_account_xpub get_master_fingerprint Bitcoin.sign_message Bitcoin.sign_psbt
      random16 random32]; repeat tree_step.
Qed.
End Operations.

(** ** The client *)
Lemma foreign_on_new_connection {A} (m : Generic Connection A) :
  driving m -> foreign (fun W E => on_new_connection (m W E)).
Proof.
  intros [[t Ht] Hr]. exists (embed (fun _ => tt) (fun a c => (Ret (a, c), tt))
    (fun e _ => (Fail e, tt)) (t (connection_new BLE_PACKET_SIZE))).
  - intros W E w. unfold on_new_connection. rewrite Ht, run_embed.
    by destruct (run (t _) w) as [[] [? ?]].
  - apply (errors_embed (fun _ => tt)), Hr.
Defined.

Lemma driving_on_pinned {A} (m : Generic Connection A) :
  driving m -> driving (fun W E => on_pinned (m W E)).
Proof.
  intros [[t Ht] Hr]. apply (driving_intro _ (fun slot => match slot with
    | Some c => embed Some (fun a c => (Ret a, Some c)) (fun e c => (Fail e, Some c)) (t c)
    | None => Done Panic None
    end)).
  - intros W E [c|] w; unfold on_pinned; [|done]. rewrite Ht, run_embed.
    by destruct (run (t c) w) as [[] [? ?]].
  - intros [c|]; [apply errors_embed, Hr|done].
Defined.

(** An error empties the slot: the state after a failed write is not the one it had. *)
Lemma uniform_clearing {A} (m : Generic (option Connection) A) :
  uniform m -> uniform (fun W E => clearing (m W E)).
Proof.
  intros Hm.
  exists (fun x => embed id (fun a x => (Ret a, x)) (fun e _ => (Fail e, None)) (tree_of Hm x)).
  intros W E x w. unfold clearing. rewrite (runs_tree Hm), run_embed.
  by destruct (run (tree_of Hm x) w) as [[] [? ?]].
Defined.

Section Client.
Context {CR : Crypto} {PM : ThpProto} (fuel : nat).

Lemma tree_end_request : driving (fun W E => end_request (Host0 := driver (W := W) fuel)).
Proof.
  unfold end_request. apply driving_bind; [apply tree_transceive|intros r]. apply driving_lift.
Qed.

Lemma tree_get_features : driving (fun W E => get_features (Host0 := driver (W := W) fuel)).
Proof.
  unfold get_features. apply driving_bind; [apply tree_transceive_on|intros r].
  apply driving_bind; [apply driving_lift|intros []; apply driving_lift].
Qed.

Lemma tree_pairing hash hs host_name app_name :
  driving (fun W E => run_codeentry_pairing (Host0 := driver (W := W) fuel) hash hs host_name
    app_name).
Proof.
  unfold run_codeentry_pairing, random16, random32. cbn [h_transceive h_random h_code driver].
  repeat first [ tree_step | apply tree_transceive ].
Qed.

Lemma tree_open_paired_connection hs cred :
  driving (fun W E => open_paired_connection (W := W) fuel hs cred).
Proof.
  unfold open_paired_connection, install_session, driver_host.
  apply driving_bind; [apply tree_allocate|intros a].
  apply driving_bind; [apply tree_handshake|intros keys].
  apply driving_if; [apply driving_throw|].
  apply driving_bind; [apply driving_modify|intros []]. apply tree_end_request.
Qed.

Lemma tree_open_into_slot hs cred key :
  driving (fun W E => open_into_slot (W := W) fuel hs cred key).
Proof.
  pose proof (foreign_on_new_connection _ (driving_bind _ (fun _ W E => create_seeded_session
    (W := W) fuel key.1 key.2) (tree_open_paired_connection hs cred)
    (fun _ => tree_create_seeded fuel key.1 key.2))) as [t Ht Hr].
  apply (driving_intro _ (fun slot => match to_array32 hs with
    | Ret _ => embed (fun _ => slot) (fun r _ => (Ret tt, Some r.2)) (fun e _ => (Fail e, slot)) t
    | Fail e => Done (Fail e) slot
    | Panic => Done Panic slot
    | Pending => Done Pending slot
    | NoFuel => Done NoFuel slot
    end)).
  - intros W E slot w. unfold open_into_slot, to_array32. destruct (length hs =? 32); [|done].
    rewrite run_embed. specialize (Ht W E w). cbv beta in Ht. rewrite Ht.
    by destruct (run t w) as [[[[] c]|e| | |] [? ?]].
  - intros slot. unfold to_array32. destruct (length hs =? 32); [|done].
    by apply (errors_embed (fun _ => slot)).
Defined.

Lemma tree_ensure_conn hs cred pass : driving (fun W E => ensure_conn (W := W) fuel hs cred pass).
Proof.
  pose proof (tree_open_into_slot hs cred (wallet_key pass)) as [[t Ht] Hr].
  apply (driving_intro _ (fun slot => match slot with
    | Some c => if negb (bool_decide (seeded_key c = Some (wallet_key pass))) then t None
                else Done (Ret tt) (Some c)
    | None => t None
    end)).
  - intros W E [c|] w; unfold ensure_conn; cbv zeta; [destruct (negb _)|]; try apply Ht. done.
  - intros [c|]; [destruct (negb _)|]; try apply Hr. done.
Defined.

Lemma tree_with_conn {A} hs cred pass (op : Generic Connection A) :
  driving op -> uniform (fun W E => with_conn fuel hs cred pass (op W E)).
Proof.
  intros Hop. unfold with_conn. apply uniform_bind.
  - apply uniform_clearing, driving_uniform, tree_ensure_conn.
  - intros []. by apply uniform_clearing, driving_uniform, driving_on_pinned.
Defined.

Lemma tree_establish_on hs host_name app_name stored :
  driving (fun W E => establish_on (W := W) fuel hs host_name app_name stored).
Proof.
  unfold establish_on, install_session. cbv zeta. unfold driver_host.
  apply driving_bind; [apply tree_allocate|intros a].
  apply driving_bind; [apply tree_handshake|intros keys].
  apply driving_bind; [apply driving_modify|intros []]. apply driving_bind.
  { apply driving_if; [apply driving_ret|]. apply tree_pairing. }
  intros cred. apply driving_bind; [apply tree_end_request|intros []].
  apply driving_bind; [apply tree_get_features|intros f; apply driving_ret].
Qed.

Lemma tree_thp_probe_on : driving (fun W E => thp_probe_on (W := W) fuel).
Proof.
  unfold thp_probe_on. apply driving_bind; [apply tree_allocate|intros a].
  apply driving_bind; [apply driving_on_env, foreign_random_or_error; lia|intros hs].
  apply driving_bind; [apply tree_handshake|intros; apply driving_ret].
Qed.

Lemma tree_establish hs host_name app_name stored :
  foreign (fun W E => establish_paired_session (W := W) fuel hs host_name app_name stored).
Proof.
  unfold establish_paired_session, to_array32. destruct (length hs =? 32).
  - exact (foreign_then _ fst (foreign_on_new_connection _
      (tree_establish_on hs host_name app_name stored))).
  - by exists (Done (Fail (thp (str "expected a 32-byte host static key"))) tt).
Qed.

Lemma tree_thp_probe : foreign (fun W E => thp_probe (W := W) fuel).
Proof. exact (foreign_then _ fst (foreign_on_new_connection _ tree_thp_probe_on)). Qed.
End Client.

(** ** Methods of the client *)
Section Methods.
Context {CR : Crypto} {PM : ThpProto} {BP : BitcoinProto} {EP : EthereumProto}.
Context {SP : SolanaProto} {TP : TronProto} {R : Type} {RB : RustBitcoin R}.
Context (debug : Z -> rstring) (fuel : nat).

(** A method, over every environment. *)
Abbreviation Method A := (Generic (option Connection) A).

Lemma tree_identify hs cred : uniform (fun W E => identify_paired (W := W) fuel hs cred).
Proof.
  unfold identify_paired. apply uniform_bind.
  { apply uniform_clearing, driving_uniform, tree_ensure_conn. }
  intros []. apply uniform_bind; [|intros; apply driving_uniform, driving_lift].
  apply uniform_clearing, driving_uniform, driving_on_pinned, tree_get_features.
Defined.

(** The methods and their trees: an operation on the pinned connection, [identify_paired],
    and those that fail before they take the mutex. *)
Inductive method : forall A, Method A -> (option Connection -> Tree (option Connection) A) ->
    Prop :=
  | method_pinned A (p : program A) hs cred pass (m : Method A)
      (op : driving (fun W E => p _ (driver (W := W) fuel))) :
      operation debug A p ->
      (forall W E, pinned_call (W := W) fuel debug A pass (p _ (driver fuel)) (m W E)) ->
      (forall W E s, m W E s = with_conn fuel hs cred pass (p _ (driver fuel)) s) ->
      method A m (tree_of (tree_with_conn fuel hs cred pass _ op))
  | method_identify hs cred :
      method _ (fun W E => identify_paired (W := W) fuel hs cred) (tree_of (tree_identify hs cred))
  | method_refused A e (m : Method A) :
      (forall W E, refused_call (W := W) fuel debug A e (m W E)) -> method A m (Done (Fail e)).

(** [M] is a method whose operation is [op], made by [call] over every environment. *)
Tactic Notation "as_method" uconstr(M) constr(op) uconstr(call) :=
  destruct (operation_tree debug fuel _ op) as [tree];
  refine (ex_intro _ M (ex_intro _ _ (conj (method_pinned _ _ _ _ _ _ tree op call _) eq_refl)));
  intros W' E' s; cbv beta delta [get_attestor_pubkey sign_message_eth get_bitcoin_account_xpub
    get_bitcoin_master_fingerprint Client.sign_psbt sign_bitcoin_message get_ethereum_address
    sign_ethereum_tx sign_ethereum_message get_solana_address sign_solana_tx
    sign_solana_message get_tron_address sign_tron_tx];
  repeat match goal with H : resolve_path _ _ = Ret _ |- _ => rewrite H; clear H end;
  reflexivity.

Lemma pinned_call_method {W} `{!Env W} {A} pass (op : Conn W A) m :
  pinned_call fuel debug A pass op m -> exists (M : Method A) t, method A M t /\ m = M W _.
Proof.
  intros H. destruct H as [hsp cred|hsp cred msg|hsp cred p account coin path n Hn|hsp cred
    p|hsp cred p text fp xpub account coin path|hsp cred p n msg coin|hsp cred p account path n
    Hn|hsp cred p env account path n Henv Hn|hsp cred p account msg path n Hn|hsp cred p account
    path n Hn|hsp cred p tx account path n Hn|hsp cred p env account path n Hn|hsp cred p
    account path n Hn|hsp cred p raw account path n Hn].
  - as_method ((fun W E => get_attestor_pubkey (W := W) fuel hsp cred) : Method _)
      (op_eth_get_public_key debug SEEDED_SESSION_ID (Ethereum.account_path 0))
      (fun W E => call_get_attestor_pubkey _ _ _ _).
  - as_method ((fun W E => sign_message_eth (W := W) fuel hsp cred msg) : Method _)
      (op_eth_sign_message debug SEEDED_SESSION_ID (Ethereum.account_path 0) msg)
      (fun W E => call_sign_message_eth _ _ _ _ _).
  - as_method ((fun W E => get_bitcoin_account_xpub (W := W) fuel hsp cred p account coin path)
      : Method _)
      (op_btc_get_account_xpub debug SEEDED_SESSION_ID n coin)
      (fun W E => call_get_bitcoin_account_xpub _ _ _ _ _ _ _ _ _ Hn).
  - as_method ((fun W E => get_bitcoin_master_fingerprint (W := W) fuel hsp cred p) : Method _)
      (op_btc_get_master_fingerprint debug SEEDED_SESSION_ID)
      (fun W E => call_get_bitcoin_master_fingerprint _ _ _ _ _).
  - as_method ((fun W E => Client.sign_psbt (W := W) fuel hsp cred p text fp xpub account coin
      path) : Method _)
      (op_btc_sign_psbt debug fuel SEEDED_SESSION_ID text coin)
      (fun W E => call_sign_psbt _ _ _ _ _ _ _ _ _ _ _).
  - as_method ((fun W E => sign_bitcoin_message (W := W) fuel hsp cred p n msg coin) : Method _)
      (op_btc_sign_message debug SEEDED_SESSION_ID n msg coin)
      (fun W E => call_sign_bitcoin_message _ _ _ _ _ _ _ _).
  - as_method ((fun W E => get_ethereum_address (W := W) fuel hsp cred p account path) : Method _)
      (op_eth_get_address debug SEEDED_SESSION_ID n)
      (fun W E => call_get_ethereum_address _ _ _ _ _ _ _ _ Hn).
  - as_method ((fun W E => sign_ethereum_tx (W := W) fuel hsp cred p env account path) : Method _)
      (op_eth_sign_eip1559 debug SEEDED_SESSION_ID n env)
      (fun W E => call_sign_ethereum_tx _ _ _ _ _ _ _ _ _ Henv Hn).
  - as_method ((fun W E => sign_ethereum_message (W := W) fuel hsp cred p account msg path) :
      Method _)
      (op_eth_sign_message_full debug SEEDED_SESSION_ID n msg)
      (fun W E => call_sign_ethereum_message _ _ _ _ _ _ _ _ _ Hn).
  - as_method ((fun W E => get_solana_address (W := W) fuel hsp cred p account path) : Method _)
      (op_sol_get_address debug SEEDED_SESSION_ID n)
      (fun W E => call_get_solana_address _ _ _ _ _ _ _ _ Hn).
  - as_method ((fun W E => sign_solana_tx (W := W) fuel hsp cred p tx account path) : Method _)
      (op_sol_sign_tx debug SEEDED_SESSION_ID n tx)
      (fun W E => call_sign_solana_tx _ _ _ _ _ _ _ _ _ Hn).
  - as_method ((fun W E => sign_solana_message (W := W) fuel hsp cred p env account path) :
      Method _)
      (op_sol_sign_message debug SEEDED_SESSION_ID n env)
      (fun W E => call_sign_solana_message _ _ _ _ _ _ _ _ _ Hn).
  - as_method ((fun W E => get_tron_address (W := W) fuel hsp cred p account path) : Method _)
      (op_tron_get_address debug SEEDED_SESSION_ID n)
      (fun W E => call_get_tron_address _ _ _ _ _ _ _ _ Hn).
  - as_method ((fun W E => sign_tron_tx (W := W) fuel debug hsp cred p raw account path) :
      Method _)
      (op_tron_sign_tx debug SEEDED_SESSION_ID n raw)
      (fun W E => call_sign_tron_tx _ _ _ _ _ _ _ _ _ Hn).
Qed.

(** [M] is a method that is refused, over every environment. *)
Tactic Notation "as_refused" uconstr(M) uconstr(call) :=
  refine (ex_intro _ M (ex_intro _ _ (conj (method_refused _ _ _ call) eq_refl))).

Lemma refused_call_method {W} `{!Env W} {A} e m :
  refused_call (W := W) fuel debug A e m -> exists (M : Method A) t, method A M t /\ m = M W _.
Proof.
  intros H. destruct H as [| |msg|account|hsp cred p account coin path e He|hsp cred p account
    path e He|hsp cred p env account path e He|hsp cred p account msg path e He|hsp cred p
    account path e He|hsp cred p tx account path e He|hsp cred p env account path e He|hsp cred p
    account path e He|hsp cred p raw account path e He].
  - as_refused ((fun W E => identify) : Method _) (fun W E => refused_identify _ _).
  - as_refused ((fun W E => pair) : Method _) (fun W E => refused_pair _ _).
  - as_refused ((fun W E => Client.sign_message msg) : Method _)
      (fun W E => refused_sign_message _ _ msg).
  - as_refused ((fun W E => get_tron_pubkey account) : Method _)
      (fun W E => refused_tron_pubkey _ _ account).
  - as_refused ((fun W E => get_bitcoin_account_xpub (W := W) fuel hsp cred p account coin path) : Method _)
      (fun W E => refused_bitcoin_account_xpub _ _ _ _ _ _ _ _ _ He).
  - as_refused ((fun W E => get_ethereum_address (W := W) fuel hsp cred p account path) : Method _)
      (fun W E => refused_ethereum_address _ _ _ _ _ _ _ _ He).
  - as_refused ((fun W E => sign_ethereum_tx (W := W) fuel hsp cred p env account path) : Method _)
      (fun W E => refused_ethereum_tx _ _ _ _ _ _ _ _ _ He).
  - as_refused ((fun W E => sign_ethereum_message (W := W) fuel hsp cred p account msg path) : Method _)
      (fun W E => refused_ethereum_message _ _ _ _ _ _ _ _ _ He).
  - as_refused ((fun W E => get_solana_address (W := W) fuel hsp cred p account path) : Method _)
      (fun W E => refused_solana_address _ _ _ _ _ _ _ _ He).
  - as_refused ((fun W E => sign_solana_tx (W := W) fuel hsp cred p tx account path) : Method _)
      (fun W E => refused_solana_tx _ _ _ _ _ _ _ _ _ He).
  - as_refused ((fun W E => sign_solana_message (W := W) fuel hsp cred p env account path) : Method _)
      (fun W E => refused_solana_message _ _ _ _ _ _ _ _ _ He).
  - as_refused ((fun W E => get_tron_address (W := W) fuel hsp cred p account path) : Method _)
      (fun W E => refused_tron_address _ _ _ _ _ _ _ _ He).
  - as_refused ((fun W E => sign_tron_tx (W := W) fuel debug hsp cred p raw account path) : Method _)
      (fun W E => refused_tron_tx _ _ _ _ _ _ _ _ _ He).
Qed.

Lemma client_call_method {W} `{!Env W} {A} (m : Cli W A) :
  client_call fuel debug A m -> exists (M : Method A) t, method A M t /\ m = M W _.
Proof.
  intros H. destruct H as [A p op m H|hsp cred|A e m H].
  - by eapply pinned_call_method.
  - eexists _, _. split; [apply (method_identify hsp cred)|done].
  - by eapply refused_call_method.
Qed.

Lemma method_is_call {W} `{!Env W} {A} (M : Method A) t :
  method A M t -> client_call fuel debug A (M W _).
Proof.
  intros H. destruct H as [A p hs cred pass M op _ H _|hs cred|A e M H].
  - by eapply client_pinned.
  - constructor.
  - by eapply client_refused.
Qed.

(** The tree of a method is what it runs, over every environment. *)
Lemma method_runs {A} (M : Method A) t :
  method A M t -> forall W (E : Env W) slot w, M W E (slot, w) = run (t slot) w.
Proof.
  intros H W E slot w. destruct H as [A p hs cred pass M op _ _ Heq|hs cred|A e M Hr].
  - rewrite Heq. apply (runs_tree (tree_with_conn fuel hs cred pass _ op)).
  - apply (runs_tree (tree_identify hs cred)).
  - exact (refused_call_fails fuel debug e (M W E) (slot, w) (Hr W E)).
Qed.
End Methods.
