(* ===== verification/Replay.v ===== *)
(** * Every transport (transport.rs)

    The foreign [TrezorTransport] is arbitrary code: what it delivers may depend on its own
    state, on the host and on what was written before; its calls may also panic or never
    complete, and the platform generator may fail at any draw. A call of the crate is a tree
    (Interaction.v); what the theorems of AnyDevice.v show of it over every script shows that
    no leaf within reach of the tree is bad, which then holds over every transport. *)

From S2P Require Import Prelude Types.
From S2P Require Import Ethereum Solana Tron Bitcoin.
From S2P Require Import Env Bip32 Crypto Proto ChainProto Framing Channel Session.
From S2P Require Import Noise Connection ConnectionSafe Host Text Cpace Pairing OverPackets.
From S2P Require Import Client ClientPinned Interaction AnyDevice.

(** ** Transports *)
(** Any transport, with a platform generator and a user. [heard] counts the reads it has
    answered, [faults] what the crate has no error for: a generator that fails (the code
    expects it not to, channel.rs, noise.rs and pairing.rs) and a foreign call that panics.
    Reports and random bytes are bytes, and a draw that succeeds fills its buffer. *)
Class Transport (W : Type) `{!Env W} : Type := {
  heard : W -> nat;
  faults : W -> nat;
  getrandom_fills n w : let '(r, w') := getrandom n w in heard w' = heard w /\
    match r with
    | inr b => length b = n /\ bytes_ok b /\ faults w' = faults w
    | inl _ => faults w' = S (faults w)
    end;
  write_returns p w : let '(o, w') := write_chunk p w in heard w' = heard w /\
    match o with
    | Ret _ | Fail _ | Pending => faults w' = faults w
    | Panic => faults w' = S (faults w)
    | NoFuel => False
    end;
  read_delivers w : let '(o, w') := read_chunk w in
    match o with
    | Ret chunk => bytes_ok chunk /\ heard w' = S (heard w) /\ faults w' = faults w
    | Fail _ => heard w' = S (heard w) /\ faults w' = faults w
    | Pending => heard w' = heard w /\ faults w' = faults w
    | Panic => heard w' = heard w /\ faults w' = S (faults w)
    | NoFuel => False
    end;
  code_leaves w : let '(_, w') := request_code w in heard w' = heard w /\ faults w' = faults w;
}.

(** ** Sturdy trees *)
(** A tree that ends well, whatever it is answered within [r] reads: no leaf within reach is
    out of fuel, none is a panic unless the generator failed on the way to it (or [broken]
    holds already), its state at an await on the transport satisfies [P], and so does the
    one it ends in, together with [Q] of a result. *)
Fixpoint sturdy {X A} (broken : Prop) (P : X -> Prop) (Q : A -> X -> Prop) (r : nat)
    (t : Tree X A) : Prop :=
  match t with
  | Done o x => P x /\
      match o with Ret a => Q a x | Panic => broken | NoFuel => False | _ => True end
  | Random n k =>
    (forall b, length b = n -> bytes_ok b -> sturdy broken P Q r (k (inr b)))
    /\ forall e, sturdy True P Q r (k (inl e))
  | Write x _ k => P x /\ forall e, sturdy broken P Q r (k e)
  | Read x k =>
    P x /\ match r with
           | O => True
           | S r => (forall e, sturdy broken P Q r (k (inl e)))
                    /\ forall chunk, bytes_ok chunk -> sturdy broken P Q r (k (inr chunk))
           end
  | Code _ k => forall c, sturdy broken P Q r (k c)
  end.

Section Sturdy.
Context {X A : Type} (P : X -> Prop).
Implicit Types (Q : A -> X -> Prop) (t : Tree X A) (broken : Prop).

Lemma sturdy_weaken Q t : forall broken broken' r r',
  sturdy broken P Q r t -> (broken -> broken') -> r' <= r -> sturdy broken' P Q r' t.
Proof.
  induction t as [o x|n k IH|x p k IH|x k IH|x k IH]; intros b b' r r' Ht Hb Hr;
    cbn [sturdy] in *.
  - destruct Ht as [Hp Ho]. split; [done|]. destruct o; auto.
  - destruct Ht as [Ht He]. split; [intros v Hl Hv|intros e]; eapply IH; eauto.
  - split; [apply Ht|]. intros e. eapply IH; [apply Ht|done..].
  - split; [apply Ht|]. destruct r' as [|r']; [done|]. destruct r as [|r]; [lia|].
    destruct Ht as (_ & He & Hc).
    split; [intros e|intros c Hv]; (eapply IH; [auto|done|lia]).
  - intros c. by eapply IH.
Qed.

End Sturdy.

Section Compose.
Context {X A : Type} (P : X -> Prop).
Implicit Types (Q : A -> X -> Prop) (t : Tree X A).

Lemma sturdy_bind {B} Q (Q' : B -> X -> Prop) (f : A -> X -> Tree X B) t : forall broken r,
  sturdy broken P Q r t ->
  (forall a x r', r' <= r -> P x -> Q a x -> sturdy False P Q' r' (f a x)) ->
  sturdy broken P Q' r (tree_bind t f).
Proof.
  induction t as [o x|n k IH|x p k IH|x k IH|x k IH]; intros b r Ht Hf;
    cbn [sturdy tree_bind] in *.
  - destruct o as [a|e| | |]; cbn [sturdy]; destruct Ht as (H1 & H2); try done.
    by eapply sturdy_weaken; [apply Hf|..].
  - destruct Ht as [Ht He]. split; [intros v Hl Hv|intros e]; apply IH; auto.
  - split; [apply Ht|]. intros e. by apply IH; [apply Ht|].
  - split; [apply Ht|]. destruct r as [|r]; [done|]. destruct Ht as (_ & He & Hc).
    split; [intros e|intros c Hv]; (apply IH; [auto|]); intros a y r' Hr'; apply Hf; lia.
  - intros c. by apply IH.
Qed.

Lemma sturdy_embed {Y B} (P' : Y -> Prop) Q (Q' : B -> Y -> Prop) here ret fail t :
  forall broken r,
  sturdy broken P Q r t -> (forall x, P x -> P' (here x)) ->
  (forall a x, P x -> Q a x -> sturdy False P' Q' 0 (let '(o, y) := ret a x in Done o y)) ->
  (forall e x, P x -> sturdy False P' Q' 0 (let '(o, y) := fail e x in Done o y)) ->
  sturdy broken P' Q' r (embed here ret fail t).
Proof.
  induction t as [o x|n k IH|x p k IH|x k IH|x k IH]; intros b r Ht Hh Hret Hfail;
    cbn [sturdy embed] in *.
  - destruct Ht as (H1 & H2). destruct o as [a|e| | |]; try done.
    + specialize (Hret a x H1 H2). destruct (ret a x) as [o y]. cbn in *.
      destruct Hret as [? Ho]. split; [done|]. by destruct o.
    + specialize (Hfail e x H1). destruct (fail e x) as [o y]. cbn in *.
      destruct Hfail as [? Ho]. split; [done|]. by destruct o.
    + cbn. auto.
    + cbn. auto.
  - destruct Ht as [Ht He]. split; [intros v Hl Hv|intros e]; apply IH; auto.
  - split; [apply Hh, Ht|]. intros e. apply IH; auto. apply Ht.
  - split; [apply Hh, Ht|]. destruct r as [|r]; [done|]. destruct Ht as (_ & He & Hc).
    split; [intros e|intros c Hv]; apply IH; auto.
  - intros c. by apply IH.
Qed.
End Compose.

(** ** From scripts to trees *)
(** Answers put before a script. *)
Definition read_first (res : TrezorTransportError + list Z) (s : Script) : Script :=
  {| inbox := res :: inbox s; outbox := outbox s; write_errors := write_errors s;
     entropy := entropy s; codes := codes s |}.
Definition write_first (r : option TrezorTransportError) (s : Script) : Script :=
  {| inbox := inbox s; outbox := outbox s; write_errors := r :: write_errors s;
     entropy := entropy s; codes := codes s |}.
Definition draw_first (b : list Z) (s : Script) : Script :=
  {| inbox := inbox s; outbox := outbox s; write_errors := write_errors s;
     entropy := b ++ entropy s; codes := codes s |}.
Definition code_first (c : rstring) (s : Script) : Script :=
  {| inbox := inbox s; outbox := outbox s; write_errors := write_errors s;
     entropy := entropy s; codes := c :: codes s |}.

Lemma script_draws b s : script_random (length b) (draw_first b s) = (inr b, s).
Proof.
  unfold script_random, draw_first. cbn.
  rewrite length_app, (proj2 (Nat.leb_le _ _)) by lia. rewrite take_app_length, drop_app_length.
  by destruct s.
Qed.

(** A silent device, with as much entropy as any draw asks for, or with none. *)
Definition silent (out : list (list Z)) (e : list Z) : Script :=
  {| inbox := []; outbox := out; write_errors := []; entropy := e; codes := [] |}.
Definition spare : list Z := replicate 32 0%Z.

Lemma silent_wf out e : bytes_ok e -> wf_script (silent out e).
Proof. by split; [constructor|]. Qed.

Lemma spare_ok : bytes_ok spare.
Proof. apply Forall_replicate. unfold is_byte. lia. Qed.

(** What holds of a tree over every script within [r] reads holds of it within [r] reads. *)
Definition over_scripts {X A} (P : X -> Prop) (Q : A -> X -> Prop) (r : nat)
    (out : list (list Z)) (t : Tree X A) : Prop :=
  forall s, wf_script s -> outbox s = out -> length (inbox s) <= r ->
  let '(o, (x, s')) := run t s in
  P x /\ o <> NoFuel /\ (o = Panic -> rng_failed s')
  /\ match o with Ret a => Q a x | _ => True end.

Lemma scripts_draw {X A} (P : X -> Prop) (Q : A -> X -> Prop) n
    (k : rstring + list Z -> Tree X A) r out :
  0 < n -> ends_at_once (fun e => k (inl e)) -> over_scripts P Q r out (Random n k) ->
  forall e, sturdy True P Q r (k (inl e)).
Proof.
  intros Hn (x & Hk) H e.
  specialize (H (silent out []) (silent_wf out [] ltac:(constructor)) eq_refl (Nat.le_0_l r)).
  assert (Hr : script_random n (silent out []) = (inl (str "entropy exhausted"), silent out [])).
  { unfold script_random. by rewrite (proj2 (Nat.leb_gt _ _)). }
  cbn [run getrandom script_env] in H. rewrite Hr in H.
  destruct Hk as [Hk|Hk].
  - rewrite Hk in H |- *. by destruct H.
  - destruct (Hk e) as [e1 ->]. destruct (Hk (str "entropy exhausted")) as [e2 E].
    rewrite E in H. by destruct H.
Qed.

Lemma scripts_await {X A} (P : X -> Prop) (Q : A -> X -> Prop) r out (t : Tree X A) x :
  over_scripts P Q r out t ->
  (exists w, wf_script w /\ outbox w = out /\ inbox w = [] /\ (run t w).2.1 = x) -> P x.
Proof.
  intros H (w & Hw & Ho & Hi & <-). specialize (H w Hw Ho). rewrite Hi in H.
  specialize (H (Nat.le_0_l r)). by destruct (run t w) as [o [y s']]; destruct H.
Qed.

Lemma scripts_sturdy {X A} (P : X -> Prop) (Q : A -> X -> Prop) (t : Tree X A) :
  errors_return t -> forall r out, over_scripts P Q r out t -> sturdy False P Q r t.
Proof.
  intros Hw. induction t as [o x|n k IH|x p k IH|x k IH|x k IH]; intros r out H;
    cbn [sturdy errors_return] in *.
  - specialize (H (silent out spare) (silent_wf _ _ spare_ok) eq_refl (Nat.le_0_l r)).
    cbn in H. destruct H as (Hp & Hn & Hpanic & Hq). split; [done|]. destruct o; try done.
    specialize (Hpanic eq_refl). unfold rng_failed in Hpanic. cbn in Hpanic. lia.
  - destruct Hw as (Hn & He & Hw). split; [|by eapply scripts_draw]. intros b Hl Hb.
    apply (IH (inr b) (Hw b) r out). intros s Hs Ho Hi.
    specialize (H (draw_first b s)). cbn [run getrandom script_env] in H.
    rewrite <- Hl, script_draws in H. apply H; [|done..].
    destruct Hs as [Hs He']. split; [done|]. by apply bytes_ok_app.
  - destruct Hw as [He Hw]. split.
    { eapply scripts_await; [exact H|]. destruct (He (Disconnected [])) as [e' E].
      exists (write_first (Some (Disconnected [])) (silent out spare)).
      split_and!; [by apply silent_wf, spare_ok|done..|]. cbn. by rewrite E. }
    intros [e|].
    { destruct (He e) as [e' ->]. split; [|done]. eapply scripts_await; [exact H|].
      exists (write_first (Some e) (silent out spare)). destruct (He e) as [e1 E].
      split_and!; [by apply silent_wf, spare_ok|done..|]. cbn. by rewrite E. }
    apply (IH None Hw r (out ++ [p])). intros s Hs Ho Hi.
    specialize (H {| inbox := inbox s; outbox := out; write_errors := None :: write_errors s;
      entropy := entropy s; codes := codes s |} Hs eq_refl Hi).
    cbn in H. rewrite <- Ho in H. by destruct s.
  - split.
    { eapply scripts_await; [exact H|]. exists (silent out spare).
      split_and!; [by apply silent_wf, spare_ok|done..]. }
    destruct r as [|r]; [done|].
    assert (Hr : forall res, match res with inr c => bytes_ok c | inl _ => True end ->
      sturdy False P Q r (k res)).
    { intros res Hres. apply (IH res (Hw res) r out). intros s [Hs He] Ho Hi.
      specialize (H (read_first res s)). cbn in H.
      assert (Hwf : wf_script (read_first res s)) by (split; [by constructor|done]).
      specialize (H Hwf Ho ltac:(lia)). destruct s. by destruct res. }
    split; [intros e|intros chunk Hb]; by apply Hr.
  - intros c. apply (IH c (Hw c) r out). intros s Hs Ho Hi.
    specialize (H (code_first c s) Hs Ho Hi). cbn in H. by destruct s.
Qed.

(** ** Sturdy trees over a transport *)
Section Runs.
Context {W : Type} `{!Env W} {TW : Transport W}.

Lemma run_counts {X A} (t : Tree X A) : forall w,
  heard w <= heard (run t w).2.2 /\ faults w <= faults (run t w).2.2.
Proof.
  induction t as [o x|n k IH|x p k IH|x k IH|x k IH]; intros w; cbn [run]; [done|..].
  - pose proof (getrandom_fills n w) as Hg. destruct (getrandom n w) as [v w1].
    specialize (IH v w1). destruct v; lia.
  - pose proof (write_returns p w) as Hw. destruct (write_chunk p w) as [[[]|e| | |] w1];
      try (cbn [fst snd]; lia); [specialize (IH None w1)|specialize (IH (Some e) w1)]; lia.
  - pose proof (read_delivers w) as Hr. destruct (read_chunk w) as [[c|e| | |] w1];
      try (cbn [fst snd]; lia); [specialize (IH (inr c) w1)|specialize (IH (inl e) w1)]; lia.
  - pose proof (code_leaves w) as Hc. destruct (request_code w) as [c w1].
    specialize (IH c w1). lia.
Qed.

Lemma run_sturdy {X A} (P : X -> Prop) (Q : A -> X -> Prop) (t : Tree X A) : forall r broken w,
  sturdy broken P Q r t -> heard (run t w).2.2 - heard w <= r ->
  P (run t w).2.1 /\ (run t w).1 <> NoFuel
  /\ ((run t w).1 = Panic -> broken \/ faults w < faults (run t w).2.2).
Proof.
  induction t as [o x|n k IH|x p k IH|x k IH|x k IH]; intros r b w Ht Hle;
    cbn [sturdy run] in *.
  - destruct Ht as [Hp Ho]. cbn [fst snd]. split; [done|]. destruct o; split; try done; auto.
  - destruct Ht as [Ht He]. pose proof (getrandom_fills n w) as Hg.
    destruct (getrandom n w) as [[e|v] w1]; destruct Hg as [Hh Hg].
    + destruct (IH (inl e) r True w1 (He e)) as (? & ? & _); [lia|].
      split_and!; try done. intros _. right. pose proof (run_counts (k (inl e)) w1). lia.
    + destruct Hg as (Hl & Hv & Hf). rewrite <- Hf. apply (IH (inr v) r b); [auto|lia].
  - pose proof (write_returns p w) as Hw.
    destruct (write_chunk p w) as [[[]|e| | |] w1]; destruct Hw as [Hh Hf]; try done.
    + rewrite <- Hf. apply (IH None r b); [apply Ht|lia].
    + rewrite <- Hf. apply (IH (Some e) r b); [apply Ht|lia].
    + split_and!; [apply Ht|done|]. intros _. right. cbn [fst snd]. lia.
    + by split_and!; [apply Ht|..].
  - pose proof (read_delivers w) as Hr.
    destruct (read_chunk w) as [[c|e| | |] w1]; try done.
    + destruct Hr as (Hv & Hh & Hf). pose proof (run_counts (k (inr c)) w1).
      destruct r as [|r]; [lia|]. rewrite <- Hf. apply (IH (inr c) r b); [by apply Ht|lia].
    + destruct Hr as (Hh & Hf). pose proof (run_counts (k (inl e)) w1).
      destruct r as [|r]; [lia|]. rewrite <- Hf. apply (IH (inl e) r b); [by apply Ht|lia].
    + split_and!; [apply Ht|done|]. intros _. right. cbn [fst snd]. lia.
    + by split_and!; [apply Ht|..].
  - pose proof (code_leaves w) as Hc. destruct (request_code w) as [c w1].
    destruct Hc as [Hh Hf]. rewrite <- Hf. apply (IH c r b); [apply Ht|lia].
Qed.
End Runs.

(** ** The calls of a client *)
Section Safety.
Context {CR : Crypto} {CL : CryptoLaws} {PM : ThpProto} {PL : ThpProtoLaws}.
Context {BP : BitcoinProto} {BL : BitcoinProtoLaws} {EP : EthereumProto} {EL : EthereumProtoLaws}.
Context {SP : SolanaProto} {SL : SolanaProtoLaws} {TP : TronProto} {TL : TronProtoLaws}.
Context {R : Type} {RB : Bitcoin.RustBitcoin R} (fuel : nat) (debug : Z -> rstring).

(** What a call guarantees of its tree, [r] reads before the fuel runs out. *)
Abbreviation enduring := (sturdy False wf_slot).
Abbreviation anything := (fun _ _ => True).

Lemma driving_enduring {A} (m : Generic (option Connection) A) (H : driving m) P Q slot :
  withstands fuel P Q (m Script _) -> P slot -> wf_slot slot -> 0 < fuel ->
  enduring (fun _ => Q) (fuel - 1) (tree_of (driving_uniform H) slot).
Proof.
  intros Hm HP Hs Hfuel. apply (scripts_sturdy _ _ _ (driving_returns H slot) (fuel - 1) []).
  intros s Hw _ Hl. specialize (Hm slot s HP Hs Hw ltac:(lia)).
  rewrite (runs_tree (driving_uniform H)) in Hm. destruct (run _ s) as [o [x s']].
  destruct Hm as (Hx & _ & _ & (Hn & Hp & _) & HQ). done.
Qed.

Lemma clearing_enduring {A} (m : Generic (option Connection) A) (H : uniform m) Q slot r :
  enduring Q r (tree_of H slot) -> enduring Q r (tree_of (uniform_clearing m H) slot).
Proof. intros Ht. cbn [tree_of uniform_clearing]. by apply (sturdy_embed wf_slot wf_slot Q). Qed.

Lemma ensure_conn_enduring hs cred pass slot :
  wf_slot slot -> 0 < fuel ->
  enduring (fun _ => is_Some) (fuel - 1)
    (tree_of (uniform_clearing _ (driving_uniform (tree_ensure_conn fuel hs cred pass))) slot).
Proof.
  intros Hs Hfuel. apply clearing_enduring.
  by apply (driving_enduring _ _ _ _ slot (withstands_ensure_conn fuel hs cred pass)).
Qed.

Lemma on_pinned_enduring {A} (op : Generic Connection A) (H : driving op) slot r :
  respects_or rng_failed fuel 0 ConnectionSafe.anything (op Script _) ->
  r <= fuel - 1 -> 0 < fuel -> wf_slot slot -> is_Some slot ->
  enduring anything r
    (tree_of (uniform_clearing _ (driving_uniform (driving_on_pinned op H))) slot).
Proof.
  intros Hop Hr Hfuel Hs Hc. apply clearing_enduring. eapply sturdy_weaken; [|done|exact Hr].
  eapply (driving_enduring _ (driving_on_pinned op H) _ (fun _ => True) slot); [|exact Hc|done..].
  eapply withstands_weaken; [by apply withstands_on_pinned|done].
Qed.

Lemma method_enduring {A} (m : Generic (option Connection) A) t slot :
  method debug fuel A m t -> wf_slot slot -> 0 < fuel -> enduring anything (fuel - 1) (t slot).
Proof.
  intros Hm Hs Hfuel. destruct Hm as [A p hs cred pass m op _ Hcall _|hs cred|A e m _]; [..|done].
  - unfold tree_with_conn. cbn [tree_of uniform_bind]. eapply sturdy_bind.
    { by apply ensure_conn_enduring. }
    intros [] x r Hr Hx Hc. apply on_pinned_enduring; try done.
    exact (pinned_call_respects fuel debug _ _ _ (Hcall Script _)).
  - unfold tree_identify. cbn [tree_of uniform_bind]. eapply sturdy_bind.
    { by apply ensure_conn_enduring. }
    intros [] x r Hr Hx Hc. eapply sturdy_bind.
    { apply on_pinned_enduring; try done. by apply respects_get_features. }
    intros f x' r' Hr' Hx' _. cbn. by destruct (feat_device_id f).
Qed.

Lemma foreign_enduring {A} (m : Foreign A) (H : foreign m) :
  (forall w, wf_script w -> length (inbox w) < fuel -> settles (m Script _ w).1 (m Script _ w).2) ->
  0 < fuel -> sturdy False (fun _ => True) anything (fuel - 1) (foreign_tree H).
Proof.
  intros Hm Hfuel. apply (scripts_sturdy _ _ _ (foreign_returns H) (fuel - 1) []).
  intros s Hw _ Hl. specialize (Hm s Hw ltac:(lia)). rewrite (runs_foreign H) in Hm.
  destruct (run _ s) as [o [x s']]. destruct Hm as (Hn & Hp & _). by destruct o.
Qed.

(** The calls that take no guard. *)
Inductive bare : forall A, Foreign A -> Tree unit A -> Prop :=
  | bare_thp_probe :
      bare _ (fun W E => thp_probe (W := W) fuel) (foreign_tree (tree_thp_probe fuel))
  | bare_establish hs host_name app_name stored :
      bare _ (fun W E => establish_paired_session (W := W) fuel hs host_name app_name stored)
        (foreign_tree (tree_establish fuel hs host_name app_name stored)).

Lemma bare_enduring {A} (m : Foreign A) t :
  bare A m t -> 0 < fuel -> sturdy False (fun _ => True) anything (fuel - 1) t.
Proof.
  intros H Hfuel. destruct H; apply foreign_enduring; try done; intros w Hw Hl.
  - by apply probe_settles.
  - by apply establish_settles.
Qed.

Context {W : Type} `{!Env W} {TW : Transport W}.

(** C3: Over any transport, whatever state a call finds the pinned slot in and whatever the
    transport answers: a method of the client panics only if the platform generator failed
    or a call of the foreign transport panicked meanwhile; it ends, or waits for the
    transport, as soon as the fuel exceeds the number of reads the transport answers, so only
    a transport that answers reads for ever keeps it running; and the connection it leaves in
    the slot is well formed, after a panic too. *)
Theorem client_withstands_any_transport {A} (m : Cli W A) slot w :
  client_call fuel debug A m -> wf_slot slot ->
  let run := m (slot, w) in
  heard run.2.2 - heard w < fuel ->
  (run.1 = Panic -> faults w < faults run.2.2) /\ run.1 <> NoFuel /\ wf_slot run.2.1.
Proof.
  intros Hm Hs. cbv zeta. destruct (client_call_method debug fuel m Hm) as (M & t & HM & ->).
  rewrite (method_runs debug fuel M t HM W _ slot w). intros Hfuel.
  destruct (run_sturdy wf_slot (fun _ _ => True) (t slot) (fuel - 1) False w)
    as (Hslot & Hn & Hp); [apply (method_enduring M); [done..|lia]|lia|].
  split_and!; try done. intros E. by destruct (Hp E).
Qed.

Lemma bare_runs {A} (m : Foreign A) t :
  bare A m t -> forall V (E : Env V) v,
  m V E v = let '(o, (_, v')) := run t v in (o, v').
Proof.
  intros H V E v. destruct H.
  - apply (runs_foreign (tree_thp_probe fuel)).
  - apply (runs_foreign (tree_establish fuel hs host_name app_name stored)).
Qed.

Lemma bare_withstands {A} (m : Foreign A) t w :
  bare A m t -> heard (m W _ w).2 - heard w < fuel ->
  ((m W _ w).1 = Panic -> faults w < faults (m W _ w).2) /\ (m W _ w).1 <> NoFuel.
Proof.
  intros Hm. pose proof (bare_runs m t Hm W _ w) as Hrun.
  destruct (run t w) as [o [x w']] eqn:E.
  rewrite Hrun. cbn [fst snd]. intros Hfuel.
  destruct (run_sturdy (fun _ => True) (fun _ _ => True) t (fuel - 1) False w)
    as (_ & Hn & Hp); [apply (bare_enduring m); [done|lia]|rewrite E; cbn; lia|].
  rewrite E in Hn, Hp. split; [|done]. intros Eo. by destruct (Hp Eo).
Qed.

(** C4: Over any transport, whatever it answers and whatever the user types, the call that
    brings a device up (pairing it if need be) and the probe panic only if the platform
    generator failed or a call of the foreign transport panicked meanwhile, and each ends,
    or waits for the transport, as soon as the fuel exceeds the number of reads the
    transport answers: so only a transport that answers reads for ever keeps one running. *)
Theorem bring_up_withstands_any_transport hs host_name app_name stored w :
  let paired := establish_paired_session fuel hs host_name app_name stored w in
  let probed := thp_probe fuel w in
  (heard paired.2 - heard w < fuel ->
     (paired.1 = Panic -> faults w < faults paired.2) /\ paired.1 <> NoFuel)
  /\ (heard probed.2 - heard w < fuel ->
     (probed.1 = Panic -> faults w < faults probed.2) /\ probed.1 <> NoFuel).
Proof.
  split; intros Hfuel.
  - exact (bare_withstands _ _ w (bare_establish hs host_name app_name stored) Hfuel).
  - exact (bare_withstands _ _ w bare_thp_probe Hfuel).
Qed.
End Safety.

(** ** Witness: a transport that sends the host its own packets back, and a generator that
    serves some draws and fails from then on *)
Record Echo : Type := {
  echo_queue : list (list Z);
  echo_heard : nat;
  echo_draws : nat;
  echo_faults : nat;
}.

#[export] Instance echo_env : Env Echo := {|
  getrandom n w :=
    match echo_draws w with
    | O => (inl (str "no entropy"), {| echo_queue := echo_queue w; echo_heard := echo_heard w;
                                       echo_draws := 0; echo_faults := S (echo_faults w) |})
    | S d => (inr (replicate n 0x5a%Z),
              {| echo_queue := echo_queue w; echo_heard := echo_heard w; echo_draws := d;
                 echo_faults := echo_faults w |})
    end;
  write_chunk p w := (Ret tt, {| echo_queue := echo_queue w ++ [p]; echo_heard := echo_heard w;
                                 echo_draws := echo_draws w; echo_faults := echo_faults w |});
  read_chunk w :=
    let w' q := {| echo_queue := q; echo_heard := S (echo_heard w);
                   echo_draws := echo_draws w; echo_faults := echo_faults w |} in
    match echo_queue w with
    | [] => (Fail (Io (str "nothing sent")), w' [])
    | p :: rest => (Ret ((fun b => b mod 256)%Z <$> p), w' rest)
    end;
  request_code w := (str "000000", w);
|}.

Lemma echo_read_ok p : bytes_ok ((fun b => b mod 256)%Z <$> p).
Proof. apply Forall_fmap, Forall_true. intros b. apply Z.mod_pos_bound. lia. Qed.

#[export] Instance echo_transport : Transport Echo.
Proof.
  refine {| heard := echo_heard; faults := echo_faults |}.
  - intros n w. cbn. destruct (echo_draws w) as [|d]; [done|]. cbn. split; [done|].
    split; [apply length_replicate|]. split; [|done]. apply Forall_replicate. unfold is_byte. lia.
  - done.
  - intros w. cbn. destruct (echo_queue w) as [|p rest]; [done|]. split; [apply echo_read_ok|done].
  - done.
Defined.

Definition silent_echo (draws : nat) : Echo :=
  {| echo_queue := []; echo_heard := 0; echo_draws := draws; echo_faults := 0 |}.
Definition echo_call : Cli Echo rstring :=
  get_solana_address (CR := toy_crypto) (PM := toy_thp_proto) (SP := toy_solana_proto) 40
    (replicate 32 5%Z) [] Standard 0 None.

Lemma echo_call_is_call :
  client_call (CR := toy_crypto) (PM := toy_thp_proto) (BP := toy_bitcoin_proto)
    (EP := toy_ethereum_proto) (SP := toy_solana_proto) (TP := toy_tron_proto)
    (RB := Bitcoin.toy_rust_bitcoin Bitcoin.sample_psbt) 40 (fun _ => []) rstring echo_call.
Proof. eapply client_pinned, call_get_solana_address. reflexivity. Qed.

Lemma no_faults (a b : nat) : (a <? b) = false -> ~ a < b.
Proof. intros H. by apply Nat.ltb_ge, Nat.le_ngt in H. Qed.

(** With entropy the call does not panic; without, it does. *)
Lemma client_withstands_any_transport_witness :
  (let run := echo_call (None, silent_echo 9) in
   run.1 <> Panic /\ run.1 <> NoFuel /\ wf_slot run.2.1)
  /\ (let run := echo_call (None, silent_echo 0) in
      run.1 = Panic /\ run.1 <> NoFuel /\ wf_slot run.2.1).
Proof.
  pose proof (client_withstands_any_transport (CR := toy_crypto) (CL := toy_crypto_laws)
    (PM := toy_thp_proto) (PL := toy_thp_proto_laws) (BP := toy_bitcoin_proto)
    (BL := toy_bitcoin_proto_laws) (EP := toy_ethereum_proto) (EL := toy_ethereum_proto_laws)
    (SP := toy_solana_proto) (SL := toy_solana_proto_laws) (TP := toy_tron_proto)
    (TL := toy_tron_proto_laws) (RB := Bitcoin.toy_rust_bitcoin Bitcoin.sample_psbt) 40
    (fun _ => []) echo_call None) as H.
  split.
  - destruct (H (silent_echo 9) echo_call_is_call I) as (Hp & Hn & Hs).
    { apply Nat.ltb_lt. vm_compute. reflexivity. }
    split; [|exact (conj Hn Hs)]. intros E. apply Hp in E.
    revert E. apply no_faults. vm_compute. reflexivity.
  - destruct (H (silent_echo 0) echo_call_is_call I) as (_ & Hn & Hs).
    { apply Nat.ltb_lt. vm_compute. reflexivity. }
    split; [vm_compute; reflexivity|exact (conj Hn Hs)].
Defined.

Lemma bring_up_withstands_any_transport_witness :
  let paired := establish_paired_session (CR := toy_crypto) (PM := toy_thp_proto) 40
    (replicate 32 5%Z) (str "host") (str "app") None (silent_echo 9) in
  let probed := thp_probe (CR := toy_crypto) (PM := toy_thp_proto) 40 (silent_echo 9) in
  (paired.1 <> Panic /\ paired.1 <> NoFuel) /\ (probed.1 <> Panic /\ probed.1 <> NoFuel).
Proof.
  intros paired probed.
  destruct (bring_up_withstands_any_transport (CR := toy_crypto) (CL := toy_crypto_laws)
    (PM := toy_thp_proto) (PL := toy_thp_proto_laws) 40 (replicate 32 5%Z) (str "host")
    (str "app") None (silent_echo 9)) as [Hpaired Hprobed].
  destruct Hpaired as [Hp Hn]; [apply Nat.ltb_lt; vm_compute; reflexivity|].
  destruct Hprobed as [Hp' Hn']; [apply Nat.ltb_lt; vm_compute; reflexivity|].
  split; (split; [intros E|assumption]).
  - apply Hp in E. revert E. apply no_faults. vm_compute. reflexivity.
  - apply Hp' in E. revert E. apply no_faults. vm_compute. reflexivity.
Defined.
