(* ===== verification/Concurrent.v ===== *)
(** * Calls that run at the same time (client.rs)

    The methods of one [TrezorClient] are futures a foreign executor polls in any order. They
    share the transport; those on the pinned connection first take the mutex of the slot and
    keep its guard to the end, [thp_probe] and [establish_paired_session] take none. A call is
    its tree (Interaction.v), an execution a sequence of steps of the calls: each step
    completes one call on the environment, takes or releases the guard, or drops a future
    where it awaits. Two theorems: any execution of guarded calls is a sequential one, which
    justifies treating a method as one step on the slot; and no interleaving, of any calls,
    with futures dropped at any await, leaves a malformed slot, or makes a call panic that
    no fault of the generator or of the transport explains. *)

From S2P Require Import Prelude Types.
From S2P Require Import Ethereum Solana Tron Bitcoin.
From S2P Require Import Env Bip32 Crypto Proto ChainProto Framing Channel Session.
From S2P Require Import Noise Connection ConnectionSafe Host Text Cpace Pairing OverPackets.
From S2P Require Import Client ClientPinned Interaction AnyDevice Replay.

(** A result of any type. *)
Definition Any : Type := {A : Type & A}.
Definition boxed {A} (o : outcome TrezorError A) : outcome TrezorError Any :=
  match o with
  | Ret a => Ret (existT A a)
  | Fail e => Fail e
  | Panic => Panic
  | Pending => Pending
  | NoFuel => NoFuel
  end.
Definition box {X A} (t : Tree X A) : Tree X Any :=
  embed id (fun a x => (Ret (existT A a), x)) (fun e x => (Fail e, x)) t.

Section System.
Context {W : Type} `{!Env W}.

(** ** Tasks *)
(** A call on the client: one that takes the guard of the slot, with its tree for each
    content of the slot, or one that does not. *)
Inductive Call : Type :=
  | Pinned A (m : Generic (option Connection) A)
      (t : option Connection -> Tree (option Connection) A)
  | Bare A (m : Foreign A) (t : Tree unit A).
#[local] Arguments Pinned {A}.
#[local] Arguments Bare {A}.

Inductive Task : Type :=
  | Waiting (t : option Connection -> Tree (option Connection) Any)
  | Holding (t : Tree (option Connection) Any)
  | Free (t : Tree unit Any)
  | Ended (o : outcome TrezorError Any)
  | Dropped.

Definition spawn (c : Call) : Task :=
  match c with
  | Pinned m t => Waiting (fun slot => box (t slot))
  | Bare m t => Free (box t)
  end.

(** The transport, the slot, who holds its guard, and the calls. *)
Record System : Type := {
  world : W;
  pinned : option Connection;
  holder : option nat;
  tasks : list Task;
}.

Definition start (calls : list Call) (slot : option Connection) (w : W) : System :=
  {| world := w; pinned := slot; holder := None; tasks := spawn <$> calls |}.

(** The next call of a computation on the environment, when it completes. *)
Definition advance {X A} (t : Tree X A) (w : W) : option (Tree X A * W) :=
  match t with
  | Done _ _ => None
  | Random n k => let '(b, w') := getrandom n w in Some (k b, w')
  | Write x packet k =>
    match write_chunk packet w with
    | (Ret _, w') => Some (k None, w')
    | (Fail e, w') => Some (k (Some e), w')
    | (Panic, w') => Some (Done Panic x, w')
    | _ => None
    end
  | Read x k =>
    match read_chunk w with
    | (Ret chunk, w') => Some (k (inr chunk), w')
    | (Fail e, w') => Some (k (inl e), w')
    | (Panic, w') => Some (Done Panic x, w')
    | _ => None
    end
  | Code _ k => let '(code, w') := request_code w in Some (k code, w')
  end.

(** The state a computation has at an await on the transport, where it may be dropped. (Only
    pairing awaits the user, and it takes no guard.) *)
Definition at_await {X A} (t : Tree X A) : option X :=
  match t with Write x _ _ | Read x _ => Some x | _ => None end.

(** ** Steps *)
Inductive Event : Type :=
  | Completed (i : nat) (o : outcome TrezorError Any)
  | Cancelled (i : nat).

Definition event_call (e : Event) : nat := match e with Completed i _ | Cancelled i => i end.

Inductive step : System -> list Event -> System -> Prop :=
  (** [self.pinned.lock().await] *)
  | step_lock w slot ts i t :
      ts !! i = Some (Waiting t) ->
      step {| world := w; pinned := slot; holder := None; tasks := ts |} []
           {| world := w; pinned := slot; holder := Some i; tasks := <[i := Holding (t slot)]> ts |}
  | step_guarded w slot h ts i t t' w' :
      ts !! i = Some (Holding t) -> advance t w = Some (t', w') ->
      step {| world := w; pinned := slot; holder := h; tasks := ts |} []
           {| world := w'; pinned := slot; holder := h; tasks := <[i := Holding t']> ts |}
  (** The method returns, or unwinds: the guard is released. *)
  | step_unlock w slot h ts i o x :
      ts !! i = Some (Holding (Done o x)) ->
      step {| world := w; pinned := slot; holder := h; tasks := ts |} [Completed i o]
           {| world := w; pinned := x; holder := None; tasks := <[i := Ended o]> ts |}
  (** Its future is dropped: the slot keeps what it held at the await. *)
  | step_cancel w slot h ts i t x :
      ts !! i = Some (Holding t) -> at_await t = Some x ->
      step {| world := w; pinned := slot; holder := h; tasks := ts |} [Cancelled i]
           {| world := w; pinned := x; holder := None; tasks := <[i := Dropped]> ts |}
  | step_give_up w slot h ts i t :
      ts !! i = Some (Waiting t) ->
      step {| world := w; pinned := slot; holder := h; tasks := ts |} []
           {| world := w; pinned := slot; holder := h; tasks := <[i := Dropped]> ts |}
  | step_free w slot h ts i t t' w' :
      ts !! i = Some (Free t) -> advance t w = Some (t', w') ->
      step {| world := w; pinned := slot; holder := h; tasks := ts |} []
           {| world := w'; pinned := slot; holder := h; tasks := <[i := Free t']> ts |}
  | step_return w slot h ts i o x :
      ts !! i = Some (Free (Done o x)) ->
      step {| world := w; pinned := slot; holder := h; tasks := ts |} []
           {| world := w; pinned := slot; holder := h; tasks := <[i := Ended o]> ts |}
  | step_drop_free w slot h ts i t :
      ts !! i = Some (Free t) ->
      step {| world := w; pinned := slot; holder := h; tasks := ts |} []
           {| world := w; pinned := slot; holder := h; tasks := <[i := Dropped]> ts |}.

(** Executions, with what the guarded calls came to, in order. *)
Inductive execution (s : System) : list Event -> System -> Prop :=
  | execution_start : execution s [] s
  | execution_step es s1 es' s2 :
      execution s es s1 -> step s1 es' s2 -> execution s (es ++ es') s2.

(** ** Sequential runs *)
(** Some calls on the environment of a computation. *)
Inductive partway {X A} : Tree X A -> W -> Tree X A -> W -> Prop :=
  | partway_here t w : partway t w t w
  | partway_on t w t1 w1 t2 w2 :
      partway t w t1 w1 -> advance t1 w1 = Some (t2, w2) -> partway t w t2 w2.

(** The calls one after the other, each a run of the method on the slot and the environment
    the one before left; a cancelled one stops at one of its awaits. *)
Inductive sequential (calls : list Call) :
    option Connection * W -> list Event -> option Connection * W -> Prop :=
  | sequential_none s : sequential calls s [] s
  | sequential_call s es slot w i A (m : Generic (option Connection) A) t o s' :
      sequential calls s es (slot, w) -> calls !! i = Some (Pinned m t) ->
      m W _ (slot, w) = (o, s') -> sequential calls s (es ++ [Completed i (boxed o)]) s'
  | sequential_cancelled s es slot w i A (m : Generic (option Connection) A) t t' x w' :
      sequential calls s es (slot, w) -> calls !! i = Some (Pinned m t) ->
      partway (t slot) w t' w' -> at_await t' = Some x ->
      sequential calls s (es ++ [Cancelled i]) (x, w').

(** ** Runs and steps *)
Lemma run_advance {X A} (t t' : Tree X A) w w' :
  advance t w = Some (t', w') -> run t w = run t' w'.
Proof.
  destruct t as [o x|n k|x p k|x k|x k]; cbn [advance run]; [done|..].
  - destruct (getrandom n w) as [b w1]. by intros [= <- <-].
  - destruct (write_chunk p w) as [[]]; by intros [= <- <-].
  - destruct (read_chunk w) as [[]]; by intros [= <- <-].
  - destruct (request_code w) as [c w1]. by intros [= <- <-].
Qed.

Lemma run_partway {X A} (t t' : Tree X A) w w' : partway t w t' w' -> run t w = run t' w'.
Proof. induction 1 as [|t w t1 w1 t2 w2 _ IH Ha]; [done|]. rewrite IH. by apply run_advance. Qed.

Lemma run_box {X A} (t : Tree X A) (w : W) :
  run (box t) w = let '(o, s) := run t w in (boxed o, s).
Proof. unfold box. rewrite run_embed. by destruct (run t w) as [[] [? ?]]. Qed.

Lemma box_done {X A} (o : outcome TrezorError A) (x : X) : box (Done o x) = Done (boxed o) x.
Proof. by destruct o. Qed.

Lemma advance_box {X A} (t : Tree X A) (w : W) u w' :
  advance (box t) w = Some (u, w') -> exists t', u = box t' /\ advance t w = Some (t', w').
Proof.
  unfold box. destruct t as [o x|n k|x p k|x k|x k]; cbn [embed advance]; [by destruct o|..].
  - destruct (getrandom n w) as [b w1]. intros [= <- <-]. by eexists.
  - destruct (write_chunk p w) as [[[]|e| | |] w1]; intros [= <- <-];
      by eexists; (split; [|reflexivity]).
  - destruct (read_chunk w) as [[c|e| | |] w1]; intros [= <- <-];
      by eexists; (split; [|reflexivity]).
  - destruct (request_code w) as [c w1]. intros [= <- <-]. by eexists.
Qed.

Lemma at_await_box {X A} (t : Tree X A) : at_await (box t) = at_await t.
Proof. destruct t as [[]| | | |]; reflexivity. Qed.

Lemma box_inv_done {X A} (t : Tree X A) o x :
  box t = Done o x -> exists o', t = Done o' x /\ o = boxed o'.
Proof.
  destruct t as [o'| | | |]; try discriminate. rewrite box_done. intros [= <- <-]. by exists o'.
Qed.

(** ** The guard serialises the calls that take it *)
Definition guarded (c : Call) : Prop :=
  match c with
  | Pinned m t => forall slot w, m W _ (slot, w) = run (t slot) w
  | Bare _ _ => False
  end.

Section Serial.
Context (calls : list Call) (slot0 : option Connection) (w0 : W).

(** Call [i] is under way, from the slot and environment the calls before it left. *)
Definition under_way (i : nat) (slot : option Connection) (w : W) (s : System) : Prop :=
  exists A (m : Generic (option Connection) A) t t',
    calls !! i = Some (Pinned m t) /\ tasks s !! i = Some (Holding (box t'))
    /\ partway (t slot) w t' (world s).

Definition finished (k : Task) : Prop :=
  match k with Ended _ | Dropped => True | _ => False end.

(** An execution explained by a sequential one. *)
Record explained (es : list Event) (s : System) (slot : option Connection) (w : W) : Prop := {
  ex_run : sequential calls (slot0, w0) es (slot, w);
  ex_ended i o : tasks s !! i = Some (Ended o) <-> Completed i o ∈ es;
  ex_once : NoDup (event_call <$> es);
  ex_finished i : i ∈ event_call <$> es -> exists k, tasks s !! i = Some k /\ finished k;
  ex_waiting i u : tasks s !! i = Some (Waiting u) ->
    exists A (m : Generic (option Connection) A) t,
      calls !! i = Some (Pinned m t) /\ u = fun slot => box (t slot);
  ex_bare i u : tasks s !! i <> Some (Free u);
  ex_holder : match holder s with
    | None => pinned s = slot /\ world s = w /\ forall i u, tasks s !! i <> Some (Holding u)
    | Some i => under_way i slot w s /\ forall j u, tasks s !! j = Some (Holding u) -> j = i
    end;
}.

Lemma start_explained : Forall guarded calls -> explained [] (start calls slot0 w0) slot0 w0.
Proof.
  intros Hg. assert (Hs : forall i k, tasks (start calls slot0 w0) !! i = Some k ->
    exists A (m : Generic (option Connection) A) t,
      calls !! i = Some (Pinned m t) /\ k = Waiting (fun slot => box (t slot))).
  { intros i k. cbn. rewrite list_lookup_fmap. destruct (calls !! i) as [c|] eqn:E; [|done].
    apply (Forall_lookup_1 _ _ _ _ Hg) in E as Hc. destruct c as [A m t|]; [|done].
    intros [= <-]. eauto. }
  split.
  - constructor.
  - intros i o. split; [|by intros ?%elem_of_nil]. by intros (?&?&?&?&?)%Hs.
  - constructor.
  - by intros i ?%elem_of_nil.
  - intros i u (A & m & t & Hc & [= ->])%Hs. eauto.
  - by intros i u (?&?&?&?&?)%Hs.
  - do 2 (split; [done|]). by intros i u (?&?&?&?&?)%Hs.
Qed.

(** A task that is not finished moves on without coming to anything. *)
Definition unsettled (k : Task) : Prop :=
  match k with Holding _ | Dropped => True | _ => False end.

Lemma retask es s slot w i k k' w' x h :
  explained es s slot w -> tasks s !! i = Some k -> ~ finished k -> unsettled k' ->
  let s' := {| world := w'; pinned := x; holder := h; tasks := <[i := k']> (tasks s) |} in
  match h with
  | None => x = slot /\ w' = w /\ forall i u, tasks s' !! i <> Some (Holding u)
  | Some i => under_way i slot w s' /\ forall j u, tasks s' !! j = Some (Holding u) -> j = i
  end ->
  explained es s' slot w.
Proof.
  intros [Hrun Hend Honce Hfin Hwait Hbare _] Hk Hnf Hu s' Hh. split; try done.
  - intros j o. rewrite <- Hend. cbn. rewrite list_lookup_insert_Some. split.
    + intros [(-> & -> & _)|[_ H]]; [done|exact H].
    + intros H. right. split; [|exact H]. intros <-. rewrite H in Hk. by injection Hk as <-.
  - intros j Hj. destruct (Hfin j Hj) as (kj & Hkj & Hf). exists kj. split; [|done]. cbn.
    rewrite list_lookup_insert_ne; [done|]. intros <-. rewrite Hk in Hkj. by injection Hkj as <-.
  - intros j u. cbn. rewrite list_lookup_insert_Some.
    intros [(_ & -> & _)|[_ H]]; [done|by eapply Hwait].
  - intros j u. cbn. rewrite list_lookup_insert_Some.
    intros [(_ & -> & _)|[_ H]]; [done|by eapply Hbare].
Qed.

(** What an event makes of its task. *)
Definition settled (e : Event) : Task :=
  match e with Completed _ o => Ended o | Cancelled _ => Dropped end.

Lemma only_holder es s slot w i u :
  explained es s slot w -> tasks s !! i = Some (Holding u) ->
  holder s = Some i /\ under_way i slot w s
  /\ forall j v, tasks s !! j = Some (Holding v) -> j = i.
Proof.
  intros [_ _ _ _ _ _ Hh] Hi. destruct (holder s) as [j|].
  - destruct Hh as [Hj Hone]. rewrite (Hone i u Hi) in *. by split.
  - destruct Hh as (_ & _ & Hh). by apply Hh in Hi.
Qed.

Lemma settle es s slot w e u slot' w' :
  let i := event_call e in
  explained es s slot w -> tasks s !! i = Some (Holding u) ->
  sequential calls (slot0, w0) (es ++ [e]) (slot', w') ->
  explained (es ++ [e]) {| world := w'; pinned := slot'; holder := None;
                           tasks := <[i := settled e]> (tasks s) |} slot' w'.
Proof.
  intros i Hex Hi Hrun. destruct (only_holder _ _ _ _ _ _ Hex Hi) as (_ & _ & Hone).
  destruct Hex as [_ Hend Honce Hfin Hwait Hbare _].
  assert (Hnew : i ∉ event_call <$> es).
  { intros H. destruct (Hfin i H) as (k & Hk & Hf). rewrite Hi in Hk. by injection Hk as <-. }
  assert (Hlt : i < length (tasks s)) by by eapply lookup_lt_Some.
  split; [done|..]; cbn [tasks holder pinned world].
  - intros j o. rewrite elem_of_app, list_elem_of_singleton, <- Hend, list_lookup_insert_Some.
    split.
    + intros [(<- & He & _)|[_ H]]; [right|by left]. destruct e; [|done]. by injection He as ->.
    + intros [H| <-]; [|by left]. right. split; [|done]. intros <-. by rewrite Hi in H.
  - rewrite fmap_app. apply NoDup_app. split; [done|]. split; [|apply NoDup_singleton].
    intros j Hj ->%list_elem_of_singleton. by apply Hnew.
  - intros j. rewrite fmap_app, elem_of_app. intros [H|H%list_elem_of_singleton].
    + destruct (Hfin j H) as (k & Hk & Hf). exists k. split; [|done].
      rewrite list_lookup_insert_ne; [done|]. intros <-. by apply Hnew.
    + rewrite H. exists (settled e). split; [by apply list_lookup_insert_eq|by destruct e].
  - intros j v. rewrite list_lookup_insert_Some.
    intros [(_ & H & _)|[_ H]]; [by destruct e|by eapply Hwait].
  - intros j v. rewrite list_lookup_insert_Some.
    intros [(_ & H & _)|[_ H]]; [by destruct e|by eapply Hbare].
  - do 2 (split; [done|]). intros j v. rewrite list_lookup_insert_Some.
    intros [(_ & H & _)|[Hne H]]; [by destruct e|by apply Hne, symmetry, (Hone j v)].
Qed.

(** A call that waits for the mutex leaves nothing behind. *)
Lemma give_up_explained es w1 x h ts slot w i u :
  explained es {| world := w1; pinned := x; holder := h; tasks := ts |} slot w ->
  ts !! i = Some (Waiting u) ->
  explained es {| world := w1; pinned := x; holder := h; tasks := <[i := Dropped]> ts |} slot w.
Proof.
  intros Hex Hi. apply (retask es _ slot w i _ _ w1 x h Hex Hi); [by intros []|done|].
  pose proof (ex_holder _ _ _ _ Hex) as Hh. cbn [holder pinned world tasks] in Hh.
  assert (Hold : forall j v, <[i := Dropped]> ts !! j = Some (Holding v) ->
    ts !! j = Some (Holding v)).
  { intros j v. rewrite list_lookup_insert_Some. by intros [(_ & ? & _)|[_ ?]]. }
  destruct h as [j|].
  - destruct Hh as ((A & m & t & t' & Hc & Ht & Hp) & Hone). split.
    + exists A, m, t, t'. split; [done|]. split; [|exact Hp]. cbn [tasks] in *.
      rewrite list_lookup_insert_ne; [exact Ht|]. intros ->. by rewrite Hi in Ht.
    + intros k v Hk. by eapply Hone, Hold.
  - destruct Hh as (-> & -> & Hnone). do 2 (split; [done|]). intros k v Hk.
    by apply (Hnone k v), Hold.
Qed.

(** The guard is free or held by the caller before and after a step that returns none. *)
Lemma step_explained es s slot w es' s' :
  Forall guarded calls -> explained es s slot w -> step s es' s' ->
  exists slot' w', explained (es ++ es') s' slot' w'.
Proof.
  intros Hg Hex Hstep. destruct Hstep as [w1 x ts i t Hi|w1 x h ts i u u' w' Hi Ha
    |w1 x h ts i o x' Hi|w1 x h ts i u x' Hi Ha|w1 x h ts i u Hi|w1 x h ts i u u' w' Hi _
    |w1 x h ts i o y Hi|w1 x h ts i u Hi].
  6-8: destruct (ex_bare _ _ _ _ Hex _ _ Hi).
  - destruct (ex_waiting _ _ _ _ Hex i t Hi) as (A & m & t' & Hc & ->).
    pose proof (ex_holder _ _ _ _ Hex) as Hh. cbn [holder pinned world tasks] in Hh.
    destruct Hh as (-> & -> & Hnone). exists slot, w. rewrite app_nil_r.
    apply (retask es _ slot w i _ _ w slot (Some i) Hex Hi); [by intros []|done|]. split.
    + exists A, m, t', (t' slot). split; [done|]. split; [|constructor].
      apply list_lookup_insert_eq. by eapply lookup_lt_Some.
    + intros j u. cbn. rewrite list_lookup_insert_Some.
      intros [(-> & _)|[_ H]]; [done|by apply Hnone in H].
  - destruct (only_holder _ _ _ _ _ _ Hex Hi) as (Hh & (A & m & t & t' & Hc & Ht & Hp) & Hone).
    cbn [holder tasks world] in *. subst h. rewrite Hi in Ht. injection Ht as ->.
    destruct (advance_box t' w1 u' w' Ha) as (t'' & -> & Ha'). exists slot, w. rewrite app_nil_r.
    apply (retask es _ slot w i _ _ w' x (Some i) Hex Hi); [by intros []|done|]. split.
    + exists A, m, t, t''. split; [done|]. split; [|by eapply partway_on].
      apply list_lookup_insert_eq. by eapply lookup_lt_Some.
    + intros j u. cbn. rewrite list_lookup_insert_Some.
      intros [(-> & _)|[_ H]]; [done|by eapply Hone].
  - destruct (only_holder _ _ _ _ _ _ Hex Hi) as (_ & (A & m & t & t' & Hc & Ht & Hp) & _).
    cbn [tasks world] in *. rewrite Hi in Ht. injection Ht as Ht.
    destruct (box_inv_done t' o x' (eq_sym Ht)) as (o' & -> & ->). exists x', w1.
    apply (settle es _ slot w (Completed i (boxed o')) _ x' w1 Hex Hi).
    eapply sequential_call; [apply Hex|exact Hc|].
    apply (Forall_lookup_1 _ _ _ _ Hg) in Hc. rewrite Hc. by rewrite (run_partway _ _ _ _ Hp).
  - destruct (only_holder _ _ _ _ _ _ Hex Hi) as (_ & (A & m & t & t' & Hc & Ht & Hp) & _).
    cbn [tasks world] in *. rewrite Hi in Ht. injection Ht as ->. rewrite at_await_box in Ha.
    exists x', w1. apply (settle es _ slot w (Cancelled i) _ x' w1 Hex Hi).
    by eapply sequential_cancelled; [apply Hex|..].
  - exists slot, w. rewrite app_nil_r. by eapply give_up_explained.
Qed.

Lemma execution_explained es s :
  Forall guarded calls -> execution (start calls slot0 w0) es s ->
  exists slot w, explained es s slot w.
Proof.
  intros Hg. induction 1 as [|es s1 es' s2 _ (slot & w & IH) Hstep].
  - exists slot0, w0. by apply start_explained.
  - by eapply step_explained.
Qed.
End Serial.

(** ** Every run is an execution *)
Lemma partway_trans {X A} (t1 t2 t3 : Tree X A) w1 w2 w3 :
  partway t1 w1 t2 w2 -> partway t2 w2 t3 w3 -> partway t1 w1 t3 w3.
Proof. intros H1 H2. induction H2; [done|]. by eapply partway_on; [apply IHpartway|]. Qed.

Lemma partway_step {X A} (t t' u : Tree X A) w w' w'' :
  advance t w = Some (t', w') -> partway t' w' u w'' -> partway t w u w''.
Proof. intros H. apply partway_trans. by eapply partway_on; [apply partway_here|]. Qed.

(** A run that is not left waiting is made of completed calls. *)
Lemma run_finishes {X A} (t : Tree X A) : forall w o x w',
  run t w = (o, (x, w')) -> o <> Pending -> o <> NoFuel -> partway t w (Done o x) w'.
Proof.
  induction t as [o1 x1|n k IH|x1 p k IH|x1 k IH|x1 k IH]; intros w o x w' Hr Hp Hf;
    cbn [run] in Hr.
  - injection Hr as -> -> ->. constructor.
  - destruct (getrandom n w) as [b w1] eqn:E. eapply partway_step; [|by apply IH].
    cbn. by rewrite E.
  - destruct (write_chunk p w) as [[[]|e| | |] w1] eqn:E.
    1-2: eapply partway_step; [cbn; by rewrite E|by apply IH].
    + injection Hr as <- <- <-. eapply partway_step; [cbn; by rewrite E|constructor].
    + by injection Hr as <- <- <-.
    + by injection Hr as <- <- <-.
  - destruct (read_chunk w) as [[c|e| | |] w1] eqn:E.
    1-2: eapply partway_step; [cbn; by rewrite E|by apply IH].
    + injection Hr as <- <- <-. eapply partway_step; [cbn; by rewrite E|constructor].
    + by injection Hr as <- <- <-.
    + by injection Hr as <- <- <-.
  - destruct (request_code w) as [c w1] eqn:E. eapply partway_step; [|by apply IH].
    cbn. by rewrite E.
Qed.

Lemma execution_trans s es s1 es' s2 :
  execution s es s1 -> execution s1 es' s2 -> execution s (es ++ es') s2.
Proof.
  intros H1 H2. induction H2 as [|es1 s2 es2 s3 _ IH Hs]; [by rewrite app_nil_r|].
  rewrite app_assoc. by eapply execution_step.
Qed.

Lemma execution_one s es s' : step s es s' -> execution s es s'.
Proof. intros H. exact (execution_step s [] s es s' (execution_start s) H). Qed.

Lemma advance_box_intro {X A} (t t' : Tree X A) w w' :
  advance t w = Some (t', w') -> advance (box t) w = Some (box t', w').
Proof.
  unfold box. destruct t as [o x|n k|x p k|x k|x k]; cbn [embed advance]; [done|..].
  - destruct (getrandom n w) as [b w1]. by intros [= <- <-].
  - destruct (write_chunk p w) as [[]]; by intros [= <- <-].
  - destruct (read_chunk w) as [[]]; by intros [= <- <-].
  - destruct (request_code w) as [c w1]. by intros [= <- <-].
Qed.

(** A task of kind [f] that moves on with each call completed. *)
Lemma partway_execution {X} (f : Tree X Any -> Task) w slot h ts i t t' w' :
  (forall w ts t t' w', ts !! i = Some (f t) -> advance t w = Some (t', w') ->
     step {| world := w; pinned := slot; holder := h; tasks := ts |} []
          {| world := w'; pinned := slot; holder := h; tasks := <[i := f t']> ts |}) ->
  ts !! i = Some (f t) -> partway t w t' w' ->
  execution {| world := w; pinned := slot; holder := h; tasks := ts |} []
    {| world := w'; pinned := slot; holder := h; tasks := <[i := f t']> ts |}.
Proof.
  intros Hf Hi Hp. induction Hp as [t w|t w t1 w1 t2 w2 _ IH Ha].
  { rewrite list_insert_id by done. constructor. }
  eapply (execution_trans _ [] _ []); [by apply IH|]. apply execution_one.
  rewrite <- (list_insert_insert_eq ts i (f t2) (f t1)).
  apply (Hf _ _ t1); [|exact Ha]. apply list_lookup_insert_eq. by eapply lookup_lt_Some.
Qed.

Lemma partway_box {X A} (t t' : Tree X A) w w' :
  partway t w t' w' -> partway (box t) w (box t') w'.
Proof.
  induction 1 as [|t w t1 w1 t2 w2 _ IH Ha]; [constructor|].
  eapply partway_on; [exact IH|by apply advance_box_intro].
Qed.

(** A call that holds the guard can run to its outcome, and so can one that takes none. *)
Lemma holding_executes {A} w slot h ts i (t : Tree (option Connection) A) o x w' :
  ts !! i = Some (Holding (box t)) -> run t w = (o, (x, w')) -> o <> Pending -> o <> NoFuel ->
  execution {| world := w; pinned := slot; holder := h; tasks := ts |} [Completed i (boxed o)]
    {| world := w'; pinned := x; holder := None; tasks := <[i := Ended (boxed o)]> ts |}.
Proof.
  intros Hi Hr Hp Hf. apply run_finishes in Hr; [|done..]. apply partway_box in Hr.
  rewrite box_done in Hr. eapply (execution_trans _ [] _ [_]).
  { eapply (partway_execution Holding); [by intros; eapply step_guarded|exact Hi|exact Hr]. }
  apply execution_one.
  rewrite <- (list_insert_insert_eq ts i (Ended (boxed o)) (Holding (Done (boxed o) x))).
  apply step_unlock, list_lookup_insert_eq. by eapply lookup_lt_Some.
Qed.

Lemma bare_executes {A} w slot h ts i (t : Tree unit A) o x w' :
  ts !! i = Some (Free (box t)) -> run t w = (o, (x, w')) -> o <> Pending -> o <> NoFuel ->
  execution {| world := w; pinned := slot; holder := h; tasks := ts |} []
    {| world := w'; pinned := slot; holder := h; tasks := <[i := Ended (boxed o)]> ts |}.
Proof.
  intros Hi Hr Hp Hf. apply run_finishes in Hr; [|done..]. apply partway_box in Hr.
  rewrite box_done in Hr. eapply (execution_trans _ [] _ []).
  { eapply (partway_execution Free); [by intros; eapply step_free|exact Hi|exact Hr]. }
  apply execution_one.
  rewrite <- (list_insert_insert_eq ts i (Ended (boxed o)) (Free (Done (boxed o) x))).
  apply (step_return _ _ _ _ _ _ x), list_lookup_insert_eq. by eapply lookup_lt_Some.
Qed.

(** With the mutex free, a call that waits for it can take it. *)
Lemma lock_executes {A} w slot ts i (t : option Connection -> Tree (option Connection) A) :
  ts !! i = Some (Waiting (fun slot => box (t slot))) ->
  execution {| world := w; pinned := slot; holder := None; tasks := ts |} []
    {| world := w; pinned := slot; holder := Some i; tasks := <[i := Holding (box (t slot))]> ts |}.
Proof. intros Hi. by apply execution_one, (step_lock w slot ts i (fun slot => box (t slot))). Qed.
End System.

(** ** The methods of a client *)
Section Methods.
Context {CR : Crypto} {PM : ThpProto} {BP : BitcoinProto} {EP : EthereumProto}.
Context {SP : SolanaProto} {TP : TronProto} {R : Type} {RB : RustBitcoin R}.
Context (debug : Z -> rstring) (fuel : nat).

Definition guarded_method (c : Call) : Prop :=
  match c with Pinned A m t => method debug fuel A m t | Bare _ _ _ => False end.

(** C5: The mutex makes every execution of the methods on the pinned connection a sequential
    one. However the calls of a client are interleaved, and whichever are dropped while they
    wait for the mutex or for the device, there is an order of them such that running the
    methods one after the other, each on the slot and the transport the one before left
    (a cancelled one up to the await where it was dropped), gives every call the outcome it
    had, each once, and the slot and the transport as they are; if the mutex is held, its
    holder is under way from there, alone. *)
Theorem mutex_serialises_calls {W} `{!Env W} calls slot0 (w0 : W) es s :
  Forall guarded_method calls -> execution (start calls slot0 w0) es s ->
  exists slot w,
    sequential calls (slot0, w0) es (slot, w)
    /\ (forall i o, tasks s !! i = Some (Ended o) <-> Completed i o ∈ es)
    /\ NoDup (event_call <$> es)
    /\ match holder s with
       | None => pinned s = slot /\ world s = w
       | Some i => under_way calls i slot w s
                   /\ forall j u, tasks s !! j = Some (Holding u) -> j = i
       end.
Proof.
  intros Hg Hrun.
  assert (Hg' : Forall (guarded (W := W)) calls).
  { eapply Forall_impl; [exact Hg|]. intros [A m t|A m t] Hm; [|done]. intros slot w.
    exact (method_runs debug fuel m t Hm W _ slot w). }
  destruct (execution_explained calls slot0 w0 es s Hg' Hrun)
    as (slot & w & [Hseq Hend Honce _ _ _ Hh]).
  exists slot, w. do 3 (split; [done|]). destruct (holder s); tauto.
Qed.
End Methods.

(** ** No interleaving makes a call panic *)
Section Safety.
Context {CR : Crypto} {CL : CryptoLaws} {PM : ThpProto} {PL : ThpProtoLaws}.
Context {BP : BitcoinProto} {BL : BitcoinProtoLaws} {EP : EthereumProto} {EL : EthereumProtoLaws}.
Context {SP : SolanaProto} {SL : SolanaProtoLaws} {TP : TronProto} {TL : TronProtoLaws}.
Context {R : Type} {RB : Bitcoin.RustBitcoin R} (debug : Z -> rstring) (fuel : nat).
Context (Hfuel : 0 < fuel).
Abbreviation anything := (fun _ _ => True).

(** Any call on a client. *)
Definition client_task (c : Call) : Prop :=
  match c with Pinned A m t => method debug fuel A m t | Bare A m t => bare fuel A m t end.

Lemma box_sturdy {X A} broken (P : X -> Prop) r (t : Tree X A) :
  sturdy broken P anything r t -> sturdy broken P anything r (box t).
Proof. intros Ht. by apply (sturdy_embed P P anything). Qed.

Section Runs.
Context {W : Type} `{!Env W} {TW : Transport W}.

(** A task that ends well within [r] more reads, unless the generator or the transport is
    [broken]. *)
Definition lasting (broken : Prop) (r : nat) (k : Task) : Prop :=
  match k with
  | Waiting t => forall slot, wf_slot slot -> sturdy broken wf_slot anything r (t slot)
  | Holding t => sturdy broken wf_slot anything r t
  | Free t => sturdy broken (fun _ => True) anything r t
  | Ended o => o <> NoFuel /\ (o = Panic -> broken)
  | Dropped => True
  end.

Lemma lasting_weaken (broken broken' : Prop) r r' k :
  lasting broken r k -> (broken -> broken') -> r' <= r -> lasting broken' r' k.
Proof.
  intros Hk Hb Hr. destruct k as [t|t|t|o|]; cbn [lasting] in *; try done; [intros slot Hs|..];
    try (eapply sturdy_weaken; eauto; fail). split; [apply Hk|]. intros E. by apply Hb, Hk.
Qed.

Lemma spawn_lasting c : client_task c -> lasting False (fuel - 1) (spawn c).
Proof.
  destruct c as [A m t|A m t]; cbn; intros H.
  - intros slot Hs. by apply box_sturdy, (method_enduring fuel debug m).
  - by apply box_sturdy, (bare_enduring fuel m).
Qed.

Lemma advance_counts {X A} (t t' : Tree X A) w w' :
  advance t w = Some (t', w') -> heard w <= heard w' /\ faults w <= faults w'.
Proof.
  destruct t as [o x|n k|x p k|x k|x k]; cbn [advance]; [done|..].
  - pose proof (getrandom_fills n w) as Hg. destruct (getrandom n w) as [[] w1];
      intros [= <- <-]; lia.
  - pose proof (write_returns p w) as Hw. destruct (write_chunk p w) as [[[]|e| | |] w1];
      destruct Hw as [Hh Hw]; try done; intros [= <- <-]; lia.
  - pose proof (read_delivers w) as Hr. destruct (read_chunk w) as [[c|e| | |] w1];
      try done; intros [= <- <-]; lia.
  - pose proof (code_leaves w) as Hc. destruct (request_code w) as [c w1].
    intros [= <- <-]. lia.
Qed.

Lemma advance_sturdy {X A} broken (P : X -> Prop) (Q : A -> X -> Prop) r (t t' : Tree X A) w w' :
  advance t w = Some (t', w') -> heard w' - heard w <= r -> sturdy broken P Q r t ->
  sturdy (broken \/ faults w < faults w') P Q (r - (heard w' - heard w)) t'.
Proof.
  intros Ha Hle Ht. destruct t as [o x|n k|x p k|x k|x k]; cbn [sturdy advance] in *; [done|..].
  - destruct Ht as [Ht He]. pose proof (getrandom_fills n w) as Hg.
    destruct (getrandom n w) as [[e|v] w1]; destruct Hg as [Hh Hg]; injection Ha as <- <-.
    + eapply sturdy_weaken; [apply He|right; lia|lia].
    + destruct Hg as (Hl & Hv & _). eapply sturdy_weaken; [by apply Ht|by left|lia].
  - pose proof (write_returns p w) as Hw. destruct (write_chunk p w) as [[[]|e| | |] w1];
      destruct Hw as [Hh Hw]; try done; injection Ha as <- <-.
    1-2: eapply sturdy_weaken; [apply Ht|by left|lia].
    split; [apply Ht|]. right. lia.
  - pose proof (read_delivers w) as Hr. destruct (read_chunk w) as [[c|e| | |] w1]; try done;
      injection Ha as <- <-.
    3: { split; [apply Ht|]. right. lia. }
    all: destruct r as [|r]; [lia|]; (eapply sturdy_weaken;
      [first [apply Ht, Hr|apply Ht]|by left|lia]).
  - pose proof (code_leaves w) as Hc. destruct (request_code w) as [c w1].
    injection Ha as <- <-. eapply sturdy_weaken; [apply Ht|by left|lia].
Qed.

(** What a reachable state satisfies while the fuel lasts. *)
Context (calls : list Call) (slot0 : option Connection) (w0 : W).
Definition reads (s : System) : nat := heard (world s) - heard w0.
Definition broken (s : System) : Prop := faults w0 < faults (world s).
Definition sound (s : System) : Prop :=
  heard w0 <= heard (world s) /\ faults w0 <= faults (world s) /\
  (reads s < fuel ->
   wf_slot (pinned s) /\ Forall (lasting (broken s) (fuel - 1 - reads s)) (tasks s)).

Lemma start_sound : Forall client_task calls -> wf_slot slot0 -> sound (start calls slot0 w0).
Proof.
  intros Hc Hs. split_and!; [done..|]. intros _. split; [done|]. unfold reads. cbn.
  rewrite Nat.sub_diag, Nat.sub_0_r. apply Forall_fmap. eapply Forall_impl; [exact Hc|].
  intros c Hc'. by eapply lasting_weaken; [apply spawn_lasting|..].
Qed.

(** One task moves on, to [k], with [w'] the world. *)
Lemma sound_step s i u k w' x h :
  sound s -> tasks s !! i = Some u ->
  heard (world s) <= heard w' /\ faults (world s) <= faults w' ->
  (forall b r, wf_slot (pinned s) -> heard w' - heard (world s) <= r -> lasting b r u ->
     wf_slot x /\ lasting (b \/ faults (world s) < faults w')
                    (r - (heard w' - heard (world s))) k) ->
  sound {| world := w'; pinned := x; holder := h; tasks := <[i := k]> (tasks s) |}.
Proof.
  intros (Hle & Hf & Hs) Hi [Hw Hf'] Hk. unfold sound, broken, reads in *.
  cbn [world pinned tasks] in *. split_and!; [lia|lia|]. intros Hlt.
  destruct Hs as [Hslot Ht]; [lia|].
  destruct (Hk (faults w0 < faults (world s)) (fuel - 1 - (heard (world s) - heard w0)))
    as [Hx Hk']; [done|lia|by apply (Forall_lookup_1 _ _ _ _ Ht Hi)|].
  split; [done|]. apply Forall_insert.
  - eapply Forall_impl; [exact Ht|]. intros v Hv. eapply lasting_weaken; [exact Hv|lia..].
  - eapply lasting_weaken; [exact Hk'|lia..].
Qed.

Lemma at_await_holds {X A} b (P : X -> Prop) (Q : A -> X -> Prop) r (t : Tree X A) x :
  at_await t = Some x -> sturdy b P Q r t -> P x.
Proof. destruct t; cbn; try done; intros [= <-] H; apply H. Qed.

Lemma step_sound s es s' : sound s -> step s es s' -> sound s'.
Proof.
  intros Hs Hstep. destruct Hstep as [w x ts i t Hi|w x h ts i t t' w' Hi Ha|w x h ts i o x' Hi
    |w x h ts i t x' Hi Ha|w x h ts i t Hi|w x h ts i t t' w' Hi Ha|w x h ts i o y Hi
    |w x h ts i t Hi].
  2, 6: apply (sound_step _ i _ _ w' x h Hs Hi); [by eapply advance_counts|];
    intros b r Hx Hr Ht; (split; [exact Hx|]);
    exact (advance_sturdy _ _ _ r t t' w w' Ha Hr Ht).
  all: eapply (sound_step _ i _ _ w _ _ Hs Hi (conj (le_n _) (le_n _))); intros b r Hx _ Ht;
    cbn [world pinned] in *; rewrite Nat.sub_diag, Nat.sub_0_r.
  - split; [done|]. eapply lasting_weaken; [by apply (Ht x)|by left|done].
  - destruct Ht as (? & Ho). split; [done|]. split; [by intros ->|]. intros ->. by left.
  - split; [by eapply at_await_holds|done].
  - done.
  - destruct Ht as (_ & Ho). split; [done|]. split; [by intros ->|]. intros ->. by left.
  - done.
Qed.

(** The guard is held by the one call that holds it. *)
Definition holds (k : Task) : bool := match k with Holding _ => true | _ => false end.
Definition held (s : System (W := W)) : Prop :=
  forall i, holder s = Some i <-> holds <$> tasks s !! i = Some true.

Lemma start_held : held (start calls slot0 w0).
Proof.
  intros i. cbn. rewrite list_lookup_fmap. by destruct (calls !! i) as [[]|].
Qed.

Lemma held_on s i u k w' x' :
  held s -> tasks s !! i = Some u -> holds u = holds k ->
  held {| world := w'; pinned := x'; holder := holder s; tasks := <[i := k]> (tasks s) |}.
Proof.
  intros Hs Hi Hk j. cbn. rewrite (Hs j), list_lookup_insert.
  destruct (decide _) as [[<- _]|]; [|done]. rewrite Hi. cbn. by rewrite Hk.
Qed.

Lemma held_release s i u k w' x' :
  held s -> tasks s !! i = Some (Holding u) -> holds k = false ->
  held {| world := w'; pinned := x'; holder := None; tasks := <[i := k]> (tasks s) |}.
Proof.
  intros Hs Hi Hk j. cbn. assert (Hh : holder s = Some i) by (apply Hs; by rewrite Hi).
  split; [done|]. rewrite list_lookup_insert.
  destruct (decide _) as [[<- _]|Hne]; cbn; [by rewrite Hk|]. intros Hj%Hs.
  destruct Hne. split; [congruence|by eapply lookup_lt_Some].
Qed.

Lemma step_held s es s' : held s -> step s es s' -> held s'.
Proof.
  intros Hs Hstep. destruct Hstep as [w x ts i t Hi|w x h ts i t t' w' Hi Ha
    |w x h ts i o x' Hi|w x h ts i t x' Hi Ha|w x h ts i t Hi|w x h ts i t t' w' Hi Ha
    |w x h ts i o y Hi|w x h ts i t Hi].
  2, 5-8: by eapply (held_on _ i _ _ _ _ Hs Hi).
  2-3: by eapply (held_release _ i _ _ _ _ Hs Hi).
  intros j. specialize (Hs j). cbn in *. rewrite list_lookup_insert.
  destruct (decide _) as [[<- _]|Hne]; [done|]. rewrite <- Hs. split; [|done].
  intros [= <-]. destruct Hne. split; [done|by eapply lookup_lt_Some].
Qed.

(** ** Progress *)
Definition moves {X A} (t : Tree X A) (w : W) : Prop :=
  match t with Done _ _ => True | _ => is_Some (advance t w) end.
Definition silenced {X A} (t : Tree X A) (w : W) : Prop :=
  match t with
  | Write _ p _ => (write_chunk p w).1 = Pending
  | Read _ _ => (read_chunk w).1 = Pending
  | _ => False
  end.

(** A call that can go on by itself, and one that waits for the transport. *)
Definition able (s : System) (i : nat) : Prop :=
  match tasks s !! i with
  | Some (Waiting _) => holder s = None
  | Some (Holding t) => moves t (world s)
  | Some (Free t) => moves t (world s)
  | _ => False
  end.
Definition awaits_transport (s : System) (i : nat) : Prop :=
  match tasks s !! i with
  | Some (Holding t) => silenced t (world s)
  | Some (Free t) => silenced t (world s)
  | _ => False
  end.

Lemma moves_or_silenced {X A} (t : Tree X A) w : moves t w \/ silenced t w.
Proof.
  destruct t as [o x|n k|x p k|x k|x k]; cbn [moves silenced advance]; [by left|..].
  - left. by destruct (getrandom n w).
  - pose proof (write_returns p w) as Hw.
    destruct (write_chunk p w) as [[[]|e| | |] w1]; destruct Hw; try done; auto.
  - pose proof (read_delivers w) as Hr.
    destruct (read_chunk w) as [[c|e| | |] w1]; try done; auto.
  - left. by destruct (request_code w).
Qed.

(** What is able has a step of its own, which does not drop it. *)
Lemma able_steps s i :
  able s i -> exists es s' k, step s es s' /\ tasks s' = <[i := k]> (tasks s) /\ k <> Dropped.
Proof.
  unfold able. destruct s as [w x h ts]. cbn [tasks holder world].
  destruct (ts !! i) as [[t|t|t|o|]|] eqn:Hi; try done.
  - intros ->. do 3 eexists. split; [by apply step_lock|done].
  - destruct t as [o y| | | |] eqn:Ht; rewrite <- Ht in *; cbn [moves].
    { intros _. subst t. do 3 eexists. split; [by apply step_unlock|done]. }
    all: rewrite Ht; intros [[t' w'] Ha]; do 3 eexists;
      (split; [by eapply step_guarded; [|exact Ha]; rewrite Hi, Ht|done]).
  - destruct t as [o y| | | |] eqn:Ht; rewrite <- Ht in *; cbn [moves].
    { intros _. subst t. do 3 eexists. split; [by eapply step_return|done]. }
    all: rewrite Ht; intros [[t' w'] Ha]; do 3 eexists;
      (split; [by eapply step_free; [|exact Ha]; rewrite Hi, Ht|done]).
Qed.

(** No deadlock: a call that is not over goes on or waits for the device, it or the one that
    holds the guard. *)
Lemma nothing_stuck s i k :
  held s -> tasks s !! i = Some k -> ~ finished k ->
  exists j, (j = i \/ holder s = Some j) /\ (able s j \/ awaits_transport s j).
Proof.
  intros Hs Hi Hk. assert (Hown : forall j t, tasks s !! j = Some (Holding t) ->
    able s j \/ awaits_transport s j).
  { intros j t Hj. unfold able, awaits_transport. rewrite Hj. apply moves_or_silenced. }
  destruct k as [t|t|t|o|]; try by destruct Hk.
  - destruct (holder s) as [j|] eqn:Hh.
    + exists j. split; [by right|]. pose proof (proj1 (Hs j) Hh) as Hj.
      destruct (tasks s !! j) as [[]|] eqn:Ej; try done. by eapply Hown.
    + exists i. split; [by left|]. left. unfold able. by rewrite Hi.
  - exists i. split; [by left|]. by eapply Hown.
  - exists i. split; [by left|]. unfold able, awaits_transport. rewrite Hi.
    apply moves_or_silenced.
Qed.
End Runs.

(** C6: However the calls of a client are interleaved, those that take the mutex of the
    connection and the probe and pairing calls that take none, whichever futures are dropped
    at whatever await, and whatever the transport answers: a call panics only if the platform
    generator has failed or a call of the foreign transport has panicked, and the connection
    left in the slot is well formed, after a panic too, as long as the transport has answered
    fewer reads than the fuel; and there is no deadlock: of a call that is not over, it or
    the call that holds the mutex has a step to take, or waits for a read or a write of the
    transport that does not complete. *)
Theorem no_interleaving_panics {W} `{!Env W} {TW : Transport W} calls slot0 (w0 : W) es s :
  Forall client_task calls -> wf_slot slot0 -> execution (start calls slot0 w0) es s ->
  (heard (world s) - heard w0 < fuel ->
     wf_slot (pinned s)
     /\ forall i o, tasks s !! i = Some (Ended o) ->
          o <> NoFuel /\ (o = Panic -> faults w0 < faults (world s)))
  /\ forall i k, tasks s !! i = Some k -> ~ finished k ->
       exists j, (j = i \/ holder s = Some j) /\ (able s j \/ awaits_transport s j).
Proof.
  intros Hc Hs Hrun.
  assert (H : sound w0 s /\ held s).
  { induction Hrun as [|es s1 es' s2 _ [IH1 IH2] Hstep].
    - split; [by apply start_sound|apply start_held].
    - split; [by eapply step_sound|by eapply step_held]. }
  destruct H as [(_ & _ & Hsound) Hheld]. split; [|intros i k; by apply nothing_stuck].
  intros Hlt. destruct (Hsound Hlt) as [Hslot Ht]. split; [done|]. intros i o Hi.
  exact (Forall_lookup_1 _ _ _ _ Ht Hi).
Qed.
End Safety.

(** ** Witness: a method and a probe at the same time *)
(** A call holds the mutex while the probe runs, and goes on after it; a stub waits. *)
Section Witness.
#[local] Existing Instances toy_crypto toy_crypto_laws toy_thp_proto toy_thp_proto_laws.
#[local] Existing Instances toy_bitcoin_proto toy_ethereum_proto toy_solana_proto toy_tron_proto.
#[local] Instance sample_psbts : RustBitcoin _ := Bitcoin.toy_rust_bitcoin Bitcoin.sample_psbt.

Definition address_call : Cli Echo rstring :=
  get_solana_address 40 (replicate 32 5%Z) [] Standard 0 None.
Definition pubkey_call : Cli Echo (list Z) := get_tron_pubkey 0.
Definition refusal : outcome TrezorError (list Z) :=
  Fail (not_implemented (str "get_tron_pubkey (Trezor Tron has no public-key message)")).

Definition ends {A} (o : outcome TrezorError A) : bool :=
  match o with Ret _ | Fail _ => true | _ => false end.

Lemma ends_inv {A} (o : outcome TrezorError A) : ends o = true -> o <> Pending /\ o <> NoFuel.
Proof. by destruct o. Qed.

(** A call as a task: a method whose tree runs as the call does. *)
Lemma as_task {A} (m : Cli Echo A) :
  client_call 40 (fun _ => []) A m ->
  exists (M : Generic _ A) t, method (fun _ => []) 40 A M t
    /\ forall slot w, run (t slot) w = m (slot, w).
Proof.
  intros Hm. destruct (client_call_method (fun _ => []) 40 m Hm) as (M & t & HM & ->).
  exists M, t. split; [done|]. intros slot w. symmetry.
  exact (method_runs _ 40 M t HM Echo _ slot w).
Qed.

Lemma mutex_serialises_calls_witness :
  exists calls es (s : System (W := Echo)) slot w,
    Forall (guarded_method (fun _ => []) 40) calls
    /\ execution (start calls None (silent_echo 9)) es s
    /\ event_call <$> es = [1; 0] /\ pinned s = slot /\ world s = w
    /\ sequential calls (None, (silent_echo 9)) es (slot, w).
Proof.
  destruct (as_task address_call) as (M & t & HM & Hrun).
  { eapply client_pinned, call_get_solana_address. reflexivity. }
  destruct (as_task pubkey_call) as (M' & t' & HM' & Hrun').
  { eapply client_refused, refused_tron_pubkey. }
  specialize (Hrun None (silent_echo 9)). specialize (Hrun' None (silent_echo 9)).
  assert (Ho : ends (address_call (None, (silent_echo 9))).1 = true) by (vm_compute; reflexivity).
  assert (Ho' : ends (pubkey_call (None, (silent_echo 9))).1 = true) by reflexivity.
  destruct (address_call (None, (silent_echo 9))) as [o [x w]]. destruct (ends_inv _ Ho) as [Hp Hf].
  change (pubkey_call (None, (silent_echo 9)))
    with (refusal, (None (A := Connection), (silent_echo 9))) in Hrun'.
  pose (calls := [Pinned _ M t; Pinned _ M' t'] : list Call).
  assert (Hg : Forall (guarded_method (fun _ => []) 40) calls) by (repeat constructor; done).
  assert (He : execution (start calls None (silent_echo 9))
    ([] ++ [Completed 1 (boxed refusal)] ++ [] ++ [Completed 0 (boxed o)])
    {| world := w; pinned := x; holder := None;
       tasks := [Ended (boxed o); Ended (boxed refusal)] |}).
  { eapply execution_trans; [apply (lock_executes _ _ _ 1 t'); reflexivity|].
    eapply execution_trans; [by eapply (holding_executes _ _ _ _ 1 (t' None) refusal)|].
    eapply execution_trans; [apply (lock_executes _ _ _ 0 t); reflexivity|].
    by apply (holding_executes _ _ _ [Holding (box (t None)); Ended (boxed refusal)] 0
      (t None) o x w). }
  destruct (mutex_serialises_calls (fun _ => []) 40 calls None (silent_echo 9) _ _ Hg He)
    as (slot & w' & Hseq & _ & _ & Hslot & Hw).
  exists calls. do 2 eexists. exists slot, w'. split; [exact Hg|]. split; [exact He|].
  split; [reflexivity|]. done.
Defined.

(** The probe runs while the call holds the mutex. *)
Lemma no_interleaving_panics_witness :
  exists calls es (s : System (W := Echo)) o,
    Forall (client_task (fun _ => []) 40) calls
    /\ execution (start calls None (silent_echo 9)) es s
    /\ tasks s !! 0 = Some (Ended o) /\ heard (world s) < 40
    /\ wf_slot (pinned s) /\ o <> Panic /\ o <> NoFuel.
Proof.
  destruct (as_task address_call) as (M & t & HM & Hrun).
  { eapply client_pinned, call_get_solana_address. reflexivity. }
  pose (probe := (fun W E => thp_probe (W := W) 40) : Foreign _).
  pose proof (runs_foreign (tree_thp_probe 40) Echo _ (silent_echo 9)) as Hrun'.
  set (t' := foreign_tree (tree_thp_probe 40)) in Hrun'.
  destruct (run t' (silent_echo 9)) as [o1 [[] w1]] eqn:Hprobe.
  specialize (Hrun None w1).
  assert (Hw1 : w1 = (thp_probe 40 (silent_echo 9)).2) by by rewrite Hrun'.
  assert (Ho1 : ends o1 = true).
  { replace o1 with (thp_probe 40 (silent_echo 9)).1 by by rewrite Hrun'. vm_compute. reflexivity. }
  assert (Ho : ends (address_call (None, w1)).1 = true) by (rewrite Hw1; vm_compute; reflexivity).
  assert (Hh : heard (address_call (None, w1)).2.2 < 40).
  { rewrite Hw1. apply Nat.ltb_lt. vm_compute. reflexivity. }
  assert (Hnf : ~ faults (silent_echo 9) < faults (address_call (None, w1)).2.2).
  { rewrite Hw1. apply no_faults. vm_compute. reflexivity. }
  destruct (address_call (None, w1)) as [o [x w]].
  destruct (ends_inv _ Ho) as [Hp Hf], (ends_inv _ Ho1) as [Hp1 Hf1].
  pose (calls := [Pinned _ M t; Bare _ probe t'] : list Call).
  assert (Hc : Forall (client_task (fun _ => []) 40) calls).
  { repeat constructor; done. }
  assert (He : execution (start calls None (silent_echo 9)) ([] ++ [] ++ [Completed 0 (boxed o)])
    {| world := w; pinned := x; holder := None;
       tasks := [Ended (boxed o); Ended (boxed o1)] |}).
  { eapply execution_trans; [apply (lock_executes _ _ _ 0 t); reflexivity|].
    eapply execution_trans; [by eapply (bare_executes _ _ _ _ 1 t' o1 tt)|].
    by apply (holding_executes _ _ _ [Holding (box (t None)); Ended (boxed o1)] 0
      (t None) o x w). }
  destruct (no_interleaving_panics (BL := toy_bitcoin_proto_laws) (EL := toy_ethereum_proto_laws)
    (SL := toy_solana_proto_laws) (TL := toy_tron_proto_laws) (fun _ => []) 40 ltac:(lia)
    calls None (silent_echo 9) _ _ Hc I He)
    as [Hsafe _]. destruct Hsafe as [Hslot Hends].
  { exact (Nat.le_lt_trans _ _ _ (Nat.le_sub_l _ _) Hh). }
  exists calls. do 2 eexists. exists (boxed o). split; [exact Hc|]. split; [exact He|].
  split; [reflexivity|].
  split; [exact Hh|]. split; [exact Hslot|].
  destruct (Hends 0 (boxed o) eq_refl) as [Hn Hpanic]. split; [|exact Hn].
  intros E. exact (Hnf (Hpanic E)).
Defined.
End Witness.
