(* ===== verification/Cancellation.v ===== *)
(** * Cancelled calls (client.rs, thp/connection.rs)

    A foreign caller may drop the future of a method while it awaits the device:
    the mutex is released and the connection stays in the slot, in the state it
    had at that await. A run that ends [Pending] is such a run. This file follows
    what the next method called on the same wallet then makes of the reply that was still
    to come. *)

From S2P Require Import Prelude Types.
From S2P Require Import Ethereum Solana Tron Bitcoin.
From S2P Require Import Env Bip32 Crypto Proto ChainProto Framing Channel Session.
From S2P Require Import Noise Connection ConnectionSafe ConnectionAbp ConnectionExchange.
From S2P Require Import Host Pairing OverPackets Client ClientPinned.

Section Cancelled.
Context {CR : Crypto} {CL : CryptoLaws} {PM : ThpProto}.
Context (ps : nat) (Hps : INIT_HEADER < ps).

(** The device's answer to the request in flight on a connection. *)
Definition late_reply (dcid sid : Z) (c : Connection) (d : Session) (reply : Z * list Z) : Frame :=
  {| fr_cid := dcid; fr_ctrl := control.with_seq control.ENCRYPTED_TRANSPORT (recv_seq c);
     fr_payload := (sealed sid d reply).1 |}.
Definition request_ack (dcid : Z) (c : Connection) : Frame :=
  {| fr_cid := dcid; fr_ctrl := control.ack_for (send_seq c); fr_payload := [] |}.

(** The connection of a request that is ACKed and not answered. *)
Definition awaiting (mt : Z) (body : list Z) (s : Session) (c : Connection) : Connection :=
  flip_send (put_session (Some (sealed (active_session_id c) s (mt, body)).2) c).

Lemma read_framed_waits fuel c w :
  inbox w = [] -> 0 < fuel -> read_framed fuel (c, w) = (Pending, (c, w)).
Proof.
  intros Hin Hf. destruct fuel as [|n]; [lia|]. unfold read_framed. cbn [read_loop].
  unfold mbind, st_bind, on_env, env_read. cbn [fst snd read_chunk script_env].
  unfold script_read. by rewrite Hin.
Qed.

Lemma transceive_awaits fuel dcid mt body c s d w :
  can_exchange c s d w -> fits body -> (0 <= dcid < u16_mod)%Z ->
  inbox w = incoming ps [request_ack dcid c] -> length (inbox w) <= fuel ->
  exists w1, transceive fuel mt body (c, w) = (Pending, (awaiting mt body s c, w1)).
Proof.
  intros (Hr & Hwf & Hp & Hs & _) Hb Hdc Hin Hfuel.
  pose proof Hwf as (Hcid & Hss & _ & Hact & _).
  assert (Hga : good_frame (request_ack dcid c)) by by apply ack_frame_good.
  destruct (ack_for_props (send_seq c) Hss) as [Ha1 Ha2].
  assert (Hf : 0 < fuel).
  { pose proof (length_wire ps [request_ack dcid c] Hps (proj2 (Forall_singleton _ _) Hga)).
    rewrite Hin in Hfuel. unfold incoming in Hfuel. rewrite length_fmap in Hfuel.
    cbn [length] in *. lia. }
  unfold transceive. eexists.
  rewrite (st_bind_ret (send_app fuel mt body) _ _ tt (awaiting mt body s c,
    io [] (wire (packet_size c) [host_frame c (control.with_seq control.ENCRYPTED_TRANSPORT
      (send_seq c)) (sealed (active_session_id c) s (mt, body)).1]) w)).
  2: { rewrite (send_app_eq fuel mt body c s w Hs).
       apply (send_data_spec ps Hps fuel control.ENCRYPTED_TRANSPORT _ [] (request_ack dcid c) []
                (put_session _ c) w (Forall_nil_2 _) (Forall_nil_2 _) Hga (conj Ha1 Ha2) Hr);
         [by apply (encrypted_frame_good ps Hps (cid c))|by rewrite Hin, app_nil_r|done]. }
  destruct fuel as [|n]; [lia|]. cbn [transceive_loop]. unfold recv_app, recv_data.
  unfold mbind, st_bind. cbn [conn_get fst]. change (pending_data (awaiting mt body s c))
    with (pending_data c). rewrite Hp. cbn [await_data].
  unfold mbind, st_bind. by rewrite read_framed_waits.
Qed.

(** A data frame already in flight ends the wait for the ACK of a new request and is
    returned as its answer. *)
Lemma transceive_takes_late fuel dcid sid mt body reply c s d w rest :
  can_exchange c s d w -> fits body -> fits reply.2 -> is_byte sid ->
  (0 <= dcid < u16_mod)%Z -> (0 <= reply.1 < u16_mod)%Z -> reply.1 <> MSG_BUTTON_REQUEST ->
  inbox w = incoming ps [late_reply dcid sid c d reply] ++ rest -> length (inbox w) <= fuel ->
  (transceive fuel mt body (c, w)).1 = reply_outcome reply.
Proof.
  intros (Hr & Hwf & Hp & Hs & Hk & Hn) Hb Hrb Hsid Hdc Hrt Hnb Hin Hfuel.
  pose proof Hwf as (Hcid & Hss & Hrs & Hact & _).
  assert (Hgd : good_frame (late_reply dcid sid c d reply))
    by by apply (encrypted_frame_good ps Hps).
  destruct (with_seq_props control.ENCRYPTED_TRANSPORT (recv_seq c) Hrs) as (Hd1 & Hd2 & _);
    [simpl; tauto|].
  assert (Hf : 0 < fuel).
  { pose proof (length_wire ps [late_reply dcid sid c d reply] Hps
      (proj2 (Forall_singleton _ _) Hgd)).
    rewrite Hin in Hfuel. unfold incoming in Hfuel. rewrite length_app, length_fmap in Hfuel.
    cbn [length] in *. lia. }
  set (s1 := (sealed (active_session_id c) s (mt, body)).2).
  set (c1 := put_session (Some s1) c).
  set (frame := (fr_ctrl (late_reply dcid sid c d reply),
                 fr_payload (late_reply dcid sid c d reply))).
  unfold transceive.
  assert (Hsend : exists w1, send_app fuel mt body (c, w)
    = (Ret tt, (set_pending_data (Some frame) (flip_recv (flip_send c1)), w1))).
  { eexists. rewrite (send_app_eq fuel mt body c s w Hs).
    rewrite (send_data_early ps Hps fuel _ _ (late_reply dcid sid c d reply) rest c1 w Hgd Hd1 Hr);
      [|by apply (encrypted_frame_good ps Hps (cid c))|done|done].
    cbn [late_reply fr_ctrl]. rewrite Hd2. change (recv_seq c1) with (recv_seq c).
    by rewrite Z.eqb_refl. }
  destruct Hsend as [w1 Hsend]. rewrite (st_bind_ret _ _ _ _ _ Hsend).
  destruct fuel as [|n]; [lia|]. cbn [transceive_loop].
  set (c2 := set_pending_data None (flip_recv (flip_send c1))).
  assert (Hrecv : recv_data (S n) (set_pending_data (Some frame) (flip_recv (flip_send c1)), w1)
    = (Ret (control.with_seq control.ENCRYPTED_TRANSPORT (recv_seq c), (sealed sid d reply).1),
       (c2, w1))) by done.
  rewrite (st_bind_ret _ _ _ _ _
    (recv_app_opens (S n) sid d reply _ _ c2 s1 w1 w1 Hrecv eq_refl (conj Hk Hn) Hrt)).
  destruct reply as [rt rp]. unfold reply_outcome. cbn [fst snd] in *.
  apply Z.eqb_neq in Hnb. rewrite Hnb. by destruct (rt =? MSG_FAILURE)%Z.
Qed.

Lemma awaiting_exchanges mt body id s d c w w2 :
  can_exchange c s d w -> is_byte id -> write_errors w2 = [] ->
  can_exchange (set_active_session_id id (awaiting mt body s c))
    (sealed (active_session_id c) s (mt, body)).2 d w2.
Proof.
  intros ((Hps' & Hc & _) & Hwf & Hp & Hs & Hk & Hn) Hid Hwe.
  split; [by split|]. split; [|done].
  apply wf_set_active; [|done]. unfold awaiting. auto with conn.
Qed.
End Cancelled.

(** ** Methods that make one request *)
(** What an operation makes of a message: its outcome when the device answers its first
    request with it. *)
Definition outcome_on {A} (p : program A) (reply : Z * list Z) : outcome TrezorError A :=
  (p Answers scripted_host
     {| an_replies := [inr reply]; an_entropy := []; an_codes := []; an_log := [] |}).1.

(** An operation that makes one request on the seeded session and ends with its reply. *)
Definition requests_once {A} (p : program A) (mt : Z) (body : list Z) : Prop :=
  forall S (H : Host S) s,
    p S H s = (r ← h_transceive_on SEEDED_SESSION_ID mt body; lift (outcome_on p r)) s.

(** Run the request, then follow the reading of the reply on both sides. *)
Tactic Notation "one_request" reference(op) :=
  intros S H s; unfold outcome_on, op; mred;
  cbn [h_transceive_on scripted_host answer an_replies];
  destruct (h_transceive_on _ _ _ s) as [[[rt rp]|e| | |] s']; try reflexivity;
  repeat (case_match; try reflexivity).

Section Once.
Context {EP : EthereumProto} {SP : SolanaProto} {TP : TronProto} {BP : BitcoinProto}.

Lemma solana_get_address_once path :
  requests_once (fun S H => Solana.get_address (S := S) SEEDED_SESSION_ID path)
    SOL_GET_ADDRESS
    (encode_to_vec {| sga_address_n := path; sga_show_display := Some false |}).
Proof. one_request Solana.get_address. Qed.

Lemma solana_sign_tx_once path tx :
  requests_once (fun S H => Solana.sign_tx (S := S) SEEDED_SESSION_ID path tx)
    SOL_SIGN_TX (encode_to_vec {| sst_address_n := path; sst_serialized_tx := tx |}).
Proof. one_request Solana.sign_tx. Qed.

Lemma solana_sign_message_once path m :
  requests_once (fun S H => Solana.sign_message (S := S) SEEDED_SESSION_ID path m)
    SOL_SIGN_MESSAGE (encode_to_vec {| ssm_address_n := path; ssm_message := m |}).
Proof. one_request Solana.sign_message. Qed.

Lemma tron_get_address_once path :
  requests_once (fun S H => Tron.get_address (S := S) SEEDED_SESSION_ID path)
    TRON_GET_ADDRESS
    (encode_to_vec {| tga_address_n := path; tga_show_display := Some false |}).
Proof. one_request Tron.get_address. Qed.

Lemma ethereum_get_address_once path :
  requests_once (fun S H => Ethereum.get_address (S := S) SEEDED_SESSION_ID path)
    ETH_GET_ADDRESS
    (encode_to_vec {| ega_address_n := path; ega_show_display := Some false |}).
Proof. one_request Ethereum.get_address. Qed.

Lemma ethereum_get_public_key_once path :
  requests_once (fun S H => Ethereum.get_public_key (S := S) SEEDED_SESSION_ID path)
    ETH_GET_PUBLIC_KEY
    (encode_to_vec {| egp_address_n := path; egp_show_display := Some false |}).
Proof. one_request Ethereum.get_public_key. Qed.

Lemma ethereum_sign_message_once path m :
  requests_once (fun S H => Ethereum.sign_message (S := S) SEEDED_SESSION_ID path m)
    ETH_SIGN_MESSAGE (encode_to_vec {| esm_address_n := path; esm_message := m |}).
Proof. one_request Ethereum.sign_message. Qed.

Lemma ethereum_sign_message_full_once path m :
  requests_once (fun S H => Ethereum.sign_message_full (S := S) SEEDED_SESSION_ID path m)
    ETH_SIGN_MESSAGE (encode_to_vec {| esm_address_n := path; esm_message := m |}).
Proof. one_request Ethereum.sign_message_full. Qed.

Lemma ethereum_sign_eip1559_once path envelope tx :
  decode_eip1559_envelope envelope = Ret tx ->
  requests_once (fun S H => Ethereum.sign_eip1559 (S := S) SEEDED_SESSION_ID path envelope)
    ETH_SIGN_TX_EIP1559 (encode_to_vec (eip1559_message path tx)).
Proof.
  intros Htx S H s. unfold outcome_on, Ethereum.sign_eip1559. mred. rewrite Htx.
  fold (eip1559_message path tx). cbn [h_transceive_on scripted_host answer an_replies].
  destruct (h_transceive_on _ _ _ s) as [[[rt rp]|e| | |] s']; try reflexivity;
  repeat (case_match; try reflexivity).
Qed.

Lemma bitcoin_get_account_xpub_once path coin :
  requests_once (fun S H => Bitcoin.get_account_xpub (S := S) SEEDED_SESSION_ID path coin)
    BTC_GET_PUBLIC_KEY
    (encode_to_vec {| gpk_address_n := path; gpk_show_display := Some false;
                      gpk_coin_name := Some (coin_name coin);
                      gpk_script_type := Some (script_type_for_path path);
                      gpk_ignore_xpub_magic := Some true |}).
Proof. one_request Bitcoin.get_account_xpub. Qed.
End Once.

Section Client.
Context {CR : Crypto} {CL : CryptoLaws} {PM : ThpProto}.
Context {BP : BitcoinProto} {EP : EthereumProto} {SP : SolanaProto} {TP : TronProto}.
Context {R : Type} {RB : Bitcoin.RustBitcoin R} (debug : Z -> rstring).
Context (ps : nat) (Hps : INIT_HEADER < ps) (fuel : nat).

(** A pinned call whose wallet is the one in the slot runs its operation on it. *)
Lemma with_conn_reuses {A} hs cred pass (op : Conn Script A) c w :
  seeded_key c = Some (wallet_key pass) ->
  with_conn fuel hs cred pass op (Some c, w) = clearing (on_pinned op) (Some c, w).
Proof.
  intros Hk. unfold with_conn, mbind, st_bind. unfold clearing at 1, ensure_conn.
  by rewrite bool_decide_true by exact Hk.
Qed.

(** The method of the client that performs [p] for the wallet [pass]. *)
Definition method_of {A} (pass : PassphraseSpec) (p : program A) (m : Cli Script A) : Prop :=
  pinned_call fuel debug A pass (p (Connection * Script)%type (driver fuel)) m.

Lemma method_reuses {A} pass (p : program A) mt body m c w :
  method_of pass p m -> requests_once p mt body -> seeded_key c = Some (wallet_key pass) ->
  m (Some c, w)
  = clearing (on_pinned (r ← transceive_on fuel SEEDED_SESSION_ID mt body;
                         lift (outcome_on p r))) (Some c, w).
Proof.
  intros Hm Hp Hk. apply pinned_call_shape in Hm as (hs & cred & Hm).
  rewrite Hm, with_conn_reuses by exact Hk. unfold clearing, on_pinned. by rewrite Hp.
Qed.

(** C19: A method cancelled while its request awaits the user leaves the connection in
    the slot with the reply still to come. The next method on the same wallet that makes
    one request takes that late reply for the ACK of its own request and for its answer:
    its outcome is the one it has when the device answers its own request with that
    message. So a method that expects this type of message returns what was meant for the
    cancelled one (the address of another account), and any other fails with the error of
    an unexpected type; nothing ties an answer to the request it answers. *)
Theorem cancelled_call_answers_next {A B} pass (p1 : program A) (p2 : program B)
    m1 m2 mt1 body1 mt2 body2 dcid sid reply c s d w :
  method_of pass p1 m1 -> requests_once p1 mt1 body1 ->
  method_of pass p2 m2 -> requests_once p2 mt2 body2 ->
  seeded_key c = Some (wallet_key pass) ->
  can_exchange (set_active_session_id SEEDED_SESSION_ID c) s d w -> is_byte sid ->
  fits body1 -> fits body2 -> fits reply.2 -> (0 <= dcid < u16_mod)%Z ->
  (0 <= reply.1 < u16_mod)%Z -> reply.1 <> MSG_BUTTON_REQUEST -> reply.1 <> MSG_FAILURE ->
  inbox w = incoming ps [request_ack dcid c] -> length (inbox w) <= fuel ->
  exists c1 w1, m1 (Some c, w) = (Pending, (Some c1, w1))
    /\ forall w2 rest, write_errors w2 = [] ->
       inbox w2 = incoming ps [late_reply dcid sid c d reply] ++ rest ->
       length (inbox w2) <= fuel ->
       (m2 (Some c1, w2)).1 = outcome_on p2 reply.
Proof.
  intros Hm1 Hp1 Hm2 Hp2 Hk Hce Hsid Hb Hb2 Hrb Hdc Hrt Hnb Hnf Hin Hfuel.
  destruct (transceive_awaits ps Hps fuel dcid mt1 body1 _ s d w Hce Hb Hdc Hin Hfuel)
    as [w1 Hwait].
  set (c1 := awaiting mt1 body1 s (set_active_session_id SEEDED_SESSION_ID c)) in *.
  exists c1, w1. split.
  { rewrite (method_reuses pass p1 mt1 body1) by done. unfold clearing, on_pinned, transceive_on.
    unfold mbind at 1, st_bind at 1. rewrite (st_bind_ret (conn_modify _) _ _ tt _ eq_refl).
    cbn [fst snd]. by rewrite Hwait. }
  intros w2 rest Hwe Hin2 Hl2. rewrite (method_reuses pass p2 mt2 body2) by done.
  unfold clearing, on_pinned, transceive_on.
  unfold mbind at 1, st_bind at 1. rewrite (st_bind_ret (conn_modify _) _ _ tt _ eq_refl).
  cbn [fst snd].
  assert (Hid : is_byte SEEDED_SESSION_ID) by (unfold is_byte, SEEDED_SESSION_ID; lia).
  pose proof (transceive_takes_late ps Hps fuel dcid sid mt2 body2 reply _ _ d w2 rest
    (awaiting_exchanges mt1 body1 SEEDED_SESSION_ID s d _ w w2 Hce Hid Hwe)
    Hb2 Hrb Hsid Hdc Hrt Hnb Hin2 Hl2) as Hlate.
  destruct (transceive fuel mt2 body2 _) as [o [c2 w3]]. cbn [fst] in Hlate. subst o.
  unfold reply_outcome. apply Z.eqb_neq in Hnf. rewrite Hnf. unfold lift.
  by destruct (outcome_on p2 reply).
Qed.
End Client.

(** ** Witness *)
(** The request for the address of account 0 is cancelled on the device's confirmation
    screen. Its address is then returned for account 1, and refused as a signature. *)
Section Witness.
#[local] Existing Instance toy_crypto.
#[local] Existing Instance toy_thp_proto.
#[local] Existing Instance toy_solana_proto.

Definition solana_address (account : Z) : Cli Script rstring :=
  get_solana_address 40 [] [] Standard account None.
Definition solana_address_program (account : Z) : program rstring := fun S H =>
  Solana.get_address (S := S) SEEDED_SESSION_ID (Solana.account_path account).
Definition solana_message (account : Z) : Cli Script (list Z) :=
  sign_solana_message 40 [] [] Standard [1; 2; 3]%Z account None.
Definition solana_message_program (account : Z) : program (list Z) := fun S H =>
  Solana.sign_message (S := S) SEEDED_SESSION_ID (Solana.account_path account) [1; 2; 3]%Z.

Definition solana_address_request (account : Z) : list Z :=
  encode_to_vec {| sga_address_n := Solana.account_path account; sga_show_display := Some false |}.
Definition solana_message_request (account : Z) : list Z :=
  encode_to_vec {| ssm_address_n := Solana.account_path account; ssm_message := [1; 2; 3]%Z |}.

Definition before_reply : Script := script_of (incoming 64 [request_ack 3 standard_connection]).
Definition after_reply : Script :=
  script_of (incoming 64 [late_reply 3 0 standard_connection device_session address_reply] ++ []).

Lemma standard_can_exchange :
  can_exchange (set_active_session_id SEEDED_SESSION_ID standard_connection)
    host_session device_session before_reply.
Proof.
  split; [exact (on_channel_ready _)|]. split; [|done].
  apply wf_set_active; [|unfold is_byte, SEEDED_SESSION_ID; lia].
  apply wf_set_seeded, wf_put_session.
  apply wf_set_cid; [apply connection_new_wf|unfold u16_mod; lia].
Qed.
End Witness.

Lemma cancelled_call_answers_next_witness :
  (exists c1 w1,
     solana_address 0 (Some standard_connection, before_reply) = (Pending, (Some c1, w1))
     /\ (solana_address 1 (Some c1, after_reply)).1 = Ret (str "7S")) /\
  (exists c1 w1,
     solana_address 0 (Some standard_connection, before_reply) = (Pending, (Some c1, w1))
     /\ (solana_message 0 (Some c1, after_reply)).1
        = Fail (wrong_type "SolanaMessageSignature" SOL_MESSAGE_SIGNATURE SOL_ADDRESS)).
Proof.
  assert (late : forall B (p2 : program B) m2 mt2 body2,
    method_of (CR := toy_crypto) (PM := toy_thp_proto) (BP := toy_bitcoin_proto)
      (EP := toy_ethereum_proto) (SP := toy_solana_proto) (TP := toy_tron_proto)
      (RB := Bitcoin.toy_rust_bitcoin Bitcoin.sample_psbt) (fun _ => []) 40 Standard p2 m2 ->
    requests_once p2 mt2 body2 -> fits body2 ->
    exists c1 w1,
      solana_address 0 (Some standard_connection, before_reply) = (Pending, (Some c1, w1))
      /\ (m2 (Some c1, after_reply)).1 = outcome_on p2 address_reply).
  { intros B p2 m2 mt2 body2 Hm2 Hp2 Hb2.
    destruct (cancelled_call_answers_next (CR := toy_crypto) (CL := toy_crypto_laws)
      (PM := toy_thp_proto) (BP := toy_bitcoin_proto) (EP := toy_ethereum_proto)
      (SP := toy_solana_proto) (TP := toy_tron_proto)
      (RB := Bitcoin.toy_rust_bitcoin Bitcoin.sample_psbt) (fun _ => [])
      64 ltac:(unfold INIT_HEADER; lia) 40 Standard (solana_address_program 0) p2
      (solana_address 0) m2 SOL_GET_ADDRESS
      (solana_address_request 0)
      mt2 body2 3 0 address_reply standard_connection host_session device_session before_reply)
      as (c1 & w1 & Hcall & Hnext).
    - by apply (call_get_solana_address 40 (fun _ => []) [] []).
    - exact (solana_get_address_once _).
    - exact Hm2.
    - exact Hp2.
    - reflexivity.
    - exact standard_can_exchange.
    - unfold is_byte. lia.
    - apply fitsb_true. vm_compute. reflexivity.
    - exact Hb2.
    - apply fitsb_true. vm_compute. reflexivity.
    - unfold u16_mod. lia.
    - vm_compute. split; congruence.
    - discriminate.
    - discriminate.
    - reflexivity.
    - apply Nat.leb_le. vm_compute. reflexivity.
    - exists c1, w1. split; [exact Hcall|].
      apply (Hnext after_reply [] eq_refl eq_refl). apply Nat.leb_le. vm_compute. reflexivity. }
  split.
  - destruct (late _ (solana_address_program 1) (solana_address 1) SOL_GET_ADDRESS
      (solana_address_request 1))
      as (c1 & w1 & Hcall & Hnext).
    + by apply (call_get_solana_address 40 (fun _ => []) [] []).
    + exact (solana_get_address_once _).
    + apply fitsb_true. vm_compute. reflexivity.
    + exists c1, w1. split; [exact Hcall|]. rewrite Hnext. vm_compute. reflexivity.
  - destruct (late _ (solana_message_program 0) (solana_message 0) SOL_SIGN_MESSAGE
      (solana_message_request 0))
      as (c1 & w1 & Hcall & Hnext).
    + by apply (call_sign_solana_message 40 (fun _ => []) [] []).
    + exact (solana_sign_message_once _ _).
    + apply fitsb_true. vm_compute. reflexivity.
    + exists c1, w1. split; [exact Hcall|]. rewrite Hnext. vm_compute. reflexivity.
Defined.
