(* ===== verification/EndToEnd.v ===== *)
(** * Whole sessions over packets (client.rs)

    The methods of the client against a device that follows the specification, from
    the first packet of channel allocation to the last reply: the composition of
    framing, the alternating bit protocol, allocation, the handshake, the
    encrypted session, pairing and the chain operations. *)

From S2P Require Import Prelude Types.
From S2P Require Import Ethereum Solana Tron Bitcoin.
From S2P Require Import Env Bip32 Crypto Proto ChainProto Framing Channel Session.
From S2P Require Import Noise Connection ConnectionSafe ConnectionAbp ConnectionExchange BringUp.
From S2P Require Import Host HostSim Text Cpace Pairing OverPackets Client.

(** The device's end of the encrypted session. *)
Definition device_end (keys : SessionKeys) : Session :=
  {| key_send := key_response keys; key_recv := key_request keys;
     nonce_send := nonce_response keys; nonce_recv := nonce_request keys |}.

Section Opened.
Context {CR : Crypto} {PM : ThpProto} (ps : nat) (fuel : nat).

(** The connection once the channel is up and its session installed. *)
Definition opened (a : ChannelAllocation) (keys : SessionKeys) (c : Connection) : Connection :=
  set_session (from_handshake keys) (allocated a c).

Lemma opened_connected a keys c w sid nonce init req turns replies erest log :
  wf_connection c -> ready c w -> (0 <= alloc_cid a < u16_mod)%Z ->
  Forall2 turn_ok turns replies ->
  let rest := incoming ps (device_frames (alloc_cid a) sid 0 0 (device_end keys)
                (concat (turn_messages <$> turns))) in
  length rest <= fuel ->
  connected ps (alloc_cid a) sid fuel
    {| an_replies := replies; an_entropy := erest; an_codes := codes w; an_log := log |}
    (opened a keys c) (after_bring_up rest erest nonce (alloc_cid a) init req c w).
Proof.
  intros Hwf Hr Hch Ht rest Hl. exists (from_handshake keys), (device_end keys), turns.
  split.
  - split; [by destruct Hr|]. split; [by apply wf_put_session, allocated_wf|]. done.
  - by repeat split.
Qed.
End Opened.

(** ** Establishing a paired session *)
Section Establish.
Context {CR : Crypto} {CL : CryptoLaws} {PM : ThpProto} {PL : ThpProtoLaws}.
Context {BP : BitcoinProto} {EP : EthereumProto} {SP : SolanaProto} {TP : TronProto}.
Context {B : Type} {RB : RustBitcoin B} (debug : Z -> rstring).
Context (ps : nat) (Hps : INIT_HEADER < ps) (sid : Z) (Hsid : is_byte sid) (fuel : nat)
  (Hfuel : 0 < fuel) (Hack : fits (encode_to_vec mkButtonAck)).

(** What [establish_paired_session] does once the session is installed. *)
Definition establish_tail (paired : bool) (stored : option (list Z)) (hash host_pub : list Z)
    (host_name app_name : rstring) : program PairedSession := fun S H =>
  credential ← (if paired then mret (default [] stored)
                else run_codeentry_pairing (S := S) hash host_pub host_name app_name);
  end_request;;
  features ← get_features;
  mret {| ps_device_id := default [] (feat_device_id features);
          ps_model := default [] (feat_model features);
          ps_firmware_version := version_string features;
          ps_initialized := default false (feat_initialized features);
          ps_credential := credential |}.

Lemma establish_tail_sim {S} {HS : Host S} {R fa} {Hsim : HostSim HS R fa} paired stored hash
    host_pub host_name app_name :
  sim R fa (establish_tail paired stored hash host_pub host_name app_name _ scripted_host)
    (establish_tail paired stored hash host_pub host_name app_name _ HS).
Proof.
  unfold establish_tail. apply sim_bind.
  { apply sim_if; [apply sim_ret|]. apply (operation_sim debug _ _ (op_pair debug _ _ _ _)). }
  intros credential. apply sim_bind; [apply (operation_sim debug _ _ (op_end_request debug))|].
  intros _. apply sim_bind; [apply (operation_sim debug _ _ (op_get_features debug))|].
  intros features. apply sim_ret.
Qed.

(** The answers of a device that follows the protocol. *)
Record PairingAnswers : Type := {
  pa_approved : list Z;
  pa_cpace_key : list Z;
  pa_secret : list Z;
  pa_static : list Z;
  pa_credential : list Z;
}.

Definition pairing_answers (pa : PairingAnswers) : list (TrezorError + Z * list Z) :=
  [inr (T_PAIRING_REQUEST_APPROVED, pa_approved pa);
   inr (T_CODE_ENTRY_COMMITMENT, encode_to_vec {| commitment := sha256 (pa_secret pa) |});
   inr (T_CODE_ENTRY_CPACE_TREZOR, encode_to_vec {| cpace_trezor_public_key := pa_cpace_key pa |});
   inr (T_CODE_ENTRY_SECRET, encode_to_vec {| secret := pa_secret pa |});
   inr (T_CREDENTIAL_RESPONSE, encode_to_vec {| trezor_static_public_key := pa_static pa;
          issued_credential := pa_credential pa |})].

Definition closing_answers (ended : list Z) (features : Features)
    : list (TrezorError + Z * list Z) :=
  [inr (T_END_RESPONSE, ended); inr (MGMT_FEATURES, encode_to_vec features)].

Definition closing_requests : list (option Z * Z * list Z) :=
  [(None, T_END_REQUEST, []); (Some 0%Z, MGMT_GET_FEATURES, encode_to_vec mkGetFeatures)].

Definition paired_session (features : Features) (credential : list Z) : PairedSession :=
  {| ps_device_id := default [] (feat_device_id features);
     ps_model := default [] (feat_model features);
     ps_firmware_version := version_string features;
     ps_initialized := default false (feat_initialized features);
     ps_credential := credential |}.

Lemma closing_run ended features credential rest e cds log :
  (end_request;; f ← get_features; mret (paired_session f credential))
    {| an_replies := closing_answers ended features ++ rest; an_entropy := e; an_codes := cds;
       an_log := log |}
  = (Ret (paired_session features credential),
     {| an_replies := rest; an_entropy := e; an_codes := cds;
        an_log := log ++ closing_requests |}).
Proof.
  unfold end_request, get_features, expect_type. mred.
  cbn [h_transceive h_transceive_on scripted_host answer an_replies an_entropy an_codes an_log
    closing_answers app fst snd]. rewrite !Z.eqb_refl, decode_encode. cbn [map_err].
  by rewrite <- !app_assoc.
Qed.

Lemma establish_tail_paired stored hash host_pub host_name app_name ended features e cds log :
  establish_tail true (Some stored) hash host_pub host_name app_name _ scripted_host
    {| an_replies := closing_answers ended features; an_entropy := e; an_codes := cds;
       an_log := log |}
  = (Ret (paired_session features stored),
     {| an_replies := []; an_entropy := e; an_codes := cds; an_log := log ++ closing_requests |}).
Proof.
  pose proof (closing_run ended features stored [] e cds log) as H. rewrite app_nil_r in H.
  exact H.
Qed.

Lemma establish_tail_pairs hash host_pub host_name app_name pa nonce priv text n code ended
    features e log :
  length (pa_cpace_key pa) = 32 -> length nonce = 16 -> length priv = 32 ->
  parse_u32 (trim text) = Some n -> format_code n = Ret code ->
  establish_tail false None hash host_pub host_name app_name _ scripted_host
    {| an_replies := pairing_answers pa ++ closing_answers ended features;
       an_entropy := nonce ++ priv ++ e; an_codes := [text]; an_log := log |}
  = (Ret (paired_session features (pa_credential pa)),
     {| an_replies := []; an_entropy := e; an_codes := [];
        an_log := log ++ pairing_requests host_name app_name nonce code hash (pa_cpace_key pa)
                    priv host_pub ++ closing_requests |}).
Proof.
  intros Hk Hnl Hpl Hn Hc.
  pose proof (pairing_success_run hash host_pub host_name app_name (pa_approved pa)
    (pa_cpace_key pa) nonce priv e text n code (pa_secret pa) (pa_credential pa) (pa_static pa)
    (closing_answers ended features) log Hk Hnl Hpl Hn Hc) as Hp.
  unfold establish_tail.
  rewrite (st_bind_ret (run_codeentry_pairing _ _ _ _) _ _ _ _ Hp).
  pose proof (closing_run ended features (pa_credential pa) [] e []
    (log ++ pairing_requests host_name app_name nonce code hash (pa_cpace_key pa) priv host_pub))
    as H.
  rewrite app_nil_r in H. rewrite <- app_assoc in H. exact H.
Qed.

Definition already_paired (stored : option (list Z)) (keys : SessionKeys) : bool :=
  bool_decide (is_Some stored) && negb (reports_unpaired keys).

(** The outbox of a run that brought the channel up and then made requests. *)
Definition wrote (c : Connection) (nonce init req : list Z) (a : ChannelAllocation)
    (keys : SessionKeys) (requests : list (option Z * Z * list Z)) (w w' : Script) : Prop :=
  exists asks, asks.*1 = requests
    /\ outbox w' = outbox w ++ wire (packet_size c)
         (allocation_request nonce :: host_handshake_frames (alloc_cid a) init req
          ++ transcript (opened a keys c) asks).

(** From the first packet to the outcome of the requests. *)
Lemma session_runs {A} (q : SessionKeys -> program A) props channel dcid hs cred he nonce resp
    req final keys c w rest erest turns a0 o a' :
  (forall S (HS : Host S) R fa, HostSim HS R fa ->
     sim R fa (q keys _ scripted_host) (q keys _ HS)) ->
  length nonce = ALLOCATION_NONCE_LEN -> bytes_ok nonce -> length he = 32 ->
  (0 <= channel < u16_mod)%Z -> (0 <= dcid < u16_mod)%Z ->
  let raw := encode_to_vec (props : ThpDeviceProperties) in
  (Z.of_nat (length raw + 14) < u16_mod)%Z ->
  (Z.of_nat (length (encode_to_vec {| host_pairing_credential_field := cred |}) + 68)
   < u16_mod)%Z ->
  handshaken raw hs cred he resp req final keys ->
  wf_connection c -> ready c w -> entropy w = nonce ++ he ++ erest ->
  Forall2 turn_ok turns (an_replies a0) -> an_entropy a0 = erest -> an_codes a0 = codes w ->
  an_log a0 = [] ->
  rest = incoming ps (device_frames channel sid 0 0 (device_end keys)
           (concat (turn_messages <$> turns))) ->
  inbox w = incoming ps (allocation_frame dcid nonce channel raw
              :: handshake_frames channel resp final) ++ rest ->
  length (inbox w) <= fuel ->
  q keys _ scripted_host a0 = (o, a') -> Forall ask_fits (an_log a') ->
  let a := {| alloc_cid := channel; device_properties_raw := raw;
              device_properties := props |} in
  let run := (allocation ← allocate fuel;
              keys ← handshake fuel (device_properties_raw allocation) hs cred;
              install_session keys;; q keys _ (driver fuel)) (c, w) in
  run.1 = o
  /\ (o <> Pending ->
      connected ps channel sid fuel a' run.2.1 run.2.2
      /\ wrote c nonce (init_request_payload (with_ephemeral raw 0 hs cred he)) req a keys
           (an_log a') w run.2.2
      /\ seeded_with run.2.1 = seeded_with c).
Proof.
  intros Hq Hn Hnok Hhe Hch Hdc raw Hraw Hcred Hhs Hwf Hr He Ht Hent Hcd Hlog Hrest Hin Hl Hrun
    Hfit a run.
  unfold run. rewrite (bring_up_runs ps Hps props channel dcid hs cred he nonce resp req final keys
    (fun _ keys => install_session keys;; q keys _ (driver fuel)) fuel c w rest erest); try done.
  unfold install_session. rewrite (st_bind_ret (conn_modify _) _ _ tt _ eq_refl).
  cbn [fst snd]. fold (opened a keys c).
  set (w1 := after_bring_up _ _ _ _ _ _ _ _).
  assert (Hcon : connected ps channel sid fuel a0 (opened a keys c) w1).
  { rewrite Hin, length_app in Hl.
    pose proof (opened_connected ps fuel a keys c w sid nonce
      (init_request_payload (with_ephemeral raw 0 hs cred he)) req turns (an_replies a0) erest []
      Hwf Hr Hch Ht) as H.
    cbv zeta in H. cbn [alloc_cid a] in H. rewrite <- Hrest in H.
    specialize (H ltac:(lia)). destruct a0 as [ar ae ac al]. cbn in *. by subst. }
  destruct (simulated_run ps channel sid fuel (q keys _ scripted_host) (q keys _ (driver fuel))
    a0 _ w1 o a' (fun log0 out0 c0 => Hq _ _ _ _ (driver_sim ps Hps channel sid Hch Hsid fuel
      Hfuel Hack log0 out0 c0)) Hcon Hrun Hfit) as [Ho Hs].
  split; [exact Ho|]. intros Hnp. destruct (Hs Hnp) as (Hcon' & asks & Hlog' & Hout & Hc').
  split; [exact Hcon'|]. split.
  - exists asks. rewrite Hlog in Hlog'. split; [done|]. refine (eq_trans Hout _). unfold w1, after_bring_up.
    cbn [fst snd outbox]. change (packet_size (opened a keys c)) with (packet_size c).
    by rewrite <- app_assoc, <- wire_app.
  - refine (eq_trans (f_equal seeded_with Hc') _). apply (seeded_after asks (opened a keys c)).
Qed.

Lemma on_new_connection_ret {W A} (m : Conn W A) (w : W) (x : A) c' w' :
  m (connection_new BLE_PACKET_SIZE, w) = (Ret x, (c', w')) ->
  (on_new_connection m ≫= (fun r => mret r.1)) w = (Ret x, w').
Proof. intros H. unfold on_new_connection, mbind, st_bind. by rewrite H. Qed.

(** What the device answers, what the host draws, is told and asks, with and without
    a stored credential. *)
Definition session_answers (stored : option (list Z)) pa ended features :=
  match stored with Some _ => [] | None => pairing_answers pa end
    ++ closing_answers ended features.
Definition session_entropy (stored : option (list Z)) (cnonce priv e : list Z) : list Z :=
  match stored with Some _ => e | None => cnonce ++ priv ++ e end.
Definition session_codes (stored : option (list Z)) (text : rstring) : list rstring :=
  match stored with Some _ => [] | None => [text] end.
Definition session_requests (stored : option (list Z)) host_name app_name cnonce code keys pa priv :=
  match stored with
  | Some _ => []
  | None => pairing_requests host_name app_name cnonce code (handshake_hash keys)
              (pa_cpace_key pa) priv (host_static_pubkey keys)
  end ++ closing_requests.

Lemma new_ready w : write_errors w = [] -> ready (connection_new BLE_PACKET_SIZE) w.
Proof.
  intros Hwe. split; [by apply Nat.ltb_lt|]. split; [vm_compute; split; congruence|done].
Qed.

Lemma establish_tail_run stored keys host_name app_name pa cnonce priv text n code ended features
    e :
  trezor_state keys = [0x02%Z] ->
  length (pa_cpace_key pa) = 32 -> length cnonce = 16 -> length priv = 32 ->
  parse_u32 (trim text) = Some n -> format_code n = Ret code ->
  establish_tail (already_paired stored keys) stored (handshake_hash keys)
    (host_static_pubkey keys) host_name app_name _ scripted_host
    {| an_replies := session_answers stored pa ended features;
       an_entropy := session_entropy stored cnonce priv e;
       an_codes := session_codes stored text; an_log := [] |}
  = (Ret (paired_session features (default (pa_credential pa) stored)),
     {| an_replies := []; an_entropy := e; an_codes := [];
        an_log := session_requests stored host_name app_name cnonce code keys pa priv |}).
Proof.
  intros Hts Hk Hnl Hpl Hn Hc. unfold already_paired, reports_unpaired. rewrite Hts.
  destruct stored as [st|].
  - apply (establish_tail_paired st _ _ _ _ ended features e [] []).
  - exact (establish_tail_pairs _ _ _ _ pa cnonce priv text n code ended features e [] Hk Hnl Hpl
      Hn Hc).
Qed.

End Establish.

Section Established.
Context {CR : Crypto} {CL : CryptoLaws} {PM : ThpProto} {PL : ThpProtoLaws}.
Context {BP : BitcoinProto} {EP : EthereumProto} {SP : SolanaProto} {TP : TronProto}.
Context {B : Type} {RB : RustBitcoin B} (debug : Z -> rstring).
Context (ps : nat) (Hps : INIT_HEADER < ps) (sid : Z) (Hsid : is_byte sid)
  (Hack : fits (encode_to_vec mkButtonAck)).

(** C2: [establish_paired_session] against a device that follows the specification,
    over the packets of the transport: with no stored credential, the user
    typing the code the device shows, the call completes and returns the
    device's identity with the credential it issued; with a stored credential
    that the device recognises, pairing is skipped and that credential is
    returned. Whatever confirmations the device asks for in between, the packets
    written are exactly the allocation request, the two handshake messages and
    the requests of the protocol, and the keys agree with the device's. *)
Theorem establish_paired_session_completes props channel dcid hs stored he ts te nonce
    host_name app_name :
  length hs = 32 -> length nonce = ALLOCATION_NONCE_LEN -> bytes_ok nonce -> length he = 32 ->
  (0 <= channel < u16_mod)%Z -> (0 <= dcid < u16_mod)%Z ->
  let raw := encode_to_vec (props : ThpDeviceProperties) in
  let host := with_ephemeral raw 0 hs stored he in
  (Z.of_nat (length raw + 14) < u16_mod)%Z ->
  (Z.of_nat (length (encode_to_vec {| host_pairing_credential_field := stored |}) + 68)
   < u16_mod)%Z ->
  exists resp trezor req result keys,
    handle_init_request te (init_request_payload host) (responder_new raw ts)
    = (Ret resp, trezor)
    /\ handle_completion_request req trezor = (Ret result, trezor)
    /\ key_request keys = rr_key_request result /\ key_response keys = rr_key_response result
    /\ host_static_pubkey keys = public_key hs
    /\ forall fuel pa ended features cnonce priv text n code turns w e,
      length (pa_cpace_key pa) = 32 -> length cnonce = 16 -> length priv = 32 ->
      parse_u32 (trim text) = Some n -> format_code n = Ret code ->
      Forall2 turn_ok turns (session_answers stored pa ended features) ->
      let requests := session_requests stored host_name app_name cnonce code keys pa priv in
      Forall ask_fits requests ->
      write_errors w = [] ->
      entropy w = nonce ++ he ++ session_entropy stored cnonce priv e ->
      codes w = session_codes stored text ->
      inbox w = incoming ps (allocation_frame dcid nonce channel raw
                  :: handshake_frames channel resp (rr_response result))
                ++ incoming ps (device_frames channel sid 0 0 (device_end keys)
                     (concat (turn_messages <$> turns))) ->
      0 < fuel -> length (inbox w) <= fuel ->
      let run := establish_paired_session fuel hs host_name app_name stored w in
      run.1 = Ret (paired_session features (default (pa_credential pa) stored))
      /\ wrote (connection_new BLE_PACKET_SIZE) nonce (init_request_payload host) req
           {| alloc_cid := channel; device_properties_raw := raw; device_properties := props |}
           keys requests w run.2.
Proof.
  intros Hhl Hn Hnok Hhe Hch Hdc raw host Hraw Hcred.
  destruct (device_handshake raw hs stored he ts te) as (resp & trezor & req & result & keys
    & Hinit & Hcomp & Hkq & Hkr & Hpub & _ & Hstate & _ & _ & Hhs).
  exists resp, trezor, req, result, keys. do 5 (split; [done|]).
  intros fuel pa ended features cnonce priv text n code turns w e Hk Hcn Hpl Hnum Hcode Ht requests
    Hfit Hwe He Hcd Hin Hfuel Hl.
  pose proof (establish_tail_run stored keys host_name app_name pa cnonce priv text n code ended
    features e Hstate Hk Hcn Hpl Hnum Hcode) as Htail.
  destruct (session_runs ps Hps sid Hsid fuel Hfuel Hack
    (fun keys => establish_tail (already_paired stored keys) stored (handshake_hash keys)
       (host_static_pubkey keys) host_name app_name) props channel dcid hs stored he nonce resp req
    (rr_response result) keys (connection_new BLE_PACKET_SIZE) w _ _ turns
    {| an_replies := session_answers stored pa ended features;
       an_entropy := session_entropy stored cnonce priv e;
       an_codes := session_codes stored text; an_log := [] |} _ _
    (fun S HS R fa Hs => establish_tail_sim debug _ _ _ _ _ _) Hn Hnok Hhe Hch Hdc Hraw Hcred
    Hhs (connection_new_wf _) (new_ready w Hwe) He Ht eq_refl (eq_sym Hcd) eq_refl eq_refl Hin Hl Htail Hfit) as [Ho Hs].
  destruct (Hs ltac:(discriminate)) as (_ & Hw & _).
  unfold establish_paired_session, to_array32. rewrite (proj2 (Nat.eqb_eq _ _) Hhl).
  rewrite (st_bind_ret (lift (Ret hs)) _ _ hs _ eq_refl).
  clear Hs. match type of Ho with ?r.1 = _ => destruct r as [o [c' w']] eqn:E end.
  cbn [fst snd an_log] in Ho, Hw. subst o.
  by rewrite (on_new_connection_ret (establish_on fuel hs host_name app_name stored) w _ c' w' E).
Qed.
End Established.

(** ** A method of the client, from an empty slot *)
Section Methods.
Context {CR : Crypto} {CL : CryptoLaws} {PM : ThpProto} {PL : ThpProtoLaws}.
Context {BP : BitcoinProto} {EP : EthereumProto} {SP : SolanaProto} {TP : TronProto}.
Context {B : Type} {RB : RustBitcoin B} (debug : Z -> rstring).
Context (ps : nat) (Hps : INIT_HEADER < ps) (sid : Z) (Hsid : is_byte sid) (fuel : nat)
  (Hfuel : 0 < fuel) (Hack : fits (encode_to_vec mkButtonAck)).
Context (channel : Z) (Hch : (0 <= channel < u16_mod)%Z).

(** [ThpCreateNewSession] for a wallet. *)
Definition session_request (key : option rstring * bool) : option Z * Z * list Z :=
  (Some SEEDED_SESSION_ID, MSG_CREATE_NEW_SESSION,
   encode_to_vec {| cns_passphrase := key.1; cns_on_device := Some key.2;
                    cns_derive_cardano := Some false |}).

Lemma end_request_run a c w ended rest :
  connected ps channel sid fuel a c w -> an_replies a = inr (T_END_RESPONSE, ended) :: rest ->
  Forall ask_fits (an_log a) -> fits [] ->
  exists c' w', end_request (Host0 := driver fuel) (c, w) = (Ret tt, (c', w'))
    /\ served_run ps channel sid fuel a (asked None T_END_REQUEST [] rest a) (c, w) (c', w')
    /\ seeded_with c' = seeded_with c.
Proof.
  intros Hcon Hre Hfit H0.
  assert (Hrun : end_request (Host0 := scripted_host) a
                 = (Ret tt, asked None T_END_REQUEST [] rest a)).
  { unfold end_request, expect_type. mred. cbn [h_transceive scripted_host].
    rewrite (answer_reply _ _ _ _ _ _ Hre). cbn [fst]. by rewrite Z.eqb_refl. }
  destruct (simulated_run ps channel sid fuel end_request (end_request (Host0 := driver fuel)) a c
    w _ _ (fun log0 out0 c0 => operation_sim (Hsim := driver_sim ps Hps channel sid Hch Hsid fuel
      Hfuel Hack log0 out0 c0) debug _ _ (op_end_request debug)) Hcon Hrun) as [Ho Hs].
  { unfold asked. cbn [an_log]. apply Forall_app. split; [exact Hfit|]. by constructor. }
  destruct (end_request (c, w)) as [o [c' w']]. cbn [fst snd] in *. subst o.
  exists c', w'. split; [done|]. specialize (Hs ltac:(discriminate)). split; [exact Hs|].
  destruct Hs as (_ & asks & _ & _ & Hc). cbn [fst] in Hc. rewrite Hc. apply seeded_after.
Qed.

Lemma create_seeded_run key a c w ok rest :
  connected ps channel sid fuel a c w -> an_replies a = inr (MSG_SUCCESS, ok) :: rest ->
  ask_fits (session_request key) ->
  let a' := asked (Some SEEDED_SESSION_ID) MSG_CREATE_NEW_SESSION (session_request key).2 rest a in
  exists c' w', create_seeded_session fuel key.1 key.2 (c, w)
      = (Ret tt, (set_seeded_with (Some key) c', w'))
    /\ served_run ps channel sid fuel a a' (c, w) (c', w').
Proof.
  intros Hcon Hre Hfit a'. destruct key as [pp od].
  assert (Hserves : serves ps channel sid fuel (an_log a) (outbox w) c a (c, w)).
  { split; [exact Hcon|]. exists []. cbn. by rewrite !app_nil_r. }
  pose proof (serves_answer ps Hps channel sid Hch Hsid fuel Hfuel Hack (an_log a) (outbox w) c
    (Some SEEDED_SESSION_ID) MSG_CREATE_NEW_SESSION (session_request (pp, od)).2 a c w Hserves
    Hfit) as Hrun.
  unfold simulated in Hrun. rewrite (answer_reply _ _ _ _ _ _ Hre) in Hrun. cbn [fst snd] in Hrun.
  destruct Hrun as [Ho Hs]. unfold create_seeded_session.
  rewrite (st_bind_ret (conn_modify _) _ _ tt _ eq_refl). cbn [fst snd].
  change (set_active_session_id SEEDED_SESSION_ID c) with (activate (Some SEEDED_SESSION_ID) c).
  cbn [session_request fst snd] in *.
  destruct (transceive fuel MSG_CREATE_NEW_SESSION _ _) as [o [c' w']] eqn:E. cbn [fst snd] in *.
  subst o. rewrite (st_bind_ret _ _ _ _ _ E). rewrite Z.eqb_refl. cbn [negb].
  exists c', w'. by split.
Qed.

(** Opening a connection for a wallet: allocation, handshake with the stored
    credential, [ThpEndRequest] and [ThpCreateNewSession]. *)
Lemma open_seeded_runs key props dcid hs cred he nonce resp req final keys w erest turns ended ok
    replies :
  length nonce = ALLOCATION_NONCE_LEN -> bytes_ok nonce -> length he = 32 ->
  (0 <= dcid < u16_mod)%Z ->
  let raw := encode_to_vec (props : ThpDeviceProperties) in
  (Z.of_nat (length raw + 14) < u16_mod)%Z ->
  (Z.of_nat (length (encode_to_vec {| host_pairing_credential_field := Some cred |}) + 68)
   < u16_mod)%Z ->
  handshaken raw hs (Some cred) he resp req final keys -> reports_unpaired keys = false ->
  write_errors w = [] -> entropy w = nonce ++ he ++ erest ->
  Forall2 turn_ok turns (inr (T_END_RESPONSE, ended) :: inr (MSG_SUCCESS, ok) :: replies) ->
  let rest := incoming ps (device_frames channel sid 0 0 (device_end keys)
                (concat (turn_messages <$> turns))) in
  inbox w = incoming ps (allocation_frame dcid nonce channel raw
              :: handshake_frames channel resp final) ++ rest ->
  length (inbox w) <= fuel -> fits [] -> ask_fits (session_request key) ->
  let a := {| alloc_cid := channel; device_properties_raw := raw;
              device_properties := props |} in
  let a' := {| an_replies := replies; an_entropy := erest; an_codes := codes w;
               an_log := [(None, T_END_REQUEST, []); session_request key] |} in
  let conn := connection_new BLE_PACKET_SIZE in
  exists c' w',
    (open_paired_connection fuel hs cred;; create_seeded_session fuel key.1 key.2) (conn, w)
    = (Ret tt, (set_seeded_with (Some key) c', w'))
    /\ served_run ps channel sid fuel
         {| an_replies := inr (T_END_RESPONSE, ended) :: inr (MSG_SUCCESS, ok) :: replies;
            an_entropy := erest; an_codes := codes w; an_log := [] |} a'
         (opened a keys conn,
          after_bring_up rest erest nonce channel
            (init_request_payload (with_ephemeral raw 0 hs (Some cred) he)) req conn w) (c', w').
Proof.
  intros Hn Hnok Hhe Hdc raw Hraw Hcred Hhs Hup Hwe He Ht rest Hin Hl H0 Hk a a' conn.
  pose proof (new_ready w Hwe) as Hr.
  set (w1 := after_bring_up _ _ _ _ _ _ _ w).
  set (a0 := {| an_replies := _ :: _; an_entropy := _; an_codes := _; an_log := _ |}).
  assert (Hcon : connected ps channel sid fuel a0 (opened a keys conn) w1).
  { apply (opened_connected ps fuel a keys conn w sid); try done; [apply connection_new_wf|].
    rewrite Hin, length_app in Hl. change (length rest <= fuel). lia. }
  destruct (end_request_run a0 (opened a keys conn) w1 ended (inr (MSG_SUCCESS, ok) :: replies)
    Hcon eq_refl ltac:(constructor) H0) as (c1 & w2 & He1 & Hs1 & _).
  assert (Hopen : open_paired_connection fuel hs cred (conn, w) = (Ret tt, (c1, w2))).
  { etrans; [|exact He1]. unfold open_paired_connection.
    rewrite (bring_up_runs ps Hps props channel dcid hs (Some cred) he nonce resp req final keys
      (fun _ keys => if reports_unpaired keys then throw credential_rejected
         else install_session keys;; end_request) fuel conn w rest erest); try done;
      [|apply connection_new_wf].
    rewrite Hup. by rewrite (st_bind_ret (install_session keys) _ _ tt _ eq_refl). }
  rewrite (st_bind_ret _ _ _ _ _ Hopen).
  destruct (create_seeded_run key _ c1 w2 ok replies (proj1 Hs1) eq_refl Hk)
    as (c' & w' & Hc & Hs2).
  exists c', w'. split; [exact Hc|]. exact (served_run_trans _ _ _ _ _ _ _ _ _ _ Hs1 Hs2).
Qed.

Lemma unpaired_state keys : trezor_state keys = [0x02%Z] -> reports_unpaired keys = false.
Proof. intros H. unfold reports_unpaired. by rewrite H. Qed.

Lemma fits_nil : fits [].
Proof. by split; [constructor|]. Qed.

(** The slot is empty or holds the connection of another wallet. *)
Definition not_reusable (key : option rstring * bool) (slot : option Connection) : Prop :=
  forall old, slot = Some old -> seeded_key old <> Some key.

Lemma ensure_conn_opens hs cred pass slot w c' w' :
  length hs = 32 -> not_reusable (wallet_key pass) slot ->
  (open_paired_connection fuel hs cred;;
   create_seeded_session fuel (wallet_key pass).1 (wallet_key pass).2)
    (connection_new BLE_PACKET_SIZE, w) = (Ret tt, (c', w')) ->
  ensure_conn fuel hs cred pass (slot, w) = (Ret tt, (Some c', w')).
Proof.
  intros Hhs Hslot Ho. unfold ensure_conn.
  assert (Hopen : open_into_slot fuel hs cred (wallet_key pass) (None, w)
                  = (Ret tt, (Some c', w'))).
  { unfold open_into_slot, to_array32, on_new_connection.
    rewrite (proj2 (Nat.eqb_eq _ _) Hhs), Ho. done. }
  destruct slot as [old|]; [|exact Hopen].
  by rewrite bool_decide_false by by apply Hslot.
Qed.

(** [ensure_conn] on a slot it cannot reuse, down to the session of the wallet. *)
Lemma ensure_conn_runs pass props dcid hs cred he nonce resp req final keys slot w erest turns
    ended ok replies :
  length hs = 32 -> not_reusable (wallet_key pass) slot ->
  length nonce = ALLOCATION_NONCE_LEN -> bytes_ok nonce -> length he = 32 ->
  (0 <= dcid < u16_mod)%Z ->
  let raw := encode_to_vec (props : ThpDeviceProperties) in
  (Z.of_nat (length raw + 14) < u16_mod)%Z ->
  (Z.of_nat (length (encode_to_vec {| host_pairing_credential_field := Some cred |}) + 68)
   < u16_mod)%Z ->
  handshaken raw hs (Some cred) he resp req final keys -> reports_unpaired keys = false ->
  write_errors w = [] -> entropy w = nonce ++ he ++ erest ->
  Forall2 turn_ok turns (inr (T_END_RESPONSE, ended) :: inr (MSG_SUCCESS, ok) :: replies) ->
  let rest := incoming ps (device_frames channel sid 0 0 (device_end keys)
                (concat (turn_messages <$> turns))) in
  inbox w = incoming ps (allocation_frame dcid nonce channel raw
              :: handshake_frames channel resp final) ++ rest ->
  length (inbox w) <= fuel -> ask_fits (session_request (wallet_key pass)) ->
  let a := {| alloc_cid := channel; device_properties_raw := raw;
              device_properties := props |} in
  let a' := {| an_replies := replies; an_entropy := erest; an_codes := codes w;
               an_log := [(None, T_END_REQUEST, []); session_request (wallet_key pass)] |} in
  exists c1 w1,
    let c := set_seeded_with (Some (wallet_key pass)) c1 in
    ensure_conn fuel hs cred pass (slot, w) = (Ret tt, (Some c, w1))
    /\ connected ps channel sid fuel a' c w1
    /\ served_run ps channel sid fuel
         {| an_replies := inr (T_END_RESPONSE, ended) :: inr (MSG_SUCCESS, ok) :: replies;
            an_entropy := erest; an_codes := codes w; an_log := [] |} a'
         (opened a keys (connection_new BLE_PACKET_SIZE),
          after_bring_up rest erest nonce channel
            (init_request_payload (with_ephemeral raw 0 hs (Some cred) he)) req
            (connection_new BLE_PACKET_SIZE) w) (c1, w1).
Proof.
  intros Hhs Hslot Hn Hnok Hhe Hdc raw Hraw Hcred Hhand Hup Hwe He Ht rest Hin Hl Hk a a'.
  destruct (open_seeded_runs (wallet_key pass) props dcid hs cred he nonce resp req final keys w
    erest turns ended ok replies Hn Hnok Hhe Hdc Hraw Hcred Hhand Hup Hwe He Ht Hin Hl fits_nil Hk)
    as (c1 & w1 & Hopen & Hs).
  exists c1, w1. split; [by apply (ensure_conn_opens hs cred pass slot w)|].
  split; [|exact Hs].
  exact (connected_seeded ps channel sid fuel _ c1 w1 (Some (wallet_key pass)) (an_log a')
    (proj1 Hs)).
Qed.

(** The slot a method leaves, by the outcome of its operation. *)
Definition slot_kept {A} (o : outcome TrezorError A) (c : Connection) : option Connection :=
  match o with Fail _ => None | _ => Some c end.

Lemma with_conn_eq {A} (op : Conn Script A) hs cred pass slot w c w1 o c' w' :
  ensure_conn fuel hs cred pass (slot, w) = (Ret tt, (Some c, w1)) ->
  op (c, w1) = (o, (c', w')) ->
  with_conn fuel hs cred pass op (slot, w) = (o, (slot_kept o c', w')).
Proof.
  intros He Ho. unfold with_conn.
  assert (Hcl : clearing (ensure_conn fuel hs cred pass) (slot, w) = (Ret tt, (Some c, w1)))
    by (unfold clearing; by rewrite He).
  rewrite (st_bind_ret _ _ _ _ _ Hcl). unfold clearing, on_pinned. rewrite Ho. by destruct o.
Qed.

(** What a method leaves in the slot. *)
Definition slot_after {A} (o : outcome TrezorError A) (key : option rstring * bool)
    (a : Answers) (s : option Connection * Script) : Prop :=
  match o with
  | Ret _ => exists c, s.1 = Some c /\ seeded_key c = Some key
               /\ connected ps channel sid fuel a c s.2
  | Fail _ => s.1 = None
  | _ => True
  end.

Lemma with_conn_runs {A} (op : Conn Script A) hs cred pass slot w c w1 a0 a' o :
  ensure_conn fuel hs cred pass (slot, w) = (Ret tt, (Some c, w1)) ->
  seeded_key c = Some (wallet_key pass) ->
  (op (c, w1)).1 = o -> served_run ps channel sid fuel a0 a' (c, w1) (op (c, w1)).2 ->
  let run := with_conn fuel hs cred pass op (slot, w) in
  run.1 = o /\ run.2.2 = (op (c, w1)).2.2 /\ slot_after o (wallet_key pass) a' run.2.
Proof.
  intros He Hk Ho [Hcon (asks & _ & _ & Hc)] run. unfold run.
  destruct (op (c, w1)) as [o' [c' w']] eqn:E. cbn [fst snd] in *. subst o'.
  rewrite (with_conn_eq op hs cred pass slot w c w1 o c' w' He E).
  assert (Hk' : seeded_key c' = Some (wallet_key pass))
    by (unfold seeded_key in *; by rewrite Hc, seeded_after).
  destruct o; (split; [done|]); (split; [done|]); cbn; eauto.
Qed.

(** The packets of a run: bring-up, then two groups of requests with the wallet noted
    in between. *)
Lemma wrote_served conn nonce init req a keys rest erest w key a0 a1 a2 c1 w2 s3 :
  alloc_cid a = channel -> an_log a0 = [] ->
  let w1 := after_bring_up rest erest nonce channel init req conn w in
  served_run ps channel sid fuel a0 a1 (opened a keys conn, w1) (c1, w2) ->
  served_run ps channel sid fuel a1 a2 (set_seeded_with key c1, w2) s3 ->
  wrote conn nonce init req a keys (an_log a2) w s3.2.
Proof.
  intros Ha H0 w1 [_ (asks1 & Hl1 & Ho1 & Hc1)] [_ (asks2 & Hl2 & Ho2 & _)].
  exists (asks1 ++ asks2). rewrite fmap_app. split; [by rewrite Hl2, Hl1, H0|].
  cbn [fst snd] in *.
  rewrite Ho2, Ho1, transcript_seeded, transcript_app, Hc1, Ha. unfold w1, after_bring_up.
  cbn [outbox].
  change (packet_size (set_seeded_with key (foldl after_ask (opened a keys conn) asks1)))
    with (packet_size (foldl after_ask (opened a keys conn) asks1)).
  rewrite packet_size_after. change (packet_size (opened a keys conn)) with (packet_size conn).
  rewrite <- !app_assoc, <- !wire_app. by rewrite <- app_comm_cons.
Qed.

End Methods.

Section Method.
Context {CR : Crypto} {CL : CryptoLaws} {PM : ThpProto} {PL : ThpProtoLaws}.
Context {BP : BitcoinProto} {EP : EthereumProto} {SP : SolanaProto} {TP : TronProto}.
Context {B : Type} {RB : RustBitcoin B} (debug : Z -> rstring).
Context (ps : nat) (Hps : INIT_HEADER < ps) (sid : Z) (Hsid : is_byte sid)
  (Hack : fits (encode_to_vec mkButtonAck)).
Context (channel : Z) (Hch : (0 <= channel < u16_mod)%Z).

(** A method of the client for any wallet, called when the slot is empty or holds
    another wallet's connection, against a device that follows the
    specification: allocation, the handshake with the stored credential,
    [ThpEndRequest] and [ThpCreateNewSession] for exactly the wallet's
    passphrase complete, then the operation has the outcome it has on the
    device's answers. Everything written is those requests, in that order. A
    result leaves the connection in the slot, marked with the wallet and ready
    for the next call; an error of the operation leaves the slot empty. *)
Theorem client_method_over_packets {A} (p : program A) pass props dcid hs cred he ts te nonce
    slot :
  operation debug A p -> length hs = 32 -> length nonce = ALLOCATION_NONCE_LEN ->
  bytes_ok nonce -> length he = 32 -> (0 <= dcid < u16_mod)%Z ->
  let raw := encode_to_vec (props : ThpDeviceProperties) in
  let host := with_ephemeral raw 0 hs (Some cred) he in
  (Z.of_nat (length raw + 14) < u16_mod)%Z ->
  (Z.of_nat (length (encode_to_vec {| host_pairing_credential_field := Some cred |}) + 68)
   < u16_mod)%Z ->
  not_reusable (wallet_key pass) slot ->
  exists resp trezor req result keys,
    handle_init_request te (init_request_payload host) (responder_new raw ts)
    = (Ret resp, trezor)
    /\ handle_completion_request req trezor = (Ret result, trezor)
    /\ key_request keys = rr_key_request result /\ key_response keys = rr_key_response result
    /\ forall fuel ended ok replies turns w e o a',
      Forall2 turn_ok turns (inr (T_END_RESPONSE, ended) :: inr (MSG_SUCCESS, ok) :: replies) ->
      write_errors w = [] -> entropy w = nonce ++ he ++ e ->
      inbox w = incoming ps (allocation_frame dcid nonce channel raw
                  :: handshake_frames channel resp (rr_response result))
                ++ incoming ps (device_frames channel sid 0 0 (device_end keys)
                     (concat (turn_messages <$> turns))) ->
      0 < fuel -> length (inbox w) <= fuel ->
      p _ scripted_host
        {| an_replies := replies; an_entropy := e; an_codes := codes w;
           an_log := [(None, T_END_REQUEST, []); session_request (wallet_key pass)] |} = (o, a') ->
      Forall ask_fits (an_log a') -> o <> Pending ->
      let run := with_conn fuel hs cred pass (p _ (driver fuel)) (slot, w) in
      run.1 = o
      /\ wrote (connection_new BLE_PACKET_SIZE) nonce (init_request_payload host) req
           {| alloc_cid := channel; device_properties_raw := raw; device_properties := props |}
           keys (an_log a') w run.2.2
      /\ slot_after ps sid fuel channel o (wallet_key pass) a' run.2.
Proof.
  intros Hp Hhs Hn Hnok Hhe Hdc raw host Hraw Hcred Hslot.
  destruct (device_handshake raw hs (Some cred) he ts te) as (resp & trezor & req & result & keys
    & Hinit & Hcomp & Hkq & Hkr & _ & _ & Hstate & _ & _ & Hhand).
  exists resp, trezor, req, result, keys. do 4 (split; [done|]).
  intros fuel ended ok replies turns w e o a' Ht Hwe He Hin Hfuel Hl Hrun Hfit Hnp run.
  set (a0 := {| an_replies := replies; an_entropy := _; an_codes := _; an_log := _ |}) in Hrun.
  assert (Hsim : forall log0 out0 c0, sim (serves ps channel sid fuel log0 out0 c0) ask_fits
      (p _ scripted_host) (p _ (driver fuel)))
    by (intros; exact (operation_sim (Hsim := driver_sim ps Hps channel sid Hch Hsid fuel Hfuel
          Hack log0 out0 c0) debug A p Hp)).
  assert (Hk : ask_fits (session_request (wallet_key pass))).
  { destruct (Hsim [] [] (connection_new 0) a0) as [Hpre _]. rewrite Hrun in Hpre.
    destruct Hpre as [l Hpre]. cbn [snd] in Hpre. rewrite Hpre in Hfit.
    apply Forall_app in Hfit as [Hfit _]. exact (Forall_inv (Forall_inv_tail Hfit)). }
  destruct (ensure_conn_runs debug ps Hps sid Hsid fuel Hfuel Hack channel Hch pass props dcid hs
    cred he nonce resp req (rr_response result) keys slot w e turns ended ok replies Hhs Hslot Hn
    Hnok Hhe Hdc Hraw Hcred Hhand (unpaired_state keys Hstate) Hwe He Ht Hin Hl Hk)
    as (c1 & w2 & Hens & Hcon & Hs1).
  destruct (simulated_run ps channel sid fuel (p _ scripted_host) (p _ (driver fuel)) a0 _ w2 o a'
    Hsim Hcon Hrun Hfit) as [Ho Hs].
  destruct (with_conn_runs ps sid fuel channel (p _ (driver fuel)) hs cred pass slot w _ w2 a0 a' o Hens eq_refl Ho
    (Hs Hnp)) as (Ho' & Hw' & Hafter).
  split; [exact Ho'|]. split; [|exact Hafter]. unfold run. rewrite Hw'.
  by eapply wrote_served; [| |exact Hs1|exact (Hs Hnp)].
Qed.
End Method.

(** ** Witnesses *)
Section Witness.
#[local] Existing Instance toy_crypto.
#[local] Existing Instance toy_thp_proto.

Definition sample_props : ThpDeviceProperties :=
  {| internal_model := str "T3W1"; model_variant := None; protocol_version_major := 2;
     protocol_version_minor := 0; pairing_methods := [2%Z] |}.
Definition sample_features : Features :=
  {| feat_major_version := 2; feat_minor_version := 8; feat_patch_version := 1;
     feat_device_id := Some (str "D1"); feat_model := Some (str "T3W1");
     feat_initialized := Some true |}.
Definition sample_pairing : PairingAnswers :=
  {| pa_approved := []; pa_cpace_key := replicate 32 9%Z; pa_secret := [1%Z]; pa_static := [];
     pa_credential := [5%Z] |}.

(** The device asks for no confirmation. *)
Definition quiet (replies : list (TrezorError + Z * list Z)) : list turn :=
  omap (fun r => match r with inr m => Some ([], m) | inl _ => None end) replies.

(** A script with the given traffic and randomness. *)
Definition scripted (traffic : list (TrezorTransportError + list Z)) (e : list Z) : Script :=
  {| inbox := traffic; outbox := []; write_errors := []; entropy := e; codes := [] |}.

Lemma scripted_inbox traffic e : inbox (scripted traffic e) = traffic.
Proof. reflexivity. Qed.

Definition quiet_reply (r : TrezorError + Z * list Z) : bool :=
  match r with
  | inr m => fitsb m.2 && (0 <=? m.1)%Z && (m.1 <? u16_mod)%Z
               && negb (m.1 =? MSG_BUTTON_REQUEST)%Z && negb (m.1 =? MSG_FAILURE)%Z
  | inl _ => false
  end.

Lemma quiet_turns replies :
  forallb quiet_reply replies = true -> Forall2 turn_ok (quiet replies) replies.
Proof.
  induction replies as [|[e|m] replies IH]; cbn [forallb quiet omap list_omap]; intros H;
    [constructor|discriminate|].
  apply andb_prop in H as [H Hr]. constructor; [|by apply IH].
  unfold quiet_reply in H. rewrite !andb_true_iff, !negb_true_iff in H.
  destruct H as [[[[Hf H1] H2] Hb] Hfl]. split; [constructor|].
  split; [constructor; [by apply fitsb_true|constructor]|]. split; [cbn; lia|].
  split; [cbn; lia|]. unfold reply_outcome. cbn [fst snd]. by rewrite Hfl.
Qed.

Definition ask_fitsb (ask : option Z * Z * list Z) : bool :=
  fitsb ask.2 && match ask.1.1 with Some s => (0 <=? s) && (s <? 256) | None => true end%Z.

Lemma asks_fit asks : forallb ask_fitsb asks = true -> Forall ask_fits asks.
Proof.
  induction asks as [|[[id mt] body] asks IH]; cbn [forallb]; intros H; [constructor|].
  apply andb_prop in H as [H Hr]. constructor; [|by apply IH].
  apply andb_prop in H as [Hf Hid]. split; [by apply fitsb_true|].
  destruct id as [v|]; [|done]. cbn [fst snd] in *. unfold is_byte. lia.
Qed.
End Witness.

#[local] Existing Instance toy_crypto.
#[local] Existing Instance toy_thp_proto.
#[local] Existing Instance toy_solana_proto.

Lemma establish_paired_session_completes_witness :
  let nonce := replicate 8 7%Z in let he := replicate 32 3%Z in
  let hs := replicate 32 0x11%Z in let stored := Some [5%Z] in
  exists w fuel,
    (establish_paired_session fuel hs (str "host") (str "app") stored w).1
    = Ret (paired_session sample_features [5%Z]).
Proof.
  intros nonce he hs stored.
  destruct (establish_paired_session_completes (CR := toy_crypto) (CL := toy_crypto_laws)
    (PM := toy_thp_proto) (PL := toy_thp_proto_laws) (BP := toy_bitcoin_proto)
    (EP := toy_ethereum_proto) (SP := toy_solana_proto) (TP := toy_tron_proto)
    (RB := toy_rust_bitcoin sample_psbt) (fun _ => []) 64 ltac:(unfold INIT_HEADER; lia) 0
    ltac:(unfold is_byte; lia) ltac:(apply fitsb_true; vm_compute; reflexivity) sample_props
    0x1234 BROADCAST_CID hs stored he (replicate 32 0x22%Z) (replicate 32 4%Z) nonce
    (str "host") (str "app"))
    as (resp & trezor & req & result & keys & _ & _ & _ & _ & _ & Hrun).
  { reflexivity. }
  { reflexivity. }
  { apply bytes_okb_true. reflexivity. }
  { reflexivity. }
  { unfold u16_mod. lia. }
  { unfold u16_mod, BROADCAST_CID. lia. }
  { apply Z.ltb_lt. vm_compute. reflexivity. }
  { apply Z.ltb_lt. vm_compute. reflexivity. }
  set (turns := quiet (closing_answers [] sample_features)).
  set (w := scripted (incoming 64 (allocation_frame BROADCAST_CID nonce 0x1234
      (encode_to_vec sample_props) :: handshake_frames 0x1234 resp (rr_response result))
    ++ incoming 64 (device_frames 0x1234 0 0 0 (device_end keys)
         (concat (turn_messages <$> turns)))) (nonce ++ he ++ [])).
  exists w, (S (length (inbox w))).
  assert (Hturns : Forall2 turn_ok turns (session_answers stored sample_pairing [] sample_features)).
  { apply quiet_turns. vm_compute. reflexivity. }
  assert (Hasks : Forall ask_fits (session_requests stored (str "host") (str "app")
    (replicate 16 0%Z) (str "000042") keys sample_pairing (replicate 32 1%Z))).
  { apply asks_fit. vm_compute. reflexivity. }
  pose proof (H := Hrun (S (length (inbox w))) sample_pairing [] sample_features
    (replicate 16 0%Z) (replicate 32 1%Z) (str "42") 42%Z (str "000042") turns w []).
  specialize (H eq_refl eq_refl eq_refl).
  specialize (H ltac:(vm_compute; reflexivity) ltac:(vm_compute; reflexivity) Hturns Hasks).
  specialize (H eq_refl eq_refl eq_refl (scripted_inbox _ _) (Nat.lt_0_succ _)
    (Nat.le_succ_diag_r _)).
  exact (proj1 H).
Defined.

(** Signing a Solana transaction with an empty slot: the device confirms the session,
    asks for one confirmation and signs. *)
Lemma client_method_over_packets_witness :
  let nonce := replicate 8 7%Z in let he := replicate 32 3%Z in
  let hs := replicate 32 0x11%Z in
  exists w fuel,
    (with_conn fuel hs [5%Z] (Types.Host (str "pp"))
       (signing_program _ (driver fuel)) (None, w)).1
    = Ret (replicate 64 7%Z).
Proof.
  intros nonce he hs.
  destruct (client_method_over_packets (CR := toy_crypto) (CL := toy_crypto_laws)
    (PM := toy_thp_proto) (PL := toy_thp_proto_laws) (BP := toy_bitcoin_proto)
    (EP := toy_ethereum_proto) (SP := toy_solana_proto) (TP := toy_tron_proto)
    (RB := toy_rust_bitcoin sample_psbt) (fun _ => []) 64 ltac:(unfold INIT_HEADER; lia) 0
    ltac:(unfold is_byte; lia) ltac:(apply fitsb_true; vm_compute; reflexivity) 0x1234
    ltac:(unfold u16_mod; lia) signing_program (Types.Host (str "pp"))
    sample_props BROADCAST_CID hs [5%Z] he (replicate 32 0x22%Z) (replicate 32 4%Z) nonce None)
    as (resp & trezor & req & result & keys & _ & _ & _ & _ & Hrun).
  { apply op_sol_sign_tx. }
  { reflexivity. }
  { reflexivity. }
  { apply bytes_okb_true. reflexivity. }
  { reflexivity. }
  { unfold u16_mod, BROADCAST_CID. lia. }
  { apply Z.ltb_lt. vm_compute. reflexivity. }
  { apply Z.ltb_lt. vm_compute. reflexivity. }
  { intros old [=]. }
  set (turns := [([], (T_END_RESPONSE, [])); ([], (MSG_SUCCESS, [])); signing_turn] : list turn).
  set (w := scripted (incoming 64 (allocation_frame BROADCAST_CID nonce 0x1234
      (encode_to_vec sample_props) :: handshake_frames 0x1234 resp (rr_response result))
    ++ incoming 64 (device_frames 0x1234 0 0 0 (device_end keys)
         (concat (turn_messages <$> turns)))) (nonce ++ he ++ [])).
  exists w, (S (length (inbox w))).
  assert (Hturns : Forall2 turn_ok turns
    [inr (T_END_RESPONSE, []); inr (MSG_SUCCESS, []); inr signed_message]).
  { assert (H2 : Forall2 turn_ok (quiet [inr (T_END_RESPONSE, []); inr (MSG_SUCCESS, [])])
      [inr (T_END_RESPONSE, []); inr (MSG_SUCCESS, [])])
      by (apply quiet_turns; vm_compute; reflexivity).
    apply (Forall2_app H2). constructor; [exact signing_turn_ok|constructor]. }
  set (request := (Some SEEDED_SESSION_ID, SOL_SIGN_TX, encode_to_vec
    {| sst_address_n := Solana.account_path 0; sst_serialized_tx := [1; 2; 3]%Z |})).
  set (asked := [(None, T_END_REQUEST, []); session_request (wallet_key (Types.Host (str "pp")));
                 request]).
  assert (Hasks : Forall ask_fits asked) by (apply asks_fit; vm_compute; reflexivity).
  pose proof (H := Hrun (S (length (inbox w))) [] [] [inr signed_message] turns w []
    (Ret (replicate 64 7%Z)) {| an_replies := []; an_entropy := []; an_codes := []; an_log := asked |}
    Hturns eq_refl eq_refl (scripted_inbox _ _) (Nat.lt_0_succ _) (Nat.le_succ_diag_r _)).
  specialize (H ltac:(vm_compute; reflexivity) Hasks ltac:(discriminate)).
  exact (proj1 H).
Defined.
