(* ===== verification/ClientService.v ===== *)
(** * The client as a wallet service (client.rs over a whole history of calls)

    What a caller may rely on across calls, for any sequence of methods on any wallets:
    an abstract service that remembers for which wallet it is open, answers each call with
    what the operation makes of the device's answers, and closes on an error; and the
    theorem that the client over packets refines it. A history is cut into visits: the
    calls made on one connection, which ends when another wallet is asked for or a call
    fails. *)

From S2P Require Import Prelude Types.
From S2P Require Import Ethereum Solana Tron Bitcoin.
From S2P Require Import Env Bip32 Crypto Proto ChainProto Framing Channel Session.
From S2P Require Import Noise Connection ConnectionSafe ConnectionAbp ConnectionExchange BringUp.
From S2P Require Import Host HostSim Text Cpace Pairing OverPackets Client EndToEnd.

Section Service.
Context {CR : Crypto} {CL : CryptoLaws} {PM : ThpProto} {PL : ThpProtoLaws}.
Context {BP : BitcoinProto} {EP : EthereumProto} {SP : SolanaProto} {TP : TronProto}.
Context {B : Type} {RB : RustBitcoin B} (debug : Z -> rstring).
(** The packet size and the session id of the device, and the bound on one read. *)
Context (ps : nat) (Hps : INIT_HEADER < ps) (sid : Z) (Hsid : is_byte sid) (fuel : nat)
  (Hfuel : 0 < fuel) (Hack : fits (encode_to_vec mkButtonAck)).

(** A method of the client: its operation on the pinned connection. *)
Record Call : Type := {
  call_type : Type;
  call_program : program call_type;
  call_operation : operation debug call_type call_program;
}.

(** What a call returns. *)
Definition Outcome : Type := {A : Type & outcome TrezorError A}.
Definition returned {A : Type} (o : outcome TrezorError A) : Outcome := existT A o.

(** The calls of one connection, and the device's side of it: the channel it assigns, its
    properties and keys, the two messages of its handshake and what it answers. *)
Record Visit : Type := {
  v_host_static_priv : list Z;
  v_credential : list Z;
  v_passphrase : PassphraseSpec;
  v_calls : list Call;
  v_broadcast_cid : Z;
  v_channel : Z;
  v_properties : ThpDeviceProperties;
  v_device_static : list Z;
  v_device_ephemeral : list Z;
  v_nonce : list Z;
  v_host_ephemeral : list Z;
  v_init_response : list Z;
  v_completion_request : list Z;
  v_completion_response : list Z;
  v_keys : SessionKeys;
  v_ended : list Z;
  v_created : list Z;
  v_replies : list (TrezorError + Z * list Z);
  v_turns : list turn;
}.

Definition v_wallet (v : Visit) : option rstring * bool := wallet_key (v_passphrase v).
Definition v_raw (v : Visit) : list Z := encode_to_vec (v_properties v).
Definition v_init_request (v : Visit) : list Z :=
  init_request_payload (with_ephemeral (v_raw v) 0 (v_host_static_priv v)
    (Some (v_credential v)) (v_host_ephemeral v)).
Definition v_allocation (v : Visit) : ChannelAllocation :=
  {| alloc_cid := v_channel v; device_properties_raw := v_raw v;
     device_properties := v_properties v |}.

(** The reports of the device during a visit. *)
Definition visit_reports (v : Visit) : list (TrezorTransportError + list Z) :=
  incoming ps (allocation_frame (v_broadcast_cid v) (v_nonce v) (v_channel v) (v_raw v)
    :: handshake_frames (v_channel v) (v_init_response v) (v_completion_response v))
  ++ incoming ps (device_frames (v_channel v) sid 0 0 (device_end (v_keys v))
       (concat (turn_messages <$> v_turns v))).

(** The device follows the handshake and recognises the credential. *)
Definition device_handshakes (v : Visit) : Prop :=
  exists trezor result,
    handle_init_request (v_device_ephemeral v) (v_init_request v)
      (responder_new (v_raw v) (v_device_static v)) = (Ret (v_init_response v), trezor)
    /\ handle_completion_request (v_completion_request v) trezor = (Ret result, trezor)
    /\ v_completion_response v = rr_response result
    /\ handshaken (v_raw v) (v_host_static_priv v) (Some (v_credential v)) (v_host_ephemeral v)
         (v_init_response v) (v_completion_request v) (v_completion_response v) (v_keys v).

(** Sizes and ranges the wire format asks for. *)
Definition visit_fits (v : Visit) : Prop :=
  length (v_host_static_priv v) = 32 /\ length (v_nonce v) = ALLOCATION_NONCE_LEN
  /\ bytes_ok (v_nonce v) /\ length (v_host_ephemeral v) = 32
  /\ (0 <= v_channel v < u16_mod)%Z /\ (0 <= v_broadcast_cid v < u16_mod)%Z
  /\ (Z.of_nat (length (v_raw v) + 14) < u16_mod)%Z
  /\ (Z.of_nat (length (encode_to_vec
        {| host_pairing_credential_field := Some (v_credential v) |}) + 68) < u16_mod)%Z
  /\ length (visit_reports v) <= fuel.

Definition visit_ok (v : Visit) : Prop :=
  visit_fits v /\ device_handshakes v
  /\ Forall2 turn_ok (v_turns v)
       (inr (T_END_RESPONSE, v_ended v) :: inr (MSG_SUCCESS, v_created v) :: v_replies v).

(** ** The abstract service *)
(** Calls answered one after the other; [true] when the last one did not fail. *)
Inductive answered : list Call -> Answers -> list Outcome -> bool -> Answers -> Prop :=
  | answered_last c a x a' :
      call_program c _ scripted_host a = (Ret x, a') ->
      answered [c] a [returned (Ret x)] true a'
  | answered_error c a e a' :
      call_program c _ scripted_host a = (Fail e, a') ->
      answered [c] a [returned (A := call_type c) (Fail e)] false a'
  | answered_next c calls a x a1 os open a' :
      call_program c _ scripted_host a = (Ret x, a1) -> answered calls a1 os open a' ->
      answered (c :: calls) a (returned (Ret x) :: os) open a'.

(** The wallet the service is open for, the randomness and the typed codes to come. *)
Record Service : Type := {
  at_wallet : option (option rstring * bool);
  random : list Z;
  typed : list rstring;
}.

(** The answers of the device to the calls of a visit, after the two requests that open it. *)
Definition visit_answers (v : Visit) (E : list Z) (codes : list rstring) : Answers :=
  {| an_replies := v_replies v; an_entropy := E; an_codes := codes;
     an_log := [(None, T_END_REQUEST, []); session_request (v_wallet v)] |}.

(** One visit: the service is not open for the wallet, so it opens for it; the calls are
    answered; it stays open for the wallet unless the last of them failed. *)
Inductive service_step : Service -> Visit -> list Outcome -> list (option Z * Z * list Z) ->
    Service -> Prop :=
  | serve_visit s v E os open a' :
      at_wallet s <> Some (v_wallet v) ->
      random s = v_nonce v ++ v_host_ephemeral v ++ E ->
      answered (v_calls v) (visit_answers v E (typed s)) os open a' ->
      an_replies a' = [] -> Forall ask_fits (an_log a') ->
      service_step s v os (an_log a')
        {| at_wallet := if open then Some (v_wallet v) else None;
           random := an_entropy a'; typed := an_codes a' |}.

Definition History : Type := list (Visit * list Outcome * list (option Z * Z * list Z)).

Inductive service_run : Service -> History -> Service -> Prop :=
  | service_idle s : service_run s [] s
  | service_visits s v os log s1 h s' :
      service_step s v os log s1 -> service_run s1 h s' ->
      service_run s ((v, os, log) :: h) s'.

(** ** The client *)
Fixpoint client_calls (hs cred : list Z) (pass : PassphraseSpec) (calls : list Call)
    (s : option Connection * Script) : list Outcome * (option Connection * Script) :=
  match calls with
  | [] => ([], s)
  | c :: calls =>
    let '(o, s) := with_conn fuel hs cred pass (call_program c _ (driver fuel)) s in
    let '(os, s) := client_calls hs cred pass calls s in
    (returned o :: os, s)
  end.

(** The device's reports of a visit arrive while its calls run. *)
Definition arrive (reports : list (TrezorTransportError + list Z)) (w : Script) : Script :=
  {| inbox := inbox w ++ reports; outbox := outbox w; write_errors := write_errors w;
     entropy := entropy w; codes := codes w |}.

Definition client_visit (v : Visit) (s : option Connection * Script)
    : list Outcome * (option Connection * Script) :=
  client_calls (v_host_static_priv v) (v_credential v) (v_passphrase v) (v_calls v)
    (s.1, arrive (visit_reports v) s.2).

(** The client's calls return the outcomes of the history, and what it writes in each visit
    is the bring-up of one channel and the requests of the visit's log. *)
Fixpoint realises (h : History) (s s' : option Connection * Script) : Prop :=
  match h with
  | [] => s' = s
  | (v, os, log) :: h =>
    exists s1, client_visit v s = (os, s1)
      /\ wrote (connection_new BLE_PACKET_SIZE) (v_nonce v) (v_init_request v)
           (v_completion_request v) (v_allocation v) (v_keys v) log s.2 s1.2
      /\ realises h s1 s'
  end.

(** The client between two visits. *)
Definition matches (s : Service) (cw : option Connection * Script) : Prop :=
  cw.1 ≫= seeded_key = at_wallet s /\ inbox cw.2 = [] /\ write_errors cw.2 = []
  /\ entropy cw.2 = random s /\ codes cw.2 = typed s.

(** ** Calls on one connection *)
Lemma ensure_conn_reuses hs cred pass c (w : Script) :
  seeded_key c = Some (wallet_key pass) ->
  ensure_conn fuel hs cred pass (Some c, w) = (Ret tt, (Some c, w)).
Proof. intros Hk. unfold ensure_conn. by rewrite Hk, bool_decide_true. Qed.

Lemma served_seeded channel a a' c w c' w' :
  served_run ps channel sid fuel a a' (c, w) (c', w') -> seeded_key c' = seeded_key c.
Proof.
  intros [_ (asks & _ & _ & Hc)]. cbn [fst] in Hc. unfold seeded_key. by rewrite Hc, seeded_after.
Qed.

Section OneConnection.
Context (channel : Z) (Hch : (0 <= channel < u16_mod)%Z).

Lemma call_sim c log0 out0 c0 :
  sim (serves ps channel sid fuel log0 out0 c0) ask_fits
    (call_program c _ scripted_host) (call_program c _ (driver fuel)).
Proof.
  exact (operation_sim (Hsim := driver_sim ps Hps channel sid Hch Hsid fuel Hfuel Hack log0 out0
    c0) debug _ _ (call_operation c)).
Qed.

Lemma call_log c a o a' :
  call_program c _ scripted_host a = (o, a') -> an_log a `prefix_of` an_log a'.
Proof. intros E. destruct (call_sim c [] [] (connection_new 0) a) as [H _]. by rewrite E in H. Qed.

Lemma answered_log calls a os open a' :
  answered calls a os open a' -> an_log a `prefix_of` an_log a'.
Proof.
  induction 1 as [c a x a' E|c a e a' E|c calls a x a1 os open a' E _ IH];
    [by eapply call_log..|]. etrans; [by eapply call_log|exact IH].
Qed.

Lemma call_runs hs cred pass slot w call a o a' c w1 :
  ensure_conn fuel hs cred pass (slot, w) = (Ret tt, (Some c, w1)) ->
  connected ps channel sid fuel a c w1 ->
  call_program call _ scripted_host a = (o, a') -> o <> Pending -> Forall ask_fits (an_log a') ->
  exists c' w',
    with_conn fuel hs cred pass (call_program call _ (driver fuel)) (slot, w)
    = (o, (slot_kept o c', w'))
    /\ served_run ps channel sid fuel a a' (c, w1) (c', w').
Proof.
  intros He Hcon Ha Hnp Hfit.
  destruct (simulated_run ps channel sid fuel _ (call_program call _ (driver fuel)) a c w1 o a'
    (fun log0 out0 c0 => call_sim call log0 out0 c0) Hcon Ha Hfit) as [Ho Hs].
  specialize (Hs Hnp). destruct (call_program call _ _ (c, w1)) as [o' [c' w']] eqn:E.
  cbn [fst snd] in *. subst o'. exists c', w'. split; [by eapply with_conn_eq|exact Hs].
Qed.

Lemma calls_run calls a os open a' :
  answered calls a os open a' -> forall hs cred pass slot w c w1,
  ensure_conn fuel hs cred pass (slot, w) = (Ret tt, (Some c, w1)) ->
  seeded_key c = Some (wallet_key pass) -> connected ps channel sid fuel a c w1 ->
  Forall ask_fits (an_log a') ->
  exists c' w',
    client_calls hs cred pass calls (slot, w) = (os, (if open then Some c' else None, w'))
    /\ served_run ps channel sid fuel a a' (c, w1) (c', w').
Proof.
  induction 1 as [call a x a' E|call a e a' E|call calls a x a1 os open a' E Hrest IH];
    intros hs cred pass slot w c w1 He Hk Hcon Hfit; cbn [client_calls].
  1-2: destruct (call_runs hs cred pass slot w call a _ a' c w1 He Hcon E ltac:(done) Hfit)
    as (c' & w' & -> & Hs); by exists c', w'.
  assert (Hfit1 : Forall ask_fits (an_log a1)).
  { destruct (answered_log _ _ _ _ _ Hrest) as [l Hl]. rewrite Hl in Hfit.
    by apply Forall_app in Hfit as [? _]. }
  destruct (call_runs hs cred pass slot w call a _ a1 c w1 He Hcon E ltac:(done) Hfit1)
    as (c1 & w2 & -> & Hs1). cbn [slot_kept].
  assert (Hk1 : seeded_key c1 = Some (wallet_key pass))
    by (rewrite (served_seeded _ _ _ _ _ _ _ Hs1); exact Hk).
  destruct (IH hs cred pass (Some c1) w2 c1 w2 (ensure_conn_reuses _ _ _ _ _ Hk1) Hk1
    (proj1 Hs1) Hfit) as (c' & w' & -> & Hs2).
  exists c', w'. split; [done|]. exact (served_run_trans _ _ _ _ _ _ _ _ _ _ Hs1 Hs2).
Qed.
End OneConnection.

(** ** The refinement *)
Lemma handshakes_paired v : device_handshakes v -> reports_unpaired (v_keys v) = false.
Proof.
  intros (trezor & result & Hinit & Hcomp & Hfinal & Hhand). apply unpaired_state.
  destruct (device_handshake (v_raw v) (v_host_static_priv v) (Some (v_credential v))
    (v_host_ephemeral v) (v_device_static v) (v_device_ephemeral v)) as (resp & trezor0 & req
    & result0 & keys & Hinit0 & Hcomp0 & _ & _ & _ & _ & Hstate & _ & _ & Hhand0).
  unfold v_init_request in Hinit. rewrite Hinit0 in Hinit. injection Hinit as Hr Ht. subst resp trezor0.
  destruct Hhand as (host & _ & _ & Hread & _ & _ & _ & _ & Hdone).
  destruct Hhand0 as (host0 & _ & _ & Hread0 & _ & _ & _ & _ & Hdone0).
  rewrite Hread0 in Hread. injection Hread as Hq Hh. subst req host0.
  rewrite Hcomp in Hcomp0. injection Hcomp0 as Hres. subst result0. rewrite <- Hfinal in Hdone0.
  rewrite Hdone in Hdone0. injection Hdone0 as Hkeys. by rewrite Hkeys.
Qed.

Lemma matches_not_reusable s slot w v :
  matches s (slot, w) -> at_wallet s <> Some (v_wallet v) -> not_reusable (v_wallet v) slot.
Proof. intros (Hk & _) Hne old -> Hold. apply Hne. by rewrite <- Hk. Qed.

Lemma connected_matches channel a c w open :
  connected ps channel sid fuel a c w -> an_replies a = [] ->
  matches {| at_wallet := if open : bool then seeded_key c else None;
             random := an_entropy a; typed := an_codes a |}
    (if open then Some c else None, w).
Proof.
  intros (s & d & turns & Hce & Ht & Hin & _ & He & Hcd) Hr. rewrite Hr in Ht.
  inversion Ht; subst turns. split; [by destruct open|]. split; [done|].
  split; [apply Hce|done].
Qed.

Lemma visit_simulates s v os log s1 cw :
  service_step s v os log s1 -> visit_ok v -> matches s cw ->
  exists cw1, client_visit v cw = (os, cw1)
    /\ wrote (connection_new BLE_PACKET_SIZE) (v_nonce v) (v_init_request v)
         (v_completion_request v) (v_allocation v) (v_keys v) log cw.2 cw1.2
    /\ matches s1 cw1.
Proof.
  intros Hstep ((Hhs & Hn & Hnok & Hhe & Hch & Hdc & Hraw & Hcred & Hl) & Hdev & Hturns) Hm.
  destruct Hstep as [s v E os open a' Hw Hrand Hans Hdone Hfit]. destruct cw as [slot w].
  pose proof (matches_not_reusable s slot w v Hm Hw) as Hslot.
  destruct Hm as (_ & Hin & Hwe & He & Hcd). cbn [fst snd] in *.
  assert (Hk : ask_fits (session_request (v_wallet v))).
  { destruct (answered_log (v_channel v) Hch _ _ _ _ _ Hans) as [l Hlog]. rewrite Hlog in Hfit.
    apply Forall_app in Hfit as [Hfit _]. exact (Forall_inv (Forall_inv_tail Hfit)). }
  pose proof (handshakes_paired v Hdev) as Hup.
  destruct Hdev as (trezor & result & _ & _ & _ & Hhand).
  destruct (ensure_conn_runs debug ps Hps sid Hsid fuel Hfuel Hack (v_channel v) Hch
    (v_passphrase v) (v_properties v) (v_broadcast_cid v) (v_host_static_priv v) (v_credential v)
    (v_host_ephemeral v) (v_nonce v) (v_init_response v) (v_completion_request v)
    (v_completion_response v) (v_keys v) slot (arrive (visit_reports v) w) E (v_turns v)
    (v_ended v) (v_created v) (v_replies v) Hhs Hslot Hn Hnok Hhe Hdc Hraw Hcred Hhand Hup Hwe)
    as (c1 & w1 & Hens & Hcon & Hs1); try done.
  { cbn [arrive entropy]. by rewrite He. }
  { cbn [arrive inbox]. by rewrite Hin. }
  { cbn [arrive inbox]. by rewrite Hin. }
  cbn [arrive codes] in Hcon, Hs1. rewrite Hcd in Hcon, Hs1.
  destruct (calls_run (v_channel v) Hch _ _ _ _ _ Hans (v_host_static_priv v) (v_credential v)
    (v_passphrase v) slot _ _ _ Hens eq_refl Hcon Hfit) as (c' & w' & Hrun & Hs2).
  exists (if open then Some c' else None, w'). split; [exact Hrun|]. split.
  - refine (wrote_served ps sid fuel (v_channel v) (connection_new BLE_PACKET_SIZE) (v_nonce v)
      (v_init_request v) (v_completion_request v) (v_allocation v) (v_keys v) _ E
      (arrive (visit_reports v) w) (Some (v_wallet v)) _ _ a' c1 w1 (c', w') _ _ Hs1 Hs2);
      reflexivity.
  - pose proof (connected_matches _ _ _ _ open (proj1 Hs2) Hdone) as Hm.
    cbn [fst snd] in Hm. rewrite (served_seeded _ _ _ _ _ _ _ Hs2) in Hm. exact Hm.
Qed.

(** C1: The client refines a wallet service. Take any history of calls, on any wallets in
    any order, against a device that follows the specification: whenever the service is
    asked for a wallet it is not open for (at first, after another wallet or after an
    error) a channel is brought up and a session seeded for exactly that wallet, and
    otherwise the call goes straight to the open connection. Every call returns what its
    operation makes of the device's answers, errors included; an error closes the service;
    everything written is the bring-ups and the requests, in order; and after the history
    the client is ready for the next one. *)
Theorem client_refines_service s h s' cw :
  service_run s h s' -> Forall (fun x => visit_ok x.1.1) h -> matches s cw ->
  exists cw', realises h cw cw' /\ matches s' cw'.
Proof.
  intros Hrun. revert cw. induction Hrun as [s|s v os log s1 h s' Hstep _ IH];
    intros cw Hok Hm; [by exists cw|].
  apply Forall_cons in Hok as [Hv Hok].
  destruct (visit_simulates _ _ _ _ _ _ Hstep Hv Hm) as (cw1 & Hvis & Hwr & Hm1).
  destruct (IH cw1 Hok Hm1) as (cw' & Hr & Hm'). exists cw'. split; [|exact Hm'].
  by exists cw1.
Qed.
End Service.

(** ** Witness: two signatures on a hidden wallet, a refused request on the standard one, and
    a signature there after it is opened again *)
Section Witness.
#[local] Existing Instance toy_crypto.
#[local] Existing Instance toy_crypto_laws.
#[local] Existing Instance toy_thp_proto.
#[local] Existing Instance toy_thp_proto_laws.
#[local] Existing Instance toy_bitcoin_proto.
#[local] Existing Instance toy_ethereum_proto.
#[local] Existing Instance toy_solana_proto.
#[local] Existing Instance toy_tron_proto.
#[local] Instance sample_bitcoin : RustBitcoin _ := toy_rust_bitcoin sample_psbt.

Definition no_debug : Z -> rstring := fun _ => [].
Definition sample_nonce : list Z := replicate 8 7%Z.
Definition sample_ephemeral : list Z := replicate 32 3%Z.
Definition signing_call : Call no_debug :=
  {| call_program := signing_program;
     call_operation := op_sol_sign_tx no_debug SEEDED_SESSION_ID (Solana.account_path 0)
       [1; 2; 3]%Z |}.

Definition sample_visit (pass : PassphraseSpec) (n : nat)
    (answers : list (turn * (TrezorError + Z * list Z)))
    (hs : list Z * list Z * list Z * SessionKeys) : Visit no_debug :=
  let '(resp, req, final, keys) := hs in
  {| v_host_static_priv := replicate 32 0x11%Z; v_credential := [5%Z]; v_passphrase := pass;
     v_calls := replicate n signing_call; v_broadcast_cid := BROADCAST_CID;
     v_channel := 0x1234; v_properties := sample_props; v_device_static := replicate 32 0x22%Z;
     v_device_ephemeral := replicate 32 4%Z; v_nonce := sample_nonce;
     v_host_ephemeral := sample_ephemeral; v_init_response := resp; v_completion_request := req;
     v_completion_response := final; v_keys := keys; v_ended := []; v_created := [];
     v_replies := answers.*2;
     v_turns := [([], (T_END_RESPONSE, [])); ([], (MSG_SUCCESS, []))] ++ answers.*1 |}.

Definition signed : turn * (TrezorError + Z * list Z) := (signing_turn, inr signed_message).
Definition refused : turn * (TrezorError + Z * list Z) :=
  (([], (MSG_SUCCESS, [])), inr (MSG_SUCCESS, [])).

Lemma sample_handshake :
  exists hs, forall pass n answers, device_handshakes no_debug (sample_visit pass n answers hs).
Proof.
  destruct (device_handshake (encode_to_vec sample_props) (replicate 32 0x11%Z) (Some [5%Z])
    sample_ephemeral (replicate 32 0x22%Z) (replicate 32 4%Z)) as (resp & trezor & req & result
    & keys & Hinit & Hcomp & _ & _ & _ & _ & _ & _ & _ & Hhand).
  exists (resp, req, rr_response result, keys). intros pass n answers. by exists trezor, result.
Qed.

Lemma sample_visit_ok fuel pass n answers hs :
  device_handshakes no_debug (sample_visit pass n answers hs) ->
  length (visit_reports no_debug 64 0 (sample_visit pass n answers hs)) <= fuel ->
  Forall (fun t => turn_ok t.1 t.2) answers ->
  visit_ok no_debug 64 0 fuel (sample_visit pass n answers hs).
Proof.
  intros Hhand Hl Ht. destruct hs as [[[resp req] final] keys]. split; [|split; [exact Hhand|]].
  - split_and!; try exact Hl; try (apply bytes_okb_true; reflexivity);
      vm_compute; congruence.
  - apply (Forall2_app (l1 := [_; _]) (l1' := [_; _])); [|by apply Forall2_fmap, Forall_Forall2_diag].
    apply (quiet_turns [inr (T_END_RESPONSE, []); inr (MSG_SUCCESS, [])]). vm_compute. reflexivity.
Qed.

Definition bring_up_random : list Z := sample_nonce ++ sample_ephemeral.
Definition sample_start : Service :=
  {| at_wallet := None; random := bring_up_random ++ bring_up_random ++ bring_up_random;
     typed := [] |}.
Definition sample_world : Script :=
  {| inbox := []; outbox := []; write_errors := []; entropy := random sample_start;
     codes := [] |}.
Definition sample_signature : Outcome := returned (Ret (replicate 64 7%Z)).

Definition sample_visits hs : list (Visit no_debug) :=
  [sample_visit (Types.Host (str "pp")) 2 [signed; signed] hs; sample_visit Standard 1 [refused] hs;
   sample_visit Standard 1 [signed] hs].

Lemma sample_run hs :
  exists e h s', service_run no_debug sample_start h s'
    /\ (fun x => x.1.1) <$> h = sample_visits hs
    /\ (fun x => x.1.2) <$> h
       = [[sample_signature; sample_signature]; [returned (A := list Z) (Fail e)];
          [sample_signature]].
Proof.
  destruct hs as [[[resp req] final] keys].
  eexists _, [(_, _, _); (_, _, _); (_, _, _)], _. split; [|by split].
  eapply service_visits; [|eapply service_visits; [|eapply service_visits; [|constructor]]].
  - eapply serve_visit; [discriminate|reflexivity|..].
    + eapply answered_next; [vm_compute; reflexivity|].
      apply answered_last. vm_compute. reflexivity.
    + reflexivity.
    + apply asks_fit. vm_compute. reflexivity.
  - eapply serve_visit; [discriminate|reflexivity|..].
    + apply answered_error. vm_compute. reflexivity.
    + reflexivity.
    + apply asks_fit. vm_compute. reflexivity.
  - eapply serve_visit; [discriminate|reflexivity|..].
    + apply answered_last. vm_compute. reflexivity.
    + reflexivity.
    + apply asks_fit. vm_compute. reflexivity.
Qed.

Lemma within_max {A} (f : A -> nat) l : Forall (fun x => f x <= S (list_max (f <$> l))) l.
Proof.
  induction l as [|x l IH]; constructor;
    change (list_max (f <$> x :: l)) with (Nat.max (f x) (list_max (f <$> l))); [lia|].
  eapply Forall_impl; [exact IH|]. intros y Hy. cbn beta in Hy. lia.
Qed.

Lemma signed_ok : turn_ok signed.1 signed.2.
Proof. apply signing_turn_ok. Qed.

Lemma refused_ok : turn_ok refused.1 refused.2.
Proof.
  refine (proj1 (Forall2_cons_1 _ _ _ _ _ (quiet_turns [inr (MSG_SUCCESS, [])] _))).
  vm_compute. reflexivity.
Qed.

Lemma sample_visits_ok hs :
  (forall pass n answers, device_handshakes no_debug (sample_visit pass n answers hs)) ->
  exists fuel, 0 < fuel /\ Forall (visit_ok no_debug 64 0 fuel) (sample_visits hs).
Proof.
  intros Hhand.
  pose proof (within_max (fun v => length (visit_reports no_debug 64 0 v)) (sample_visits hs)) as Hl.
  set (fuel := S (list_max _)) in Hl. exists fuel. split; [apply Nat.lt_0_succ|].
  apply Forall_cons in Hl as [H1 [H2 [H3 _]%Forall_cons]%Forall_cons].
  pose proof signed_ok as Hs. pose proof refused_ok as Hr.
  repeat apply Forall_cons_2; [| | |apply Forall_nil_2]; (apply sample_visit_ok;
    [apply Hhand|assumption|repeat (apply Forall_cons_2; [assumption|]); apply Forall_nil_2]).
Qed.

Lemma client_refines_service_witness :
  exists fuel h cw' e,
    (fun x => x.1.2) <$> h
    = [[sample_signature; sample_signature]; [returned (A := list Z) (Fail e)];
       [sample_signature]]
    /\ realises no_debug 64 0 fuel h (None, sample_world) cw'.
Proof.
  destruct sample_handshake as [hs Hhand]. destruct (sample_visits_ok hs Hhand) as (fuel & Hf & Hok).
  destruct (sample_run hs) as (e & h & s' & Hrun & Hv & Ho).
  destruct (client_refines_service no_debug 64 ltac:(unfold INIT_HEADER; lia) 0
    ltac:(unfold is_byte; lia) fuel Hf ltac:(apply fitsb_true; vm_compute; reflexivity)
    sample_start h s' (None, sample_world) Hrun) as (cw' & Hr & _).
  - rewrite <- Hv in Hok. exact (proj1 (Forall_fmap _ _ _) Hok).
  - by repeat split.
  - by exists fuel, h, cw', e.
Defined.
End Witness.
