(* ===== verification/SourceTests.v ===== *)
(** * The unit tests of the crate

    Each deterministic test function of the source as a boolean: true when none of its
    assertions fails. [source_tests_pass] evaluates them all on the definitions of this
    library, so the model agrees with the program on every vector its authors chose,
    the Elligator2 vectors of the device's own suite among them. *)

From S2P Require Import Prelude Types.
From S2P Require Import Ethereum Solana Tron Bitcoin.
From S2P Require Import Env Crypto Proto ChainProto Framing Channel Session Noise Connection.
From S2P Require Import Text Bip32 Field25519 FieldSpec Elligator2 Curve25519 Cpace Host Client.

(** [assert_eq!] on results, and [is_err]. *)
Definition returns {E A} `{EqDecision A} (o : outcome E A) (a : A) : bool :=
  match o with Ret b => bool_decide (b = a) | _ => false end.
Definition is_err {E A} (o : outcome E A) : bool :=
  match o with Fail _ => true | _ => false end.
Definition same {A} `{EqDecision A} (a b : A) : bool := bool_decide (a = b).

(** ** thp/framing.rs *)
Fixpoint push_each (packets : list (list Z)) (r : Reassembler) (out : option (list Z))
    : outcome TrezorError (option (list Z)) :=
  match packets with
  | [] => Ret out
  | p :: rest =>
    let '(done, r) := push_packet p r in
    done ← unwrap done;
    push_each rest r (match done with Some d => Some d | None => out end)
  end.

Definition round_trip (packet_size : nat) (cid control : Z) (payload : list Z)
    : outcome TrezorError (list Z) :=
  packets ← unwrap (segment packet_size cid control payload);
  if forallb (fun p => length p =? packet_size) packets then
    out ← push_each packets reassembler_new None;
    match out with Some d => Ret d | None => Panic end
  else Panic.

Definition crc32_standard_check_value : bool :=
  (crc32_ieee (str "123456789") =? 0xCBF43926)%Z.

Definition round_trip_single_packet : bool :=
  let payload := str "hello trezor" in
  returns (round_trip BLE_PACKET_SIZE 0x1234 control.ENCRYPTED_TRANSPORT payload) payload.

Definition round_trip_empty_payload : bool :=
  returns (round_trip BLE_PACKET_SIZE 0xABCD control.HANDSHAKE_INIT_REQUEST []) [].

Definition round_trip_exactly_fills_first_packet : bool :=
  let payload := replicate (BLE_PACKET_SIZE - INIT_HEADER - CRC_LEN) 0xA5%Z in
  returns (round_trip BLE_PACKET_SIZE 7 control.ENCRYPTED_TRANSPORT payload) payload.

Definition round_trip_multi_packet_ble_and_usb : bool :=
  let payload := (fun i => Z.of_nat i mod 256)%Z <$> seq 0 3000 in
  returns (round_trip BLE_PACKET_SIZE 1 control.ENCRYPTED_TRANSPORT payload) payload
  && returns (round_trip USB_PACKET_SIZE 1 control.ENCRYPTED_TRANSPORT payload) payload.

Definition continuation_before_initiation_is_dropped : bool :=
  let bogus_cont := resize BLE_PACKET_SIZE 0%Z [CONTINUATION_CONTROL; 0x00; 0x01]%Z in
  returns (push_packet bogus_cont reassembler_new).1 None.

Definition new_initiation_resets_in_progress_reassembly : bool :=
  let second_payload := str "second" in
  match segment BLE_PACKET_SIZE 9 control.ENCRYPTED_TRANSPORT (replicate 5000 1%Z),
        segment BLE_PACKET_SIZE 9 control.ENCRYPTED_TRANSPORT second_payload with
  | Ret (first_0 :: _), Ret (second_0 :: _) =>
    let '(partial, r) := push_packet first_0 reassembler_new in
    returns partial None && returns (push_packet second_0 r).1 (Some second_payload)
  | _, _ => false
  end.

Definition crc_corruption_is_rejected : bool :=
  match segment BLE_PACKET_SIZE 2 control.ENCRYPTED_TRANSPORT (str "tamper me") with
  | Ret (packets_0 :: _) =>
    let tampered := alter (fun b => Z.lxor b 0xFF) 6 packets_0 in
    is_err (push_packet tampered reassembler_new).1
  | _ => false
  end.

Definition oversized_payload_is_rejected : bool :=
  let too_big := replicate (Z.to_nat 65535 - CRC_LEN + 1) 0%Z in
  is_err (segment BLE_PACKET_SIZE 1 control.ENCRYPTED_TRANSPORT too_big).

Definition framing_tests : list bool :=
  [crc32_standard_check_value; round_trip_single_packet; round_trip_empty_payload;
   round_trip_exactly_fills_first_packet; round_trip_multi_packet_ble_and_usb;
   continuation_before_initiation_is_dropped; new_initiation_resets_in_progress_reassembly;
   crc_corruption_is_rejected; oversized_payload_is_rejected].

(** ** thp/elligator2.rs *)
Definition hex_value (c : Z) : Z :=
  if (c <? 58)%Z then (c - 48)%Z else (c - 87)%Z.
Fixpoint hex_bytes (s : rstring) : list Z :=
  match s with
  | a :: b :: rest => (16 * hex_value a + hex_value b)%Z :: hex_bytes rest
  | _ => []
  end.
Definition hex32 (s : string) : list Z := hex_bytes (str s).

Definition field_round_trips_bytes : bool :=
  let b := hex32 "66665895c5bc6e44ba8d65fd9307092e3244bf2c18877832bd568cb3a2d38a12" in
  let expected := alter (fun x => Z.land x 0x7f) 31 b in
  same (to_bytes (from_bytes b)) expected.

Definition elligator2_cases : list (string * string) :=
  [("0000000000000000000000000000000000000000000000000000000000000000",
    "0000000000000000000000000000000000000000000000000000000000000000");
   ("66665895c5bc6e44ba8d65fd9307092e3244bf2c18877832bd568cb3a2d38a12",
    "04d44290d13100b2c25290c9343d70c12ed4813487a07ac1176daa5925e7975e");
   ("673a505e107189ee54ca93310ac42e4545e9e59050aaac6f8b5f64295c8ec02f",
    "242ae39ef158ed60f20b89396d7d7eef5374aba15dc312a6aea6d1e57cacf85e");
   ("990b30e04e1c3620b4162b91a33429bddb9f1b70f1da6e5f76385ed3f98ab131",
    "998e98021eb4ee653effaa992f3fae4b834de777a953271baaa1fa3fef6b776e");
   ("341a60725b482dd0de2e25a585b208433044bc0a1ba762442df3a0e888ca063c",
    "683a71d7fca4fc6ad3d4690108be808c2e50a5af3174486741d0a83af52aeb01");
   ("922688fa428d42bc1fa8806998fbc5959ae801817e85a42a45e8ec25a0d7541a",
    "696f341266c64bcfa7afa834f8c34b2730be11c932e08474d1a22f26ed82410b")]%string.

Definition matches_trezor_elligator2_vectors : bool :=
  forallb (fun c => same (map_to_curve25519 (hex32 c.1)) (hex32 c.2)) elligator2_cases.

(** Which of the two coordinates the map takes, the inverse of the denominator and a
    square root that shows it, per vector. *)
Definition elligator2_certificates : list (bool * Z * Z) :=
  [(false, 0x0000000000000000000000000000000000000000000000000000000000000001, 0x4fea6c8a2c4843d23600e10335d7d58b8640744e2f080f7c06ed7a209978ad8d);
   (false, 0x1cc8e16a55bc4f15383c63a9507891aa6886b50767f76db897f62ff8df463497, 0x1e27f8868ccb6080d893dd2ae3053e85a9f8b1f8f2e2bd2c807922309a920df0);
   (true, 0x1d78a7034996119891678ced8ab706df98e76bbe6a66a7435662856c12a78440, 0x1b08d84da25dd8ba60094f4c0a68aa06449fe4d2aced04a8208927a72f30c68a);
   (true, 0x321e8e0c49c458882fd3651e9c29533da49148b5445a10758307bf5850c63dc0, 0x4ca34632be797dbc0741e0838504892badd873eba43fd9324cc64ea384dadb05);
   (true, 0x500f5e180e11d5d6d0d3ec930e30353928545e78882aa99f9aec99fc76ec4100, 0x4b54278a874f38e60fc9392051347c1ec873b2b72ec8c08081a1a55f34b6a333);
   (false, 0x2a808b8bf34b342c39e0805f0e67c0caf8c93c01202d7177fdb0875c53cb39ad, 0x2942c1a19ec35d154baa4ae075fb513285489a27603f14a74eae6b18657121a7)]%Z.

Definition certified_case (c : (string * string) * (bool * Z * Z)) : bool :=
  let '((input, expected), (first, w, r)) := c in
  bytes_okb (hex32 input) && (length (hex32 input) =? 32)
  && certified_image (from_le (hex32 input) mod 2 ^ 255)%Z first w r
  && same (certified_bytes (hex32 input) first w) (hex32 expected).

Lemma certified_case_passes c cert :
  certified_case (c, cert) = true -> same (map_to_curve25519 (hex32 c.1)) (hex32 c.2) = true.
Proof.
  destruct c as [input expected], cert as [[first w] r]. unfold certified_case.
  change ((input, expected).1) with input. change ((input, expected).2) with expected.
  generalize (hex32 input), (hex32 expected). clear. intros i e H.
  apply andb_prop in H as [H Hs]. apply andb_prop in H as [H Hc]. apply andb_prop in H as [Hb Hl].
  rewrite (map_to_curve25519_certified i first w r); [exact Hs| | |exact Hc].
  - by apply bytes_okb_true.
  - by apply Nat.eqb_eq.
Qed.

Lemma certified_cases_pass cases certs :
  length certs = length cases ->
  forallb certified_case (zip cases certs) = true ->
  forallb (fun c => same (map_to_curve25519 (hex32 c.1)) (hex32 c.2)) cases = true.
Proof.
  revert certs. induction cases as [|c cases IH]; intros [|cert certs] Hl H;
    [reflexivity|discriminate Hl|discriminate Hl|].
  cbn [zip zip_with forallb] in *. apply andb_prop in H as [Hc H].
  apply certified_case_passes in Hc. rewrite Hc. cbn [andb]. apply (IH certs); [|exact H].
  by injection Hl.
Qed.

(** The limb program gives the device's bytes on every vector. *)
Lemma elligator2_vectors_pass : matches_trezor_elligator2_vectors = true.
Proof.
  apply (certified_cases_pass elligator2_cases elligator2_certificates); [reflexivity|].
  vm_compute. reflexivity.
Qed.

Lemma field_round_trips_bytes_passes : field_round_trips_bytes = true.
Proof. vm_compute. reflexivity. Qed.


(** [round_trip] gives back every frame; its loop keeps the one payload that completes. *)
Lemma push_each_feeds s pkts d s' out :
  feeds s pkts d s' -> push_each pkts s out = Ret (Some d).
Proof.
  intros Hf. revert out. induction Hf as [s p d s' Hp|s p s1 ps d s' Hp _ IH]; intros out;
    cbn [push_each]; rewrite Hp; [done|exact (IH out)].
Qed.

Lemma round_trip_returns packet_size cid ctrl payload :
  INIT_HEADER < packet_size -> valid_frame ctrl cid payload ->
  round_trip packet_size cid ctrl payload = Ret payload.
Proof.
  intros Hps Hv. destruct (segment_spec packet_size cid ctrl payload Hps Hv)
    as (first & rest & Hseg & Hall & _ & _ & Hfeed).
  unfold round_trip. rewrite Hseg. cbn [unwrap mbind outcome_bind].
  assert (forallb (fun p => length p =? packet_size) (first :: rest) = true) as ->.
  { apply List.forallb_forall. intros p Hp%list_elem_of_In. apply Nat.eqb_eq.
    by apply (proj1 (Forall_forall _ _) Hall). }
  by rewrite (push_each_feeds _ _ _ _ _ (Hfeed reassembler_new)).
Qed.

(** ** thp/connection.rs *)
(** [str::contains] *)
Fixpoint contains (needle s : rstring) : bool :=
  match s with
  | [] => same needle []
  | c :: rest => same (take (length needle) s) needle || contains needle rest
  end.

Definition decode_transport_error_messages : bool :=
  match decode_transport_error [1%Z] with TransportBusy => true | _ => false end
  && contains (str "locked") (error_to_string (decode_transport_error [5%Z]))
  && contains (str "unallocated") (error_to_string (decode_transport_error [2%Z]))
  && contains (str "decryption") (error_to_string (decode_transport_error [3%Z])).

(** ** thp/cpace.rs *)
Definition code_is_zero_padded_six_digits : bool :=
  returns (format_code 42) (str "000042") && returns (format_code 123456) (str "123456").

Definition padding_is_111_zeros_between_markers : bool :=
  same (padding !! 0) (Some 0x6f%Z) && same (padding !! (PADDING_LEN - 1)) (Some 0x20%Z)
  && forallb (fun b => b =? 0)%Z (drop 1 (take (PADDING_LEN - 1) padding)).

(** ** thp/noise.rs, thp/session.rs *)
Definition protocol_name_is_32_bytes : bool := length PROTOCOL_NAME =? 32.

Definition iv_encodes_nonce_as_zero_padded_be_u64 : bool :=
  same (iv_from_nonce 0) (replicate 12 0%Z)
  && same (iv_from_nonce 1) (replicate 11 0 ++ [1])%Z
  && same (iv_from_nonce 0x0102030405060708) [0; 0; 0; 0; 1; 2; 3; 4; 5; 6; 7; 8]%Z.

Definition app_message_round_trips : bool :=
  let framed := encode_app_message 0 0x0011 [0xde; 0xad]%Z in
  same framed [0x00; 0x00; 0x11; 0xde; 0xad]%Z
  && returns (decode_app_message framed) (0, 0x0011, [0xde; 0xad])%Z.

Definition paired_sessions : Session * Session :=
  let k_req := replicate 32 0x11%Z in
  let k_resp := replicate 32 0x22%Z in
  (session_new k_req k_resp 0 1, session_new k_resp k_req 1 0).

(** Messages sealed by [a] and opened by [b], one after the other. *)
Fixpoint relay {CR : Crypto} (msgs : list (list Z)) (a b : Session)
    : option (Session * Session) :=
  match msgs with
  | [] => Some (a, b)
  | m :: rest =>
    let '(ct, a) := session_seal m a in
    let '(opened, b) := session_open ct b in
    if returns opened m then relay rest a b else None
  end.

Definition transport_round_trips_both_directions_with_advancing_nonces {CR : Crypto} : bool :=
  let '(host, trezor) := paired_sessions in
  match relay [replicate 10 0%Z; replicate 10 1%Z; replicate 10 2%Z] host trezor with
  | Some (host, trezor) =>
    match relay [replicate 5 0xF0%Z; replicate 5 0xF1%Z] trezor host with
    | Some (_, host) => (nonce_send host =? 3)%Z && (nonce_recv host =? 3)%Z
    | None => false
    end
  | None => false
  end.

(** ** bip32.rs *)
Definition hard (n : Z) : Z := (0x80000000 + n)%Z.

Definition parses_hardened_and_unhardened : bool :=
  returns (parse_path (str "m/44'/501'/0'/0'")) [hard 44; hard 501; hard 0; hard 0]
  && returns (parse_path (str "m/44'/60'/0'/0/0")) [hard 44; hard 60; hard 0; 0; 0]%Z.

Definition accepts_h_suffix_and_no_m_prefix : bool :=
  returns (parse_path (str "44h/195h/2h")) [hard 44; hard 195; hard 2].

Definition empty_path_is_empty_vec : bool :=
  returns (parse_path (str "m")) [] && returns (parse_path (str "m/")) [].

Definition rejects_garbage : bool :=
  is_err (parse_path (str "m/44'/xx/0")) && is_err (parse_path (str "m/44'//0"))
  && is_err (parse_path (str "m/4294967296")).

(** ** chains *)
Definition account_path_is_bip84_hardened : bool :=
  same (Bitcoin.account_path 0 0) [hard 84; hard 0; hard 0]
  && same (Bitcoin.account_path 2 1) [hard 84; hard 1; hard 2].

Definition script_type_follows_purpose : bool :=
  let h := 0x80000000%Z in
  same (script_type_for_path [Z.lor h 44; h; h]) InputScriptType.Spendaddress
  && same (script_type_for_path [Z.lor h 49; h; h]) InputScriptType.Spendp2shwitness
  && same (script_type_for_path [Z.lor h 84; h; h]) InputScriptType.Spendwitness
  && same (script_type_for_path [Z.lor h 86; h; h]) InputScriptType.Spendwitness
  && same (script_type_for_path []) InputScriptType.Spendwitness.

Definition coin_name_maps_mainnet_and_testnet : bool :=
  same (coin_name 0) (str "Bitcoin") && same (coin_name 1) (str "Testnet")
  && same (coin_name 99) (str "Bitcoin").

Definition account_path_is_slip10_hardened : bool :=
  same (Solana.account_path 0) [hard 44; hard 501; hard 0; hard 0]
  && same (Solana.account_path 3) [hard 44; hard 501; hard 3; hard 0].

Definition account_path_is_bip44 : bool :=
  same (Tron.account_path 0) [hard 44; hard 195; hard 0; 0; 0]%Z.

Definition decodes_native_eip1559_envelope : bool :=
  let chain_id := 11155111%Z in
  let to := replicate 20 0x11%Z in
  let nonce := [0x05]%Z in
  let max_priority := [0x3b; 0x9a; 0xca; 0x00]%Z in
  let max_fee := [0x06; 0xfc; 0x23; 0xac; 0x00]%Z in
  let gas_limit := [0x52; 0x08]%Z in
  let value := [0x01]%Z in
  let payload := rlp_list
    [rlp_bytes (minimal_be chain_id); rlp_bytes nonce; rlp_bytes max_priority;
     rlp_bytes max_fee; rlp_bytes gas_limit; rlp_bytes to; rlp_bytes value; rlp_bytes [];
     rlp_list []] in
  match decode_eip1559_envelope (0x02%Z :: payload) with
  | Ret tx =>
    (tx_chain_id tx =? chain_id)%Z && same (tx_nonce tx) nonce
    && same (tx_max_priority_fee tx) max_priority && same (tx_max_fee tx) max_fee
    && same (tx_gas_limit tx) gas_limit && same (tx_to tx) to && same (tx_value tx) value
    && same (tx_data tx) []
  | _ => false
  end.

Definition decodes_erc20_envelope_with_calldata : bool :=
  let data := [0xa9; 0x05; 0x9c; 0xbb]%Z ++ replicate 64 0%Z in
  let payload := rlp_list
    [rlp_bytes (minimal_be 1); rlp_bytes []; rlp_bytes [0x01]%Z; rlp_bytes [0x02]%Z;
     rlp_bytes [0x52; 0x08]%Z; rlp_bytes (replicate 20 0x22%Z); rlp_bytes []; rlp_bytes data;
     rlp_list []] in
  (length data =? 68)
  && match decode_eip1559_envelope (0x02%Z :: payload) with
     | Ret tx =>
       (tx_chain_id tx =? 1)%Z && same (tx_nonce tx) []
       && same (tx_to tx) (replicate 20 0x22%Z) && same (tx_value tx) []
       && same (tx_data tx) data
     | _ => false
     end.

Definition rejects_non_typed_envelope : bool :=
  is_err (decode_eip1559_envelope [0x01; 0x02; 0x03]%Z) && is_err (decode_eip1559_envelope []).

(** ** tests/skeleton.rs *)
(** A transport that is never driven. *)
Record NullTransport : Type := {}.

#[export] Instance null_transport_env : Env NullTransport := {|
  getrandom := fun n w => (inr (replicate n 0%Z), w);
  write_chunk := fun _ => mret tt;
  read_chunk := mret [];
  request_code := fun w => ([], w);
|}.

Definition assert_not_implemented {A} (m : Cli NullTransport A) : bool :=
  match (m (None, Build_NullTransport)).1 with Fail (NotImplemented _) => true | _ => false end.

Definition identity_surface_is_declared_and_stubbed : bool :=
  assert_not_implemented identify && assert_not_implemented pair
  && assert_not_implemented (sign_message (str "maknoon")).

Definition tron_pubkey_has_no_trezor_message : bool :=
  assert_not_implemented (get_tron_pubkey 0).

(** ** The suite *)
Definition source_tests : list bool :=
  [crc32_standard_check_value; continuation_before_initiation_is_dropped;
   new_initiation_resets_in_progress_reassembly; crc_corruption_is_rejected;
   oversized_payload_is_rejected; decode_transport_error_messages;
   code_is_zero_padded_six_digits; padding_is_111_zeros_between_markers;
   protocol_name_is_32_bytes; iv_encodes_nonce_as_zero_padded_be_u64; app_message_round_trips;
   parses_hardened_and_unhardened; accepts_h_suffix_and_no_m_prefix; empty_path_is_empty_vec;
   rejects_garbage; account_path_is_bip84_hardened; script_type_follows_purpose;
   coin_name_maps_mainnet_and_testnet; account_path_is_slip10_hardened; account_path_is_bip44;
   decodes_native_eip1559_envelope; decodes_erc20_envelope_with_calldata;
   rejects_non_typed_envelope; identity_surface_is_declared_and_stubbed;
   tron_pubkey_has_no_trezor_message].

Lemma source_tests_pass : forallb id source_tests = true.
Proof. vm_compute. reflexivity. Qed.

(** The tests that depend on the primitives or take long to evaluate. *)
Lemma round_trip_tests_pass :
  forallb id [round_trip_single_packet; round_trip_empty_payload;
    round_trip_exactly_fills_first_packet; round_trip_multi_packet_ble_and_usb] = true.
Proof.
  unfold round_trip_single_packet, round_trip_empty_payload,
    round_trip_exactly_fills_first_packet, round_trip_multi_packet_ble_and_usb, returns.
  cbv zeta. rewrite !round_trip_returns by
    (first [by apply Nat.ltb_lt
           |split; [done|]; split; [done|]; split;
             [apply bytes_okb_true; vm_compute; reflexivity
             |apply Z.ltb_lt; vm_compute; reflexivity]]).
  by rewrite !bool_decide_true.
Qed.

Lemma relay_step {CR : Crypto} {CL : CryptoLaws} m rest a b :
  key_send a = key_recv b -> nonce_send a = nonce_recv b ->
  relay (m :: rest) a b
  = relay rest {| key_send := key_send a; key_recv := key_recv a;
                  nonce_send := bump (nonce_send a); nonce_recv := nonce_recv a |}
      {| key_send := key_send b; key_recv := key_recv b; nonce_send := nonce_send b;
         nonce_recv := bump (nonce_recv b) |}.
Proof.
  intros Hk Hn. cbn [relay session_seal]. unfold session_open. mred.
  rewrite <- Hk, <- Hn, open_seal. unfold returns. by rewrite bool_decide_true.
Qed.

Lemma transport_tests_pass {CR : Crypto} {CL : CryptoLaws} :
  transport_round_trips_both_directions_with_advancing_nonces = true.
Proof.
  unfold transport_round_trips_both_directions_with_advancing_nonces, paired_sessions.
  rewrite !relay_step by done.
  match goal with |- context [relay [] ?a ?b] => change (relay [] a b) with (Some (a, b)) end.
  cbv beta iota. by rewrite !relay_step by done.
Qed.

(** A transport that answers every read at once with an empty report keeps
    [read_framed] reading: no bound on its reads is enough. *)
Lemma null_transport_never_frames {CR : Crypto} {PM : ThpProto} fuel c w :
  read_framed (W := NullTransport) fuel (c, w) = (NoFuel, (c, w)).
Proof.
  unfold read_framed. generalize 0%Z, reassembler_new.
  induction fuel as [|fuel IH]; intros ctrl r; [done|]. cbn [read_loop].
  unfold mbind, st_bind, on_env, env_read. cbn [fst snd read_chunk null_transport_env]. apply IH.
Qed.
