(* ===== verification/PrimitiveTests.v ===== *)
(** * The unit tests that call foreign code

    The test functions of the crate that use its cryptographic primitives, the protobuf
    codecs, the platform generator or the bitcoin crate, as programs over those interfaces.
    A test that follows from the documented laws is proved to pass for every implementation;
    one that needs more of a primitive (two outputs that differ, a forged ciphertext that is
    refused) is run on the concrete instance. A failed [unwrap] panics. *)

From S2P Require Import Prelude Types.
From S2P Require Import Ethereum Solana Tron Bitcoin.
From S2P Require Import Env Crypto Proto ChainProto Framing Channel Session Noise Connection.
From S2P Require Import MockDevice BringUp Elligator2 Curve25519 Cpace SourceTests.

Definition passes {E} (o : outcome E bool) : Prop := o = Ret true.

(** ** proto.rs *)
Definition protobuf_round_trips_via_prost {PM : ThpProto} : outcome rstring bool :=
  let msg := {| cns_passphrase := Some (str "correct horse"); cns_on_device := Some true;
                cns_derive_cardano := None |} in
  let bytes := encode_to_vec msg in
  decoded ← unwrap (map_err id (decode (T := ThpCreateNewSession) bytes));
  mret (same (cns_passphrase decoded) (cns_passphrase msg)
        && same (cns_on_device decoded) (cns_on_device msg)
        && same (cns_derive_cardano decoded) (cns_derive_cardano msg)
        && same (cns_passphrase decoded) (Some (str "correct horse"))).

Lemma proto_test_passes {PM : ThpProto} {PL : ThpProtoLaws} :
  passes protobuf_round_trips_via_prost.
Proof. unfold passes, protobuf_round_trips_via_prost. by rewrite decode_encode. Qed.

(** ** thp/channel.rs *)
Definition sample_properties : ThpDeviceProperties := {|
  internal_model := str "T3W1"; model_variant := None; protocol_version_major := 2;
  protocol_version_minor := 0; pairing_methods := [] |}.

Section Channel.
Context {PM : ThpProto}.

Definition request_payload_is_the_nonce : bool :=
  let nonce := [1; 2; 3; 4; 5; 6; 7; 8]%Z in
  same (build_allocation_request nonce) nonce.

Definition parses_a_matching_response {W} `{!Env W} : ST W TrezorError bool :=
  nonce ← random_allocation_nonce;
  let props := sample_properties in
  let payload := build_response nonce 0x1234 (encode_to_vec props) in
  allocation ← lift (unwrap (parse_allocation_response nonce payload));
  mret ((alloc_cid allocation =? 0x1234)%Z
        && same (internal_model (device_properties allocation)) (str "T3W1")
        && (protocol_version_major (device_properties allocation) =? 2)%Z
        && same (device_properties_raw allocation) (encode_to_vec props)).

Definition rejects_nonce_mismatch : bool :=
  let sent := replicate 8 9%Z in
  let other := replicate 8 8%Z in
  let payload := build_response other 5 (encode_to_vec sample_properties) in
  is_err (parse_allocation_response sent payload).

Definition rejects_truncated_response : bool :=
  is_err (parse_allocation_response (replicate 8 0%Z) (replicate 5 0%Z)).

Lemma channel_tests_pass :
  request_payload_is_the_nonce && rejects_nonce_mismatch && rejects_truncated_response = true.
Proof. vm_compute. reflexivity. Qed.

Lemma parses_a_matching_response_passes {PL : ThpProtoLaws} {W} `{!Env W} w b w' :
  getrandom ALLOCATION_NONCE_LEN w = (inr b, w') -> length b = ALLOCATION_NONCE_LEN ->
  passes (parses_a_matching_response w).1.
Proof.
  intros Hr Hl. unfold passes, parses_a_matching_response, random_allocation_nonce, random_bytes.
  mred. rewrite Hr, parse_built_response by done. cbn [unwrap alloc_cid device_properties
    device_properties_raw internal_model protocol_version_major sample_properties].
  unfold same. by rewrite !bool_decide_true.
Qed.
End Channel.

(** ** thp/noise.rs *)
Section Noise.
Context {CR : Crypto} {PM : ThpProto}.

Definition hkdf_is_deterministic_and_distinct_outputs : bool :=
  let '(a, b) := hkdf PROTOCOL_NAME (str "input") in
  let '(a2, b2) := hkdf PROTOCOL_NAME (str "input") in
  same a a2 && same b b2 && negb (same a b).

Definition aead_round_trips_and_detects_tampering : outcome TrezorError bool :=
  let key := replicate 32 7%Z in
  let ct := seal key IV_ZERO (str "ad") (str "secret") in
  opened ← unwrap (open key IV_ZERO (str "ad") ct);
  let wrong_aad := open key IV_ZERO (str "other") ct in
  let tag := seal key IV_ZERO (str "ad") [] in
  empty ← unwrap (open key IV_ZERO (str "ad") tag);
  mret (same opened (str "secret") && is_err wrong_aad && (length tag =? TAG_LEN)
        && (length empty =? 0)).

Definition host_and_trezor_complete_handshake_and_agree_on_keys {W} `{!Env W}
    : ST W TrezorError bool :=
  let device_properties := [0x0a; 0x04]%Z ++ str "T3W1" ++ [0x18; 0x02; 0x20; 0x00]%Z in
  let host_static := replicate 32 0x11%Z in
  let trezor_static := replicate 32 0x22%Z in
  host ← handshake_new device_properties 0x00 host_static None;
  let trezor := responder_new device_properties trezor_static in
  let req1 := init_request_payload host in
  ephemeral ← random_scalar;
  let '(resp1, trezor) := handle_init_request ephemeral req1 trezor in
  resp1 ← lift resp1;
  let '(req2, host) := read_init_response resp1 host in
  req2 ← lift (unwrap req2);
  let '(trezor_out, trezor) := handle_completion_request req2 trezor in
  trezor_out ← lift trezor_out;
  keys ← lift (unwrap (read_completion_response (rr_response trezor_out) host).1);
  mret (same (key_request keys) (rr_key_request trezor_out)
        && same (key_response keys) (rr_key_response trezor_out)
        && negb (same (key_request keys) (key_response keys))
        && same (rr_host_static_pub trezor_out) (public_key host_static)
        && same (trezor_state keys) [0x02%Z]
        && (nonce_request keys =? 0)%Z && (nonce_response keys =? 1)%Z).

Definition tampered_init_response_is_rejected {W} `{!Env W} : ST W TrezorError bool :=
  let device_properties := str "props" in
  host ← handshake_new device_properties 0 (replicate 32 0x33%Z) None;
  let trezor := responder_new device_properties (replicate 32 0x44%Z) in
  let req1 := init_request_payload host in
  ephemeral ← random_scalar;
  resp1 ← lift (handle_init_request ephemeral req1 trezor).1;
  let resp1 := alter (fun b => Z.lxor b 0x01) PUBKEY_LEN resp1 in
  mret (is_err (read_init_response resp1 host).1).
End Noise.

(** ** thp/session.rs *)
Definition tampered_ciphertext_is_rejected_and_nonce_holds {CR : Crypto} : bool :=
  let '(host, trezor) := paired_sessions in
  let '(ct, host) := session_seal (str "important") host in
  let ct := alter (fun b => Z.lxor b 0xFF) 0 ct in
  let '(rejected, trezor) := session_open ct trezor in
  let host2 := session_new (replicate 32 0x11%Z) (replicate 32 0x22%Z) 0 1 in
  let '(good, host2) := session_seal (str "important") host2 in
  let '(opened, trezor) := session_open good trezor in
  is_err rejected && returns opened (str "important").

(** The scalars the generator yields in a run on the concrete primitives. *)
Definition test_entropy : Script :=
  {| inbox := []; outbox := []; write_errors := [];
     entropy := replicate 32 3%Z ++ replicate 32 4%Z; codes := [] |}.

Lemma noise_tests_pass :
  let CR := toy_crypto in let PM := toy_thp_proto in
  hkdf_is_deterministic_and_distinct_outputs = true
  /\ passes aead_round_trips_and_detects_tampering
  /\ passes (host_and_trezor_complete_handshake_and_agree_on_keys test_entropy).1
  /\ passes (tampered_init_response_is_rejected test_entropy).1
  /\ tampered_ciphertext_is_rejected_and_nonce_holds = true.
Proof. repeat split; vm_compute; reflexivity. Qed.

(** ** thp/cpace.rs *)
Section Cpace.
Context {CR : Crypto}.

Definition host_and_trezor_agree_on_cpace_tag : outcome TrezorError bool :=
  code ← format_code 314159;
  let handshake_hash := replicate 32 0x5a%Z in
  let trezor_private := replicate 32 0x33%Z in
  let host_private := replicate 32 0x44%Z in
  let g := generator code handshake_hash in
  let trezor_public := Cpace.x25519 trezor_private g in
  let host := host_cpace code handshake_hash trezor_public host_private in
  let trezor_shared := Cpace.x25519 trezor_private (host_public host) in
  let trezor_tag := sha256 trezor_shared in
  wrong_code ← format_code 271828;
  let wrong := host_cpace wrong_code handshake_hash trezor_public host_private in
  let device_shared_wrong := Cpace.x25519 trezor_private (host_public wrong) in
  let device_tag_wrong := sha256 device_shared_wrong in
  mret (same (tag host) trezor_tag && negb (same (tag wrong) device_tag_wrong)).

(** The agreement holds for every implementation of the primitives; that a wrong code
    shows takes a hash without this collision. *)
Lemma cpace_test_passes {CL : CryptoLaws} :
  let g code := generator code (replicate 32 0x5a%Z) in
  let shared code := x25519_dh (replicate 32 0x33%Z) (x25519_dh (replicate 32 0x44%Z) (g code)) in
  sha256 (shared (str "314159")) <> sha256 (shared (str "271828")) ->
  passes host_and_trezor_agree_on_cpace_tag.
Proof.
  intros g shared Hne. unfold passes, host_and_trezor_agree_on_cpace_tag.
  change (format_code 314159) with (Ret (E := TrezorError) (str "314159")).
  change (format_code 271828) with (Ret (E := TrezorError) (str "271828")).
  cbn [mbind outcome_bind mret outcome_ret]. unfold host_cpace, Cpace.x25519.
  cbn [host_public tag]. unfold shared, g in Hne.
  rewrite (dh_comm (replicate 32 0x44%Z) (replicate 32 0x33%Z)). unfold same.
  by rewrite bool_decide_true, bool_decide_false.
Qed.
End Cpace.

(** ** chains/tron.rs *)
Section Tron.
Context {TP : TronProto}.

Definition lifts_transfer_contract_from_raw_data : outcome rstring bool :=
  let transfer := {| ttc_owner_address := replicate 21 0x41%Z;
                     ttc_to_address := replicate 21 0x41%Z; ttc_amount := 1000000 |} in
  let raw := {|
    trt_ref_block_bytes := [0x12; 0x34]%Z; trt_ref_block_hash := replicate 8 0xaa%Z;
    trt_expiration := 111; trt_data := None; trt_timestamp := 222; trt_fee_limit := None;
    trt_contract := [{| trc_type := TransferContract;
      trc_type_url := str "type.googleapis.com/protocol.TransferContract";
      trc_value := encode_to_vec transfer |}] |} in
  let bytes := encode_to_vec raw in
  decoded ← unwrap (map_err id (decode (T := TronRawTransaction) bytes));
  c ← idx (trt_contract decoded) 0;
  tc ← unwrap (map_err id (decode (T := TronTransferContract) (trc_value c)));
  mret (same (trt_ref_block_bytes decoded) [0x12; 0x34]%Z && (trt_expiration decoded =? 111)%Z
        && (trc_type c =? TransferContract)%Z && (ttc_amount tc =? 1000000)%Z
        && same (ttc_owner_address tc) (replicate 21 0x41%Z)).

Lemma tron_test_passes {TL : TronProtoLaws} : passes lifts_transfer_contract_from_raw_data.
Proof.
  unfold passes, lifts_transfer_contract_from_raw_data. rewrite decode_encode.
  cbn [map_err unwrap mbind outcome_bind trt_contract idx lookup list_lookup trc_value].
  by rewrite decode_encode.
Qed.
End Tron.

(** ** chains/bitcoin.rs *)
Section Bitcoin.
Context {R : Type} {RB : RustBitcoin R} (rest : R).
(** The key of [SecretKey::from_slice(&[0x11; 32])] and its witness script. *)
Context (pk wpkh : list Z).

(** [Psbt::from_unsigned_tx]: an empty map per input and output. *)
Definition from_unsigned_tx (tx : Transaction) : Psbt R := {|
  unsigned_tx := tx;
  psbt_inputs := (fun _ => {| pi_witness_utxo := None; pi_non_witness_utxo := None;
    pi_bip32_derivation := []; pi_partial_sigs := ∅; pi_rest := rest |}) <$> tx_input tx;
  psbt_outputs := (fun _ => {| po_bip32_derivation := []; po_rest := rest |}) <$> tx_output tx;
  psbt_rest := rest |}.

(** The display form of the id is the test's literal, 01 to 20 in hexadecimal. *)
Definition test_txid : list Z := reverse (Z.of_nat <$> seq 1 32).

Definition test_psbt : Psbt R :=
  let tx := {|
    tx_version := 2; tx_lock_time := 0;
    tx_input := [{| ti_previous_output := {| op_txid := test_txid; op_vout := 7 |};
                    ti_script_sig := []; ti_sequence := 0xfffffffd; ti_witness := [] |}];
    tx_output := [{| to_value := 50000; to_script_pubkey := wpkh |};
                  {| to_value := 10000; to_script_pubkey := wpkh |}] |} in
  let psbt := from_unsigned_tx tx in
  let fp := replicate 4 0%Z in
  let in_path := [hard 84; hard 1; hard 0; 0; 0]%Z in
  let change_path := [hard 84; hard 1; hard 0; 1; 0]%Z in
  {| unsigned_tx := unsigned_tx psbt;
     psbt_inputs := alter (fun i => {|
       pi_witness_utxo := Some {| to_value := 60000; to_script_pubkey := wpkh |};
       pi_non_witness_utxo := pi_non_witness_utxo i;
       pi_bip32_derivation := [(pk, (fp, in_path))];
       pi_partial_sigs := pi_partial_sigs i; pi_rest := pi_rest i |}) 0 (psbt_inputs psbt);
     psbt_outputs := alter (fun o => {|
       po_bip32_derivation := [(pk, (fp, change_path))]; po_rest := po_rest o |}) 1
       (psbt_outputs psbt);
     psbt_rest := psbt_rest psbt |}.

Definition maps_bip84_input_and_outputs : outcome TrezorError bool :=
  input ← unwrap (build_input_ack test_psbt 0);
  out0 ← unwrap (build_output_ack test_psbt 0 NetTestnet);
  out1 ← unwrap (build_output_ack test_psbt 1 NetTestnet);
  mret ((tai_amount input =? 60000)%Z && (tai_prev_index input =? 7)%Z
        && same (tai_sequence input) (Some 0xfffffffd%Z)
        && same (tai_script_type input) (Some InputScriptType.Spendwitness)
        && same (tai_address_n input) [hard 84; hard 1; hard 0; 0; 0]%Z
        && same (tai_prev_hash input) (reverse test_txid)
        && (tao_amount out0 =? 50000)%Z
        && same (tao_script_type out0) (Some OutputScriptType.Paytoaddress)
        && bool_decide (is_Some (tao_address out0)) && same (tao_address_n out0) []
        && (tao_amount out1 =? 10000)%Z
        && same (tao_script_type out1) (Some OutputScriptType.Paytowitness)
        && same (tao_address out1) None
        && same (tao_address_n out1) [hard 84; hard 1; hard 0; 1; 0]%Z).

Lemma bitcoin_test_passes addr :
  address_from_script wpkh NetTestnet = inr addr -> passes maps_bip84_input_and_outputs.
Proof.
  intros Ha. unfold passes, maps_bip84_input_and_outputs.
  assert (build_output_ack test_psbt 0 NetTestnet
    = Ret {| tao_address := Some addr; tao_address_n := []; tao_amount := 50000;
             tao_script_type := Some OutputScriptType.Paytoaddress |}) as ->.
  { unfold build_output_ack, test_psbt, from_unsigned_tx. cbn. by rewrite Ha. }
  vm_compute. reflexivity.
Qed.
End Bitcoin.
