(* ===== verification/MessageTypes.v ===== *)
(** * The message numbers of the vendored protocol files (proto/messages.proto)

    The two enums that number the messages on the wire, and the agreement of the numbers
    written out in the modules of the crate with them. The Rust enums are generated from these
    files at build time. *)

From S2P Require Import Prelude Types.
From S2P Require Import Ethereum Solana Tron Bitcoin Connection Pairing.

Module MessageType.
(** ** MessageType (messages.proto) *)
Inductive message_type : Type :=
  | Initialize | Ping | Success | Failure | ChangePin | WipeDevice | GetEntropy | Entropy
  | LoadDevice | ResetDevice | SetBusy | Features | PinMatrixRequest | PinMatrixAck
  | Cancel | LockDevice | ApplySettings | ButtonRequest | ButtonAck | ApplyFlags | GetNonce
  | Nonce | BackupDevice | EntropyRequest | EntropyAck | PaymentRequest | EntropyCheckReady
  | EntropyCheckContinue | PassphraseRequest | PassphraseAck | RecoveryDevice | WordRequest
  | WordAck | GetFeatures | SdProtect | ChangeWipeCode | EndSession | DoPreauthorized
  | PreauthorizedRequest | CancelAuthorization | RebootToBootloader | GetFirmwareHash
  | FirmwareHash | UnlockPath | UnlockedPathRequest | ShowDeviceTutorial | UnlockBootloader
  | AuthenticateDevice | AuthenticityProof | AuthenticityProofSizes | ChangeLanguage
  | DataChunkRequest | DataChunkAck | SetBrightness | GetSerialNumber | SerialNumber
  | GetAuthenticityProofChunk | AuthenticityProofChunk | SetU2FCounter | GetNextU2FCounter
  | NextU2FCounter | Deprecated_PassphraseStateRequest | Deprecated_PassphraseStateAck
  | FirmwareErase | FirmwareUpload | FirmwareRequest | ProdTestT1 | BleUnpair
  | GetPublicKey | PublicKey | SignTx | TxRequest | TxAck | GetAddress | Address
  | SignMessage | VerifyMessage | MessageSignature | GetOwnershipId | OwnershipId
  | GetOwnershipProof | OwnershipProof | AuthorizeCoinJoin | CipherKeyValue
  | CipheredKeyValue | SignIdentity | SignedIdentity | GetECDHSessionKey | ECDHSessionKey
  | PaymentNotification | DebugLinkDecision | DebugLinkGetState | DebugLinkState
  | DebugLinkStop | DebugLinkLog | DebugLinkMemoryRead | DebugLinkMemory
  | DebugLinkMemoryWrite | DebugLinkFlashErase | DebugLinkLayout | DebugLinkReseedRandom
  | DebugLinkRecordScreen | DebugLinkEraseSdCard | DebugLinkWatchLayout
  | DebugLinkResetDebugEvents | DebugLinkOptigaSetSecMax | DebugLinkGetGcInfo
  | DebugLinkGcInfo | DebugLinkGetPairingInfo | DebugLinkPairingInfo
  | DebugLinkSetLogFilter | DebugLinkN4W1Connected | DebugLinkN4W1Write | DebugLinkN4W1Read
  | DebugLinkN4W1Response | DebugLinkSetBatteryState | EthereumGetPublicKey
  | EthereumPublicKey | EthereumGetAddress | EthereumAddress | EthereumSignTx
  | EthereumSignTxEIP1559 | EthereumTxRequest | EthereumTxAck | EthereumSignMessage
  | EthereumVerifyMessage | EthereumMessageSignature | EthereumSignTypedData
  | EthereumTypedDataStructRequest | EthereumTypedDataStructAck
  | EthereumTypedDataValueRequest | EthereumTypedDataValueAck | EthereumTypedDataSignature
  | EthereumSignTypedHash | EthereumDefinitionRequest | EthereumDefinitionAck
  | NEMGetAddress | NEMAddress | NEMSignTx | NEMSignedTx | NEMDecryptMessage
  | NEMDecryptedMessage | LiskGetAddress | LiskAddress | LiskSignTx | LiskSignedTx
  | LiskSignMessage | LiskMessageSignature | LiskVerifyMessage | LiskGetPublicKey
  | LiskPublicKey | TezosGetAddress | TezosAddress | TezosSignTx | TezosSignedTx
  | TezosGetPublicKey | TezosPublicKey | StellarSignTx | StellarTxOpRequest
  | StellarGetAddress | StellarAddress | StellarCreateAccountOp | StellarPaymentOp
  | StellarPathPaymentStrictReceiveOp | StellarManageSellOfferOp
  | StellarCreatePassiveSellOfferOp | StellarSetOptionsOp | StellarChangeTrustOp
  | StellarAllowTrustOp | StellarAccountMergeOp | StellarManageDataOp
  | StellarBumpSequenceOp | StellarManageBuyOfferOp | StellarPathPaymentStrictSendOp
  | StellarClaimClaimableBalanceOp | StellarSignedTx | CardanoGetPublicKey
  | CardanoPublicKey | CardanoGetAddress | CardanoAddress | CardanoTxItemAck
  | CardanoTxAuxiliaryDataSupplement | CardanoTxWitnessRequest | CardanoTxWitnessResponse
  | CardanoTxHostAck | CardanoTxBodyHash | CardanoSignTxFinished | CardanoSignTxInit
  | CardanoTxInput | CardanoTxOutput | CardanoAssetGroup | CardanoToken
  | CardanoTxCertificate | CardanoTxWithdrawal | CardanoTxAuxiliaryData | CardanoPoolOwner
  | CardanoPoolRelayParameters | CardanoGetNativeScriptHash | CardanoNativeScriptHash
  | CardanoTxMint | CardanoTxCollateralInput | CardanoTxRequiredSigner
  | CardanoTxInlineDatumChunk | CardanoTxReferenceScriptChunk | CardanoTxReferenceInput
  | CardanoSignMessageInit | CardanoMessageDataRequest | CardanoMessageDataResponse
  | CardanoMessageSignature | RippleGetAddress | RippleAddress | RippleSignTx
  | RippleSignedTx | MoneroTransactionInitRequest | MoneroTransactionInitAck
  | MoneroTransactionSetInputRequest | MoneroTransactionSetInputAck
  | MoneroTransactionInputViniRequest | MoneroTransactionInputViniAck
  | MoneroTransactionAllInputsSetRequest | MoneroTransactionAllInputsSetAck
  | MoneroTransactionSetOutputRequest | MoneroTransactionSetOutputAck
  | MoneroTransactionAllOutSetRequest | MoneroTransactionAllOutSetAck
  | MoneroTransactionSignInputRequest | MoneroTransactionSignInputAck
  | MoneroTransactionFinalRequest | MoneroTransactionFinalAck
  | MoneroKeyImageExportInitRequest | MoneroKeyImageExportInitAck
  | MoneroKeyImageSyncStepRequest | MoneroKeyImageSyncStepAck
  | MoneroKeyImageSyncFinalRequest | MoneroKeyImageSyncFinalAck | MoneroGetAddress
  | MoneroAddress | MoneroGetWatchKey | MoneroWatchKey | DebugMoneroDiagRequest
  | DebugMoneroDiagAck | MoneroGetTxKeyRequest | MoneroGetTxKeyAck
  | MoneroLiveRefreshStartRequest | MoneroLiveRefreshStartAck
  | MoneroLiveRefreshStepRequest | MoneroLiveRefreshStepAck | MoneroLiveRefreshFinalRequest
  | MoneroLiveRefreshFinalAck | EosGetPublicKey | EosPublicKey | EosSignTx
  | EosTxActionRequest | EosTxActionAck | EosSignedTx | WebAuthnListResidentCredentials
  | WebAuthnCredentials | WebAuthnAddResidentCredential | WebAuthnRemoveResidentCredential
  | WebAuthnCredentialsAck | SolanaGetPublicKey | SolanaPublicKey | SolanaGetAddress
  | SolanaAddress | SolanaSignTx | SolanaTxSignature | SolanaSignMessage
  | SolanaMessageSignature | SolanaVerifyMessage | ThpCreateNewSession
  | ThpCredentialRequest | ThpCredentialResponse | NostrGetPubkey | NostrPubkey
  | NostrSignEvent | NostrEventSignature | EvoluGetNode | EvoluNode
  | EvoluSignRegistrationRequest | EvoluRegistrationRequest | EvoluGetDelegatedIdentityKey
  | EvoluDelegatedIdentityKey | EvoluIndexManagement | EvoluIndexManagementResponse
  | TronGetAddress | TronAddress | TronSignTx | TronSignature | TronContractRequest
  | TronTransferContract | TronTriggerSmartContract | TronFreezeBalanceV2Contract
  | TronUnfreezeBalanceV2Contract | TronWithdrawUnfreeze | TronVoteWitnessContract
  | BenchmarkListNames | BenchmarkNames | BenchmarkRun | BenchmarkResult | TelemetryGet
  | Telemetry.

Definition message_type_number (m : message_type) : Z :=
  match m with
  | Initialize => 0 | Ping => 1 | Success => 2 | Failure => 3 | ChangePin => 4
  | WipeDevice => 5 | GetEntropy => 9 | Entropy => 10 | LoadDevice => 13
  | ResetDevice => 14 | SetBusy => 16 | Features => 17 | PinMatrixRequest => 18
  | PinMatrixAck => 19 | Cancel => 20 | LockDevice => 24 | ApplySettings => 25
  | ButtonRequest => 26 | ButtonAck => 27 | ApplyFlags => 28 | GetNonce => 31 | Nonce => 33
  | BackupDevice => 34 | EntropyRequest => 35 | EntropyAck => 36 | PaymentRequest => 37
  | EntropyCheckReady => 994 | EntropyCheckContinue => 995 | PassphraseRequest => 41
  | PassphraseAck => 42 | RecoveryDevice => 45 | WordRequest => 46 | WordAck => 47
  | GetFeatures => 55 | SdProtect => 79 | ChangeWipeCode => 82 | EndSession => 83
  | DoPreauthorized => 84 | PreauthorizedRequest => 85 | CancelAuthorization => 86
  | RebootToBootloader => 87 | GetFirmwareHash => 88 | FirmwareHash => 89
  | UnlockPath => 93 | UnlockedPathRequest => 94 | ShowDeviceTutorial => 95
  | UnlockBootloader => 96 | AuthenticateDevice => 97 | AuthenticityProof => 98
  | AuthenticityProofSizes => 99 | ChangeLanguage => 990 | DataChunkRequest => 991
  | DataChunkAck => 992 | SetBrightness => 993 | GetSerialNumber => 996
  | SerialNumber => 997 | GetAuthenticityProofChunk => 998 | AuthenticityProofChunk => 999
  | SetU2FCounter => 63 | GetNextU2FCounter => 80 | NextU2FCounter => 81
  | Deprecated_PassphraseStateRequest => 77 | Deprecated_PassphraseStateAck => 78
  | FirmwareErase => 6 | FirmwareUpload => 7 | FirmwareRequest => 8 | ProdTestT1 => 32
  | BleUnpair => 8001 | GetPublicKey => 11 | PublicKey => 12 | SignTx => 15
  | TxRequest => 21 | TxAck => 22 | GetAddress => 29 | Address => 30 | SignMessage => 38
  | VerifyMessage => 39 | MessageSignature => 40 | GetOwnershipId => 43 | OwnershipId => 44
  | GetOwnershipProof => 49 | OwnershipProof => 50 | AuthorizeCoinJoin => 51
  | CipherKeyValue => 23 | CipheredKeyValue => 48 | SignIdentity => 53
  | SignedIdentity => 54 | GetECDHSessionKey => 61 | ECDHSessionKey => 62
  | PaymentNotification => 52 | DebugLinkDecision => 100 | DebugLinkGetState => 101
  | DebugLinkState => 102 | DebugLinkStop => 103 | DebugLinkLog => 104
  | DebugLinkMemoryRead => 110 | DebugLinkMemory => 111 | DebugLinkMemoryWrite => 112
  | DebugLinkFlashErase => 113 | DebugLinkLayout => 9001 | DebugLinkReseedRandom => 9002
  | DebugLinkRecordScreen => 9003 | DebugLinkEraseSdCard => 9005
  | DebugLinkWatchLayout => 9006 | DebugLinkResetDebugEvents => 9007
  | DebugLinkOptigaSetSecMax => 9008 | DebugLinkGetGcInfo => 9009 | DebugLinkGcInfo => 9010
  | DebugLinkGetPairingInfo => 9011 | DebugLinkPairingInfo => 9012
  | DebugLinkSetLogFilter => 9013 | DebugLinkN4W1Connected => 9014
  | DebugLinkN4W1Write => 9015 | DebugLinkN4W1Read => 9016 | DebugLinkN4W1Response => 9017
  | DebugLinkSetBatteryState => 9018 | EthereumGetPublicKey => 450
  | EthereumPublicKey => 451 | EthereumGetAddress => 56 | EthereumAddress => 57
  | EthereumSignTx => 58 | EthereumSignTxEIP1559 => 452 | EthereumTxRequest => 59
  | EthereumTxAck => 60 | EthereumSignMessage => 64 | EthereumVerifyMessage => 65
  | EthereumMessageSignature => 66 | EthereumSignTypedData => 464
  | EthereumTypedDataStructRequest => 465 | EthereumTypedDataStructAck => 466
  | EthereumTypedDataValueRequest => 467 | EthereumTypedDataValueAck => 468
  | EthereumTypedDataSignature => 469 | EthereumSignTypedHash => 470
  | EthereumDefinitionRequest => 471 | EthereumDefinitionAck => 472 | NEMGetAddress => 67
  | NEMAddress => 68 | NEMSignTx => 69 | NEMSignedTx => 70 | NEMDecryptMessage => 75
  | NEMDecryptedMessage => 76 | LiskGetAddress => 114 | LiskAddress => 115
  | LiskSignTx => 116 | LiskSignedTx => 117 | LiskSignMessage => 118
  | LiskMessageSignature => 119 | LiskVerifyMessage => 120 | LiskGetPublicKey => 121
  | LiskPublicKey => 122 | TezosGetAddress => 150 | TezosAddress => 151
  | TezosSignTx => 152 | TezosSignedTx => 153 | TezosGetPublicKey => 154
  | TezosPublicKey => 155 | StellarSignTx => 202 | StellarTxOpRequest => 203
  | StellarGetAddress => 207 | StellarAddress => 208 | StellarCreateAccountOp => 210
  | StellarPaymentOp => 211 | StellarPathPaymentStrictReceiveOp => 212
  | StellarManageSellOfferOp => 213 | StellarCreatePassiveSellOfferOp => 214
  | StellarSetOptionsOp => 215 | StellarChangeTrustOp => 216 | StellarAllowTrustOp => 217
  | StellarAccountMergeOp => 218 | StellarManageDataOp => 220
  | StellarBumpSequenceOp => 221 | StellarManageBuyOfferOp => 222
  | StellarPathPaymentStrictSendOp => 223 | StellarClaimClaimableBalanceOp => 225
  | StellarSignedTx => 230 | CardanoGetPublicKey => 305 | CardanoPublicKey => 306
  | CardanoGetAddress => 307 | CardanoAddress => 308 | CardanoTxItemAck => 313
  | CardanoTxAuxiliaryDataSupplement => 314 | CardanoTxWitnessRequest => 315
  | CardanoTxWitnessResponse => 316 | CardanoTxHostAck => 317 | CardanoTxBodyHash => 318
  | CardanoSignTxFinished => 319 | CardanoSignTxInit => 320 | CardanoTxInput => 321
  | CardanoTxOutput => 322 | CardanoAssetGroup => 323 | CardanoToken => 324
  | CardanoTxCertificate => 325 | CardanoTxWithdrawal => 326
  | CardanoTxAuxiliaryData => 327 | CardanoPoolOwner => 328
  | CardanoPoolRelayParameters => 329 | CardanoGetNativeScriptHash => 330
  | CardanoNativeScriptHash => 331 | CardanoTxMint => 332 | CardanoTxCollateralInput => 333
  | CardanoTxRequiredSigner => 334 | CardanoTxInlineDatumChunk => 335
  | CardanoTxReferenceScriptChunk => 336 | CardanoTxReferenceInput => 337
  | CardanoSignMessageInit => 338 | CardanoMessageDataRequest => 339
  | CardanoMessageDataResponse => 340 | CardanoMessageSignature => 341
  | RippleGetAddress => 400 | RippleAddress => 401 | RippleSignTx => 402
  | RippleSignedTx => 403 | MoneroTransactionInitRequest => 501
  | MoneroTransactionInitAck => 502 | MoneroTransactionSetInputRequest => 503
  | MoneroTransactionSetInputAck => 504 | MoneroTransactionInputViniRequest => 507
  | MoneroTransactionInputViniAck => 508 | MoneroTransactionAllInputsSetRequest => 509
  | MoneroTransactionAllInputsSetAck => 510 | MoneroTransactionSetOutputRequest => 511
  | MoneroTransactionSetOutputAck => 512 | MoneroTransactionAllOutSetRequest => 513
  | MoneroTransactionAllOutSetAck => 514 | MoneroTransactionSignInputRequest => 515
  | MoneroTransactionSignInputAck => 516 | MoneroTransactionFinalRequest => 517
  | MoneroTransactionFinalAck => 518 | MoneroKeyImageExportInitRequest => 530
  | MoneroKeyImageExportInitAck => 531 | MoneroKeyImageSyncStepRequest => 532
  | MoneroKeyImageSyncStepAck => 533 | MoneroKeyImageSyncFinalRequest => 534
  | MoneroKeyImageSyncFinalAck => 535 | MoneroGetAddress => 540 | MoneroAddress => 541
  | MoneroGetWatchKey => 542 | MoneroWatchKey => 543 | DebugMoneroDiagRequest => 546
  | DebugMoneroDiagAck => 547 | MoneroGetTxKeyRequest => 550 | MoneroGetTxKeyAck => 551
  | MoneroLiveRefreshStartRequest => 552 | MoneroLiveRefreshStartAck => 553
  | MoneroLiveRefreshStepRequest => 554 | MoneroLiveRefreshStepAck => 555
  | MoneroLiveRefreshFinalRequest => 556 | MoneroLiveRefreshFinalAck => 557
  | EosGetPublicKey => 600 | EosPublicKey => 601 | EosSignTx => 602
  | EosTxActionRequest => 603 | EosTxActionAck => 604 | EosSignedTx => 605
  | WebAuthnListResidentCredentials => 800 | WebAuthnCredentials => 801
  | WebAuthnAddResidentCredential => 802 | WebAuthnRemoveResidentCredential => 803
  | WebAuthnCredentialsAck => 804 | SolanaGetPublicKey => 900 | SolanaPublicKey => 901
  | SolanaGetAddress => 902 | SolanaAddress => 903 | SolanaSignTx => 904
  | SolanaTxSignature => 905 | SolanaSignMessage => 906 | SolanaMessageSignature => 907
  | SolanaVerifyMessage => 908 | ThpCreateNewSession => 1000 | ThpCredentialRequest => 1016
  | ThpCredentialResponse => 1017 | NostrGetPubkey => 2001 | NostrPubkey => 2002
  | NostrSignEvent => 2003 | NostrEventSignature => 2004 | EvoluGetNode => 2100
  | EvoluNode => 2101 | EvoluSignRegistrationRequest => 2102
  | EvoluRegistrationRequest => 2103 | EvoluGetDelegatedIdentityKey => 2104
  | EvoluDelegatedIdentityKey => 2105 | EvoluIndexManagement => 2106
  | EvoluIndexManagementResponse => 2107 | TronGetAddress => 2200 | TronAddress => 2201
  | TronSignTx => 2202 | TronSignature => 2203 | TronContractRequest => 2204
  | TronTransferContract => 2205 | TronTriggerSmartContract => 2206
  | TronFreezeBalanceV2Contract => 2207 | TronUnfreezeBalanceV2Contract => 2208
  | TronWithdrawUnfreeze => 2209 | TronVoteWitnessContract => 2210
  | BenchmarkListNames => 9100 | BenchmarkNames => 9101 | BenchmarkRun => 9102
  | BenchmarkResult => 9103 | TelemetryGet => 1100 | Telemetry => 1101
  end.
End MessageType.

Module ThpMessageType.
(** ** ThpMessageType (messages-thp.proto) *)
Inductive thp_message_type : Type :=
  | Cancel | ButtonRequest | ButtonAck | ThpPairingRequest | ThpPairingRequestApproved
  | ThpSelectMethod | ThpPairingPreparationsFinished | ThpCredentialRequest
  | ThpCredentialResponse | ThpEndRequest | ThpEndResponse | ThpCodeEntryCommitment
  | ThpCodeEntryChallenge | ThpCodeEntryCpaceTrezor | ThpCodeEntryCpaceHostTag
  | ThpCodeEntrySecret | ThpQrCodeTag | ThpQrCodeSecret | ThpNfcTagHost | ThpNfcTagTrezor.

Definition thp_message_type_number (m : thp_message_type) : Z :=
  match m with
  | Cancel => 20 | ButtonRequest => 26 | ButtonAck => 27 | ThpPairingRequest => 1008
  | ThpPairingRequestApproved => 1009 | ThpSelectMethod => 1010
  | ThpPairingPreparationsFinished => 1011 | ThpCredentialRequest => 1016
  | ThpCredentialResponse => 1017 | ThpEndRequest => 1018 | ThpEndResponse => 1019
  | ThpCodeEntryCommitment => 1024 | ThpCodeEntryChallenge => 1025
  | ThpCodeEntryCpaceTrezor => 1026 | ThpCodeEntryCpaceHostTag => 1027
  | ThpCodeEntrySecret => 1028 | ThpQrCodeTag => 1032 | ThpQrCodeSecret => 1033
  | ThpNfcTagHost => 1040 | ThpNfcTagTrezor => 1041
  end.
End ThpMessageType.

(** ** proto.rs *)
Definition message_type_wire_numbers_match_spec : bool :=
  forallb (fun '(m, n) => (MessageType.message_type_number m =? n)%Z)
    [(MessageType.Initialize, 0); (MessageType.Features, 17); (MessageType.GetFeatures, 55);
     (MessageType.GetPublicKey, 11); (MessageType.EthereumGetAddress, 56);
     (MessageType.SolanaGetAddress, 902); (MessageType.TronGetAddress, 2200)]%Z.

Example wire_numbers_test_passes : message_type_wire_numbers_match_spec = true.
Proof. reflexivity. Qed.

(** ** The numbers in the code *)
(** A message of either enum; on the wire they share one space of numbers. *)
Definition wire_message : Type := MessageType.message_type + ThpMessageType.thp_message_type.
Definition wire_number (m : wire_message) : Z :=
  match m with
  | inl m => MessageType.message_type_number m
  | inr m => ThpMessageType.thp_message_type_number m
  end.

(** Each constant of the crate with the message its module uses it for. *)
Definition code_numbers : list (Z * wire_message) :=
  (* thp/connection.rs *)
  [(MSG_SUCCESS, inl MessageType.Success); (MSG_FAILURE, inl MessageType.Failure);
   (MSG_BUTTON_REQUEST, inl MessageType.ButtonRequest);
   (MSG_BUTTON_ACK, inl MessageType.ButtonAck);
   (MSG_CREATE_NEW_SESSION, inl MessageType.ThpCreateNewSession);
  (* thp/pairing.rs *)
   (T_PAIRING_REQUEST, inr ThpMessageType.ThpPairingRequest);
   (T_PAIRING_REQUEST_APPROVED, inr ThpMessageType.ThpPairingRequestApproved);
   (T_SELECT_METHOD, inr ThpMessageType.ThpSelectMethod);
   (T_CREDENTIAL_REQUEST, inr ThpMessageType.ThpCredentialRequest);
   (T_CREDENTIAL_RESPONSE, inr ThpMessageType.ThpCredentialResponse);
   (T_END_REQUEST, inr ThpMessageType.ThpEndRequest);
   (T_END_RESPONSE, inr ThpMessageType.ThpEndResponse);
   (T_CODE_ENTRY_COMMITMENT, inr ThpMessageType.ThpCodeEntryCommitment);
   (T_CODE_ENTRY_CHALLENGE, inr ThpMessageType.ThpCodeEntryChallenge);
   (T_CODE_ENTRY_CPACE_TREZOR, inr ThpMessageType.ThpCodeEntryCpaceTrezor);
   (T_CODE_ENTRY_CPACE_HOST_TAG, inr ThpMessageType.ThpCodeEntryCpaceHostTag);
   (T_CODE_ENTRY_SECRET, inr ThpMessageType.ThpCodeEntrySecret);
   (MGMT_GET_FEATURES, inl MessageType.GetFeatures); (MGMT_FEATURES, inl MessageType.Features);
  (* chains/bitcoin.rs *)
   (BTC_GET_PUBLIC_KEY, inl MessageType.GetPublicKey); (BTC_PUBLIC_KEY, inl MessageType.PublicKey);
   (BTC_SIGN_TX, inl MessageType.SignTx); (BTC_TX_REQUEST, inl MessageType.TxRequest);
   (BTC_TX_ACK, inl MessageType.TxAck); (BTC_SIGN_MESSAGE, inl MessageType.SignMessage);
   (BTC_MESSAGE_SIGNATURE, inl MessageType.MessageSignature);
  (* chains/ethereum.rs *)
   (ETH_GET_ADDRESS, inl MessageType.EthereumGetAddress);
   (ETH_ADDRESS, inl MessageType.EthereumAddress);
   (ETH_GET_PUBLIC_KEY, inl MessageType.EthereumGetPublicKey);
   (ETH_PUBLIC_KEY, inl MessageType.EthereumPublicKey);
   (ETH_SIGN_MESSAGE, inl MessageType.EthereumSignMessage);
   (ETH_MESSAGE_SIGNATURE, inl MessageType.EthereumMessageSignature);
   (ETH_SIGN_TX_EIP1559, inl MessageType.EthereumSignTxEIP1559);
   (ETH_TX_REQUEST, inl MessageType.EthereumTxRequest);
  (* chains/solana.rs *)
   (SOL_GET_ADDRESS, inl MessageType.SolanaGetAddress);
   (SOL_ADDRESS, inl MessageType.SolanaAddress); (SOL_SIGN_TX, inl MessageType.SolanaSignTx);
   (SOL_TX_SIGNATURE, inl MessageType.SolanaTxSignature);
   (SOL_SIGN_MESSAGE, inl MessageType.SolanaSignMessage);
   (SOL_MESSAGE_SIGNATURE, inl MessageType.SolanaMessageSignature);
  (* chains/tron.rs *)
   (TRON_GET_ADDRESS, inl MessageType.TronGetAddress); (TRON_ADDRESS, inl MessageType.TronAddress);
   (TRON_SIGN_TX, inl MessageType.TronSignTx); (TRON_SIGNATURE, inl MessageType.TronSignature);
   (TRON_CONTRACT_REQUEST, inl MessageType.TronContractRequest);
   (TRON_TRANSFER_CONTRACT, inl MessageType.TronTransferContract);
   (TRON_TRIGGER_SMART_CONTRACT, inl MessageType.TronTriggerSmartContract)].

(** Every number the code sends or expects is the one the vendored files assign to the
    message; it fits the two bytes of the application header. *)
Lemma code_numbers_agree :
  Forall (fun '(n, m) => n = wire_number m /\ (0 <= n < 2 ^ 16)%Z) code_numbers.
Proof. repeat constructor; reflexivity || discriminate. Qed.

(** And no two of them share a number, so a reply is told apart by its number alone. *)
Lemma code_numbers_distinct : NoDup (fst <$> code_numbers).
Proof. by apply (bool_decide_unpack _). Qed.
